(* ===== verification/_CoqProject ===== *)
-Q . S2P
Prelude.v
RustStd.v
Text.v
Proto.v
Effect.v
IpAddr.v
Extern.v
Concrete.v
Metrics.v
Response.v
Protocol.v
Adapter.v
ResponseMode.v
State.v
Pipeline.v
Handlers.v
Server.v
Errors.v
Tls.v
TlsIncoming.v
Config.v
Fips.v
MetricsServer.v
MetricsLoop.v
GrpcLimits.v
Main.v
Health.v
Sse.v
Supervisor.v
Lifecycle.v
Invariant.v
StreamInv.v
Stream.v
Contracts.v
Translation.v
Guarantees.v
StreamTask.v
Answers.v
Budget.v
Replies.v
Runs.v
Lockstep.v
Accounting.v
Frames.v
Marks.v
Continuity.v
Delivery.v
LocalReply.v
Override.v
Released.v
Streaming.v
Findings.v
Report.v
Environment.v
Graph.v
Guards.v
Binary.v
FipsReport.v
HostCheck.v
BodyOracle.v
RuntimeProbe.v
Xtask.v
