(* ===== verification/Prelude.v ===== *)
(** * praxis-extproc: guide to the development, and the prelude

    praxis-extproc is an Envoy external-processing (ext_proc) server: Envoy opens one gRPC
    stream per HTTP exchange and sends it headers, body chunks and trailers; the server runs
    a Praxis filter pipeline on them and answers each message with mutations, a streamed body,
    or an immediate response that replaces the exchange. Around the stream loop there is a
    process: configuration and its validation, TLS, FIPS mode, a metrics endpoint guarded by
    two Kubernetes reviews, health statuses, and a supervisor that drains and stops it all.

    ** Files and the code they model (paths under src/)

    - [Prelude]: this guide; bytes, integer bounds, [result] and [let!], tactics and hints.
    - [RustStd], [IpAddr], [Text]: what the code uses of Rust's standard library, on UTF-8 bytes;
      [Text] has the text operations of the build auditor.
    - [Proto]: the protobuf messages (proto/proto/ext_proc.proto, envoy_common.proto).
    - [Effect]: gRPC statuses, trace events, and the monad [M] of the handlers: the stream's
      state and a [Glob] (the filters' environment, the trace, the warn-once flag) are
      threaded; an error keeps the state, as [&mut] does. [wp] is its weakest precondition and
      [wp_step] the tactic that runs it.
    - [Extern]: the crates the server calls, as classes of operations ([HttpLib],
      [PraxisFilter], [SerdeYaml]), and classes of laws ([HttpLaws], [PraxisFilterLaws]) with
      the documented behaviour some theorems use. [Concrete] gives instances of all of them.
    - [Metrics] (src/metrics.rs, the recording half): counters as trace events.
    - [Response] (src/response.rs): response builders and the full-duplex chunking loop.
    - [Protocol] (src/protocol.rs): [ProtocolConfig], [PhaseOrderTracker], [EosTracker].
    - [Adapter] (src/adapter.rs): Envoy headers to Praxis requests and responses, header
      mutations back, rejections, the trusted client address.
    - [ResponseMode] (src/response_mode.rs): may a response be streamed past the guardrails.
    - [State] (src/server.rs): [StreamState], and the context filters carry between phases.
    - [Pipeline] (src/pipeline.rs): running the filters, assembling what they answered.
    - [Handlers] (src/handlers.rs): one definition per message handler.
    - [Server] (src/server.rs): protocol configuration, dispatch, the loop over a stream.
    - [StreamTask] (src/server.rs, [process]): the task spawned for a stream, with its bounded
      response channel, its client and the force-shutdown latch, as a step function.
    - [Errors] (src/error.rs), [Tls] and [TlsIncoming] (src/tls.rs), [Config] (src/config.rs), [Fips]
      (src/fips.rs), [MetricsServer] (src/metrics.rs, the endpoint), [GrpcLimits]
      (src/grpc_limits.rs), [Health] (src/health.rs): the parts of the process. Each takes what
      it calls outside the repository as a class: [OpenSsl], [PipelineBuilder],
      [CryptoProvider], [KubeApi].
    - [Main] (src/bin/praxis_extproc.rs, [run] up to the services it starts): a [Plan] of the
      services, or the error, over a [Host] class of files and environment; [comes_up] follows a
      plan to its open listeners, over what the host then gives ([Bringup]).
    - [Supervisor] (the rest of that file): [run_with_sidecars], [serve_bounded],
      [shutdown_with_deadline] as a state machine with an executable step [fire].
    - [Lifecycle] (the same file, [main], [run_command], [shutdown_signal]): the process from its
      command line to its exit status: it launches what [Main.run] returns, and steps through
      signals, [Supervisor.fire] and [Sse.sse_fire].
    - [MetricsLoop] (src/metrics.rs, [accept_loop], [serve_connection]): connections of the metrics
      server, with scrapes interleaving at their two calls of the API server.
    - [Invariant], [StreamInv], [Stream]: specifications of every pipeline function and handler
      in the [wp] of [Effect], the invariant of a stream, and its consequences for the loop.
    - [Answers], [Budget], [Replies], [Lockstep]: which responses a handler can give to a message,
      the header responses a side of the exchange has left, handler by handler and for a
      stream, and which messages get one reply of their own kind.
    - [Accounting]: what each handler may record as it succeeds or fails, and the counts of a stream.
    - [Runs]: the rule by which what every message keeps holds at the end of a stream, and what the
      stream announced.
    - [Continuity]: triples over the context slot, the environment and the calls; the calls of a
      stream as a chain.
    - [Frames], [Delivery], [Streaming]: what the handlers leave alone of the state; which bytes
      and end-of-stream flags they deliver to a side in full-duplex mode; and, in streamed mode,
      which response each chunk gets and what Envoy then forwards.
    - [Marks]: what the messages of a stream say of the tracker, so that theorems about whole
      streams are stated on the messages; [Released], [LocalReply], [Override]: which headers are
      answered, how a local reply is passed through, and when the response mode is overridden,
      over whole streams.
    - [Contracts], [Translation], [Guarantees], [Findings]: the other properties of the stream half.
    - [Report], [Environment], [Graph], [Guards], [Binary], [FipsReport] (xtask/src/fips, the
      report of the build auditor, section by section), [HostCheck] (host_check.rs and
      certified.rs), [RuntimeProbe] (runtime_probe.rs): cargo, podman, openssl, ldd, the [object]
      crate, the file system and the escapes of [{:?}] are classes of operations.
    - [Xtask] (xtask/src/main.rs, fips.rs): the dispatch of the developer command to these tasks.
    - [BodyOracle] (src/e2e/body_oracle.rs): the test filter that publishes a body's digest.
    - [Sse] (src/e2e/sse_backend.rs): the gated test backend, over a class for tokio's [Notify].

    ** How the parts interact

    [Server.process_messages] consumes the list of what the inbound gRPC stream yields. Each
    message is checked ([Protocol.validate_body_message], [Protocol.check_and_advance]) and
    dispatched to a handler. A handler marks its phase in the [EosTracker], then echoes the body,
    accumulates it, or runs a pipeline function, which hydrates a filter context from the
    [StreamState], calls the filters, writes back what they did, and dehydrates. The first
    immediate response ends the stream. A stream that opens with a response message is a local
    reply of Envoy's and never reaches the filters.

    That loop is the sequential reading of a task. [StreamTask] runs the same steps against a
    client and a latch, and proves that what the client gets is a prefix of what the loop
    returns, so what is proved of [handle_stream] holds of the running service.

    [Main.run] composes [Config], [Tls], [Fips], [GrpcLimits] and [MetricsServer] in the order
    of the source; the [Plan] it returns is what [Supervisor] then runs, and [Lifecycle] is the
    composition of the two with the signals and the exit status.

    ** What the theorems show

    - Of every stream, with arbitrary filters, inbound messages and response channel
      ([Guarantees]): filters run at most once per phase, an immediate response is the last
      message, only filters and transport can cause an internal error, buffers stay within the
      limit while bytes arrive, the missing-headers branches are dead; local replies are passed
      through unchanged ([LocalReply]); messages are answered in kind, headers at most once
      ([Replies]), and exactly once unless full-duplex mode holds them and nothing released them
      ([Released]); the response mode is overridden exactly when that may be, with exactly the mode
      to ask for ([Override]); outside full-duplex mode the responses are, in order, one reply of
      its own kind for each message, but for the chunks of a held body ([Lockstep]); every
      filter call starts from what the one before it left ([Continuity]); in full-duplex mode the bytes delivered in a
      side's body are the bytes received, or what a call of the filters on the whole of them left,
      with the end-of-stream flag that was received ([Delivery]); in streamed mode each chunk is forwarded
      as it came or as a call of the filters made it, a buffered response in one piece with its
      last chunk ([Streaming]); streams, refusals and local replies
      are counted exactly ([Accounting]); and the concurrent task refines the loop and cannot be
      held by its client ([StreamTask]).
    - Of the handlers in any state ([Contracts], [Findings]): cutting a body into messages
      changes nothing, unread bodies pass through unaltered, oversized ones get a 413, ambiguous
      guardrail selections are refused before any filter runs; and two exchanges in which trailers leave a message without its answer.
    - Of the data ([Response], [Adapter], [Translation], [ResponseMode], [Protocol],
      [GrpcLimits]): the chunks of a body concatenate to it, the header mutation applied to the
      original headers gives the filtered ones, headers survive conversion, the client address
      cannot be spoofed, a streamed response bypasses no guardrail, the phase order accepts
      exactly the protocol's sequences, quantities are read exactly and rounded up.
    - Of the process ([Main], [Tls], [Config], [MetricsLoop], [Supervisor], [Lifecycle]):
      [--validate] predicts serving up to what the host provides, what is served is what was
      configured, FIPS fails closed, metrics need both reviews however scrapes interleave, the
      supervisor returns the originating outcome, the health statuses set for a purpose are true, a
      signal ends serving within the configured drain timeout, and the process once the health
      server has ended, which nothing bounds; its exit status is earned, and stalled TLS clients
      free their slots.
    - Of the build and test tools ([FipsReport], [HostCheck], [RuntimeProbe], [BodyOracle],
      [Sse]): the report passes exactly the builds its policy allows, whose leniencies are named, the attestation exactly the
      hosts that meet its requirements, the probe ends with the evidence it claims and cleans up
      after itself, a published digest is that of the whole body, and the gated backend ends no
      stream before its release.

    ** Bounds and fuel

    - [usize] is 64 bits wide; [u128] arithmetic in [GrpcLimits] is checked as in the source.
    - [Response.streamed_loop] has fuel one more than the body's length; each round advances
      the offset by at least one byte, since the chunk limit is positive
      ([Response.streamed_loop_spec] proves the result complete).
    - [RustStd.trim_with], [utf8_valid_go] and [lossy_go] have the length of their input as
      fuel and consume at least a byte per round; [digits_rev] has one more
      than the integer's binary logarithm, at least its digits ([RustStd.digits_rev_spec]); [Tls.protocols_go] has the length
      of the ALPN list.
    - [RuntimeProbe.wait_loop] runs at most [WAIT_ROUNDS] = 151 rounds: each sleeps 200 ms of a
      deadline of 30 s ([RuntimeProbe.probe_ends_with_evidence] proves it ends within them).
    - Everything else is structural: [process_messages] over the inbound list, the filters'
      calls over the chain. Hence every run terminates with a result.
    - [Supervisor.shutdown_is_bounded] and [Lifecycle.signal_ends_process] count seconds of the
      model's clock, the [Tick] label.

    ** What is not modelled, and why

    - The tokio scheduler, hyper's HTTP, the kernel's signals, tracing setup: the labels of
      [Supervisor], [Lifecycle], [StreamTask], [TlsIncoming], [MetricsLoop] and [Sse] are their
      observable outcomes, in any order. A handler is one step of [StreamTask]: what it awaits
      inside exchanges nothing with the client.
    - OpenSSL's handshake itself, reading and writing of a connection, the Kubernetes client's transport, serde's YAML
      decoding, the generated protobuf code, the Prometheus exporter: third-party, parameters.
    - Filter implementations: a parameter, with arbitrary results, context and environment.
    - Log lines, which nothing reads back.
    - Command-line parsing (clap), and the build script of the protobuf crate (proto/build.rs).
    - Tests. *)

From stdpp Require Export base option list strings gmap sets.
From Stdlib Require Export Ascii ZArith Lia.

#[export] Set Default Goal Selector "!".

(** ** Scope and bytes *)

Declare Scope praxis_scope.
Delimit Scope praxis_scope with praxis.
#[global] Open Scope praxis_scope.
#[global] Open Scope Z_scope.

(** A Rust [Vec<u8>], [Bytes] or [&[u8]]: a list of 8-bit characters. A Rust
    [String] or [&str] is a [string], read as its UTF-8 bytes. *)
Abbreviation bytes := (list Ascii.ascii).

(** The length of a byte buffer as a machine integer. *)
Definition len {A} (l : list A) : Z := Z.of_nat (length l).

(** The bytes of a [&str] and back ([str::as_bytes]). *)
Definition as_bytes (s : string) : bytes := String.list_ascii_of_string s.
Definition of_bytes (b : bytes) : string := String.string_of_list_ascii b.

(** ** Machine integers

    [usize] and [u64] are 64 bits wide on every target the repository builds
    for; [u128] and [u16] are what their names say. *)
Definition u16_max : Z := 2 ^ 16 - 1.
Definition usize_max : Z := 2 ^ 64 - 1.
Definition u64_max : Z := 2 ^ 64 - 1.
Definition u128_max : Z := 2 ^ 128 - 1.

(** [usize::saturating_add]. *)
Definition saturating_add (a b : Z) : Z := Z.min (a + b) usize_max.

(** [checked_add] and [checked_mul] at a given maximum. *)
Definition checked_add (max a b : Z) : option Z :=
  if a + b <=? max then Some (a + b) else None.
Definition checked_mul (max a b : Z) : option Z :=
  if a * b <=? max then Some (a * b) else None.

(** ** Results *)

(** Rust's [Result<A, E>]. *)
Inductive result (E A : Type) : Type :=
| Ok (a : A)
| Err (e : E).
Arguments Ok {E A} a.
Arguments Err {E A} e.

(** [Result::map_err], [Option::ok_or], and the [?] operator on results. *)
Definition map_err {E F A} (f : E -> F) (r : result E A) : result F A :=
  match r with Ok a => Ok a | Err e => Err (f e) end.
Definition ok_or {E A} (e : E) (o : option A) : result E A :=
  match o with Some a => Ok a | None => Err e end.
Definition result_bind {E A B} (r : result E A) (f : A -> result E B) : result E B :=
  match r with Ok a => f a | Err e => Err e end.
Definition is_ok {E A} (r : result E A) : bool :=
  match r with Ok _ => true | Err _ => false end.

Notation "'let!' x := r 'in' k" := (result_bind r (fun x => k))
  (at level 10, x pattern, r at level 200, k at level 200) : praxis_scope.

(** ** Hint databases and tactics *)

Create HintDb praxis discriminated.
Create Rewrite HintDb praxis.
#[export] Hint Constants Transparent : praxis.

(** Split every conjunction, existential, pair and equation in the context. *)
Ltac crush :=
  repeat (match goal with
          | H : _ /\ _ |- _ => destruct H
          | H : exists _, _ |- _ => destruct H
          | H : (_, _) = (_, _) |- _ => injection H as ?; subst
          | H : Some _ = Some _ |- _ => injection H as ?; subst
          | H : Ok _ = Ok _ |- _ => injection H as ?; subst
          | H : Err _ = Err _ |- _ => injection H as ?; subst
          end);
  simplify_eq.

(** Case on the first [match] scrutinee found in the goal, keeping an equation. *)
Ltac case_goal :=
  match goal with
  | |- context [match ?x with _ => _ end] => let E := fresh "E" in destruct x eqn:E
  end.

(** ** Lists *)

Lemma len_nonneg {A} (l : list A) : 0 <= len l.
Proof. unfold len; lia. Qed.

Lemma len_app {A} (l k : list A) : len (l ++ k) = len l + len k.
Proof. unfold len; rewrite length_app; lia. Qed.

Lemma len_nil {A} : len (@nil A) = 0.
Proof. reflexivity. Qed.

Lemma len_cons {A} (a : A) l : len (a :: l) = 1 + len l.
Proof. unfold len; rewrite length_cons; lia. Qed.

#[export] Hint Rewrite @len_app @len_nil @len_cons : praxis.
#[export] Hint Resolve len_nonneg : praxis.

Lemma saturating_add_le (a b m : Z) :
  0 <= a -> 0 <= b -> m < usize_max -> saturating_add a b <= m <-> a + b <= m.
Proof. unfold saturating_add; lia. Qed.

Lemma saturating_add_mono (a b : Z) : 0 <= b -> a <= usize_max -> a <= saturating_add a b.
Proof. unfold saturating_add; lia. Qed.

Lemma as_bytes_of_bytes b : as_bytes (of_bytes b) = b.
Proof. apply String.list_ascii_of_string_of_list_ascii. Qed.

Lemma of_bytes_as_bytes s : of_bytes (as_bytes s) = s.
Proof. apply String.string_of_list_ascii_of_string. Qed.

#[export] Hint Rewrite as_bytes_of_bytes of_bytes_as_bytes : praxis.

Lemma as_bytes_inj s t : as_bytes s = as_bytes t -> s = t.
Proof. intros H. rewrite <- (of_bytes_as_bytes s), <- (of_bytes_as_bytes t). by rewrite H. Qed.
