(* ===== verification/RustStd.v ===== *)
(** * The Rust standard library operations the source uses

    Strings are UTF-8 byte sequences, so every operation below works on bytes:
    ASCII case, prefixes and suffixes, trimming, splitting, integer parsing and
    printing, and UTF-8 decoding ([str::from_utf8], [String::from_utf8_lossy]). *)

From S2P Require Import Prelude.

(** ** Characters *)

Definition byte_val (a : ascii) : Z := Z.of_N (N_of_ascii a).
Definition byte_of (z : Z) : ascii := ascii_of_N (Z.to_N z).

Definition between (lo x hi : Z) : bool := (lo <=? x) && (x <=? hi).

(** [u8::is_ascii_digit], [u8::is_ascii_hexdigit]. *)
Definition is_ascii_digit (a : ascii) : bool := between 48 (byte_val a) 57.
Definition is_ascii_hexdigit (a : ascii) : bool :=
  is_ascii_digit a || between 65 (byte_val a) 70 || between 97 (byte_val a) 102.

(** [u8::to_ascii_lowercase] and the [str] operations built on it. *)
Definition lower_char (a : ascii) : ascii :=
  if between 65 (byte_val a) 90 then byte_of (byte_val a + 32) else a.
Definition to_ascii_lowercase (s : string) : string := of_bytes (map lower_char (as_bytes s)).
Definition eq_ignore_ascii_case_bytes (a b : bytes) : bool :=
  bool_decide (map lower_char a = map lower_char b).
Definition eq_ignore_ascii_case (s t : string) : bool :=
  eq_ignore_ascii_case_bytes (as_bytes s) (as_bytes t).

(** ** Prefixes, suffixes, splitting *)

(** [strip_prefix], [starts_with]. *)
Fixpoint strip_prefix (p s : bytes) : option bytes :=
  match p, s with
  | [], _ => Some s
  | x :: p', y :: s' => if decide (x = y) then strip_prefix p' s' else None
  | _ :: _, [] => None
  end.
Definition starts_with (p s : bytes) : bool := bool_decide (is_Some (strip_prefix p s)).

(** [strip_suffix]: strip the reversed prefix. *)
Definition strip_suffix (p s : bytes) : option bytes :=
  option_map (@rev ascii) (strip_prefix (rev p) (rev s)).

(** [split_once] on a single ASCII character. *)
Fixpoint split_once (c : ascii) (s : bytes) : option (bytes * bytes) :=
  match s with
  | [] => None
  | x :: s' =>
      if decide (x = c) then Some ([], s')
      else match split_once c s' with
           | Some (a, b) => Some (x :: a, b)
           | None => None
           end
  end.

(** [s.split(c).next()]: the text before the first [c], all of it when there is none. *)
Definition split_first (c : ascii) (s : bytes) : bytes :=
  match split_once c s with Some (a, _) => a | None => s end.

(** ** Trimming

    The UTF-8 encodings of the characters with the [White_Space] property, the ones
    [str::trim] removes. *)
Definition enc (zs : list Z) : bytes := map byte_of zs.
Definition white_space : list bytes :=
  map (fun z => enc [z]) [9; 10; 11; 12; 13; 32] ++
  map enc ([[194; 133]; [194; 160]; [225; 154; 128]] ++
           map (fun z => [226; 128; z]) [128; 129; 130; 131; 132; 133; 134; 135; 136; 137; 138; 168; 169; 175] ++
           [[226; 129; 159]; [227; 128; 128]]).

Fixpoint first_some {A B} (f : A -> option B) (l : list A) : option B :=
  match l with
  | [] => None
  | x :: l' => match f x with Some y => Some y | None => first_some f l' end
  end.

(** Remove leading members of [ws]; each round removes at least one byte. *)
Fixpoint trim_with (ws : list bytes) (fuel : nat) (s : bytes) : bytes :=
  match fuel with
  | O => s
  | S n => match first_some (fun w => strip_prefix w s) ws with
           | Some s' => trim_with ws n s'
           | None => s
           end
  end.
Definition trim_start_bytes (s : bytes) : bytes := trim_with white_space (length s) s.
Definition trim_end_bytes (s : bytes) : bytes :=
  rev (trim_with (map (@rev ascii) white_space) (length s) (rev s)).
Definition trim_bytes (s : bytes) : bytes := trim_end_bytes (trim_start_bytes s).
Definition trim (s : string) : string := of_bytes (trim_bytes (as_bytes s)).

(** ** Integers *)

Definition digit_val (a : ascii) : Z := byte_val a - 48.

(** Fold decimal digits with [checked_mul] and [checked_add]. *)
Fixpoint parse_digits (max acc : Z) (s : bytes) : option Z :=
  match s with
  | [] => Some acc
  | c :: s' =>
      if is_ascii_digit c then
        match checked_mul max acc 10 with
        | Some m => match checked_add max m (digit_val c) with
                    | Some n => parse_digits max n s'
                    | None => None
                    end
        | None => None
        end
      else None
  end.

(** [str::parse] at an unsigned type of maximum [max]: an optional [+], then at
    least one decimal digit; [None] on anything else and on overflow. *)
Definition plus_sign : ascii := "+"%char.
Definition parse_unsigned (max : Z) (s : bytes) : option Z :=
  let digits := match s with
                | c :: rest => if decide (c = plus_sign) then rest else s
                | [] => []
                end in
  match digits with [] => None | _ => parse_digits max 0 digits end.

(** [Display] of a non-negative integer. *)
Definition digit_char (d : Z) : ascii := byte_of (48 + d).
Fixpoint digits_rev (fuel : nat) (n : Z) : bytes :=
  match fuel with
  | O => []
  | S f => digit_char (n mod 10) :: (if n <? 10 then [] else digits_rev f (n / 10))
  end.
Definition display_unsigned (n : Z) : bytes := rev (digits_rev (S (Z.to_nat (Z.log2 n))) n).
Definition display_int (n : Z) : bytes :=
  if n <? 0 then "-"%char :: display_unsigned (- n) else display_unsigned n.

(** ** UTF-8 *)

Definition cont_byte (z : Z) : bool := between 128 z 191.
Definition second_byte_of_3 (a b : Z) : bool :=
  ((a =? 224) && between 160 b 191) || (between 225 a 236 && between 128 b 191) ||
  ((a =? 237) && between 128 b 159) || (between 238 a 239 && between 128 b 191).
Definition second_byte_of_4 (a b : Z) : bool :=
  ((a =? 240) && between 144 b 191) || (between 241 a 243 && between 128 b 191) ||
  ((a =? 244) && between 128 b 143).

(** The byte at [i], 0 past the end (the decoder's [safe_get]). *)
Definition safe_get (s : bytes) (i : nat) : Z :=
  match s !! i with Some a => byte_val a | None => 0 end.

(** One decoding step on a non-empty input: [(true, n)] when its first [n] bytes are
    a character, [(false, n)] when they are a maximal ill-formed prefix. *)
Definition utf8_next (s : bytes) : bool * nat :=
  let a := safe_get s 0 in
  let b := safe_get s 1 in
  if a <? 128 then (true, 1%nat)
  else if between 194 a 223 then
    if cont_byte b then (true, 2%nat) else (false, 1%nat)
  else if between 224 a 239 then
    if second_byte_of_3 a b then
      if cont_byte (safe_get s 2) then (true, 3%nat) else (false, 2%nat)
    else (false, 1%nat)
  else if between 240 a 244 then
    if second_byte_of_4 a b then
      if cont_byte (safe_get s 2) then
        if cont_byte (safe_get s 3) then (true, 4%nat) else (false, 3%nat)
      else (false, 2%nat)
    else (false, 1%nat)
  else (false, 1%nat).

Fixpoint utf8_valid_go (fuel : nat) (s : bytes) : bool :=
  match s, fuel with
  | [], _ => true
  | _ :: _, O => false
  | _ :: _, S f => let '(ok, n) := utf8_next s in ok && utf8_valid_go f (drop n s)
  end.
Definition utf8_valid (s : bytes) : bool := utf8_valid_go (length s) s.

(** [str::from_utf8]. *)
Definition from_utf8 (b : bytes) : option string :=
  if utf8_valid b then Some (of_bytes b) else None.

(** U+FFFD, and [String::from_utf8_lossy]. *)
Definition replacement : bytes := enc [239; 191; 189].
Fixpoint lossy_go (fuel : nat) (s : bytes) : bytes :=
  match s, fuel with
  | [], _ => []
  | _ :: _, O => s
  | _ :: _, S f =>
      let '(ok, n) := utf8_next s in
      (if ok then take n s else replacement) ++ lossy_go f (drop n s)
  end.
Definition from_utf8_lossy (b : bytes) : string := of_bytes (lossy_go (length b) b).

(** ** Lemmas: bytes and digits *)

Lemma byte_val_of z : 0 <= z < 256 -> byte_val (byte_of z) = z.
Proof.
  intros Hz. unfold byte_val, byte_of. rewrite N_ascii_embedding by lia. lia.
Qed.

Lemma byte_val_range a : 0 <= byte_val a < 256.
Proof. unfold byte_val. pose proof (N_ascii_bounded a). lia. Qed.

Lemma byte_val_inj a b : byte_val a = byte_val b -> a = b.
Proof.
  unfold byte_val. intros E%N2Z.inj. rewrite <- (ascii_N_embedding a), E. apply ascii_N_embedding.
Qed.

Lemma digit_val_range c : is_ascii_digit c = true -> 0 <= digit_val c <= 9.
Proof. unfold is_ascii_digit, between, digit_val. lia. Qed.

Lemma digit_char_spec d : 0 <= d <= 9 -> is_ascii_digit (digit_char d) = true /\ digit_val (digit_char d) = d.
Proof.
  intros Hd. unfold is_ascii_digit, digit_val, digit_char, between. rewrite byte_val_of by lia. lia.
Qed.

(** The number a digit string denotes, starting from [acc]. *)
Definition digits_value (acc : Z) (s : bytes) : Z := fold_left (fun a c => a * 10 + digit_val c) s acc.

Lemma digits_value_app acc s t : digits_value acc (s ++ t) = digits_value (digits_value acc s) t.
Proof. apply fold_left_app. Qed.

Lemma digits_value_ge acc s : 0 <= acc -> forallb is_ascii_digit s = true -> acc <= digits_value acc s.
Proof.
  revert acc. induction s as [|c s IH]; simpl; intros acc Ha Hs; [unfold digits_value; simpl; lia|].
  apply andb_prop in Hs as [Hc Hs]. apply digit_val_range in Hc. specialize (IH (acc * 10 + digit_val c) ltac:(lia) Hs).
  unfold digits_value in *. simpl. lia.
Qed.

Lemma digits_value_shift acc s :
  digits_value acc s = acc * 10 ^ len s + digits_value 0 s.
Proof.
  unfold digits_value. revert acc. induction s as [|c s IH]; intros acc; [unfold len; simpl; lia|].
  simpl. rewrite IH. symmetry. rewrite IH. symmetry. rewrite len_cons, Z.pow_add_r by (try lia; apply len_nonneg). lia.
Qed.

(** [parse_digits] computes the number exactly, or fails: on a non-digit, or past the maximum. *)
Lemma parse_digits_spec max s : forall acc, 0 <= acc <= max ->
  parse_digits max acc s =
  if forallb is_ascii_digit s && (digits_value acc s <=? max) then Some (digits_value acc s) else None.
Proof.
  induction s as [|c s IH]; intros acc Ha; [unfold digits_value; simpl; by rewrite (proj2 (Z.leb_le _ _)) by lia|].
  simpl. destruct (is_ascii_digit c) eqn:Hc; [|done]. pose proof (digit_val_range c Hc). simpl.
  change (digits_value acc (c :: s)) with (digits_value (acc * 10 + digit_val c) s).
  unfold checked_mul, checked_add.
  assert (Hbig : max < acc * 10 + digit_val c ->
     forallb is_ascii_digit s && (digits_value (acc * 10 + digit_val c) s <=? max) = false).
  { intros Hlt. apply andb_false_iff. destruct (forallb is_ascii_digit s) eqn:Hs; [right|by left].
    pose proof (digits_value_ge (acc * 10 + digit_val c) s ltac:(lia) Hs). lia. }
  destruct (Z.leb_spec (acc * 10) max); [|rewrite Hbig by lia; done].
  destruct (Z.leb_spec (acc * 10 + digit_val c) max); [|by rewrite Hbig by lia].
  by rewrite IH by lia.
Qed.

Lemma digits_rev_spec fuel : forall n, 0 <= n < 10 ^ Z.of_nat fuel -> (0 < fuel)%nat ->
  digits_value 0 (rev (digits_rev fuel n)) = n /\ forallb is_ascii_digit (rev (digits_rev fuel n)) = true /\
  digits_rev fuel n <> [].
Proof.
  induction fuel as [|f IH]; intros n Hn Hf; [lia|]. simpl.
  pose proof (digit_char_spec (n mod 10) ltac:(pose proof (Z.mod_pos_bound n 10); lia)) as [Hd Hv].
  destruct (Z.ltb_spec n 10) as [Hlt|Hge].
  - simpl. rewrite Hd. split_and!; try done. unfold digits_value. simpl. rewrite Hv. apply Z.mod_small. lia.
  - assert (0 <= n / 10 < 10 ^ Z.of_nat f).
    { split; [apply Z.div_pos; lia|]. apply Z.div_lt_upper_bound; [lia|].
      rewrite Nat2Z.inj_succ, Z.pow_succ_r in Hn by lia. lia. }
    destruct f as [|f]; [simpl in *; lia|]. destruct (IH (n / 10)) as (E1 & E2 & _); [lia..|].
    cbn [rev]. rewrite digits_value_app, E1, forallb_app, E2. split_and!; [|by simpl; rewrite Hd|done].
    unfold digits_value. cbn [fold_left]. rewrite Hv. pose proof (Z.div_mod n 10). lia.
Qed.

Lemma display_spec n : 0 <= n ->
  digits_value 0 (display_unsigned n) = n /\ forallb is_ascii_digit (display_unsigned n) = true /\
  display_unsigned n <> [].
Proof.
  intros Hn. unfold display_unsigned.
  destruct (digits_rev_spec (S (Z.to_nat (Z.log2 n))) n) as (E1 & E2 & E3); [|lia|].
  - split; [done|]. rewrite Nat2Z.inj_succ, Z2Nat.id by apply Z.log2_nonneg.
    destruct (Z.eq_dec n 0) as [->|]; [simpl; lia|].
    apply Z.lt_le_trans with (2 ^ Z.succ (Z.log2 n)); [apply Z.log2_spec; lia|].
    apply Z.pow_le_mono_l. lia.
  - split_and!; [done..|]. intros E. apply E3. by rewrite <- (rev_involutive (digits_rev _ _)), E.
Qed.

Lemma digit_not_plus c : is_ascii_digit c = true -> c <> plus_sign.
Proof. intros Hc ->. by vm_compute in Hc. Qed.

(** Printing and parsing an integer gives it back. *)
Lemma parse_display max n : 0 <= n <= max -> parse_unsigned max (display_unsigned n) = Some n.
Proof.
  intros Hn. destruct (display_spec n) as (E1 & E2 & E3); [lia|]. unfold parse_unsigned.
  destruct (display_unsigned n) as [|c s] eqn:E; [done|].
  assert (Hc : is_ascii_digit c = true) by (simpl in E2; by apply andb_prop in E2 as [? _]).
  rewrite decide_False by by apply digit_not_plus.
  rewrite parse_digits_spec, E2, E1 by lia. simpl. by rewrite (proj2 (Z.leb_le _ _)) by lia.
Qed.

(** ** Lemmas: UTF-8 *)

(** Lossy decoding of valid UTF-8 changes nothing. *)
Lemma lossy_go_valid fuel : forall s, utf8_valid_go fuel s = true -> lossy_go fuel s = s.
Proof.
  induction fuel as [|f IH]; intros [|c s] Hv; try done. simpl in *.
  destruct (utf8_next (c :: s)) as [ok n]. apply andb_prop in Hv as [-> Hv].
  rewrite IH by done. apply take_drop.
Qed.

Lemma from_utf8_lossy_valid b s : from_utf8 b = Some s -> from_utf8_lossy b = s.
Proof.
  unfold from_utf8, from_utf8_lossy, utf8_valid. destruct (utf8_valid_go _ _) eqn:Hv; [|done].
  intros [= <-]. by rewrite lossy_go_valid.
Qed.

(** ** Lemmas: prefixes and suffixes *)

Lemma strip_prefix_app p s : strip_prefix p (p ++ s) = Some s.
Proof. induction p as [|x p IH]; simpl; [done|]. by rewrite decide_True. Qed.

Lemma strip_prefix_some p s t : strip_prefix p s = Some t -> s = p ++ t.
Proof.
  revert s. induction p as [|x p IH]; intros s; simpl; [by intros [= ->]|].
  destruct s as [|y s]; [done|]. case_decide; [|done]. intros Hs. by rewrite (IH s Hs); subst.
Qed.

Lemma strip_suffix_some p s t : strip_suffix p s = Some t -> s = t ++ p.
Proof.
  unfold strip_suffix. destruct (strip_prefix (rev p) (rev s)) as [r|] eqn:E; [|done]. intros [= <-].
  apply strip_prefix_some in E. apply (f_equal (@rev ascii)) in E.
  by rewrite rev_app_distr, !rev_involutive in E.
Qed.

Lemma strip_suffix_app p s : strip_suffix p (s ++ p) = Some s.
Proof. unfold strip_suffix. rewrite rev_app_distr, strip_prefix_app. simpl. by rewrite rev_involutive. Qed.

Lemma split_once_some c s a b : split_once c s = Some (a, b) -> s = a ++ c :: b /\ c ∉ a.
Proof.
  revert a. induction s as [|x s IH]; intros a; simpl; [done|]. case_decide as Hx.
  - intros [= <- <-]. subst x. split; [done|apply not_elem_of_nil].
  - destruct (split_once c s) as [[a' b']|]; [|done]. intros [= <- <-].
    destruct (IH a' eq_refl) as [-> Hn]. split; [done|]. by apply not_elem_of_cons.
Qed.

Lemma split_once_none c s : split_once c s = None -> c ∉ s.
Proof.
  induction s as [|x s IH]; simpl; [intros _; apply not_elem_of_nil|]. case_decide as Hx; [done|].
  destruct (split_once c s) as [[a b]|]; [done|]. intros _. by apply not_elem_of_cons; auto.
Qed.

(** ** Lemmas: trimming *)

(** A visible ASCII byte neither starts nor ends a white-space character. *)
Definition visible (a : ascii) : bool := between 33 (byte_val a) 126.

Definition starts_invisible (w : bytes) : bool := match w with c :: _ => negb (visible c) | [] => false end.

Lemma trim_with_visible ws fuel c s :
  forallb starts_invisible ws = true -> visible c = true -> trim_with ws fuel (c :: s) = c :: s.
Proof.
  intros Hws Hc. destruct fuel as [|f]; [done|]. simpl.
  assert (first_some (fun w => strip_prefix w (c :: s)) ws = None) as ->; [|done].
  induction ws as [|w ws IH]; [done|]. simpl in *. apply andb_prop in Hws as [Hw Hws].
  destruct w as [|x w]; [done|]. simpl in *. rewrite decide_False by (intros ->; by rewrite Hc in Hw). auto.
Qed.

Lemma trim_visible s : s <> [] -> forallb visible s = true -> trim_bytes s = s.
Proof.
  intros Hne Hs. destruct s as [|c s]; [done|]. unfold trim_bytes, trim_start_bytes.
  rewrite trim_with_visible; [|by vm_compute|by apply andb_prop in Hs as [? _]].
  unfold trim_end_bytes. destruct (rev (c :: s)) as [|d r] eqn:E.
  { by apply (f_equal (@rev ascii)) in E; rewrite rev_involutive in E. }
  rewrite trim_with_visible; [by rewrite <- E, rev_involutive|by vm_compute|].
  assert (forallb visible (d :: r) = true) as Hd; [|by apply andb_prop in Hd as [? _]].
  rewrite <- E. apply forallb_forall. intros x Hx. apply in_rev in Hx. revert x Hx. by apply forallb_forall.
Qed.

Lemma digits_visible s : forallb is_ascii_digit s = true -> forallb visible s = true.
Proof.
  rewrite !forallb_forall. intros Hs x Hx. specialize (Hs x Hx).
  unfold is_ascii_digit, visible, between in *. lia.
Qed.
