(* ===== verification/Text.v ===== *)
(** * Lines, words and file names

    The operations of Rust's standard library that the build tooling uses on text: [str::lines],
    [str::contains], [str::split_whitespace], [str::trim_matches], sorting and deduplication of
    strings, and the extension of a file name. *)

From stdpp Require Import sorting.
From S2P Require Import Prelude RustStd.

(** ** Searching *)

(** [str::contains] and [[u8]::windows(n).any]. *)
Fixpoint contains_bytes (needle s : bytes) : bool :=
  starts_with needle s || match s with [] => false | _ :: s' => contains_bytes needle s' end.
Definition contains (needle s : string) : bool := contains_bytes (as_bytes needle) (as_bytes s).
Definition str_starts_with (p s : string) : bool := starts_with (as_bytes p) (as_bytes s).
Definition str_ends_with (p s : string) : bool := bool_decide (is_Some (strip_suffix (as_bytes p) (as_bytes s))).
Definition str_strip_prefix (p s : string) : option string := of_bytes <$> strip_prefix (as_bytes p) (as_bytes s).

(** ** Splitting *)

Definition newline : ascii := ascii_of_nat 10.
Definition carriage_return : ascii := ascii_of_nat 13.

(** [str::lines]: a line ends with a newline, or a carriage return and a newline; the last one may
    lack its end. [acc] is the current line reversed. *)
Fixpoint lines_go (acc s : bytes) : list bytes :=
  match s with
  | [] => match acc with [] => [] | _ => [rev acc] end
  | c :: s' =>
      if decide (c = newline) then
        match acc with
        | r :: acc' => (if decide (r = carriage_return) then rev acc' else rev acc) :: lines_go [] s'
        | [] => [] :: lines_go [] s'
        end
      else lines_go (c :: acc) s'
  end.
Definition str_lines (s : string) : list string := map of_bytes (lines_go [] (as_bytes s)).

(** [str::split_whitespace]: the non-empty pieces between white space. Each round removes at least
    a byte. *)
Fixpoint words_go (fuel : nat) (acc s : bytes) : list bytes :=
  let piece := match acc with [] => [] | _ => [rev acc] end in
  match fuel, s with
  | _, [] | O, _ => piece
  | S n, c :: s' =>
      match first_some (fun w => strip_prefix w s) white_space with
      | Some rest => piece ++ words_go n [] rest
      | None => words_go n (c :: acc) s'
      end
  end.
Definition split_whitespace (s : string) : list string := map of_bytes (words_go (length (as_bytes s)) [] (as_bytes s)).

(** [str::trim_start], and [str::trim_matches] on a character. *)
Definition trim_start (s : string) : string := of_bytes (trim_start_bytes (as_bytes s)).
Fixpoint drop_char (c : ascii) (s : bytes) : bytes :=
  match s with x :: s' => if decide (x = c) then drop_char c s' else s | [] => [] end.
Definition trim_matches (c : ascii) (s : string) : string :=
  of_bytes (rev (drop_char c (rev (drop_char c (as_bytes s))))).

(** [Iterator::find_map] is [first_some]; [find] keeps the element. *)
Definition find_first {A} (p : A -> bool) (l : list A) : option A :=
  first_some (fun x => if p x then Some x else None) l.

(** ** Order *)

Definition str_le (a b : string) : Prop := String.leb a b = true.
#[export] Instance str_le_dec : RelDecision str_le := fun a b => decide (String.leb a b = true).
Definition sort_strings : list string -> list string := merge_sort str_le.

(** Entries by their key: directory entries by path, a [BTreeMap] in its order. *)
Definition entry_le {A} (a b : string * A) : Prop := str_le a.1 b.1.
#[export] Instance entry_le_dec {A} : RelDecision (@entry_le A) := fun a b => decide (str_le a.1 b.1).
Definition sort_entries {A} : list (string * A) -> list (string * A) := merge_sort entry_le.

(** [Vec::dedup]: equal neighbours collapse. *)
Fixpoint dedup (l : list string) : list string :=
  match l with
  | a :: (b :: _) as rest => if decide (a = b) then dedup rest else a :: dedup rest
  | _ => l
  end.

(** ** UTF-8 errors *)

(** [Utf8Error]: how many bytes were valid, and the length of the ill-formed piece, [None] when the
    input ends within a character. *)
Fixpoint utf8_error_go (fuel : nat) (index : nat) (s : bytes) : option (nat * option nat) :=
  match fuel, s with
  | S f, _ :: _ =>
      let '(valid, n) := utf8_next s in
      if valid then utf8_error_go f (index + n) (drop n s)
      else Some (index, if bool_decide (length s = n) && between 194 (safe_get s 0) 244 then None else Some n)
  | _, _ => None
  end.
Definition show (n : nat) : string := of_bytes (display_unsigned (Z.of_nat n)).
Definition display_utf8_error (s : bytes) : string :=
  match utf8_error_go (length s) 0 s with
  | Some (index, Some n) => "invalid utf-8 sequence of " +:+ show n +:+ " bytes from index " +:+ show index
  | Some (index, None) => "incomplete utf-8 byte sequence from index " +:+ show index
  | None => ""
  end.

(** ** File names *)

(** [Path::extension] of a file name: after the last dot, unless that dot comes first. *)
Fixpoint rsplit_dot (s : bytes) : option (bytes * bytes) :=
  match s with
  | [] => None
  | c :: s' =>
      match rsplit_dot s' with
      | Some (a, b) => Some (c :: a, b)
      | None => if decide (c = "."%char) then Some ([], s') else None
      end
  end.
Definition extension (name : string) : option string :=
  if decide (name = "..") then None
  else match rsplit_dot (as_bytes name) with
       | Some ([], _) | None => None
       | Some (_, ext) => Some (of_bytes ext)
       end.

(** ** Lemmas *)

Lemma elem_of_sort_strings x l : x ∈ sort_strings l <-> x ∈ l.
Proof. unfold sort_strings. by rewrite (merge_sort_Permutation str_le l). Qed.

Lemma elem_of_dedup x l : x ∈ dedup l <-> x ∈ l.
Proof.
  induction l as [|a [|b l] IH]; [done|done|]. cbn [dedup] in *.
  destruct (decide (a = b)) as [->|]; rewrite ?elem_of_cons in *; naive_solver.
Qed.

Lemma dedup_nil l : dedup l = [] <-> l = [].
Proof.
  split; [|by intros ->]. intros Hd. destruct l as [|a l]; [done|].
  assert (Ha : a ∈ dedup (a :: l)) by (apply elem_of_dedup; set_solver). rewrite Hd in Ha. by apply elem_of_nil in Ha.
Qed.

Lemma sort_entries_nil {A} (l : list (string * A)) : sort_entries l = [] <-> l = [].
Proof.
  split; [|by intros ->]. intros Hs. apply Permutation_nil. rewrite <- Hs. apply merge_sort_Permutation.
Qed.

Lemma sort_strings_nil l : sort_strings l = [] <-> l = [].
Proof.
  split; [|by intros ->]. intros Hs. destruct l as [|a l]; [done|].
  assert (Ha : a ∈ sort_strings (a :: l)) by (apply elem_of_sort_strings; set_solver). rewrite Hs in Ha. by apply elem_of_nil in Ha.
Qed.

Lemma find_first_some {A} (p : A -> bool) l x : find_first p l = Some x -> x ∈ l /\ p x = true.
Proof.
  unfold find_first. induction l as [|a l IH]; [done|]. cbn [first_some].
  destruct (p a) eqn:Hp; [intros [= ->]; split; [set_solver|done]|]. intros Hx. destruct (IH Hx). split; [set_solver|done].
Qed.

Lemma find_first_none {A} (p : A -> bool) l : find_first p l = None <-> forall x, x ∈ l -> p x = false.
Proof.
  unfold find_first. induction l as [|a l IH]; [split; [by intros _ ? ?%elem_of_nil|done]|]. cbn [first_some].
  destruct (p a) eqn:Hp.
  - split; [done|]. intros Hx. by rewrite (Hx a) in Hp by set_solver.
  - rewrite IH. split; [intros Hx x [->|?]%elem_of_cons; auto|intros Hx x ?; apply Hx; set_solver].
Qed.
