(* ===== verification/Proto.v ===== *)
(** * ExtProc message types

    The protobuf messages of [proto/proto/ext_proc.proto] and
    [proto/proto/envoy_common.proto] that the server reads or builds, field by field.
    Fields the source neither reads nor sets ([dynamic_metadata], [attributes],
    [observability_mode] and the like) stay at their protobuf defaults and are left out. *)

From S2P Require Import Prelude.

(** ** Headers *)

Record HeaderValue := {
  hv_key : string;
  hv_value : string;
  hv_raw_value : bytes;
}.

(** [HeaderValueOption.HeaderAppendAction]. *)
Inductive HeaderAppendAction :=
| AppendIfExistsOrAdd
| AddIfAbsent
| OverwriteIfExistsOrAdd
| OverwriteIfExists.

Record HeaderValueOption := {
  hvo_header : option HeaderValue;
  hvo_append : option bool;
  hvo_append_action : HeaderAppendAction;
}.

Record HeaderMutation := {
  set_headers : list HeaderValueOption;
  remove_headers : list string;
}.

(** The derived [Default] of [HeaderMutation]. *)
Definition HeaderMutation_default : HeaderMutation :=
  {| set_headers := []; remove_headers := [] |}.

(** ** Requests *)

(** [HttpHeaders], with the [headers] list of its [HeaderMap]. *)
Record HttpHeaders := {
  hh_headers : option (list HeaderValue);
  hh_end_of_stream : bool;
}.

Record HttpBody := {
  hb_body : bytes;
  hb_end_of_stream : bool;
}.

Record HttpTrailers := {
  ht_trailers : option (list HeaderValue);
}.

(** [ProcessingRequest.request]. *)
Inductive ReqMsg :=
| RequestHeaders (h : HttpHeaders)
| ResponseHeaders (h : HttpHeaders)
| RequestBody (b : HttpBody)
| ResponseBody (b : HttpBody)
| RequestTrailers (t : HttpTrailers)
| ResponseTrailers (t : HttpTrailers).

Record ProtocolConfiguration := {
  pc_request_body_mode : Z;
  pc_response_body_mode : Z;
  pc_send_body_without_waiting_for_header_response : bool;
}.

Record ProcessingRequest := {
  pr_request : option ReqMsg;
  pr_protocol_config : option ProtocolConfiguration;
}.

(** ** Responses *)

Inductive ResponseStatus := Continue | ContinueAndReplace.

Record StreamedBodyResponse := {
  sb_body : bytes;
  sb_end_of_stream : bool;
}.

(** [BodyMutation.mutation]. *)
Inductive BodyMutation :=
| MutationBody (b : bytes)
| MutationClearBody (clear : bool)
| MutationStreamedResponse (s : StreamedBodyResponse).

Record CommonResponse := {
  cr_status : ResponseStatus;
  cr_header_mutation : option HeaderMutation;
  cr_body_mutation : option BodyMutation;
  cr_trailers : option (list HeaderValue);
  cr_clear_route_cache : bool;
}.

Record TrailersResponse := {
  tr_header_mutation : option HeaderMutation;
}.

Record ImmediateResponse := {
  ir_status : option Z;
  ir_headers : option HeaderMutation;
  ir_body : string;
  ir_grpc_status : option Z;
  ir_details : string;
}.

(** [ProcessingResponse.response]. [HeadersResponse] and [BodyResponse] are
    one-field wrappers of [CommonResponse]. *)
Inductive RespMsg :=
| RespRequestHeaders (c : option CommonResponse)
| RespResponseHeaders (c : option CommonResponse)
| RespRequestBody (c : option CommonResponse)
| RespResponseBody (c : option CommonResponse)
| RespRequestTrailers (t : TrailersResponse)
| RespResponseTrailers (t : TrailersResponse)
| RespImmediateResponse (i : ImmediateResponse).

(** [ProcessingMode]; enumerations travel as their protobuf numbers. *)
Record ProcessingMode := {
  pm_request_header_mode : Z;
  pm_response_header_mode : Z;
  pm_request_body_mode : Z;
  pm_response_body_mode : Z;
  pm_request_trailer_mode : Z;
  pm_response_trailer_mode : Z;
}.

(** [HeaderSendMode::Send] and [BodySendMode::Streamed]. *)
Definition HeaderSendMode_Send : Z := 1.
Definition BodySendMode_Streamed : Z := 1.

Record ProcessingResponse := {
  prs_response : option RespMsg;
  prs_mode_override : option ProcessingMode;
}.

#[export] Instance HeaderAppendAction_eq_dec : EqDecision HeaderAppendAction.
Proof. solve_decision. Defined.
