(* ===== verification/Effect.v ===== *)
(** * Effects: status errors, the trace of a stream, and the state-and-error monad

    A handler takes [&mut StreamState] and returns [Result<_, Status>]; it also bumps
    Prometheus counters, calls into the filter pipeline, and reads or sets one
    process-wide flag. [M] threads all of it. The state survives an error, as it does
    behind a Rust [&mut]. *)

From S2P Require Import Prelude.

(** ** tonic::Status *)

Inductive Code := InvalidArgument | Internal | ResourceExhausted | Unavailable.

Record Status := { st_code : Code; st_message : string }.

Definition Status_invalid_argument (m : string) : Status := {| st_code := InvalidArgument; st_message := m |}.
Definition Status_internal (m : string) : Status := {| st_code := Internal; st_message := m |}.
Definition Status_resource_exhausted (m : string) : Status := {| st_code := ResourceExhausted; st_message := m |}.
Definition Status_unavailable (m : string) : Status := {| st_code := Unavailable; st_message := m |}.

(** ** The trace *)

(** A recorded metric, by the function of [metrics.rs] that records it. *)
Inductive Metric :=
| MRequest
| MImmediateResponse
| MBodySizeRejection
| MLocalReply (status_class : string)
| MInvalidArgument (reason detail : string).

(** A call into the filter pipeline. *)
Inductive FilterCall :=
| CallRequest
| CallRequestBody
| CallSelectedUpstreamRequestBody
| CallResponse
| CallResponseBody.

Inductive Event :=
| EMetric (m : Metric)
| ECall (c : FilterCall)
| EWarnUnapplied (is_request : bool) (sets removes : Z).

#[export] Instance Metric_eq_dec : EqDecision Metric.
Proof. solve_decision. Defined.
#[export] Instance FilterCall_eq_dec : EqDecision FilterCall.
Proof. solve_decision. Defined.
#[export] Instance Event_eq_dec : EqDecision Event.
Proof. solve_decision. Defined.

(** How often an event occurs. *)
Definition count_event (e : Event) (log : list Event) : nat := count_occ Event_eq_dec log e.

(** ** The world of one stream

    [g_log] is what this stream did, in order; [g_env] is whatever the pipeline keeps
    outside the filter context (key-value stores, clocks, upstream connections);
    [g_warned] is [STREAMED_HEADER_MUTATIONS], a process-wide latch. *)
Record Glob (E : Type) := {
  g_log : list Event;
  g_env : E;
  g_warned : bool;
}.
Arguments g_log {E}.
Arguments g_env {E}.
Arguments g_warned {E}.
Arguments Build_Glob {E}.

Definition log_event {E} (e : Event) (g : Glob E) : Glob E :=
  {| g_log := g_log g ++ [e]; g_env := g_env g; g_warned := g_warned g |}.
Definition with_env {E} (v : E) (g : Glob E) : Glob E :=
  {| g_log := g_log g; g_env := v; g_warned := g_warned g |}.
Definition with_warned {E} (b : bool) (g : Glob E) : Glob E :=
  {| g_log := g_log g; g_env := g_env g; g_warned := b |}.

(** ** The monad *)

Definition M (E S A : Type) : Type := S -> Glob E -> result Status A * S * Glob E.

Section Monad.
Context {E S : Type}.

Definition ret {A} (a : A) : M E S A := fun s g => (Ok a, s, g).
Definition fail {A} (e : Status) : M E S A := fun s g => (Err e, s, g).
Definition lift {A} (r : result Status A) : M E S A := fun s g => (r, s, g).
Definition bind {A B} (m : M E S A) (f : A -> M E S B) : M E S B :=
  fun s g =>
    match m s g with
    | (Ok a, s', g') => f a s' g'
    | (Err e, s', g') => (Err e, s', g')
    end.
Definition get : M E S S := fun s g => (Ok s, s, g).
Definition modify (f : S -> S) : M E S unit := fun s g => (Ok tt, f s, g).
Definition emit (e : Event) : M E S unit := fun s g => (Ok tt, s, log_event e g).
Definition get_env : M E S E := fun s g => (Ok (g_env g), s, g).
Definition put_env (v : E) : M E S unit := fun s g => (Ok tt, s, with_env v g).
Definition get_warned : M E S bool := fun s g => (Ok (g_warned g), s, g).
Definition put_warned (b : bool) : M E S unit := fun s g => (Ok tt, s, with_warned b g).

(** [match m.await { Ok(a) => .., Err(e) => .. }]: run [m] and reify its outcome. *)
Definition attempt {A} (m : M E S A) : M E S (result Status A) :=
  fun s g => let '(r, s', g') := m s g in (Ok r, s', g').
End Monad.

(** Run an operation of a sub-object ([self.field.method(..)]). *)
Definition zoom {E S T A} (get_field : S -> T) (set_field : T -> S -> S) (m : M E T A) : M E S A :=
  fun s g => let '(r, t, g') := m (get_field s) g in (r, set_field t s, g').

Notation "'let?' x := m 'in' k" := (bind m (fun x => k))
  (at level 10, x name, m at level 200, k at level 200) : praxis_scope.
Notation "'let?' ( x , y ) := m 'in' k" := (bind m (fun p => match p with (x, y) => k end))
  (at level 10, x name, y name, m at level 200, k at level 200) : praxis_scope.
Notation "'let?' ( x , y , z ) := m 'in' k" := (bind m (fun p => match p with (x, y, z) => k end))
  (at level 10, x name, y name, z name, m at level 200, k at level 200) : praxis_scope.
Notation "'let?' ( x , ( y , z ) ) := m 'in' k" := (bind m (fun p => match p with (x, (y, z)) => k end))
  (at level 10, x name, y name, z name, m at level 200, k at level 200) : praxis_scope.
Notation "m ;;; k" := (bind m (fun _ : unit => k))
  (at level 100, right associativity) : praxis_scope.

(** ** Postconditions

    [wp m Q s g]: running [m] from [s] and [g] ends in a result, state and world
    satisfying [Q]. *)
Definition wp {E S A} (m : M E S A) (Q : result Status A -> S -> Glob E -> Prop) : S -> Glob E -> Prop :=
  fun s g => match m s g with (r, s', g') => Q r s' g' end.

Section Wp.
Context {E S : Type}.
Implicit Types (s : S) (g : Glob E).

Lemma wp_ret {A} (a : A) Q s g : Q (Ok a) s g -> wp (ret a) Q s g.
Proof. done. Qed.

Lemma wp_fail {A} e (Q : result Status A -> S -> Glob E -> Prop) s g : Q (Err e) s g -> wp (fail e) Q s g.
Proof. done. Qed.

Lemma wp_lift {A} (r : result Status A) Q s g : Q r s g -> wp (lift r) Q s g.
Proof. done. Qed.

Lemma wp_bind {A B} (m : M E S A) (f : A -> M E S B) Q s g :
  wp m (fun r s' g' => match r with Ok a => wp (f a) Q s' g' | Err e => Q (Err e) s' g' end) s g ->
  wp (bind m f) Q s g.
Proof. unfold wp, bind. by destruct (m s g) as [[[a|e] s'] g']. Qed.

Lemma wp_get Q s g : Q (Ok s) s g -> wp get Q s g.
Proof. done. Qed.

Lemma wp_modify f Q s g : Q (Ok tt) (f s) g -> wp (modify f) Q s g.
Proof. done. Qed.

Lemma wp_emit e Q s g : Q (Ok tt) s (log_event e g) -> wp (emit e) Q s g.
Proof. done. Qed.

Lemma wp_get_env Q s g : Q (Ok (g_env g)) s g -> wp get_env Q s g.
Proof. done. Qed.

Lemma wp_put_env v Q s g : Q (Ok tt) s (with_env v g) -> wp (put_env v) Q s g.
Proof. done. Qed.

Lemma wp_get_warned Q s g : Q (Ok (g_warned g)) s g -> wp get_warned Q s g.
Proof. done. Qed.

Lemma wp_put_warned b Q s g : Q (Ok tt) s (with_warned b g) -> wp (put_warned b) Q s g.
Proof. done. Qed.

Lemma wp_attempt {A} (m : M E S A) Q s g : wp m (fun r => Q (Ok r)) s g -> wp (attempt m) Q s g.
Proof. unfold wp, attempt. by destruct (m s g) as [[r s'] g']. Qed.

Lemma wp_zoom {T A} gf sf (m : M E T A) (Q : result Status A -> S -> Glob E -> Prop) s g :
  wp m (fun r t => Q r (sf t s)) (gf s) g -> wp (zoom gf sf m) Q s g.
Proof. unfold wp, zoom. by destruct (m (gf s) g) as [[r t] g']. Qed.

Lemma wp_mono {A} (m : M E S A) (P Q : result Status A -> S -> Glob E -> Prop) s g :
  wp m P s g -> (forall r s' g', P r s' g' -> Q r s' g') -> wp m Q s g.
Proof. unfold wp. destruct (m s g) as [[r s'] g']. auto. Qed.

Lemma wp_and {A} (m : M E S A) (P Q : result Status A -> S -> Glob E -> Prop) s g :
  wp m P s g -> wp m Q s g -> wp m (fun r s' g' => P r s' g' /\ Q r s' g') s g.
Proof. unfold wp. destruct (m s g) as [[r s'] g']. auto. Qed.

(** From a run to its postcondition. *)
Lemma wp_run {A} (m : M E S A) Q s g r s' g' : wp m Q s g -> m s g = (r, s', g') -> Q r s' g'.
Proof. unfold wp. intros H Hm. by rewrite Hm in H. Qed.
End Wp.

Create HintDb wp discriminated.
#[export] Hint Constants Opaque : wp.
#[export] Hint Resolve wp_ret wp_fail wp_lift wp_get wp_modify wp_emit wp_get_env wp_put_env
  wp_get_warned wp_put_warned : wp.

(** One symbolic step through a handler. *)
Ltac wp_step :=
  match goal with
  | |- wp (bind _ _) _ _ _ => apply wp_bind
  | |- wp (ret _) _ _ _ => apply wp_ret
  | |- wp (fail _) _ _ _ => apply wp_fail
  | |- wp (lift _) _ _ _ => apply wp_lift
  | |- wp get _ _ _ => apply wp_get
  | |- wp (modify _) _ _ _ => apply wp_modify
  | |- wp (emit _) _ _ _ => apply wp_emit
  | |- wp get_env _ _ _ => apply wp_get_env
  | |- wp (put_env _) _ _ _ => apply wp_put_env
  | |- wp get_warned _ _ _ => apply wp_get_warned
  | |- wp (put_warned _) _ _ _ => apply wp_put_warned
  | |- wp (attempt _) _ _ _ => apply wp_attempt
  | |- wp (zoom _ _ _) _ _ _ => apply wp_zoom
  end.

(** Case analysis on the program's next branch. *)
Ltac wp_case :=
  match goal with
  | |- wp (match ?x with _ => _ end) _ _ _ => let H := fresh "Hc" in destruct x eqn:H
  | |- wp (if ?x then _ else _) _ _ _ => let H := fresh "Hc" in destruct x eqn:H
  | |- match ?x with Ok _ => _ | Err _ => _ end => let H := fresh "Hr" in destruct x eqn:H
  end.

(** Apply a specification lemma to the next call and continue with what it gives. *)
Ltac wp_call L := eapply wp_mono; [eapply L | cbv beta; intros ? ? ? ?].
