(* ===== verification/IpAddr.v ===== *)
(** * std::net::IpAddr parsing

    [str::parse::<IpAddr>] as the standard library's recursive-descent [Parser] does
    it: a reader takes the remaining bytes and returns a value with what is left, and
    leaves its input alone when it fails. *)

From S2P Require Import Prelude RustStd.

Inductive IpAddr :=
| IpV4 (octets : list Z)
| IpV6 (groups : list Z).

Definition reader (A : Type) := bytes -> option (A * bytes).

Definition read_given_char (c : ascii) : reader unit := fun s =>
  match s with
  | x :: s' => if decide (x = c) then Some (tt, s') else None
  | [] => None
  end.

(** [char::to_digit]. *)
Definition to_digit (radix : Z) (a : ascii) : option Z :=
  let v := byte_val a in
  let d := if between 48 v 57 then v - 48
           else if between 97 v 122 then v - 97 + 10
           else if between 65 v 90 then v - 65 + 10
           else radix in
  if d <? radix then Some d else None.

(** The digit loop of [read_number]; more than [max_digits] digits is an error. *)
Fixpoint read_digits (radix : Z) (left : nat) (acc : Z) (count : nat) (s : bytes)
  : option (Z * nat * bytes) :=
  match s with
  | a :: s' =>
      match to_digit radix a with
      | Some d =>
          match left with
          | O => None
          | S left' => read_digits radix left' (acc * radix + d) (S count) s'
          end
      | None => Some (acc, count, s)
      end
  | [] => Some (acc, count, s)
  end.

Definition read_number (radix : Z) (max_digits : nat) (allow_zero_prefix : bool) (max : Z) : reader Z :=
  fun s =>
    let has_leading_zero := match s with a :: _ => bool_decide (a = "0"%char) | [] => false end in
    match read_digits radix max_digits 0 0 s with
    | None => None
    | Some (v, count, s') =>
        if (count =? 0)%nat then None
        else if negb allow_zero_prefix && has_leading_zero && (1 <? count)%nat then None
        else if v <=? max then Some (v, s') else None
    end.

(** [read_separator]: the separator precedes every element but the first. *)
Definition read_separator {A} (sep : ascii) (index : nat) (r : reader A) : reader A := fun s =>
  match index with
  | O => r s
  | S _ => match read_given_char sep s with
           | Some (_, s') => r s'
           | None => None
           end
  end.

Fixpoint read_octets (index left : nat) (s : bytes) : option (list Z * bytes) :=
  match left with
  | O => Some ([], s)
  | S l =>
      match read_separator "."%char index (read_number 10 3 false 255) s with
      | Some (o, s') =>
          match read_octets (S index) l s' with
          | Some (os, s'') => Some (o :: os, s'')
          | None => None
          end
      | None => None
      end
  end.

Definition read_ipv4_addr : reader (list Z) := read_octets 0 4.

(** [read_groups]: up to [left] 16-bit groups, the last two possibly an embedded IPv4
    address; the groups read, whether they ended in one, and the rest. *)
Fixpoint read_groups (index left : nat) (s : bytes) : list Z * bool * bytes :=
  match left with
  | O => ([], false, s)
  | S l =>
      let group :=
        match read_separator ":"%char index (read_number 16 4 true 65535) s with
        | Some (g, s') =>
            let '(gs, v4, s'') := read_groups (S index) l s' in (g :: gs, v4, s'')
        | None => ([], false, s)
        end in
      match l with
      | O => group
      | S _ =>
          match read_separator ":"%char index read_ipv4_addr s with
          | Some ([a; b; c; d], s') => ([a * 256 + b; c * 256 + d], true, s')
          | _ => group
          end
      end
  end.

Definition read_ipv6_addr : reader (list Z) := fun s =>
  let '(head, head_ipv4, s1) := read_groups 0 8 s in
  if (length head =? 8)%nat then Some (head, s1)
  else if head_ipv4 then None
  else match read_given_char ":"%char s1 with
       | None => None
       | Some (_, s2) =>
           match read_given_char ":"%char s2 with
           | None => None
           | Some (_, s3) =>
               let limit := (8 - (length head + 1))%nat in
               let '(tail, _, s4) := read_groups 0 limit s3 in
               Some (head ++ replicate (8 - length head - length tail) 0 ++ tail, s4)
           end
       end.

(** [str::parse::<IpAddr>]: IPv4 first, then IPv6, and the whole input consumed. *)
Definition parse_ip_addr (s : string) : option IpAddr :=
  let b := as_bytes s in
  match read_ipv4_addr b with
  | Some (o, rest) => match rest with [] => Some (IpV4 o) | _ => None end
  | None =>
      match read_ipv6_addr b with
      | Some (g, []) => Some (IpV6 g)
      | _ => None
      end
  end.
