(* ===== verification/Extern.v ===== *)
(** * Interfaces of the crates the server calls

    The [http] crate, the Praxis filter framework ([praxis_filter], [praxis_core]) and
    [serde_yaml] are not part of this repository, so the model takes them as
    parameters: a class of types and operations per crate, and a class of laws that
    states the documented behaviour some theorems rely on. [Concrete] gives an
    instance of each, so no law is vacuous. *)

From S2P Require Import Prelude RustStd Effect Proto IpAddr.

(** ** The http crate *)

Class HttpLib := {
  HName : Type;
  HValue : Type;
  HMap : Type;
  Method : Type;
  Uri : Type;
  StatusCode : Type;

  HName_eq_dec :: EqDecision HName;
  HValue_eq_dec :: EqDecision HValue;
  Method_eq_dec :: EqDecision Method;

  (** [str::parse::<HeaderName>], [HeaderName::as_str], the [HOST] constant *)
  hname_parse : string -> option HName;
  hname_as_str : HName -> string;
  hname_host : HName;

  (** [HeaderValue::from_str], [from_bytes], [as_bytes], [to_str] *)
  hvalue_from_str : string -> option HValue;
  hvalue_from_bytes : bytes -> option HValue;
  hvalue_as_bytes : HValue -> bytes;
  hvalue_to_str : HValue -> option string;

  (** [HeaderMap]: [new], [append], [insert], [contains_key], [keys], [get_all],
      [get] by string, [iter] *)
  hmap_new : HMap;
  hmap_append : HMap -> HName -> HValue -> HMap;
  hmap_insert : HMap -> HName -> HValue -> HMap;
  hmap_contains_key : HMap -> HName -> bool;
  hmap_keys : HMap -> list HName;
  hmap_get_all : HMap -> HName -> list HValue;
  hmap_get_str : HMap -> string -> option HValue;
  hmap_iter : HMap -> list (HName * HValue);

  (** [Method::GET] and [parse]; [Uri] parsing and [from_static("/")]; [StatusCode] *)
  method_get : Method;
  method_parse : string -> option Method;
  uri_parse : string -> option Uri;
  uri_root : Uri;
  status_from_u16 : Z -> option StatusCode;
  status_ok : StatusCode;
}.

(** Names are kept in lower case. A [HeaderMap] is a multimap: [append] adds a value after the ones a name has,
    [insert] replaces them, [keys] yields each name that has a value once. *)
Class HttpLaws `{HttpLib} := {
  hname_as_str_inj n n' : hname_as_str n = hname_as_str n' -> n = n';
  hname_parse_as_str s n : hname_parse s = Some n -> hname_as_str n = to_ascii_lowercase s;
  hname_host_as_str : hname_as_str hname_host = "host"%string;
  hmap_get_all_new n : hmap_get_all hmap_new n = [];
  hmap_get_all_append m n v n' :
    hmap_get_all (hmap_append m n v) n' =
    if decide (n = n') then hmap_get_all m n' ++ [v] else hmap_get_all m n';
  hmap_get_all_insert m n v n' :
    hmap_get_all (hmap_insert m n v) n' =
    if decide (n = n') then [v] else hmap_get_all m n';
  hmap_contains_key_spec m n : hmap_contains_key m n = true <-> hmap_get_all m n <> [];
  hmap_keys_spec m n : n ∈ hmap_keys m <-> hmap_get_all m n <> [];
  hmap_keys_nodup m : NoDup (hmap_keys m);
  hmap_get_str_spec m s :
    hmap_get_str m s =
    match hname_parse s with Some n => head (hmap_get_all m n) | None => None end;
  hvalue_from_bytes_as_bytes b v : hvalue_from_bytes b = Some v -> hvalue_as_bytes v = b;
  hvalue_from_str_as_bytes s v : hvalue_from_str s = Some v -> hvalue_as_bytes v = as_bytes s;
  hvalue_as_bytes_inj v v' : hvalue_as_bytes v = hvalue_as_bytes v' -> v = v';
}.

(** ** praxis_filter *)

Section PraxisData.
Context `{HttpLib}.

(** [praxis_filter::Request], [Response]. *)
Record Request := {
  rq_headers : HMap;
  rq_method : Method;
  rq_uri : Uri;
}.

Record Response := {
  rs_headers : HMap;
  rs_status : StatusCode;
}.

(** [praxis_filter::Rejection] and [TerminalResponse], the fields the adapter reads. *)
Record Rejection := {
  rej_status : Z;
  rej_headers : list (string * string);
  rej_header_map : option HMap;
  rej_body : option bytes;
}.

Record TerminalResponse := {
  term_status : Z;
  term_headers : HMap;
  term_body : option bytes;
}.

(** [praxis_filter::FilterAction]; the source tells apart the two variants that
    short-circuit and treats every other one alike. *)
Inductive FilterAction :=
| FilterReject (r : Rejection)
| FilterTerminalResponse (t : TerminalResponse)
| FilterOther (tag : nat).

(** [praxis_filter::BodyMode]; only [StreamBuffer] is singled out. *)
Inductive FilterBodyMode :=
| FilterStream
| FilterStreamBuffer (max_bytes : option Z)
| FilterBodyModeOther (tag : nat).

(** The capability summary [FilterPipeline::body_capabilities] returns. *)
Record BodyCapabilities := {
  needs_request_body : bool;
  needs_response_body : bool;
  needs_selected_upstream_request_body : bool;
  any_selected_upstream_request_body_writer : bool;
  cap_response_body_mode : FilterBodyMode;
}.

(** [praxis_filter::HttpFilterContext]. [ctx_rest] stands for the fields that
    [build_filter_context] fills with constants and pipeline handles and that no code
    of this repository reads back: they live and die within one phase. [FS] is the type
    of a filter's private state ([Box<dyn Any>]). *)
Record HttpFilterContext (FS Rest : Type) := {
  ctx_client_addr : option IpAddr;
  ctx_cluster : option string;
  ctx_branch_iterations : gmap string Z;
  ctx_executed_filter_indices : list bool;
  ctx_filter_metadata : gmap string string;
  ctx_filter_state : gmap nat FS;
  ctx_extra_request_headers : list (string * string);
  ctx_request_headers_to_remove : list HName;
  ctx_request_headers_to_set : list (HName * HValue);
  ctx_rewritten_path : option string;
  ctx_request : Request;
  ctx_request_body_bytes : Z;
  ctx_request_body_mode : FilterBodyMode;
  ctx_response_body_bytes : Z;
  ctx_response_body_mode : FilterBodyMode;
  ctx_response_header : option Response;
  ctx_response_headers_modified : bool;
  ctx_upstream_reached : bool;
  ctx_rest : Rest;
}.
End PraxisData.

Arguments ctx_client_addr {H FS Rest}.
Arguments ctx_cluster {H FS Rest}.
Arguments ctx_branch_iterations {H FS Rest}.
Arguments ctx_executed_filter_indices {H FS Rest}.
Arguments ctx_filter_metadata {H FS Rest}.
Arguments ctx_filter_state {H FS Rest}.
Arguments ctx_extra_request_headers {H FS Rest}.
Arguments ctx_request_headers_to_remove {H FS Rest}.
Arguments ctx_request_headers_to_set {H FS Rest}.
Arguments ctx_rewritten_path {H FS Rest}.
Arguments ctx_request {H FS Rest}.
Arguments ctx_request_body_bytes {H FS Rest}.
Arguments ctx_request_body_mode {H FS Rest}.
Arguments ctx_response_body_bytes {H FS Rest}.
Arguments ctx_response_body_mode {H FS Rest}.
Arguments ctx_response_header {H FS Rest}.
Arguments ctx_response_headers_modified {H FS Rest}.
Arguments ctx_upstream_reached {H FS Rest}.
Arguments ctx_rest {H FS Rest}.

(** The filter framework. Every execution entry point may change the context, the
    body it is given, and [Env], the state the pipeline keeps elsewhere; a failing filter
    gives the text of its error. *)
Class PraxisFilter `{HttpLib} := {
  FilterState : Type;
  CtxRest : Type;
  Env : Type;
  FilterPipeline : Type;

  fresh_rest : FilterPipeline -> Env -> CtxRest;
  body_capabilities : FilterPipeline -> BodyCapabilities;
  selected_upstream_request_body_limit : FilterPipeline -> Z;

  execute_http_request :
    FilterPipeline -> HttpFilterContext FilterState CtxRest -> Env ->
    result string FilterAction * HttpFilterContext FilterState CtxRest * Env;
  execute_http_response :
    FilterPipeline -> HttpFilterContext FilterState CtxRest -> Env ->
    result string FilterAction * HttpFilterContext FilterState CtxRest * Env;
  execute_http_request_body :
    FilterPipeline -> HttpFilterContext FilterState CtxRest -> option bytes -> bool -> Env ->
    result string FilterAction * HttpFilterContext FilterState CtxRest * option bytes * Env;
  execute_http_selected_upstream_request_body :
    FilterPipeline -> HttpFilterContext FilterState CtxRest -> option bytes -> Env ->
    result string FilterAction * HttpFilterContext FilterState CtxRest * option bytes * Env;
  execute_http_response_body :
    FilterPipeline -> HttpFilterContext FilterState CtxRest -> option bytes -> bool -> Env ->
    result string FilterAction * HttpFilterContext FilterState CtxRest * option bytes * Env;

  (** [Rejection::status] and [Rejection::with_body] *)
  Rejection_status : Z -> Rejection;
  Rejection_with_body : Rejection -> bytes -> Rejection;
}.

(** [Rejection::status(s)] carries that status and nothing else; [with_body] sets the
    body. *)
Class PraxisFilterLaws `{PraxisFilter} := {
  Rejection_status_spec s :
    Rejection_status s =
    {| rej_status := s; rej_headers := []; rej_header_map := None; rej_body := None |};
  Rejection_with_body_spec r b :
    Rejection_with_body r b =
    {| rej_status := rej_status r; rej_headers := rej_headers r;
       rej_header_map := rej_header_map r; rej_body := Some b |};
}.

(** The context type at the framework in scope. *)
Abbreviation Ctx := (HttpFilterContext FilterState CtxRest).

(** ** serde_yaml and praxis_core::config *)

(** [serde_yaml::Value] as the source reads it: string-keyed lookup in a value,
    [as_mapping], lookup in a mapping by a string value, [as_bool]. *)
Class SerdeYaml := {
  YValue : Type;
  YMapping : Type;
  yvalue_get : YValue -> string -> option YValue;
  yvalue_as_mapping : YValue -> option YMapping;
  ymapping_get : YMapping -> string -> option YValue;
  yvalue_as_bool : YValue -> option bool;
}.

Section PraxisConfig.
Context `{SerdeYaml}.

(** The fields of [praxis_core]'s request condition that the selector inspects; the
    options it only tests for presence carry no payload. *)
Record WhenCondition := {
  wc_grpc : bool;
  wc_path : bool;
  wc_path_prefix : bool;
  wc_methods : bool;
  wc_bound_upstream : bool;
  wc_selected_upstream : bool;
  wc_headers : option (gmap string string);
}.

(** [Condition::When] and every other variant. *)
Inductive Condition :=
| When (c : WhenCondition)
| OtherCondition (tag : nat).

Record FilterEntry := {
  fe_filter_type : string;
  fe_config : YValue;
  fe_conditions : list Condition;
  fe_response_conditions : list nat;
}.

Record FilterChainConfig := {
  fc_name : string;
  fc_filters : list FilterEntry;
}.
End PraxisConfig.
