(* ===== verification/Concrete.v ===== *)
(** * Concrete instances of the interfaces

    A small http crate (names are lower-case strings, a header map is the list of its
    entries), a filter framework whose pipeline is a record of functions, and a YAML value
    type. They satisfy the laws of [Extern], so theorems under those laws are not vacuous,
    and the witnesses of the development evaluate on them. *)

From S2P Require Import Prelude RustStd Effect Proto IpAddr Extern.

(** ** http *)

(** A name: a non-empty string without separators, in lower case. *)
Definition token_char (a : ascii) : bool :=
  negb (bool_decide (a ∈ [":"; " "; "/"; ","; ";"]%char)) && (33 <=? byte_val a) && (byte_val a <=? 126).
Definition c_hname_parse (s : string) : option string :=
  if bool_decide (s = ""%string) then None
  else if forallb token_char (as_bytes s) then Some (to_ascii_lowercase s) else None.

(** A value: visible bytes, spaces and tabs. *)
Definition value_char (a : ascii) : bool :=
  (32 <=? byte_val a) && negb (byte_val a =? 127) || (byte_val a =? 9).
Definition c_hvalue_from_bytes (b : bytes) : option bytes := if forallb value_char b then Some b else None.
Definition c_hvalue_to_str (b : bytes) : option string :=
  if forallb (fun a => (byte_val a <? 127) && value_char a) b then Some (of_bytes b) else None.

Definition entries := list (string * bytes).
Definition e_get_all (m : entries) (n : string) : list bytes :=
  map snd (List.filter (fun p => String.eqb (fst p) n) m).
Definition e_drop (m : entries) (n : string) : entries :=
  List.filter (fun p => negb (String.eqb (fst p) n)) m.
Definition e_keys (m : entries) : list string := remove_dups (map fst m).

#[export] Instance ConcreteHttp : HttpLib := {|
  HName := string;
  HValue := bytes;
  HMap := entries;
  Method := string;
  Uri := string;
  StatusCode := Z;
  HName_eq_dec := _;
  HValue_eq_dec := _;
  Method_eq_dec := _;
  hname_parse := c_hname_parse;
  hname_as_str := fun n => n;
  hname_host := "host"%string;
  hvalue_from_str := fun s => c_hvalue_from_bytes (as_bytes s);
  hvalue_from_bytes := c_hvalue_from_bytes;
  hvalue_as_bytes := fun v => v;
  hvalue_to_str := c_hvalue_to_str;
  hmap_new := [];
  hmap_append := fun m n v => m ++ [(n, v)];
  hmap_insert := fun m n v => e_drop m n ++ [(n, v)];
  hmap_contains_key := fun m n => negb (bool_decide (e_get_all m n = []));
  hmap_keys := e_keys;
  hmap_get_all := e_get_all;
  hmap_get_str := fun m s => match c_hname_parse s with Some n => head (e_get_all m n) | None => None end;
  hmap_iter := fun m => m;
  method_get := "GET"%string;
  method_parse := fun s => if bool_decide (s = ""%string) then None else Some s;
  uri_parse := fun s => if bool_decide (s = ""%string) then None else Some s;
  uri_root := "/"%string;
  status_from_u16 := fun c => if (100 <=? c) && (c <=? 999) then Some c else None;
  status_ok := 200;
|}.

Lemma e_get_all_app m k n : e_get_all (m ++ k) n = e_get_all m n ++ e_get_all k n.
Proof. unfold e_get_all. by rewrite List.filter_app, map_app. Qed.

Lemma e_get_all_drop m n n' : e_get_all (e_drop m n) n' = if decide (n = n') then [] else e_get_all m n'.
Proof.
  unfold e_get_all, e_drop. induction m as [|[k v] m IH]; simpl; [by case_decide|].
  destruct (String.eqb_spec k n) as [Hk|Hk]; simpl; rewrite ?IH; [|simpl];
    destruct (String.eqb_spec k n'), (decide (n = n')); simpl; rewrite ?IH; congruence.
Qed.

Lemma e_keys_spec m n : n ∈ e_keys m <-> e_get_all m n <> [].
Proof.
  unfold e_keys, e_get_all. rewrite elem_of_remove_dups.
  induction m as [|[k v] m IH]; simpl; [split; [by intros ?%elem_of_nil|done]|].
  rewrite elem_of_cons, IH. destruct (String.eqb_spec k n) as [->|Hk]; simpl.
  - split; auto.
  - split; [intros [->|?]; done|auto].
Qed.

#[export] Instance ConcreteHttpLaws : HttpLaws (H := ConcreteHttp).
Proof.
  constructor; cbn -[e_get_all e_keys e_drop c_hvalue_from_bytes c_hname_parse to_ascii_lowercase].
  - done.
  - intros s n. unfold c_hname_parse. case_bool_decide; [done|]. by destruct (forallb _ _); intros [= <-].
  - done.
  - done.
  - intros m n v n'. rewrite e_get_all_app. unfold e_get_all at 2. simpl.
    destruct (String.eqb_spec n n'); case_decide; try done; by rewrite app_nil_r.
  - intros m n v n'. rewrite e_get_all_app, e_get_all_drop. unfold e_get_all at 2. simpl.
    destruct (String.eqb_spec n n'); case_decide; try done; by rewrite app_nil_r.
  - intros m n. case_bool_decide as E; [split; [done|intros HH; by destruct HH]|done].
  - apply e_keys_spec.
  - intros m. apply NoDup_remove_dups.
  - done.
  - intros b v. unfold c_hvalue_from_bytes. by destruct (forallb _ b); intros [= <-].
  - intros s v. unfold c_hvalue_from_bytes. by destruct (forallb _ _); intros [= <-].
  - done.
Qed.

(** ** The filter framework *)

Abbreviation PCtx := (HttpFilterContext nat unit).

Record DemoPipeline := {
  dp_caps : BodyCapabilities;
  dp_limit : Z;
  dp_request : PCtx -> result string FilterAction * PCtx;
  dp_response : PCtx -> result string FilterAction * PCtx;
  dp_request_body : PCtx -> option bytes -> bool -> result string FilterAction * PCtx * option bytes;
  dp_upstream_body : PCtx -> option bytes -> result string FilterAction * PCtx * option bytes;
  dp_response_body : PCtx -> option bytes -> bool -> result string FilterAction * PCtx * option bytes;
}.

(** The environment counts the calls. *)
#[export] Instance ConcretePraxis : PraxisFilter (H := ConcreteHttp) := {|
  FilterState := nat;
  CtxRest := unit;
  Env := nat;
  FilterPipeline := DemoPipeline;
  fresh_rest := fun _ _ => tt;
  body_capabilities := dp_caps;
  selected_upstream_request_body_limit := dp_limit;
  execute_http_request := fun p c e => (dp_request p c, S e);
  execute_http_response := fun p c e => (dp_response p c, S e);
  execute_http_request_body := fun p c b eos e => (dp_request_body p c b eos, S e);
  execute_http_selected_upstream_request_body := fun p c b e => (dp_upstream_body p c b, S e);
  execute_http_response_body := fun p c b eos e => (dp_response_body p c b eos, S e);
  Rejection_status := fun s =>
    {| rej_status := s; rej_headers := []; rej_header_map := None; rej_body := None |};
  Rejection_with_body := fun r b =>
    {| rej_status := rej_status r; rej_headers := rej_headers r;
       rej_header_map := rej_header_map r; rej_body := Some b |};
|}.

#[export] Instance ConcretePraxisLaws : PraxisFilterLaws (H0 := ConcretePraxis).
Proof. by constructor. Qed.

(** Capabilities by the three request-side flags and the response flag. *)
Definition demo_caps (rq rs sel writer : bool) : BodyCapabilities :=
  {| needs_request_body := rq; needs_response_body := rs;
     needs_selected_upstream_request_body := sel;
     any_selected_upstream_request_body_writer := writer;
     cap_response_body_mode := FilterStream |}.

(** A pipeline that accepts everything and changes nothing. *)
Definition pass_pipeline (c : BodyCapabilities) : DemoPipeline :=
  {| dp_caps := c; dp_limit := 1024;
     dp_request := fun ctx => (Ok (FilterOther 0), ctx);
     dp_response := fun ctx => (Ok (FilterOther 0), ctx);
     dp_request_body := fun ctx b _ => (Ok (FilterOther 0), ctx, b);
     dp_upstream_body := fun ctx b => (Ok (FilterOther 0), ctx, b);
     dp_response_body := fun ctx b _ => (Ok (FilterOther 0), ctx, b) |}.

(** The world at the start of a stream. *)
Definition demo_world : Glob nat := {| g_log := []; g_env := 0%nat; g_warned := false |}.

(** ** YAML *)

Inductive Yaml :=
| YBool (b : bool)
| YStr (s : string)
| YMap (l : list (string * Yaml)).

Fixpoint assoc {A} (k : string) (l : list (string * A)) : option A :=
  match l with
  | [] => None
  | (k', v) :: l' => if String.eqb k' k then Some v else assoc k l'
  end.

#[export] Instance ConcreteYaml : SerdeYaml := {|
  YValue := Yaml;
  YMapping := list (string * Yaml);
  yvalue_get := fun v k => match v with YMap l => assoc k l | _ => None end;
  yvalue_as_mapping := fun v => match v with YMap l => Some l | _ => None end;
  ymapping_get := fun m k => assoc k m;
  yvalue_as_bool := fun v => match v with YBool b => Some b | _ => None end;
|}.
