(* ===== verification/Metrics.v ===== *)
(** * Metric recording ([src/metrics.rs])

    The [record_*] functions and the labels they attach. A recorded metric is an event of
    the stream's trace; a counter's value is how often its event occurs. *)

From S2P Require Import Prelude Effect.

Section Record_.
Context {E S : Type}.

(** [status_class]: the bounded label of an HTTP status. *)
Definition status_class (status : option Z) : string :=
  match status with
  | Some c =>
      if (200 <=? c) && (c <=? 299) then "2xx"%string
      else if (300 <=? c) && (c <=? 399) then "3xx"%string
      else if (400 <=? c) && (c <=? 499) then "4xx"%string
      else if (500 <=? c) && (c <=? 599) then "5xx"%string
      else "other"%string
  | None => "other"%string
  end.

Definition record_request : M E S unit := emit (EMetric MRequest).
Definition record_immediate_response : M E S unit := emit (EMetric MImmediateResponse).
Definition record_body_size_rejection : M E S unit := emit (EMetric MBodySizeRejection).
Definition record_local_reply (status : option Z) : M E S unit :=
  emit (EMetric (MLocalReply (status_class status))).
Definition record_invalid_argument (reason detail : string) : M E S unit :=
  emit (EMetric (MInvalidArgument reason detail)).
End Record_.

(** The name and labels a metric is exported under. *)
Definition metric_key (m : Metric) : string * list (string * string) :=
  match m with
  | MRequest => ("praxis_extproc_requests_total", [])
  | MImmediateResponse => ("praxis_extproc_immediate_responses_total", [])
  | MBodySizeRejection => ("praxis_extproc_body_size_rejections_total", [])
  | MLocalReply c => ("praxis_extproc_local_replies_total", [("status_class", c)])
  | MInvalidArgument r d => ("praxis_extproc_invalid_argument_total", [("reason", r); ("detail", d)])
  end%string.
