(* ===== verification/Response.v ===== *)
(** * Response builders and body chunking ([src/response.rs])

    One definition per builder; [body_responses_streamed] keeps the source's chunking
    loop, with fuel that its offset provably never exhausts. *)

From S2P Require Import Prelude RustStd Proto.

(** ** Constants and body modes *)

Definition BODY_CHUNK_LIMIT : Z := 63488.

Inductive BodyMode := None_ | Streamed | Buffered | BufferedPartial | FullDuplexStreamed.

#[export] Instance BodyMode_eq_dec : EqDecision BodyMode.
Proof. solve_decision. Defined.

Definition BodyMode_default : BodyMode := Buffered.

(** [mode as i32]. *)
Definition BodyMode_as_i32 (m : BodyMode) : Z :=
  match m with None_ => 0 | Streamed => 1 | Buffered => 2 | BufferedPartial => 3 | FullDuplexStreamed => 4 end.

(** [BodyMode::try_from(i32)]. *)
Definition BodyMode_try_from (value : Z) : result string BodyMode :=
  if value =? 0 then Ok None_
  else if value =? 1 then Ok Streamed
  else if value =? 2 then Ok Buffered
  else if value =? 4 then Ok FullDuplexStreamed
  else if value =? 3 then Err "BodySendMode::BUFFERED_PARTIAL (3) is not yet implemented"%string
  else Err ("unknown BodySendMode value " +:+ of_bytes (display_int value))%string.

(** ** Utilities *)

Definition CommonResponse_default : CommonResponse :=
  {| cr_status := Continue; cr_header_mutation := None; cr_body_mutation := None;
     cr_trailers := None; cr_clear_route_cache := false |}.

(** Whether one entry of a mutation is something else than our [content-length]. *)
Definition not_content_length (h : HeaderValueOption) : bool :=
  match hvo_header h with
  | None => true
  | Some hv => negb (eq_ignore_ascii_case (hv_key hv) "content-length")
  end.

Definition mutation_affects_routing (mutation : option HeaderMutation) : bool :=
  match mutation with
  | None => false
  | Some m =>
      negb (bool_decide (remove_headers m = [])) || existsb not_content_length (set_headers m)
  end.

(** A response carrying [r] and no mode override. *)
Definition respond (r : RespMsg) : ProcessingResponse :=
  {| prs_response := Some r; prs_mode_override := None |}.

(** ** Header responses *)

Definition request_headers (mutation : option HeaderMutation) : ProcessingResponse :=
  respond (RespRequestHeaders (Some
    {| cr_status := Continue; cr_header_mutation := mutation; cr_body_mutation := None;
       cr_trailers := None; cr_clear_route_cache := mutation_affects_routing mutation |})).

Definition response_headers (mutation : option HeaderMutation) : ProcessingResponse :=
  respond (RespResponseHeaders (Some
    {| cr_status := Continue; cr_header_mutation := mutation; cr_body_mutation := None;
       cr_trailers := None; cr_clear_route_cache := false |})).

(** [set_response_mode_streamed]: the changed response and whether it was changed. *)
Definition set_response_mode_streamed (response : ProcessingResponse) (request_body_mode : BodyMode)
  : ProcessingResponse * bool :=
  match prs_response response with
  | Some (RespRequestHeaders _) =>
      ({| prs_response := prs_response response;
          prs_mode_override := Some
            {| pm_request_header_mode := 0;
               pm_response_header_mode := HeaderSendMode_Send;
               pm_request_body_mode := BodyMode_as_i32 request_body_mode;
               pm_response_body_mode := BodySendMode_Streamed;
               pm_request_trailer_mode := 0;
               pm_response_trailer_mode := 0 |} |}, true)
  | _ => (response, false)
  end.

(** ** Body responses *)

Definition wrap_body_response (common : CommonResponse) (is_request : bool) : ProcessingResponse :=
  respond (if is_request then RespRequestBody (Some common) else RespResponseBody (Some common)).

Definition make_body_mutation (data : bytes) : BodyMutation := MutationBody data.

Definition make_streamed_response (chunk : bytes) (end_of_stream : bool)
  (header_mutation : option HeaderMutation) (is_request : bool) : ProcessingResponse :=
  wrap_body_response
    {| cr_status := Continue;
       cr_header_mutation := header_mutation;
       cr_body_mutation :=
         Some (MutationStreamedResponse {| sb_body := chunk; sb_end_of_stream := end_of_stream |});
       cr_trailers := None;
       cr_clear_route_cache := is_request && mutation_affects_routing header_mutation |}
    is_request.

(** [data.get(lo..hi)]. *)
Definition slice_get (data : bytes) (lo hi : Z) : option bytes :=
  if (lo <=? hi) && (hi <=? len data)
  then Some (take (Z.to_nat (hi - lo)) (drop (Z.to_nat lo) data)) else None.

(** The [while offset < data.len()] loop of [body_responses_streamed]. [mutation.take()]
    happens in the first round only, the one at offset 0. *)
Fixpoint streamed_loop (fuel : nat) (limit offset : Z) (data : bytes) (mutation : option HeaderMutation)
  (is_request end_of_stream : bool) : list ProcessingResponse :=
  match fuel with
  | O => []
  | S f =>
      if offset <? len data then
        let end_ := Z.min (offset + limit) (len data) in
        let eos := end_of_stream && (end_ =? len data) in
        let chunk := default [] (slice_get data offset end_) in
        let header_mut := if offset =? 0 then mutation else None in
        let mutation := if offset =? 0 then None else mutation in
        make_streamed_response chunk eos header_mut is_request
          :: streamed_loop f limit end_ data mutation is_request end_of_stream
      else []
  end.

Definition body_responses_streamed (body : option bytes) (mutation : option HeaderMutation)
  (is_request end_of_stream : bool) : list ProcessingResponse :=
  match body with
  | Some ((_ :: _) as data) =>
      streamed_loop (S (length data)) BODY_CHUNK_LIMIT 0 data mutation is_request end_of_stream
  | _ => [make_streamed_response [] end_of_stream mutation is_request]
  end.

Definition body_responses (body : option bytes) (mutation : option HeaderMutation)
  (is_request : bool) (body_mode : BodyMode) (end_of_stream : bool) : list ProcessingResponse :=
  match body_mode with
  | FullDuplexStreamed => body_responses_streamed body mutation is_request end_of_stream
  | None_ | Streamed | Buffered | BufferedPartial =>
      [wrap_body_response
         {| cr_status := Continue;
            cr_header_mutation := mutation;
            cr_body_mutation := option_map make_body_mutation body;
            cr_trailers := None;
            cr_clear_route_cache := is_request && mutation_affects_routing mutation |}
         is_request]
  end.

Definition request_body (body : option bytes) (mutation : option HeaderMutation) (body_mode : BodyMode)
  (end_of_stream : bool) : list ProcessingResponse :=
  body_responses body mutation true body_mode end_of_stream.

Definition response_body (body : option bytes) (mutation : option HeaderMutation) (body_mode : BodyMode)
  (end_of_stream : bool) : list ProcessingResponse :=
  body_responses body mutation false body_mode end_of_stream.

(** ** Trailer and immediate responses *)

Definition request_trailers : ProcessingResponse :=
  respond (RespRequestTrailers {| tr_header_mutation := None |}).
Definition response_trailers : ProcessingResponse :=
  respond (RespResponseTrailers {| tr_header_mutation := None |}).

Definition immediate (imm : ImmediateResponse) : ProcessingResponse := respond (RespImmediateResponse imm).

Definition is_immediate (resp : ProcessingResponse) : bool :=
  match prs_response resp with Some (RespImmediateResponse _) => true | _ => false end.

Definition is_body (resp : ProcessingResponse) : bool :=
  match prs_response resp with
  | Some (RespRequestBody _) | Some (RespResponseBody _) => true
  | _ => false
  end.

(** ** What a batch of responses carries *)

(** The bytes and end-of-stream flag of a streamed body response. *)
Definition streamed_chunk (r : ProcessingResponse) : option (bytes * bool) :=
  match prs_response r with
  | Some (RespRequestBody (Some c)) | Some (RespResponseBody (Some c)) =>
      match cr_body_mutation c with
      | Some (MutationStreamedResponse s) => Some (sb_body s, sb_end_of_stream s)
      | _ => None
      end
  | _ => None
  end.

(** The header mutation a response carries. *)
Definition header_mutation_of (r : ProcessingResponse) : option HeaderMutation :=
  match prs_response r with
  | Some (RespRequestHeaders (Some c)) | Some (RespResponseHeaders (Some c))
  | Some (RespRequestBody (Some c)) | Some (RespResponseBody (Some c)) => cr_header_mutation c
  | _ => None
  end.

Definition streamed_bytes (rs : list ProcessingResponse) : bytes :=
  concat (map (fun r => match streamed_chunk r with Some (b, _) => b | None => [] end) rs).

(** ** Chunking *)

Lemma slice_get_spec data lo hi :
  0 <= lo <= hi -> hi <= len data ->
  slice_get data lo hi = Some (take (Z.to_nat (hi - lo)) (drop (Z.to_nat lo) data)).
Proof. intros. unfold slice_get. by rewrite !(proj2 (Z.leb_le _ _)) by lia. Qed.

Section Chunking.
Variable limit : Z.
Variable data : bytes.
Variables is_request end_of_stream : bool.
Hypothesis limit_pos : 0 < limit.

(** Chunks laid end to end give back what was left to send, none over the limit, and only
    the last may carry the flag. *)
Lemma streamed_loop_spec fuel offset mutation :
  0 <= offset <= len data -> (Z.to_nat (len data - offset) < fuel)%nat ->
  let rs := streamed_loop fuel limit offset data mutation is_request end_of_stream in
  streamed_bytes rs = drop (Z.to_nat offset) data /\
  (forall i r, rs !! i = Some r -> exists b,
     streamed_chunk r = Some (b, end_of_stream && (S i =? length rs)%nat) /\ 0 < len b <= limit) /\
  (offset < len data -> rs <> []).
Proof.
  revert offset mutation. induction fuel as [|f IH]; intros offset mutation Ho Hf; [lia|]. simpl.
  destruct (Z.ltb_spec offset (len data)) as [Hlt|Hge]; simpl.
  - set (end_ := Z.min (offset + limit) (len data)).
    rewrite (slice_get_spec data offset end_) by lia. simpl.
    destruct (IH end_ (if offset =? 0 then None else mutation)) as (IHb & IHc & IHn); [lia..|].
    set (rs := streamed_loop f limit end_ data _ is_request end_of_stream) in *.
    split; [|split; [|done]].
    + unfold streamed_bytes in *. simpl. rewrite IHb. destruct is_request; simpl;
        (replace (Z.to_nat end_) with (Z.to_nat offset + Z.to_nat (end_ - offset))%nat by lia;
         by rewrite <- drop_drop, take_drop).
    + intros [|i] r Hr.
      * injection Hr as <-. exists (take (Z.to_nat (end_ - offset)) (drop (Z.to_nat offset) data)).
        split; [|unfold len in *; rewrite length_take, length_drop; lia].
        assert ((end_ =? len data) = (1 =? S (length rs))%nat) as ->; [|by destruct is_request].
        destruct (Z.eqb_spec end_ (len data)) as [He|He].
        { assert (rs = []) as ->; [|done]. subst rs. destruct f; [done|]. simpl.
          by rewrite (proj2 (Z.ltb_ge _ _)) by lia. }
        destruct rs; [|done]. exfalso. apply IHn; [lia|done].
      * apply (IHc i r Hr).
  - split; [|split; [by intros i r; rewrite lookup_nil|lia]].
    unfold streamed_bytes; simpl. symmetry. apply drop_ge. unfold len in *. lia.
Qed.
End Chunking.

(** Full-duplex body responses reproduce the body exactly: the chunks concatenate to
    it, each holds between 1 and [BODY_CHUNK_LIMIT] bytes, and the end-of-stream flag is set on
    the last chunk if the source chunk had it and on no other. The loop always finishes. *)
Theorem body_responses_streamed_chunks (data : bytes) mutation is_request eos :
  data <> [] ->
  let rs := body_responses_streamed (Some data) mutation is_request eos in
  streamed_bytes rs = data /\ rs <> [] /\
  forall i r, rs !! i = Some r -> exists b,
    streamed_chunk r = Some (b, eos && (S i =? length rs)%nat) /\ 0 < len b <= BODY_CHUNK_LIMIT.
Proof.
  intros Hne. destruct data as [|a l]; [done|]. cbv zeta. unfold body_responses_streamed.
  destruct (streamed_loop_spec BODY_CHUNK_LIMIT (a :: l) is_request eos ltac:(done)
              (S (length (a :: l))) 0 mutation) as (Hb & Hc & Hn); [unfold len; lia..|].
  split; [exact Hb|]. split; [apply Hn; unfold len; simpl; lia|exact Hc].
Qed.

Lemma body_responses_streamed_chunks_witness :
  let rs := body_responses_streamed (Some ["a"; "b"]%char) None true true in
  ["a"; "b"]%char <> [] /\ streamed_bytes rs = ["a"; "b"]%char.
Proof.
  split; [discriminate|].
  exact (proj1 (body_responses_streamed_chunks ["a"; "b"]%char None true true ltac:(discriminate))).
Defined.
