(* ===== verification/Protocol.v ===== *)
(** * Protocol sequencing and configuration ([src/protocol.rs])

    The per-stream configuration Envoy sends, the phase-order tracker, the check on body
    messages in [NONE] mode, and the end-of-stream tracker. The theorems at the end say
    which message sequences the order tracker lets through and that a completed phase
    stays completed. *)

From S2P Require Import Prelude RustStd Proto Effect Metrics Response.

(** ** Configuration *)

Record ProtocolConfig := {
  request_body_mode : BodyMode;
  response_body_mode : BodyMode;
  send_body_without_waiting_for_header_response : bool;
}.

Definition ProtocolConfig_default : ProtocolConfig :=
  {| request_body_mode := BodyMode_default; response_body_mode := BodyMode_default;
     send_body_without_waiting_for_header_response := false |}.

Definition with_response_body_mode (m : BodyMode) (c : ProtocolConfig) : ProtocolConfig :=
  {| request_body_mode := request_body_mode c; response_body_mode := m;
     send_body_without_waiting_for_header_response := send_body_without_waiting_for_header_response c |}.

(** [ProtocolConfig::try_from(ProtocolConfiguration)]. *)
Definition ProtocolConfig_try_from (p : ProtocolConfiguration) : result string ProtocolConfig :=
  let! rq := map_err (fun e => "request_body_mode: " +:+ e)%string (BodyMode_try_from (pc_request_body_mode p)) in
  let! rs := map_err (fun e => "response_body_mode: " +:+ e)%string (BodyMode_try_from (pc_response_body_mode p)) in
  Ok {| request_body_mode := rq; response_body_mode := rs;
        send_body_without_waiting_for_header_response :=
          pc_send_body_without_waiting_for_header_response p |}.

(** ** Message labels *)

Definition request_type_label (req : ReqMsg) : string :=
  match req with
  | RequestHeaders _ => "request_headers"
  | RequestBody _ => "request_body"
  | ResponseHeaders _ => "response_headers"
  | ResponseBody _ => "response_body"
  | RequestTrailers _ => "request_trailers"
  | ResponseTrailers _ => "response_trailers"
  end.

(** ** Phase ordering *)

Inductive PhaseSide := Request_ | Response_.
Inductive PhaseStep := Headers | Body | Trailers.

#[export] Instance PhaseSide_eq_dec : EqDecision PhaseSide.
Proof. solve_decision. Defined.
#[export] Instance PhaseStep_eq_dec : EqDecision PhaseStep.
Proof. solve_decision. Defined.

(** [{side:?}]. *)
Definition debug_PhaseSide (s : PhaseSide) : string :=
  match s with Request_ => "Request" | Response_ => "Response" end.

(** The derived order [Headers < Body < Trailers]. *)
Definition step_rank (s : PhaseStep) : nat :=
  match s with Headers => 0 | Body => 1 | Trailers => 2 end.
Definition step_ltb (a b : PhaseStep) : bool := (step_rank a <? step_rank b)%nat.

Definition message_order (req : ReqMsg) : PhaseSide * PhaseStep :=
  match req with
  | RequestHeaders _ => (Request_, Headers)
  | RequestBody _ => (Request_, Body)
  | RequestTrailers _ => (Request_, Trailers)
  | ResponseHeaders _ => (Response_, Headers)
  | ResponseBody _ => (Response_, Body)
  | ResponseTrailers _ => (Response_, Trailers)
  end.

Record PhaseOrderTracker := {
  po_request : option PhaseStep;
  po_response : option PhaseStep;
  po_local_reply : bool;
}.

Definition PhaseOrderTracker_default : PhaseOrderTracker :=
  {| po_request := None; po_response := None; po_local_reply := false |}.

(** [*current = Some(step); self.local_reply |= opens_local_reply]. *)
Definition order_advance (side : PhaseSide) (step : PhaseStep) (opens : bool) (t : PhaseOrderTracker) :=
  {| po_request := match side with Request_ => Some step | Response_ => po_request t end;
     po_response := match side with Request_ => po_response t | Response_ => Some step end;
     po_local_reply := po_local_reply t || opens |}.

Definition invalid_transition (current : option PhaseStep) (step : PhaseStep) : bool :=
  match current with
  | None => bool_decide (step <> Headers)
  | Some prev => step_ltb step prev || (bool_decide (step = prev) && bool_decide (step <> Body))
  end.

Definition check_and_advance {E} (req : ReqMsg) : M E PhaseOrderTracker unit :=
  let? t := get in
  let '(side, step) := message_order req in
  if bool_decide (side = Request_) && po_local_reply t then
    record_invalid_argument "message_order" "request_after_local_reply" ;;;
    fail (Status_invalid_argument
            ("out-of-order ExtProc message: " +:+ request_type_label req +:+
             " arrived after a local reply")%string)
  else
    let opens_local_reply := bool_decide (side = Response_) && bool_decide (po_request t = None) in
    let current := match side with Request_ => po_request t | Response_ => po_response t end in
    if invalid_transition current step then
      record_invalid_argument "message_order" "invalid_phase_transition" ;;;
      fail (Status_invalid_argument
              ("out-of-order ExtProc message: invalid " +:+ debug_PhaseSide side +:+
               " phase transition to " +:+ request_type_label req)%string)
    else modify (order_advance side step opens_local_reply).

(** [PhaseOrderTracker::local_reply]. *)
Definition local_reply (t : PhaseOrderTracker) : bool := po_local_reply t.

(** ** Body messages in NONE mode *)

Definition validate_body_message {E S} (req : ReqMsg) (config : ProtocolConfig) : M E S unit :=
  let check phase mode :=
    if bool_decide (mode = None_) then
      record_invalid_argument "body_mode" "body_message_in_none_mode" ;;;
      fail (Status_invalid_argument
              ("received " +:+ phase +:+ " message while its body mode is NONE")%string)
    else ret tt in
  match req with
  | RequestBody _ => check "RequestBody"%string (request_body_mode config)
  | ResponseBody _ => check "ResponseBody"%string (response_body_mode config)
  | _ => ret tt
  end.

(** ** End-of-stream tracking *)

Inductive ProtocolPhase := PRequestHeaders | PRequestBody | PResponseHeaders | PResponseBody.
Inductive PhaseState := Active | Completed.

#[export] Instance ProtocolPhase_eq_dec : EqDecision ProtocolPhase.
Proof. solve_decision. Defined.
#[export] Instance PhaseState_eq_dec : EqDecision PhaseState.
Proof. solve_decision. Defined.

(** [{phase:?}]. *)
Definition debug_ProtocolPhase (p : ProtocolPhase) : string :=
  match p with
  | PRequestHeaders => "RequestHeaders"
  | PRequestBody => "RequestBody"
  | PResponseHeaders => "ResponseHeaders"
  | PResponseBody => "ResponseBody"
  end.

Definition is_complete (s : PhaseState) : bool :=
  match s with Completed => true | Active => false end.

Record EosTracker := {
  eos_request_headers : PhaseState;
  eos_request_body : PhaseState;
  eos_response_headers : PhaseState;
  eos_response_body : PhaseState;
}.

Definition EosTracker_default : EosTracker :=
  {| eos_request_headers := Active; eos_request_body := Active;
     eos_response_headers := Active; eos_response_body := Active |}.

Definition phase_state (t : EosTracker) (phase : ProtocolPhase) : PhaseState :=
  match phase with
  | PRequestHeaders => eos_request_headers t
  | PRequestBody => eos_request_body t
  | PResponseHeaders => eos_response_headers t
  | PResponseBody => eos_response_body t
  end.

Definition mark_complete (phase : ProtocolPhase) (t : EosTracker) : EosTracker :=
  let at_ p := if decide (phase = p) then Completed else phase_state t p in
  {| eos_request_headers := at_ PRequestHeaders; eos_request_body := at_ PRequestBody;
     eos_response_headers := at_ PResponseHeaders; eos_response_body := at_ PResponseBody |}.

Definition check_and_mark {E} (phase : ProtocolPhase) (received_eos : bool) : M E EosTracker PhaseState :=
  let? t := get in
  if is_complete (phase_state t phase) then ret Completed
  else
    let headers_completed :=
      match phase with
      | PRequestBody => is_complete (eos_request_headers t)
      | PResponseBody => is_complete (eos_response_headers t)
      | PRequestHeaders | PResponseHeaders => false
      end in
    if headers_completed then
      record_invalid_argument "message_order" "body_after_headers_eos" ;;;
      fail (Status_invalid_argument
              ("received " +:+ debug_ProtocolPhase phase +:+
               " message after headers end_of_stream was already marked")%string)
    else
      (if received_eos then modify (mark_complete phase) else ret tt) ;;;
      ret Active.

(** [duplicate_after_eos]: it counts the violation and returns the status to raise. *)
Definition duplicate_after_eos {E S A} (phase : ProtocolPhase) : M E S A :=
  record_invalid_argument "duplicate_eos" "redelivery" ;;;
  fail (Status_invalid_argument
          ("received " +:+ debug_ProtocolPhase phase +:+
           " message after end_of_stream was already marked")%string).

(** ** Which sequences the order tracker accepts *)

(** Run the tracker over a sequence of messages, stopping at the first rejection. *)
Fixpoint check_sequence {E} (ms : list ReqMsg) : M E PhaseOrderTracker unit :=
  match ms with
  | [] => ret tt
  | m :: ms' => check_and_advance m ;;; check_sequence ms'
  end.

Definition sequence_accepted {E} (ms : list ReqMsg) (t : PhaseOrderTracker) (g : Glob E) : bool :=
  is_ok (fst (fst (check_sequence ms t g))).

(** The steps one direction takes, in order. *)
Definition steps_of (side : PhaseSide) (ms : list ReqMsg) : list PhaseStep :=
  map snd (filter (fun p => p.1 = side) (map message_order ms)).

(** The grammar of one direction: nothing, or headers, any number of body messages, and at
    most one trailers message. *)
Definition direction_grammar (l : list PhaseStep) : Prop :=
  l = [] \/ exists n, l = Headers :: repeat Body n \/ l = Headers :: repeat Body n ++ [Trailers].

(** A well-ordered exchange: each direction follows its grammar, and a stream that opens
    with a response message has no request message. *)
Definition well_ordered (ms : list ReqMsg) : Prop :=
  direction_grammar (steps_of Request_ ms) /\
  direction_grammar (steps_of Response_ ms) /\
  (forall m, head ms = Some m -> fst (message_order m) = Response_ -> steps_of Request_ ms = []).

(** The grammar from a given position. *)
Fixpoint path_ok (current : option PhaseStep) (l : list PhaseStep) : Prop :=
  match l with
  | [] => True
  | s :: l' => invalid_transition current s = false /\ path_ok (Some s) l'
  end.

Lemma path_ok_trailers l : path_ok (Some Trailers) l -> l = [].
Proof. destruct l as [|[] l]; [done|..]; by intros [? _]. Qed.

Lemma path_ok_body l :
  path_ok (Some Body) l <-> exists n, l = repeat Body n \/ l = repeat Body n ++ [Trailers].
Proof.
  split.
  - induction l as [|[] l IH]; simpl; intros H; [by exists 0%nat; left|by destruct H| |].
    + destruct (IH (proj2 H)) as [n [->| ->]]; exists (S n); auto.
    + exists 0%nat. right. by rewrite (path_ok_trailers l (proj2 H)).
  - intros [n [->| ->]]; by induction n.
Qed.

Lemma path_ok_grammar l : path_ok None l <-> direction_grammar l.
Proof.
  unfold direction_grammar. destruct l as [|s l]; simpl; [by split; auto|]. split.
  - intros [Hs Hl]. right. destruct s; [|done..].
    destruct l as [|[] l]; [by exists 0%nat; left|by destruct Hl| |].
    + destruct (proj1 (path_ok_body l) (proj2 Hl)) as [n [->| ->]]; exists (S n); auto.
    + exists 0%nat. right. by rewrite (path_ok_trailers l (proj2 Hl)).
  - intros [?|[n H]]; [done|].
    assert (s = Headers) as -> by (destruct H; congruence). split; [done|].
    destruct n as [|n]; [by destruct H; simplify_eq/=|].
    destruct H as [H|H]; injection H as ->; simpl;
      (split; [done|]); apply path_ok_body; eauto.
Qed.

Lemma steps_of_cons side m ms :
  steps_of side (m :: ms) =
  (if decide (fst (message_order m) = side) then [snd (message_order m)] else []) ++ steps_of side ms.
Proof. unfold steps_of. simpl. rewrite filter_cons. by case_decide. Qed.

(** What remains acceptable from a tracker in the middle of a stream. *)
Lemma check_sequence_spec {E} ms : forall t (g : Glob E),
  (po_local_reply t = true -> po_request t = None) ->
  sequence_accepted ms t g = true <->
  path_ok (po_request t) (steps_of Request_ ms) /\
  path_ok (po_response t) (steps_of Response_ ms) /\
  (po_local_reply t = true -> steps_of Request_ ms = []) /\
  (po_request t = None -> forall m, head ms = Some m -> fst (message_order m) = Response_ ->
     steps_of Request_ ms = []).
Proof.
  unfold sequence_accepted. induction ms as [|m ms IH]; intros t g Hinv.
  { simpl. split; [done|auto]. }
  rewrite !steps_of_cons. simpl. unfold bind at 1, check_and_advance at 1, bind, get.
  destruct (message_order m) as [side step] eqn:Hm. cbn [fst snd].
  destruct side; (repeat case_decide; try done); cbn [app path_ok andb].
  - destruct (po_local_reply t) eqn:Hl; rewrite bool_decide_true by done; cbn [andb].
    { split; [done|]. intros (_ & _ & Hn & _). by specialize (Hn eq_refl). }
    rewrite bool_decide_false by done. cbn [andb].
    destruct (invalid_transition (po_request t) step) eqn:Hi; [split; [done|by intros [[? _] _]]|].
    cbn. rewrite IH by (cbn; rewrite Hl; done). cbn. rewrite Hl. cbn.
    split; [intros (A1 & A2 & _) | intros ([_ A1] & A2 & _)]; split_and!; try done.
    intros _ m' Hm'. injection Hm' as <-. by rewrite Hm.
  - rewrite bool_decide_false by done. cbn [andb]. rewrite bool_decide_true by done.
    destruct (invalid_transition (po_response t) step) eqn:Hi; [split; [done|by intros (_ & [? _] & _)]|].
    cbn. rewrite IH by (cbn; case_bool_decide; rewrite ?orb_false_r; auto).
    cbn. case_bool_decide as Hn; rewrite ?orb_true_r, ?orb_false_r.
    + split; [intros (A1 & A2 & A3 & _) | intros (A1 & [_ A2] & _ & A3)]; split_and!; auto.
      * intros _. apply (A3 Hn m); [done|by rewrite Hm].
      * intros _ _ _ _. apply (A3 Hn m); [done|by rewrite Hm].
    + split; [intros (A1 & A2 & A3 & A4) | intros (A1 & [_ A2] & A3 & _)]; split_and!; done || auto.
Qed.

(** C23. The phase-order tracker accepts exactly the well-ordered exchanges: headers, then
    any number of body messages, then at most one trailers message in each direction, the two
    directions interleaved freely, and no request message at all on a stream that opened
    with a response message. *)
Theorem phase_order_accepts_exactly {E} (ms : list ReqMsg) (g : Glob E) :
  sequence_accepted ms PhaseOrderTracker_default g = true <-> well_ordered ms.
Proof.
  rewrite check_sequence_spec by done. unfold well_ordered. rewrite <- !path_ok_grammar. cbn.
  split; [intros (A1 & A2 & _ & A4)|intros (A1 & A2 & A3)]; split_and!; try done; by auto using eq_refl || apply A4.
Qed.

(** ** The end-of-stream tracker *)

Lemma phase_state_mark_complete phase t p :
  phase_state (mark_complete phase t) p = if decide (phase = p) then Completed else phase_state t p.
Proof. by destruct p. Qed.

#[export] Hint Rewrite phase_state_mark_complete : praxis.

(** Everything [check_and_mark] can do. *)
Lemma check_and_mark_spec {E} phase eos t (g : Glob E) :
  wp (check_and_mark phase eos)
    (fun r t' g' =>
       (r = Ok Completed /\ t' = t /\ g' = g /\ phase_state t phase = Completed) \/
       (r = Ok Active /\ phase_state t phase = Active /\ g' = g /\
        t' = (if eos then mark_complete phase t else t) /\
        (phase = PRequestBody -> eos_request_headers t = Active) /\
        (phase = PResponseBody -> eos_response_headers t = Active)) \/
       (exists m, r = Err (Status_invalid_argument m) /\ t' = t /\ phase_state t phase = Active /\
        g' = log_event (EMetric (MInvalidArgument "message_order" "body_after_headers_eos")) g))
    t g.
Proof.
  unfold check_and_mark. repeat wp_step.
  destruct (phase_state t phase) eqn:Hp; cbn [is_complete]; [|wp_step; left; auto].
  wp_case; [repeat wp_step; right; right; eauto|].
  destruct eos; repeat wp_step; right; left; (split; [done|]); (split; [done|]); (split; [done|]);
    (split; [done|]); split; intros ->; by destruct (eos_request_headers t), (eos_response_headers t).
Qed.

(** Completion is permanent: whatever message is checked, a phase that has seen
    end-of-stream stays completed, and a message for it is reported as a re-delivery that
    changes nothing. *)
Theorem eos_completion_is_permanent {E} phase eos done_ t (g : Glob E) :
  phase_state t done_ = Completed ->
  wp (check_and_mark phase eos)
    (fun r t' _ => phase_state t' done_ = Completed /\
       (phase = done_ -> r = Ok Completed /\ t' = t)) t g.
Proof.
  intros Hd. eapply wp_mono; [apply check_and_mark_spec|]. cbv beta.
  intros r t' g' [(-> & -> & _)|[(-> & Ha & _ & -> & _)|(m & -> & -> & Ha & _)]];
    (split; [|intros ->; congruence || done]); [done| |done].
  destruct eos; [|done]. rewrite phase_state_mark_complete. by case_decide.
Qed.

Lemma eos_completion_is_permanent_witness :
  let t := mark_complete PRequestBody EosTracker_default in
  phase_state t PRequestBody = Completed /\
  wp (check_and_mark PRequestBody true)
    (fun r t' _ => phase_state t' PRequestBody = Completed /\
       (PRequestBody = PRequestBody -> r = Ok Completed /\ t' = t)) t
    {| g_log := []; g_env := tt; g_warned := false |}.
Proof.
  split; [reflexivity|].
  exact (eos_completion_is_permanent PRequestBody true PRequestBody
           (mark_complete PRequestBody EosTracker_default) _ eq_refl).
Defined.
