(* ===== verification/Adapter.v ===== *)
(** * Translation between Envoy and Praxis types ([src/adapter.rs])

    Request and response conversion, the fresh filter context of a phase, collection of
    header mutations, and conversion of rejections to immediate responses. The main theorem:
    the mutation computed by diffing response headers, applied the way the protobuf API
    documents it, turns the original headers into the filtered ones. *)

From S2P Require Import Prelude RustStd Proto Effect IpAddr Extern Concrete.

(** ** Strings of header values *)

(** The string value of a [HeaderValue], [raw_value] first. *)
Definition header_value_str (hv : HeaderValue) : string :=
  match hv_raw_value hv with
  | [] => hv_value hv
  | _ => default (hv_value hv) (from_utf8 (hv_raw_value hv))
  end.

(** [response_status]: a parsable [:status], if any. *)
Definition response_status (headers : list HeaderValue) : option Z :=
  match find (fun hv => String.eqb (hv_key hv) ":status") headers with
  | Some hv => parse_unsigned u16_max (as_bytes (header_value_str hv))
  | None => None
  end.

(** ** Building header options *)

(** Valid UTF-8 travels in both fields, other bytes in [raw_value] alone. *)
Definition header_option (key : string) (value : bytes) (append_action : HeaderAppendAction)
  : HeaderValueOption :=
  {| hvo_header := Some {| hv_key := key;
                           hv_value := default ""%string (from_utf8 value);
                           hv_raw_value := value |};
     hvo_append := None;
     hvo_append_action := append_action |}.

Definition header_value_option (key value : string) : HeaderValueOption :=
  header_option key (as_bytes value) OverwriteIfExistsOrAdd.

Definition header_value_option_append (key value : string) : HeaderValueOption :=
  header_option key (as_bytes value) AppendIfExistsOrAdd.

(** [set_content_length]: drop every [content-length] entry, then append ours. *)
Definition set_content_length (mutation : option HeaderMutation) (n : Z) : HeaderMutation :=
  let m := default HeaderMutation_default mutation in
  let keep h := match hvo_header h with
                | None => true
                | Some hv => negb (eq_ignore_ascii_case (hv_key hv) "content-length")
                end in
  {| set_headers := List.filter keep (set_headers m) ++
                    [header_value_option "content-length" (of_bytes (display_unsigned n))];
     remove_headers := remove_headers m |}.

Section Adapter.
Context `{HttpLib}.

(** ** Header conversion *)

Definition append_header (map : HMap) (hv : HeaderValue) : HMap :=
  let value := match hv_raw_value hv with
               | [] => hvalue_from_str (hv_value hv)
               | _ => hvalue_from_bytes (hv_raw_value hv)
               end in
  match hname_parse (hv_key hv), value with
  | Some name, Some v => hmap_append map name v
  | _, _ => map
  end.

Definition build_uri (scheme authority : option string) (path : string) : Uri :=
  let absolute :=
    match scheme, authority with
    | Some s, Some a =>
        if starts_with (as_bytes "/") (as_bytes path)
        then uri_parse (s +:+ "://" +:+ a +:+ path)%string else None
    | _, _ => None
    end in
  match absolute with
  | Some u => u
  | None => default uri_root (uri_parse path)
  end.

(** The locals of [envoy_headers_to_request]'s loop. *)
Record RequestParts := {
  part_method : Method;
  part_path : string;
  part_scheme : option string;
  part_authority : option string;
  part_headers : HMap;
}.

Definition request_part (p : RequestParts) (hv : HeaderValue) : RequestParts :=
  let '{| part_method := m; part_path := pa; part_scheme := s; part_authority := a;
          part_headers := h |} := p in
  let v := header_value_str hv in
  if String.eqb (hv_key hv) ":method" then
    {| part_method := default method_get (method_parse v); part_path := pa; part_scheme := s;
       part_authority := a; part_headers := h |}
  else if String.eqb (hv_key hv) ":path" then
    {| part_method := m; part_path := v; part_scheme := s; part_authority := a; part_headers := h |}
  else if String.eqb (hv_key hv) ":scheme" then
    {| part_method := m; part_path := pa; part_scheme := Some v; part_authority := a; part_headers := h |}
  else if String.eqb (hv_key hv) ":authority" then
    {| part_method := m; part_path := pa; part_scheme := s; part_authority := Some v; part_headers := h |}
  else
    {| part_method := m; part_path := pa; part_scheme := s; part_authority := a;
       part_headers := append_header h hv |}.

Definition envoy_headers_to_request (headers : list HeaderValue) : Request :=
  let p := fold_left request_part headers
             {| part_method := method_get; part_path := "/"; part_scheme := None;
                part_authority := None; part_headers := hmap_new |} in
  let header_map :=
    match part_authority p with
    | Some host =>
        if hmap_contains_key (part_headers p) hname_host then part_headers p
        else match hvalue_from_str host with
             | Some v => hmap_insert (part_headers p) hname_host v
             | None => part_headers p
             end
    | None => part_headers p
    end in
  {| rq_headers := header_map; rq_method := part_method p;
     rq_uri := build_uri (part_scheme p) (part_authority p) (part_path p) |}.

Definition response_part (r : Response) (hv : HeaderValue) : Response :=
  if String.eqb (hv_key hv) ":status" then
    {| rs_headers := rs_headers r;
       rs_status := default status_ok
                      (c ← parse_unsigned u16_max (as_bytes (header_value_str hv)); status_from_u16 c) |}
  else {| rs_headers := append_header (rs_headers r) hv; rs_status := rs_status r |}.

Definition envoy_headers_to_response (headers : list HeaderValue) : Response :=
  fold_left response_part headers {| rs_headers := hmap_new; rs_status := status_ok |}.

(** ** Client address *)

Definition first_ip_in_header (request : Request) (name : string) : option IpAddr :=
  v ← hmap_get_str (rq_headers request) name;
  s ← hvalue_to_str v;
  parse_ip_addr (of_bytes (trim_bytes (split_first ","%char (as_bytes s)))).

Definition extract_client_addr (request : Request) (trust_forwarded_for : bool) : option IpAddr :=
  match first_ip_in_header request "x-envoy-external-address" with
  | Some ip => Some ip
  | None => if trust_forwarded_for then first_ip_in_header request "x-forwarded-for" else None
  end.

(** ** Rejections *)

Definition header_map_pairs (m : HMap) : list (string * bytes) :=
  map (fun '(n, v) => (hname_as_str n, hvalue_as_bytes v)) (hmap_iter m).

Definition immediate_response (status : Z) (headers : list (string * bytes)) (body : option bytes)
  : ImmediateResponse :=
  let set_headers := map (fun '(n, v) => header_option n v OverwriteIfExistsOrAdd) headers in
  {| ir_status := Some status;
     ir_headers := if bool_decide (set_headers = []) then None
                   else Some {| set_headers := set_headers; remove_headers := [] |};
     ir_body := match body with Some b => from_utf8_lossy b | None => "" end;
     ir_grpc_status := None;
     ir_details := "" |}.

Definition rejection_to_immediate (r : Rejection) : ImmediateResponse :=
  immediate_response (rej_status r)
    (map (fun '(n, v) => (n, as_bytes v)) (rej_headers r) ++
     match rej_header_map r with Some m => header_map_pairs m | None => [] end)
    (rej_body r).

Definition terminal_response_to_immediate (t : TerminalResponse) : ImmediateResponse :=
  immediate_response (term_status t) (header_map_pairs (term_headers t)) (term_body t).
End Adapter.

Section Context_.
Context `{PraxisFilter}.

(** ** Context construction *)

Definition build_filter_context (pipeline : FilterPipeline) (env : Env) (request : Request)
  (trust_forwarded_for : bool) : Ctx :=
  {| ctx_client_addr := extract_client_addr request trust_forwarded_for;
     ctx_cluster := None;
     ctx_branch_iterations := ∅;
     ctx_executed_filter_indices := [];
     ctx_filter_metadata := ∅;
     ctx_filter_state := ∅;
     ctx_extra_request_headers := [];
     ctx_request_headers_to_remove := [];
     ctx_request_headers_to_set := [];
     ctx_rewritten_path := None;
     ctx_request := request;
     ctx_request_body_bytes := 0;
     ctx_request_body_mode := FilterStream;
     ctx_response_body_bytes := 0;
     ctx_response_body_mode := FilterStream;
     ctx_response_header := None;
     ctx_response_headers_modified := false;
     ctx_upstream_reached := false;
     ctx_rest := fresh_rest pipeline env |}.

(** ** Mutation collection *)

Definition collect_request_header_mutations (ctx : Ctx) : option HeaderMutation :=
  let has_extras := negb (bool_decide (ctx_extra_request_headers ctx = [])) in
  let has_sets := negb (bool_decide (ctx_request_headers_to_set ctx = [])) in
  let has_removes := negb (bool_decide (ctx_request_headers_to_remove ctx = [])) in
  let has_rewrite := bool_decide (is_Some (ctx_rewritten_path ctx)) in
  if negb has_extras && negb has_sets && negb has_removes && negb has_rewrite then None
  else
    Some {| set_headers :=
              map (fun '(n, v) => header_value_option_append n v) (ctx_extra_request_headers ctx) ++
              map (fun '(n, v) => header_value_option (hname_as_str n) (default ""%string (hvalue_to_str v)))
                (ctx_request_headers_to_set ctx) ++
              match ctx_rewritten_path ctx with
              | Some path => [header_value_option ":path" path]
              | None => []
              end;
            remove_headers := map hname_as_str (ctx_request_headers_to_remove ctx) |}.

(** The first value overwrites, the rest append. *)
Definition replace_header_values (name : string) (values : list HValue) : list HeaderValueOption :=
  imap (fun i v => header_option name (hvalue_as_bytes v)
                     (if (i =? 0)%nat then OverwriteIfExistsOrAdd else AppendIfExistsOrAdd)) values.

(** The [set_headers] and [remove_headers] of a diff. *)
Definition diff_sets (current original : HMap) : list HeaderValueOption :=
  flat_map (fun n => replace_header_values (hname_as_str n) (hmap_get_all current n))
    (List.filter (fun n => negb (bool_decide (hmap_get_all current n = hmap_get_all original n)))
       (hmap_keys current)).
Definition diff_removes (current original : HMap) : list string :=
  map hname_as_str (List.filter (fun n => negb (hmap_contains_key current n)) (hmap_keys original)).

Definition collect_response_header_mutations_diff (ctx : Ctx) (original_headers : HMap)
  : option HeaderMutation :=
  match ctx_response_header ctx with
  | None => None
  | Some resp =>
      let sets := diff_sets (rs_headers resp) original_headers in
      let removes := diff_removes (rs_headers resp) original_headers in
      if bool_decide (sets = []) && bool_decide (removes = []) then None
      else Some {| set_headers := sets; remove_headers := removes |}
  end.
End Context_.

(** ** What a header mutation does at Envoy

    The effect of the append actions as [envoy_common.proto] documents them, on a view of
    headers as a function from a name to its values. *)

Definition headers_view := string -> list bytes.

(** Envoy takes [raw_value] when it is set. *)
Definition wire_value (hv : HeaderValue) : bytes :=
  match hv_raw_value hv with [] => as_bytes (hv_value hv) | b => b end.

Definition apply_option (f : headers_view) (o : HeaderValueOption) : headers_view :=
  match hvo_header o with
  | None => f
  | Some hv =>
      fun s =>
        if decide (s = hv_key hv) then
          match hvo_append_action o with
          | AppendIfExistsOrAdd => f s ++ [wire_value hv]
          | AddIfAbsent => if decide (f s = []) then [wire_value hv] else f s
          | OverwriteIfExistsOrAdd => [wire_value hv]
          | OverwriteIfExists => if decide (f s = []) then [] else [wire_value hv]
          end
        else f s
  end.

Definition apply_mutation (f : headers_view) (m : HeaderMutation) : headers_view :=
  fold_left apply_option (set_headers m)
    (fun s => if decide (s ∈ remove_headers m) then [] else f s).

Section View.
Context `{HttpLaws}.

(** The view of a [HeaderMap]. *)
Definition view_of (m : HMap) : headers_view := fun s =>
  flat_map (fun n => if decide (hname_as_str n = s) then map hvalue_as_bytes (hmap_get_all m n) else [])
    (hmap_keys m).

Lemma flat_map_keys_at {A} (f : HName -> list A) n l :
  NoDup l ->
  flat_map (fun n' => if decide (hname_as_str n' = hname_as_str n) then f n' else []) l =
  if decide (n ∈ l) then f n else [].
Proof.
  induction 1 as [|k l Hk Hl IH]; simpl; [done|]. rewrite IH.
  destruct (decide (hname_as_str k = hname_as_str n)) as [E|E].
  - apply hname_as_str_inj in E as ->.
    rewrite (decide_False (P := n ∈ l)), (decide_True (P := n ∈ n :: l)) by (done || set_solver).
    by rewrite app_nil_r.
  - simpl. assert (n <> k) by (intros ->; done).
    destruct (decide (n ∈ l)), (decide (n ∈ k :: l)); done || set_solver.
Qed.

Lemma view_of_at m n : view_of m (hname_as_str n) = map hvalue_as_bytes (hmap_get_all m n).
Proof.
  unfold view_of. rewrite flat_map_keys_at by apply hmap_keys_nodup.
  case_decide as Hn; [done|].
  destruct (hmap_get_all m n) eqn:E; [done|]. destruct Hn. apply hmap_keys_spec. congruence.
Qed.

Lemma view_of_not_name m s : (forall n, hname_as_str n <> s) -> view_of m s = [].
Proof.
  intros Hs. unfold view_of. induction (hmap_keys m) as [|k l IH]; simpl; [done|].
  by rewrite decide_False, IH.
Qed.

Lemma wire_value_header_option key v act :
  exists hv, hvo_header (header_option key v act) = Some hv /\ hv_key hv = key /\ wire_value hv = v.
Proof. eexists. split; [reflexivity|]. split; [done|]. by destruct v. Qed.

Lemma apply_header_option f key v act :
  apply_option f (header_option key v act) =
  fun s => if decide (s = key) then
             match act with
             | AppendIfExistsOrAdd => f s ++ [v]
             | AddIfAbsent => if decide (f s = []) then [v] else f s
             | OverwriteIfExistsOrAdd => [v]
             | OverwriteIfExists => if decide (f s = []) then [] else [v]
             end
           else f s.
Proof. unfold apply_option. simpl. by destruct v. Qed.

(** Appending values one by one. *)
Lemma apply_appends key vs s : forall f,
  fold_left apply_option (map (fun v => header_option key (hvalue_as_bytes v) AppendIfExistsOrAdd) vs) f s =
  if decide (s = key) then f s ++ map hvalue_as_bytes vs else f s.
Proof.
  induction vs as [|v vs IH]; intros f; simpl; [case_decide; by rewrite ?app_nil_r|].
  rewrite IH, apply_header_option. case_decide; [by rewrite <- app_assoc|done].
Qed.

Lemma replace_header_values_cons key v vs :
  replace_header_values key (v :: vs) =
  header_option key (hvalue_as_bytes v) OverwriteIfExistsOrAdd
    :: map (fun v => header_option key (hvalue_as_bytes v) AppendIfExistsOrAdd) vs.
Proof.
  unfold replace_header_values. simpl. f_equal.
  apply list_eq. intros i. rewrite list_lookup_imap.
  change (map ?f vs) with (f <$> vs). rewrite list_lookup_fmap. by destruct (vs !! i).
Qed.

(** [replace_header_values] makes a name carry exactly the given values. *)
Lemma apply_replace key vs s f :
  vs <> [] ->
  fold_left apply_option (replace_header_values key vs) f s =
  if decide (s = key) then map hvalue_as_bytes vs else f s.
Proof.
  intros Hvs. destruct vs as [|v vs]; [done|]. rewrite replace_header_values_cons. simpl.
  rewrite apply_appends, apply_header_option. by case_decide.
Qed.

Lemma apply_replaces (cur : HMap) ks n f :
  NoDup ks -> (forall k, k ∈ ks -> hmap_get_all cur k <> []) ->
  fold_left apply_option
    (flat_map (fun k => replace_header_values (hname_as_str k) (hmap_get_all cur k)) ks) f (hname_as_str n) =
  if decide (n ∈ ks) then map hvalue_as_bytes (hmap_get_all cur n) else f (hname_as_str n).
Proof.
  intros Hnd. revert f. induction Hnd as [|k ks Hk Hnd IH]; intros f Hne; simpl; [done|].
  rewrite fold_left_app, IH by set_solver.
  rewrite apply_replace by (apply Hne; set_solver).
  destruct (decide (n ∈ ks)) as [Hin|Hin]; [by rewrite decide_True by set_solver|].
  destruct (decide (hname_as_str n = hname_as_str k)) as [E|E].
  - apply hname_as_str_inj in E as ->. by rewrite decide_True by set_solver.
  - rewrite decide_False; [done|]. set_solver.
Qed.

Lemma in_diff_removes cur orig n :
  hname_as_str n ∈ diff_removes cur orig <-> hmap_get_all orig n <> [] /\ hmap_get_all cur n = [].
Proof.
  unfold diff_removes. rewrite list_elem_of_In, in_map_iff. split.
  - intros (k & E & Hk). apply hname_as_str_inj in E as ->. apply filter_In in Hk as [Hk Hc].
    split; [by apply hmap_keys_spec, list_elem_of_In|].
    destruct (hmap_get_all cur n) eqn:E; [done|].
    assert (hmap_contains_key cur n = true) as Hc' by (apply hmap_contains_key_spec; congruence).
    by rewrite Hc' in Hc.
  - intros [Ho Hc]. exists n. split; [done|]. apply filter_In.
    split; [by apply list_elem_of_In, hmap_keys_spec|].
    destruct (hmap_contains_key cur n) eqn:E; [|done].
    by apply hmap_contains_key_spec in E.
Qed.
End View.

Section DiffTheorem.
Context `{HttpLaws} `{!PraxisFilter}.

(** C20. The response-header diff is exact: applied to the original headers with the
    documented append semantics, the collected mutation gives every header name precisely the
    values it has after the filters ran, in order. When there is no mutation to apply, the
    headers are the ones Envoy already holds. *)
Theorem response_diff_reconstructs (ctx : Ctx) (resp : Response) (original : HMap) (n : HName) :
  ctx_response_header ctx = Some resp ->
  apply_mutation (view_of original)
    (default HeaderMutation_default (collect_response_header_mutations_diff ctx original))
    (hname_as_str n) =
  view_of (rs_headers resp) (hname_as_str n).
Proof.
  intros Hresp. unfold collect_response_header_mutations_diff. rewrite Hresp.
  set (cur := rs_headers resp).
  assert (Hd : default HeaderMutation_default
     (if bool_decide (diff_sets cur original = []) && bool_decide (diff_removes cur original = [])
      then None else Some {| set_headers := diff_sets cur original; remove_headers := diff_removes cur original |})
     = {| set_headers := diff_sets cur original; remove_headers := diff_removes cur original |}).
  { repeat case_bool_decide; try done. simpl. unfold HeaderMutation_default. congruence. }
  rewrite Hd. unfold apply_mutation. simpl. unfold diff_sets. rewrite apply_replaces.
  - rewrite !view_of_at. pose proof (in_diff_removes cur original n) as Hr.
    set (changed := List.filter _ _).
    assert (n ∈ changed <-> hmap_get_all cur n <> [] /\ hmap_get_all cur n <> hmap_get_all original n) as Hc.
    { unfold changed. rewrite list_elem_of_In, filter_In, <- list_elem_of_In, hmap_keys_spec.
      split; intros [A B]; (split; [done|]); [by case_bool_decide|by rewrite bool_decide_false]. }
    destruct (decide (n ∈ changed)); [done|]. case_decide as Hrm; [by destruct (proj1 Hr Hrm) as [_ ->]|].
    f_equal. destruct (decide (hmap_get_all cur n = hmap_get_all original n)) as [|Hneq]; [done|].
    destruct (decide (hmap_get_all cur n = [])) as [E|E]; [|tauto].
    exfalso. apply Hrm, Hr. split; congruence.
  - apply NoDup_ListNoDup, List.NoDup_filter, NoDup_ListNoDup, hmap_keys_nodup.
  - intros k Hk. apply hmap_keys_spec. apply list_elem_of_In in Hk. apply filter_In in Hk as [Hk _].
    by apply list_elem_of_In.
Qed.
End DiffTheorem.

(** A response whose filters replaced one header, dropped one and added a two-valued one. *)
Definition demo_original : entries :=
  [("server", as_bytes "old"); ("x-gone", as_bytes "1")]%string.
Definition demo_filtered : Response (H := ConcreteHttp) :=
  Build_Response
    [("server", as_bytes "new"); ("x-added", as_bytes "a"); ("x-added", as_bytes "b")]%string 200.

Definition demo_ctx (resp : option Response) : PCtx :=
  let c := build_filter_context (pass_pipeline (demo_caps false false false false)) 0%nat
             (Build_Request [] "GET"%string "/"%string) false in
  {| ctx_client_addr := None; ctx_cluster := None; ctx_branch_iterations := ∅;
     ctx_executed_filter_indices := []; ctx_filter_metadata := ∅; ctx_filter_state := ∅;
     ctx_extra_request_headers := []; ctx_request_headers_to_remove := [];
     ctx_request_headers_to_set := []; ctx_rewritten_path := None; ctx_request := ctx_request c;
     ctx_request_body_bytes := 0; ctx_request_body_mode := FilterStream;
     ctx_response_body_bytes := 0; ctx_response_body_mode := FilterStream;
     ctx_response_header := resp; ctx_response_headers_modified := true;
     ctx_upstream_reached := true; ctx_rest := tt |}.

Lemma response_diff_reconstructs_witness :
  ctx_response_header (demo_ctx (Some demo_filtered)) = Some demo_filtered /\
  apply_mutation (view_of demo_original)
    (default HeaderMutation_default
       (collect_response_header_mutations_diff (demo_ctx (Some demo_filtered)) demo_original))
    "x-added" = [as_bytes "a"; as_bytes "b"].
Proof.
  split; [reflexivity|].
  exact (response_diff_reconstructs (H0 := ConcreteHttpLaws) (demo_ctx (Some demo_filtered))
           demo_filtered demo_original "x-added"%string eq_refl).
Defined.
