(* ===== verification/ResponseMode.v ===== *)
(** * Response-mode selection for guardrails ([src/response_mode.rs])

    The selector built from the configured [ai_guardrails] filters, and the two decisions
    taken from it per request: whether the response body may be streamed past the
    guardrails, and whether full-duplex mode must be refused. *)

From S2P Require Import Prelude RustStd Proto Extern Concrete Effect Adapter.

Record ResponseModeSelector := {
  enabled : bool;
  has_unconditional_guardrail : bool;
  has_always_on_response_guardrail : bool;
  output_headers : gset string;
  guardrail_headers : gset string;
  valid : bool;
  invalid_reason : option string;
}.

(** The derived [Default]. *)
Definition ResponseModeSelector_default : ResponseModeSelector :=
  {| enabled := false; has_unconditional_guardrail := false;
     has_always_on_response_guardrail := false; output_headers := ∅; guardrail_headers := ∅;
     valid := false; invalid_reason := None |}.

Definition invalid_selector (outs guards : gset string) (reason : string) : ResponseModeSelector :=
  {| enabled := true; has_unconditional_guardrail := false;
     has_always_on_response_guardrail := false; output_headers := outs; guardrail_headers := guards;
     valid := false; invalid_reason := Some reason |}.

(** ** Request-time decisions *)

(** The string values of the headers carrying a name, in order. *)
Definition values_of_name (headers : list HeaderValue) (expected_name : string) : list string :=
  map header_value_str
    (List.filter (fun h => eq_ignore_ascii_case (hv_key h) expected_name) headers).

(** [header_may_be_selected]: absent, or present once with the value [false], means no. *)
Definition header_may_be_selected (headers : list HeaderValue) (expected_name : string) : bool :=
  match values_of_name headers expected_name with
  | [] => false
  | [v] => negb (String.eqb v "false")
  | _ => true
  end.

Definition any_selected (names : gset string) (headers : list HeaderValue) : bool :=
  existsb (header_may_be_selected headers) (elements names).

Definition should_stream (s : ResponseModeSelector) (headers : list HeaderValue) : bool :=
  enabled s && valid s && negb (has_always_on_response_guardrail s) &&
  negb (any_selected (output_headers s) headers).

Definition has_selected_guardrail (s : ResponseModeSelector) (headers : list HeaderValue) : bool :=
  if negb (enabled s) then false
  else if negb (valid s) || has_unconditional_guardrail s then true
  else any_selected (guardrail_headers s) headers.

(** ** Building the selector from the configuration *)

Section FromConfig.
Context `{SerdeYaml}.

(** [guardrail_phases]: the (request, response) phases of an entry; [None] when the
    configuration has an unexpected shape. *)
Definition guardrail_phases (entry : FilterEntry) : option (bool * bool) :=
  match yvalue_get (fe_config entry) "phase" with
  | None => Some (true, false)
  | Some phase =>
      mapping ← yvalue_as_mapping phase;
      request ← match ymapping_get mapping "request" with
                | None => Some true | Some v => yvalue_as_bool v end;
      response ← match ymapping_get mapping "response" with
                 | None => Some false | Some v => yvalue_as_bool v end;
      Some (request, response)
  end.

Definition selected_guardrail_header (entry : FilterEntry) : option string :=
  match fe_response_conditions entry, fe_conditions entry with
  | [], [When c] =>
      if wc_grpc c || wc_path c || wc_path_prefix c || wc_methods c || wc_bound_upstream c
         || wc_selected_upstream c then None
      else
        headers ← wc_headers c;
        match map_to_list headers with
        | [(name, value)] =>
            let name := to_ascii_lowercase name in
            if String.eqb value "true" && starts_with (as_bytes "x-aigateway-guardrail-") (as_bytes name)
            then Some name else None
        | _ => None
        end
  | _, _ => None
  end.

(** The accumulators of [from_config]'s loop. *)
Record Scan := {
  sc_output_headers : gset string;
  sc_guardrail_headers : gset string;
  sc_unconditional : bool;
  sc_always_on_response : bool;
  sc_has_guardrail : bool;
}.

Definition Scan_init : Scan :=
  {| sc_output_headers := ∅; sc_guardrail_headers := ∅; sc_unconditional := false;
     sc_always_on_response := false; sc_has_guardrail := false |}.

Definition is_unconditional (entry : FilterEntry) : bool :=
  bool_decide (length (fe_conditions entry) = 0%nat) &&
  bool_decide (length (fe_response_conditions entry) = 0%nat).

(** One round of the loop: the next accumulators, or the selector returned early. *)
Definition scan_entry (entry : FilterEntry) (sc : Scan) : result ResponseModeSelector Scan :=
  if negb (String.eqb (fe_filter_type entry) "ai_guardrails") then Ok sc
  else
    let seen b1 b2 outs guards :=
      {| sc_output_headers := outs; sc_guardrail_headers := guards; sc_unconditional := b1;
         sc_always_on_response := b2; sc_has_guardrail := true |} in
    let outs := sc_output_headers sc in
    let guards := sc_guardrail_headers sc in
    let unconditional := sc_unconditional sc in
    let always_on := sc_always_on_response sc in
    match guardrail_phases entry with
    | None => Err (invalid_selector outs guards "invalid guardrail phase configuration")
    | Some (request_phase, response_phase) =>
        if negb request_phase && negb response_phase then Ok (seen unconditional always_on outs guards)
        else
          match selected_guardrail_header entry with
          | None =>
              if is_unconditional entry then Ok (seen true (always_on || response_phase) outs guards)
              else Err (invalid_selector outs guards "unsupported guardrail selection condition")
          | Some header =>
              Ok (seen unconditional always_on
                    (if response_phase then {[header]} ∪ outs else outs) ({[header]} ∪ guards))
          end
    end.

Fixpoint scan_entries (entries : list FilterEntry) (sc : Scan) : result ResponseModeSelector Scan :=
  match entries with
  | [] => Ok sc
  | e :: es => let! sc' := scan_entry e sc in scan_entries es sc'
  end.

Definition from_config (chains : list FilterChainConfig) : ResponseModeSelector :=
  match scan_entries (flat_map fc_filters chains) Scan_init with
  | Err s => s
  | Ok sc =>
      if negb (sc_has_guardrail sc) then ResponseModeSelector_default
      else
        {| enabled := true;
           has_unconditional_guardrail := sc_unconditional sc;
           has_always_on_response_guardrail := sc_always_on_response sc;
           output_headers := sc_output_headers sc;
           guardrail_headers := sc_guardrail_headers sc;
           valid := true; invalid_reason := None |}
  end.

(** ** Lemmas *)

Lemma any_selected_false names headers :
  any_selected names headers = false <->
  forall n, n ∈ names -> header_may_be_selected headers n = false.
Proof.
  unfold any_selected. rewrite <- not_true_iff_false, existsb_exists. split.
  - intros Hn n Hin. destruct (header_may_be_selected headers n) eqn:E; [|done].
    destruct Hn. exists n. by rewrite <- list_elem_of_In, elem_of_elements.
  - intros Hn (n & Hin & E). rewrite <- list_elem_of_In, elem_of_elements in Hin.
    by rewrite (Hn n Hin) in E.
Qed.

Lemma header_may_be_selected_false headers n :
  header_may_be_selected headers n = false <->
  values_of_name headers n = [] \/ values_of_name headers n = ["false"%string].
Proof.
  unfold header_may_be_selected. destruct (values_of_name headers n) as [|v [|w l]].
  - by split; [left|].
  - rewrite negb_false_iff, String.eqb_eq. split; [intros ->; by right|by intros [|[= ->]]].
  - split; [done|by intros [|]].
Qed.

(** What an entry contributes: every response-phase guardrail is either recorded under its
    header or makes the always-on flag true. *)
Definition covered (entry : FilterEntry) (sc : Scan) : Prop :=
  forall rq, guardrail_phases entry = Some (rq, true) ->
    (exists h, selected_guardrail_header entry = Some h /\ h ∈ sc_output_headers sc) \/
    sc_always_on_response sc = true.

Definition scan_le (a b : Scan) : Prop :=
  sc_output_headers a ⊆ sc_output_headers b /\ sc_guardrail_headers a ⊆ sc_guardrail_headers b /\
  (sc_unconditional a = true -> sc_unconditional b = true) /\
  (sc_always_on_response a = true -> sc_always_on_response b = true) /\
  (sc_has_guardrail a = true -> sc_has_guardrail b = true).

Lemma scan_entry_spec e sc sc' :
  scan_entry e sc = Ok sc' ->
  scan_le sc sc' /\
  (fe_filter_type e = "ai_guardrails"%string -> sc_has_guardrail sc' = true /\ covered e sc').
Proof.
  unfold scan_entry. destruct (String.eqb_spec (fe_filter_type e) "ai_guardrails") as [E|E]; simpl.
  2: { intros [= <-]. split; [by split_and!|done]. }
  destruct (guardrail_phases e) as [[rq rs]|] eqn:Hg; [|done].
  destruct (negb rq && negb rs) eqn:Hn.
  { intros [= <-]. split; [by split_and!|]. intros _. split; [done|]. intros rq' H'.
    exfalso. destruct rq, rs; simplify_eq. }
  destruct (selected_guardrail_header e) as [h|] eqn:Hh.
  - intros [= <-]. split; [split_and!; simpl; destruct rs; set_solver|]. intros _. split; [done|].
    intros rq' H'. simplify_eq. left. exists h. simpl. set_solver.
  - destruct (is_unconditional e); [|done]. intros [= <-].
    split; [split_and!; simpl; try done; by intros ->|]. intros _. split; [done|].
    intros rq' H'. simplify_eq. right. simpl. by rewrite orb_true_r.
Qed.

Lemma scan_le_refl sc : scan_le sc sc.
Proof. by split_and!. Qed.

Lemma scan_le_trans a b c : scan_le a b -> scan_le b c -> scan_le a c.
Proof. unfold scan_le. intuition set_solver. Qed.

Lemma covered_mono e a b : scan_le a b -> covered e a -> covered e b.
Proof.
  intros (Ho & _ & _ & Ha & _) Hc rq Hg.
  destruct (Hc rq Hg) as [(h & ? & ?)|]; [left; exists h; set_solver|right; auto].
Qed.

#[local] Hint Resolve scan_le_refl scan_le_trans covered_mono : core.

Lemma scan_entries_spec es : forall sc sc',
  scan_entries es sc = Ok sc' ->
  scan_le sc sc' /\
  forall e, e ∈ es -> fe_filter_type e = "ai_guardrails"%string ->
    sc_has_guardrail sc' = true /\ covered e sc'.
Proof.
  induction es as [|e es IH]; simpl; intros sc sc' Hs.
  { injection Hs as <-. split; [done|]. intros e He. by apply elem_of_nil in He. }
  destruct (scan_entry e sc) as [sc1|] eqn:E1; [|done]. simpl in Hs.
  destruct (scan_entry_spec e sc sc1 E1) as [L1 C1]. destruct (IH sc1 sc' Hs) as [L2 C2].
  split; [by eapply scan_le_trans|]. intros e' He' Ht. apply elem_of_cons in He' as [->|He']; [|auto].
  destruct (C1 Ht) as [G1 G2]. split; [by apply L2|by eapply covered_mono].
Qed.

Lemma scan_entries_invalid es : forall sc s,
  scan_entries es sc = Err s -> enabled s = true /\ valid s = false.
Proof.
  induction es as [|e es IH]; simpl; intros sc s Hs; [done|].
  destruct (scan_entry e sc) as [sc1|s1] eqn:E1; simpl in Hs; [by eapply IH|].
  injection Hs as <-. revert E1. unfold scan_entry.
  repeat (case_match; try done); by intros [= <-].
Qed.

(** The scan keeps its accumulators consistent: what disables streaming also counts as
    a guardrail for full-duplex admission. *)
Definition scan_consistent (sc : Scan) : Prop :=
  sc_output_headers sc ⊆ sc_guardrail_headers sc /\
  (sc_always_on_response sc = true -> sc_unconditional sc = true).

Lemma scan_entries_consistent es : forall sc sc',
  scan_consistent sc -> scan_entries es sc = Ok sc' -> scan_consistent sc'.
Proof.
  induction es as [|e es IH]; simpl; intros sc sc' Hc Hs; [by injection Hs as <-|].
  destruct (scan_entry e sc) as [sc1|] eqn:E1; [|done]. apply (IH sc1); [|done].
  revert E1. unfold scan_entry. destruct Hc as [Hsub Hal].
  repeat (case_match; try done); intros [= <-]; split; simpl; try done; set_solver.
Qed.

(** C18. No response guardrail is bypassed: when the selector built from the configuration
    lets the response be streamed, every configured guardrail with a response phase is
    a conditional one whose selection header the request either lacks or carries exactly
    once with the value [false]. *)
Theorem streaming_bypasses_no_guardrail (chains : list FilterChainConfig) headers chain entry rq :
  should_stream (from_config chains) headers = true ->
  chain ∈ chains -> entry ∈ fc_filters chain ->
  fe_filter_type entry = "ai_guardrails"%string ->
  guardrail_phases entry = Some (rq, true) ->
  exists h, selected_guardrail_header entry = Some h /\
    (values_of_name headers h = [] \/ values_of_name headers h = ["false"%string]).
Proof.
  intros Hs Hch He Ht Hg. unfold from_config, should_stream in Hs.
  assert (entry ∈ flat_map fc_filters chains) as Hin.
  { apply list_elem_of_In, in_flat_map. exists chain. by rewrite <- !list_elem_of_In. }
  destruct (scan_entries _ _) as [sc|s] eqn:E.
  - destruct (scan_entries_spec _ _ _ E) as [_ C]. destruct (C entry Hin Ht) as [G Cov].
    rewrite G in Hs. simpl in Hs.
    apply andb_prop in Hs as [Ha%negb_true_iff Ho%negb_true_iff].
    destruct (Cov rq Hg) as [(h & Hh & Hout)|Hal]; [|congruence].
    exists h. split; [done|]. apply header_may_be_selected_false.
    by apply (proj1 (any_selected_false _ _) Ho).
  - destruct (scan_entries_invalid _ _ _ E) as [_ Hv]. rewrite Hv, andb_false_r in Hs. done.
Qed.

(** The two decisions agree: whatever the configuration, a request whose response may not
    be streamed past configured guardrails is one full-duplex mode refuses. An invalid
    guardrail configuration is a case of it, as it never allows streaming. *)
Theorem unstreamable_is_refused_in_fds (chains : list FilterChainConfig) headers :
  let s := from_config chains in
  enabled s = true -> should_stream s headers = false -> has_selected_guardrail s headers = true.
Proof.
  cbv zeta. unfold should_stream, has_selected_guardrail, from_config.
  destruct (scan_entries _ _) as [sc|s] eqn:E.
  - assert (scan_consistent sc) as [Hsub Hal] by (eapply scan_entries_consistent; [|exact E]; done).
    destruct (sc_has_guardrail sc); simpl; [|done]. intros _ Hs.
    destruct (sc_unconditional sc); [done|]. destruct (sc_always_on_response sc); [by discriminate Hal|].
    simpl in *. apply negb_false_iff in Hs.
    apply not_false_iff_true. rewrite any_selected_false. intros Hall.
    apply not_false_iff_true in Hs. apply Hs. apply any_selected_false. set_solver.
  - destruct (scan_entries_invalid _ _ _ E) as [-> ->]. done.
Qed.
End FromConfig.

(** ** Concrete configurations *)

(** A guardrail on the response, run when the request carries its selection header. *)
Definition demo_guardrail : FilterEntry :=
  Build_FilterEntry "ai_guardrails"
    (YMap [("phase", YMap [("request", YBool true); ("response", YBool true)])]%string)
    [When {| wc_grpc := false; wc_path := false; wc_path_prefix := false; wc_methods := false;
             wc_bound_upstream := false; wc_selected_upstream := false;
             wc_headers := Some {["X-AIGateway-Guardrail-Output" := "true"]}%string |}] [].
Definition demo_chain : FilterChainConfig := Build_FilterChainConfig "main" [demo_guardrail].

Definition demo_selection (v : string) : list HeaderValue :=
  [{| hv_key := "x-aigateway-guardrail-output"; hv_value := ""; hv_raw_value := as_bytes v |}]%string.

Lemma streaming_bypasses_no_guardrail_witness :
  should_stream (from_config [demo_chain]) (demo_selection "false") = true /\
  exists h, selected_guardrail_header demo_guardrail = Some h /\
    (values_of_name (demo_selection "false") h = [] \/
     values_of_name (demo_selection "false") h = ["false"%string]).
Proof.
  split; [vm_compute; reflexivity|].
  apply (streaming_bypasses_no_guardrail [demo_chain] (demo_selection "false") demo_chain demo_guardrail true).
  - vm_compute; reflexivity.
  - apply list_elem_of_here.
  - apply list_elem_of_here.
  - reflexivity.
  - reflexivity.
Defined.

Lemma unstreamable_is_refused_in_fds_witness :
  enabled (from_config [demo_chain]) = true /\
  should_stream (from_config [demo_chain]) (demo_selection "true") = false /\
  has_selected_guardrail (from_config [demo_chain]) (demo_selection "true") = true.
Proof.
  split; [vm_compute; reflexivity|]. split; [vm_compute; reflexivity|].
  apply (unstreamable_is_refused_in_fds [demo_chain] (demo_selection "true")); vm_compute; reflexivity.
Defined.
