(* ===== verification/State.v ===== *)
(** * Per-stream state ([src/server.rs], the state half)

    [StreamState] and its parts, and the linear hand-over of filter-context state from one
    phase to the next ([HydratedContext::hydrate] and [dehydrate]). The fields
    [request_body] and [response_body] are called [request_body_buf] and
    [response_body_buf], since the response builders have the plain names. *)

From S2P Require Import Prelude Proto Effect Extern Response Protocol ResponseMode.

(** [config::DEFAULT_MAX_BODY_BYTES]. *)
Definition DEFAULT_MAX_BODY_BYTES : Z := 32 * 1024 * 1024.

(** ** Delivery flags *)

Record HeaderDeliveryState := {
  request_filters_executed : bool;
  response_filters_executed : bool;
  request_headers_sent : bool;
  response_headers_sent : bool;
}.

Definition HeaderDeliveryState_default : HeaderDeliveryState :=
  {| request_filters_executed := false; response_filters_executed := false;
     request_headers_sent := false; response_headers_sent := false |}.

Definition with_request_filters_executed (b : bool) (h : HeaderDeliveryState) : HeaderDeliveryState :=
  {| request_filters_executed := b; response_filters_executed := response_filters_executed h;
     request_headers_sent := request_headers_sent h; response_headers_sent := response_headers_sent h |}.
Definition with_response_filters_executed (b : bool) (h : HeaderDeliveryState) : HeaderDeliveryState :=
  {| request_filters_executed := request_filters_executed h; response_filters_executed := b;
     request_headers_sent := request_headers_sent h; response_headers_sent := response_headers_sent h |}.

Definition headers_sent (is_request : bool) (h : HeaderDeliveryState) : bool :=
  if is_request then request_headers_sent h else response_headers_sent h.
Definition with_headers_sent (is_request b : bool) (h : HeaderDeliveryState) : HeaderDeliveryState :=
  {| request_filters_executed := request_filters_executed h;
     response_filters_executed := response_filters_executed h;
     request_headers_sent := if is_request then b else request_headers_sent h;
     response_headers_sent := if is_request then response_headers_sent h else b |}.

(** [take_first_chunk]: mark the direction sent; true on the first call. *)
Definition take_first_chunk (is_request : bool) (h : HeaderDeliveryState) : bool * HeaderDeliveryState :=
  if headers_sent is_request h then (false, h) else (true, with_headers_sent is_request true h).

Record BodyReceiptTracker := {
  seen_request : bool;
  seen_response : bool;
}.

Definition BodyReceiptTracker_default : BodyReceiptTracker :=
  {| seen_request := false; seen_response := false |}.

Definition mark_seen (is_request : bool) (t : BodyReceiptTracker) : BodyReceiptTracker :=
  if is_request then {| seen_request := true; seen_response := seen_response t |}
  else {| seen_request := seen_request t; seen_response := true |}.
Definition seen (is_request : bool) (t : BodyReceiptTracker) : bool :=
  if is_request then seen_request t else seen_response t.

Section State.
Context `{PraxisFilter}.

(** ** State parked between phases *)

Record CarriedContext := {
  cc_cluster : option string;
  cc_branch_iterations : gmap string Z;
  cc_executed_filter_indices : list bool;
  cc_filter_metadata : gmap string string;
  cc_filter_state : gmap nat FilterState;
  cc_response_body_mode : option FilterBodyMode;
  cc_request_body_bytes : Z;
  cc_response_body_bytes : Z;
}.

Definition CarriedContext_default : CarriedContext :=
  {| cc_cluster := None; cc_branch_iterations := ∅; cc_executed_filter_indices := [];
     cc_filter_metadata := ∅; cc_filter_state := ∅; cc_response_body_mode := None;
     cc_request_body_bytes := 0; cc_response_body_bytes := 0 |}.

(** [HydratedContext::hydrate]. [HydratedContext] only wraps the context, so the model
    uses the context itself. *)
Definition hydrate (carried : option CarriedContext) (ctx : Ctx) : result Status Ctx :=
  match carried with
  | None => Err (Status_internal "cross-phase context missing: a prior phase did not restore it")
  | Some c =>
      Ok {| ctx_client_addr := ctx_client_addr ctx;
            ctx_cluster := cc_cluster c;
            ctx_branch_iterations := cc_branch_iterations c;
            ctx_executed_filter_indices := cc_executed_filter_indices c;
            ctx_filter_metadata := cc_filter_metadata c;
            ctx_filter_state := cc_filter_state c;
            ctx_extra_request_headers := ctx_extra_request_headers ctx;
            ctx_request_headers_to_remove := ctx_request_headers_to_remove ctx;
            ctx_request_headers_to_set := ctx_request_headers_to_set ctx;
            ctx_rewritten_path := ctx_rewritten_path ctx;
            ctx_request := ctx_request ctx;
            ctx_request_body_bytes := cc_request_body_bytes c;
            ctx_request_body_mode := ctx_request_body_mode ctx;
            ctx_response_body_bytes := cc_response_body_bytes c;
            ctx_response_body_mode := default (ctx_response_body_mode ctx) (cc_response_body_mode c);
            ctx_response_header := ctx_response_header ctx;
            ctx_response_headers_modified := ctx_response_headers_modified ctx;
            ctx_upstream_reached := ctx_upstream_reached ctx;
            ctx_rest := ctx_rest ctx |}
  end.

(** What [dehydrate] captures. *)
Definition capture (ctx : Ctx) : CarriedContext :=
  {| cc_cluster := ctx_cluster ctx;
     cc_branch_iterations := ctx_branch_iterations ctx;
     cc_executed_filter_indices := ctx_executed_filter_indices ctx;
     cc_filter_metadata := ctx_filter_metadata ctx;
     cc_filter_state := ctx_filter_state ctx;
     cc_response_body_mode := Some (ctx_response_body_mode ctx);
     cc_request_body_bytes := ctx_request_body_bytes ctx;
     cc_response_body_bytes := ctx_response_body_bytes ctx |}.

(** [HydratedContext::dehydrate]: the new content of the slot. *)
Definition dehydrate (ctx : Ctx) (slot : option CarriedContext)
  : result Status (option CarriedContext) :=
  match slot with
  | Some _ =>
      Err (Status_internal "cross-phase context already present: this phase did not drain it before capture")
  | None => Ok (Some (capture ctx))
  end.

(** [ctx.response_header = Some(resp); ctx.upstream_reached = true]. *)
Definition ctx_with_response (resp : Response) (ctx : Ctx) : Ctx :=
  {| ctx_client_addr := ctx_client_addr ctx;
     ctx_cluster := ctx_cluster ctx;
     ctx_branch_iterations := ctx_branch_iterations ctx;
     ctx_executed_filter_indices := ctx_executed_filter_indices ctx;
     ctx_filter_metadata := ctx_filter_metadata ctx;
     ctx_filter_state := ctx_filter_state ctx;
     ctx_extra_request_headers := ctx_extra_request_headers ctx;
     ctx_request_headers_to_remove := ctx_request_headers_to_remove ctx;
     ctx_request_headers_to_set := ctx_request_headers_to_set ctx;
     ctx_rewritten_path := ctx_rewritten_path ctx;
     ctx_request := ctx_request ctx;
     ctx_request_body_bytes := ctx_request_body_bytes ctx;
     ctx_request_body_mode := ctx_request_body_mode ctx;
     ctx_response_body_bytes := ctx_response_body_bytes ctx;
     ctx_response_body_mode := ctx_response_body_mode ctx;
     ctx_response_header := Some resp;
     ctx_response_headers_modified := ctx_response_headers_modified ctx;
     ctx_upstream_reached := true;
     ctx_rest := ctx_rest ctx |}.

(** ** The stream state *)

Record StreamState := {
  carried_context : option CarriedContext;
  request : option Request;
  request_body_buf : bytes;
  streamed_request_bytes : Z;
  response : option Response;
  response_body_buf : bytes;
  body_receipt : BodyReceiptTracker;
  header_state : HeaderDeliveryState;
  eos_tracker : EosTracker;
  protocol_config : ProtocolConfig;
  deferred_request_header_mutation : option HeaderMutation;
  deferred_response_header_mutation : option HeaderMutation;
  phase_order : PhaseOrderTracker;
  max_body_accumulation : option Z;
  buffered_request_body_processed : bool;
  trust_forwarded_for : bool;
  response_mode_selector : ResponseModeSelector;
}.

(** [StreamState::default]: the carried slot starts present. *)
Definition StreamState_default : StreamState :=
  {| carried_context := Some CarriedContext_default;
     request := None; request_body_buf := []; streamed_request_bytes := 0;
     response := None; response_body_buf := [];
     body_receipt := BodyReceiptTracker_default;
     header_state := HeaderDeliveryState_default;
     eos_tracker := EosTracker_default;
     protocol_config := ProtocolConfig_default;
     deferred_request_header_mutation := None;
     deferred_response_header_mutation := None;
     phase_order := PhaseOrderTracker_default;
     max_body_accumulation := None;
     buffered_request_body_processed := false;
     trust_forwarded_for := false;
     response_mode_selector := ResponseModeSelector_default |}.

(** Field assignment ([state.field = v]). *)
Definition with_carried_context (v : option CarriedContext) (s : StreamState) : StreamState :=
  {| carried_context := v; request := request s; request_body_buf := request_body_buf s;
     streamed_request_bytes := streamed_request_bytes s; response := response s;
     response_body_buf := response_body_buf s; body_receipt := body_receipt s; header_state :=
     header_state s; eos_tracker := eos_tracker s; protocol_config := protocol_config s;
     deferred_request_header_mutation := deferred_request_header_mutation s;
     deferred_response_header_mutation := deferred_response_header_mutation s; phase_order :=
     phase_order s; max_body_accumulation := max_body_accumulation s;
     buffered_request_body_processed := buffered_request_body_processed s; trust_forwarded_for
     := trust_forwarded_for s; response_mode_selector := response_mode_selector s |}.
Definition with_request (v : option Request) (s : StreamState) : StreamState :=
  {| carried_context := carried_context s; request := v; request_body_buf := request_body_buf s;
     streamed_request_bytes := streamed_request_bytes s; response := response s;
     response_body_buf := response_body_buf s; body_receipt := body_receipt s; header_state :=
     header_state s; eos_tracker := eos_tracker s; protocol_config := protocol_config s;
     deferred_request_header_mutation := deferred_request_header_mutation s;
     deferred_response_header_mutation := deferred_response_header_mutation s; phase_order :=
     phase_order s; max_body_accumulation := max_body_accumulation s;
     buffered_request_body_processed := buffered_request_body_processed s; trust_forwarded_for
     := trust_forwarded_for s; response_mode_selector := response_mode_selector s |}.
Definition with_request_body_buf (v : bytes) (s : StreamState) : StreamState :=
  {| carried_context := carried_context s; request := request s; request_body_buf := v;
     streamed_request_bytes := streamed_request_bytes s; response := response s;
     response_body_buf := response_body_buf s; body_receipt := body_receipt s; header_state :=
     header_state s; eos_tracker := eos_tracker s; protocol_config := protocol_config s;
     deferred_request_header_mutation := deferred_request_header_mutation s;
     deferred_response_header_mutation := deferred_response_header_mutation s; phase_order :=
     phase_order s; max_body_accumulation := max_body_accumulation s;
     buffered_request_body_processed := buffered_request_body_processed s; trust_forwarded_for
     := trust_forwarded_for s; response_mode_selector := response_mode_selector s |}.
Definition with_streamed_request_bytes (v : Z) (s : StreamState) : StreamState :=
  {| carried_context := carried_context s; request := request s; request_body_buf :=
     request_body_buf s; streamed_request_bytes := v; response := response s; response_body_buf
     := response_body_buf s; body_receipt := body_receipt s; header_state := header_state s;
     eos_tracker := eos_tracker s; protocol_config := protocol_config s;
     deferred_request_header_mutation := deferred_request_header_mutation s;
     deferred_response_header_mutation := deferred_response_header_mutation s; phase_order :=
     phase_order s; max_body_accumulation := max_body_accumulation s;
     buffered_request_body_processed := buffered_request_body_processed s; trust_forwarded_for
     := trust_forwarded_for s; response_mode_selector := response_mode_selector s |}.
Definition with_response (v : option Response) (s : StreamState) : StreamState :=
  {| carried_context := carried_context s; request := request s; request_body_buf :=
     request_body_buf s; streamed_request_bytes := streamed_request_bytes s; response := v;
     response_body_buf := response_body_buf s; body_receipt := body_receipt s; header_state :=
     header_state s; eos_tracker := eos_tracker s; protocol_config := protocol_config s;
     deferred_request_header_mutation := deferred_request_header_mutation s;
     deferred_response_header_mutation := deferred_response_header_mutation s; phase_order :=
     phase_order s; max_body_accumulation := max_body_accumulation s;
     buffered_request_body_processed := buffered_request_body_processed s; trust_forwarded_for
     := trust_forwarded_for s; response_mode_selector := response_mode_selector s |}.
Definition with_response_body_buf (v : bytes) (s : StreamState) : StreamState :=
  {| carried_context := carried_context s; request := request s; request_body_buf :=
     request_body_buf s; streamed_request_bytes := streamed_request_bytes s; response :=
     response s; response_body_buf := v; body_receipt := body_receipt s; header_state :=
     header_state s; eos_tracker := eos_tracker s; protocol_config := protocol_config s;
     deferred_request_header_mutation := deferred_request_header_mutation s;
     deferred_response_header_mutation := deferred_response_header_mutation s; phase_order :=
     phase_order s; max_body_accumulation := max_body_accumulation s;
     buffered_request_body_processed := buffered_request_body_processed s; trust_forwarded_for
     := trust_forwarded_for s; response_mode_selector := response_mode_selector s |}.
Definition with_body_receipt (v : BodyReceiptTracker) (s : StreamState) : StreamState :=
  {| carried_context := carried_context s; request := request s; request_body_buf :=
     request_body_buf s; streamed_request_bytes := streamed_request_bytes s; response :=
     response s; response_body_buf := response_body_buf s; body_receipt := v; header_state :=
     header_state s; eos_tracker := eos_tracker s; protocol_config := protocol_config s;
     deferred_request_header_mutation := deferred_request_header_mutation s;
     deferred_response_header_mutation := deferred_response_header_mutation s; phase_order :=
     phase_order s; max_body_accumulation := max_body_accumulation s;
     buffered_request_body_processed := buffered_request_body_processed s; trust_forwarded_for
     := trust_forwarded_for s; response_mode_selector := response_mode_selector s |}.
Definition with_header_state (v : HeaderDeliveryState) (s : StreamState) : StreamState :=
  {| carried_context := carried_context s; request := request s; request_body_buf :=
     request_body_buf s; streamed_request_bytes := streamed_request_bytes s; response :=
     response s; response_body_buf := response_body_buf s; body_receipt := body_receipt s;
     header_state := v; eos_tracker := eos_tracker s; protocol_config := protocol_config s;
     deferred_request_header_mutation := deferred_request_header_mutation s;
     deferred_response_header_mutation := deferred_response_header_mutation s; phase_order :=
     phase_order s; max_body_accumulation := max_body_accumulation s;
     buffered_request_body_processed := buffered_request_body_processed s; trust_forwarded_for
     := trust_forwarded_for s; response_mode_selector := response_mode_selector s |}.
Definition with_eos_tracker (v : EosTracker) (s : StreamState) : StreamState :=
  {| carried_context := carried_context s; request := request s; request_body_buf :=
     request_body_buf s; streamed_request_bytes := streamed_request_bytes s; response :=
     response s; response_body_buf := response_body_buf s; body_receipt := body_receipt s;
     header_state := header_state s; eos_tracker := v; protocol_config := protocol_config s;
     deferred_request_header_mutation := deferred_request_header_mutation s;
     deferred_response_header_mutation := deferred_response_header_mutation s; phase_order :=
     phase_order s; max_body_accumulation := max_body_accumulation s;
     buffered_request_body_processed := buffered_request_body_processed s; trust_forwarded_for
     := trust_forwarded_for s; response_mode_selector := response_mode_selector s |}.
Definition with_protocol_config (v : ProtocolConfig) (s : StreamState) : StreamState :=
  {| carried_context := carried_context s; request := request s; request_body_buf :=
     request_body_buf s; streamed_request_bytes := streamed_request_bytes s; response :=
     response s; response_body_buf := response_body_buf s; body_receipt := body_receipt s;
     header_state := header_state s; eos_tracker := eos_tracker s; protocol_config := v;
     deferred_request_header_mutation := deferred_request_header_mutation s;
     deferred_response_header_mutation := deferred_response_header_mutation s; phase_order :=
     phase_order s; max_body_accumulation := max_body_accumulation s;
     buffered_request_body_processed := buffered_request_body_processed s; trust_forwarded_for
     := trust_forwarded_for s; response_mode_selector := response_mode_selector s |}.
Definition with_deferred_request_header_mutation (v : option HeaderMutation) (s : StreamState) : StreamState :=
  {| carried_context := carried_context s; request := request s; request_body_buf :=
     request_body_buf s; streamed_request_bytes := streamed_request_bytes s; response :=
     response s; response_body_buf := response_body_buf s; body_receipt := body_receipt s;
     header_state := header_state s; eos_tracker := eos_tracker s; protocol_config :=
     protocol_config s; deferred_request_header_mutation := v; deferred_response_header_mutation
     := deferred_response_header_mutation s; phase_order := phase_order s; max_body_accumulation
     := max_body_accumulation s; buffered_request_body_processed :=
     buffered_request_body_processed s; trust_forwarded_for := trust_forwarded_for s;
     response_mode_selector := response_mode_selector s |}.
Definition with_deferred_response_header_mutation (v : option HeaderMutation) (s : StreamState) : StreamState :=
  {| carried_context := carried_context s; request := request s; request_body_buf :=
     request_body_buf s; streamed_request_bytes := streamed_request_bytes s; response :=
     response s; response_body_buf := response_body_buf s; body_receipt := body_receipt s;
     header_state := header_state s; eos_tracker := eos_tracker s; protocol_config :=
     protocol_config s; deferred_request_header_mutation := deferred_request_header_mutation s;
     deferred_response_header_mutation := v; phase_order := phase_order s; max_body_accumulation
     := max_body_accumulation s; buffered_request_body_processed :=
     buffered_request_body_processed s; trust_forwarded_for := trust_forwarded_for s;
     response_mode_selector := response_mode_selector s |}.
Definition with_phase_order (v : PhaseOrderTracker) (s : StreamState) : StreamState :=
  {| carried_context := carried_context s; request := request s; request_body_buf :=
     request_body_buf s; streamed_request_bytes := streamed_request_bytes s; response :=
     response s; response_body_buf := response_body_buf s; body_receipt := body_receipt s;
     header_state := header_state s; eos_tracker := eos_tracker s; protocol_config :=
     protocol_config s; deferred_request_header_mutation := deferred_request_header_mutation s;
     deferred_response_header_mutation := deferred_response_header_mutation s; phase_order := v;
     max_body_accumulation := max_body_accumulation s; buffered_request_body_processed :=
     buffered_request_body_processed s; trust_forwarded_for := trust_forwarded_for s;
     response_mode_selector := response_mode_selector s |}.
Definition with_max_body_accumulation (v : option Z) (s : StreamState) : StreamState :=
  {| carried_context := carried_context s; request := request s; request_body_buf :=
     request_body_buf s; streamed_request_bytes := streamed_request_bytes s; response :=
     response s; response_body_buf := response_body_buf s; body_receipt := body_receipt s;
     header_state := header_state s; eos_tracker := eos_tracker s; protocol_config :=
     protocol_config s; deferred_request_header_mutation := deferred_request_header_mutation s;
     deferred_response_header_mutation := deferred_response_header_mutation s; phase_order :=
     phase_order s; max_body_accumulation := v; buffered_request_body_processed :=
     buffered_request_body_processed s; trust_forwarded_for := trust_forwarded_for s;
     response_mode_selector := response_mode_selector s |}.
Definition with_buffered_request_body_processed (v : bool) (s : StreamState) : StreamState :=
  {| carried_context := carried_context s; request := request s; request_body_buf :=
     request_body_buf s; streamed_request_bytes := streamed_request_bytes s; response :=
     response s; response_body_buf := response_body_buf s; body_receipt := body_receipt s;
     header_state := header_state s; eos_tracker := eos_tracker s; protocol_config :=
     protocol_config s; deferred_request_header_mutation := deferred_request_header_mutation s;
     deferred_response_header_mutation := deferred_response_header_mutation s; phase_order :=
     phase_order s; max_body_accumulation := max_body_accumulation s;
     buffered_request_body_processed := v; trust_forwarded_for := trust_forwarded_for s;
     response_mode_selector := response_mode_selector s |}.
Definition with_trust_forwarded_for (v : bool) (s : StreamState) : StreamState :=
  {| carried_context := carried_context s; request := request s; request_body_buf :=
     request_body_buf s; streamed_request_bytes := streamed_request_bytes s; response :=
     response s; response_body_buf := response_body_buf s; body_receipt := body_receipt s;
     header_state := header_state s; eos_tracker := eos_tracker s; protocol_config :=
     protocol_config s; deferred_request_header_mutation := deferred_request_header_mutation s;
     deferred_response_header_mutation := deferred_response_header_mutation s; phase_order :=
     phase_order s; max_body_accumulation := max_body_accumulation s;
     buffered_request_body_processed := buffered_request_body_processed s; trust_forwarded_for
     := v; response_mode_selector := response_mode_selector s |}.
Definition with_response_mode_selector (v : ResponseModeSelector) (s : StreamState) : StreamState :=
  {| carried_context := carried_context s; request := request s; request_body_buf :=
     request_body_buf s; streamed_request_bytes := streamed_request_bytes s; response :=
     response s; response_body_buf := response_body_buf s; body_receipt := body_receipt s;
     header_state := header_state s; eos_tracker := eos_tracker s; protocol_config :=
     protocol_config s; deferred_request_header_mutation := deferred_request_header_mutation s;
     deferred_response_header_mutation := deferred_response_header_mutation s; phase_order :=
     phase_order s; max_body_accumulation := max_body_accumulation s;
     buffered_request_body_processed := buffered_request_body_processed s; trust_forwarded_for
     := trust_forwarded_for s; response_mode_selector := v |}.

(** [StreamState::new]. *)
Definition StreamState_new : StreamState :=
  with_max_body_accumulation (Some DEFAULT_MAX_BODY_BYTES) StreamState_default.

Definition set_request_headers_sent (b : bool) (s : StreamState) : StreamState :=
  with_header_state (with_headers_sent true b (header_state s)) s.
Definition set_response_headers_sent (b : bool) (s : StreamState) : StreamState :=
  with_header_state (with_headers_sent false b (header_state s)) s.
Definition set_request_filters_executed (b : bool) (s : StreamState) : StreamState :=
  with_header_state (with_request_filters_executed b (header_state s)) s.
Definition set_response_filters_executed (b : bool) (s : StreamState) : StreamState :=
  with_header_state (with_response_filters_executed b (header_state s)) s.

Definition mark_body_chunk_seen (is_request : bool) (s : StreamState) : StreamState :=
  with_body_receipt (mark_seen is_request (body_receipt s)) s.
Definition body_chunk_seen (is_request : bool) (s : StreamState) : bool :=
  seen is_request (body_receipt s).

(** [StreamState::body_open]. *)
Definition body_open (is_request : bool) (s : StreamState) : bool :=
  let '(present, headers, body) :=
    if is_request then (bool_decide (is_Some (request s)), PRequestHeaders, PRequestBody)
    else (bool_decide (is_Some (response s)), PResponseHeaders, PResponseBody) in
  present && negb (is_complete (phase_state (eos_tracker s) headers))
  && negb (is_complete (phase_state (eos_tracker s) body)).
End State.

(** ** Lemmas *)

Section StateLemmas.
Context `{PraxisFilter}.

(** State captured at the end of one phase and poured into the next phase's fresh context
    captures back to the same state, whatever fresh context it is poured into. *)
Lemma hydrate_capture (ctx fresh : Ctx) :
  exists ctx', hydrate (Some (capture ctx)) fresh = Ok ctx' /\ capture ctx' = capture ctx /\
    ctx_request ctx' = ctx_request fresh /\ ctx_response_header ctx' = ctx_response_header fresh.
Proof. eexists. split; [reflexivity|]. by split_and!. Qed.

Lemma hydrate_some c ctx : exists ctx', hydrate (Some c) ctx = Ok ctx'.
Proof. eexists. reflexivity. Qed.
End StateLemmas.
