(* ===== verification/Pipeline.v ===== *)
(** * Filter execution and response assembly ([src/pipeline.rs])

    Functions that take [&mut HttpFilterContext] return the context next to their result.
    [state.response.as_mut()] is borrowed by the context while filters run, so its
    changes are written back to the state whether or not the call succeeds. *)

From S2P Require Import Prelude RustStd Proto Effect Extern Metrics Response Protocol Adapter ResponseMode State.

Inductive RequestPhase := RqHeaders | RqBody.
Inductive ResponsePhase := RsHeaders | RsBody.

(** Pure helpers. *)

Definition body_data_if_present (buf : bytes) : option bytes :=
  match buf with [] => None | _ => Some buf end.

Definition merge_mutations (deferred current : option HeaderMutation) : option HeaderMutation :=
  match deferred, current with
  | None, None => None
  | Some m, None | None, Some m => Some m
  | Some d, Some c =>
      Some {| set_headers := set_headers d ++ set_headers c;
              remove_headers := remove_headers d ++ remove_headers c |}
  end.

(** [with_content_length]: declare the emitted size when it differs from the original. *)
Definition with_content_length (mutation : option HeaderMutation) (body : option bytes)
  (original_len : Z) : option HeaderMutation :=
  match body with
  | Some b => if negb (len b =? original_len) then Some (set_content_length mutation (len b)) else mutation
  | None => mutation
  end.

Definition build_request_for_phase (phase : RequestPhase) (mutation : option HeaderMutation)
  (body : option bytes) (mode : BodyMode) (end_of_stream : bool) : list ProcessingResponse :=
  match phase, mode with
  | RqHeaders, _ => [request_headers mutation]
  | RqBody, FullDuplexStreamed =>
      request_headers mutation :: request_body body None mode end_of_stream
  | RqBody, _ => request_body body mutation mode end_of_stream
  end.

Definition build_response_for_phase (phase : ResponsePhase) (mutation : option HeaderMutation)
  (body : option bytes) (mode : BodyMode) (end_of_stream : bool) : list ProcessingResponse :=
  match phase, mode with
  | RsHeaders, _ => [response_headers mutation]
  | RsBody, FullDuplexStreamed =>
      response_headers mutation :: response_body body None mode end_of_stream
  | RsBody, _ => response_body body mutation mode end_of_stream
  end.

(** [direction_label]. *)
Definition direction_label (is_request : bool) : string :=
  if is_request then "request" else "response".

Section Pipeline.
Context `{PraxisFilter}.

(** A stream operation. *)
Abbreviation Stream := (M Env StreamState).

(** A local reply built from a status and a body literal. *)
Definition local_rejection (status : Z) (body : string) : ProcessingResponse :=
  immediate (rejection_to_immediate (Rejection_with_body (Rejection_status status) (as_bytes body))).
Definition plain_rejection (status : Z) : ProcessingResponse :=
  immediate (rejection_to_immediate (Rejection_status status)).

(** ** Calls into the filter framework

    Each records the call, runs it on the current environment and turns a filter error
    into [Status::internal]. *)
Definition run_call {A} (c : FilterCall) (f : Env -> result string FilterAction * A * Env)
  : Stream (result Status FilterAction * A) :=
  emit (ECall c) ;;;
  let? env := get_env in
  let '(r, a, env') := f env in
  put_env env' ;;;
  ret (map_err Status_internal r, a).

Definition execute_request (pipeline : FilterPipeline) (ctx : Ctx) : Stream (result Status FilterAction * Ctx) :=
  run_call CallRequest (execute_http_request pipeline ctx).
Definition execute_response (pipeline : FilterPipeline) (ctx : Ctx) : Stream (result Status FilterAction * Ctx) :=
  run_call CallResponse (execute_http_response pipeline ctx).
Definition execute_request_body (pipeline : FilterPipeline) (ctx : Ctx) (body : option bytes) (eos : bool)
  : Stream (result Status FilterAction * (Ctx * option bytes)) :=
  run_call CallRequestBody (fun env =>
    let '(r, c, b, e) := execute_http_request_body pipeline ctx body eos env in (r, (c, b), e)).
Definition execute_selected_upstream (pipeline : FilterPipeline) (ctx : Ctx) (body : option bytes)
  : Stream (result Status FilterAction * (Ctx * option bytes)) :=
  run_call CallSelectedUpstreamRequestBody (fun env =>
    let '(r, c, b, e) := execute_http_selected_upstream_request_body pipeline ctx body env in (r, (c, b), e)).
Definition execute_response_body (pipeline : FilterPipeline) (ctx : Ctx) (body : option bytes) (eos : bool)
  : Stream (result Status FilterAction * (Ctx * option bytes)) :=
  run_call CallResponseBody (fun env =>
    let '(r, c, b, e) := execute_http_response_body pipeline ctx body eos env in (r, (c, b), e)).

(** [immediate_from_action]. *)
Definition immediate_from_action (action : FilterAction) : Stream (option ImmediateResponse) :=
  match action with
  | FilterReject r => record_immediate_response ;;; ret (Some (rejection_to_immediate r))
  | FilterTerminalResponse t => record_immediate_response ;;; ret (Some (terminal_response_to_immediate t))
  | FilterOther _ => ret None
  end.

(** The filter action of a reified call: [?], then [immediate_from_action]. *)
Definition action_outcome (r : result Status FilterAction) : Stream (option ImmediateResponse) :=
  let? action := lift r in immediate_from_action action.

(** ** Body filters

    The buffer passed in is drained ([mem::take]) before the call and refilled only from
    a body the filters leave; a failing call leaves it drained. *)
Definition refill (r : result Status FilterAction) (body : option bytes) : bytes :=
  match r with Ok _ => default [] body | Err _ => [] end.

Definition run_body_filters (pipeline : FilterPipeline) (ctx : Ctx) (body_buf : bytes) (eos : bool)
  : Stream (result Status (option ImmediateResponse) * Ctx * bytes) :=
  if bool_decide (body_buf = []) && negb eos then ret (Ok None, ctx, body_buf)
  else
    let? (r, (ctx', body)) := execute_request_body pipeline ctx (Some body_buf) eos in
    let? outcome := attempt (action_outcome r) in
    ret (outcome, ctx', refill r body).

Definition run_selected_upstream_body_filters (pipeline : FilterPipeline) (ctx : Ctx) (body_buf : bytes)
  (max_body : option Z) : Stream (result Status (option ImmediateResponse) * Ctx * bytes) :=
  if negb (needs_selected_upstream_request_body (body_capabilities pipeline))
  then ret (Ok None, ctx, body_buf)
  else
    let? (r, (ctx', body)) := execute_selected_upstream pipeline ctx (Some body_buf) in
    let body' := refill r body in
    let? outcome := attempt (action_outcome r) in
    match outcome with
    | Ok None =>
        if any_selected_upstream_request_body_writer (body_capabilities pipeline)
           && match max_body with Some limit => limit <? len body' | None => false end
        then record_body_size_rejection ;;;
             ret (Ok (Some (rejection_to_immediate (Rejection_status 413))), ctx', body')
        else ret (Ok None, ctx', body')
    | _ => ret (outcome, ctx', body')
    end.

Definition run_request_body_filters_at_eos (phase : RequestPhase) (pipeline : FilterPipeline) (ctx : Ctx)
  (body : bytes) (run_ordinary_body_filters : bool) (max_body : option Z)
  : Stream (result Status (option ImmediateResponse) * Ctx * bytes) :=
  match phase with
  | RqHeaders => ret (Ok None, ctx, body)
  | RqBody =>
      let? (first, ctx1, body1) :=
        if run_ordinary_body_filters then run_body_filters pipeline ctx body true
        else ret (Ok None, ctx, body) in
      match first with
      | Ok None => run_selected_upstream_body_filters pipeline ctx1 body1 max_body
      | _ => ret (first, ctx1, body1)
      end
  end.

Definition run_resp_body_filters (pipeline : FilterPipeline) (ctx : Ctx) (body_buf : bytes) (eos : bool)
  : Stream (result Status (option ImmediateResponse) * Ctx * bytes) :=
  if bool_decide (body_buf = []) && negb eos then ret (Ok None, ctx, body_buf)
  else
    let? (r, (ctx', body)) := execute_response_body pipeline ctx (Some body_buf) eos in
    let? outcome := attempt (action_outcome r) in
    ret (outcome, ctx', refill r body).

(** ** Shared steps of a phase *)

Definition missing_request_headers {A} : Stream A :=
  record_invalid_argument "missing_headers" "request" ;;;
  fail (Status_invalid_argument "request headers not received").
Definition missing_response_headers {A} : Stream A :=
  record_invalid_argument "missing_headers" "response" ;;;
  fail (Status_invalid_argument "response headers not received").

(** [adapter::build_filter_context(pipeline, request, state.trust_forwarded_for)]. *)
Definition fresh_context (pipeline : FilterPipeline) (rq : Request) : Stream Ctx :=
  let? s := get in
  let? env := get_env in
  ret (build_filter_context pipeline env rq (trust_forwarded_for s)).

(** [HydratedContext::hydrate(state.carried_context.take(), ctx)?]. *)
Definition hydrate_from_state (ctx : Ctx) : Stream Ctx :=
  let? s := get in
  modify (with_carried_context None) ;;;
  lift (hydrate (carried_context s) ctx).

(** [ctx.dehydrate(&mut state.carried_context)?]. *)
Definition dehydrate_to_state (ctx : Ctx) : Stream unit :=
  let? s := get in
  let? slot := lift (dehydrate ctx (carried_context s)) in
  modify (with_carried_context slot).

(** ** The request pipeline *)

Definition selected_input_exceeds_limit (phase : RequestPhase) (pipeline : FilterPipeline) (body_len : Z) : bool :=
  match phase with
  | RqBody => needs_selected_upstream_request_body (body_capabilities pipeline)
              && (selected_upstream_request_body_limit pipeline <? body_len)
  | RqHeaders => false
  end.

Definition selected_input_limit_rejection : Stream ProcessingResponse :=
  record_body_size_rejection ;;; ret (plain_rejection 413).

(** [execute_request_filters_if_needed], with the flag it may set. *)
Definition execute_request_filters_if_needed (pipeline : FilterPipeline) (ctx : Ctx)
  : Stream (result Status (option ImmediateResponse) * Ctx) :=
  let? s := get in
  if request_filters_executed (header_state s) then ret (Ok None, ctx)
  else
    let? (r, ctx') := execute_request pipeline ctx in
    let? outcome := attempt (action_outcome r) in
    match outcome with
    | Ok None => modify (set_request_filters_executed true) ;;; ret (outcome, ctx')
    | _ => ret (outcome, ctx')
    end.

Definition build_bodyless_selected_request_response (mutation : option HeaderMutation) (original_len : Z)
  : Stream (list ProcessingResponse) :=
  let? s := get in
  if negb (bool_decide (request_body_buf s = [])) then
    ret [local_rejection 500 "selected-upstream request-body filter produced bytes for a headers-only request"]
  else
    modify (set_request_headers_sent true) ;;;
    ret [request_headers (with_content_length mutation (Some (request_body_buf s)) original_len)].

Definition build_request (phase : RequestPhase) (mutation : option HeaderMutation) (original_len : Z)
  (end_of_stream : bool) : Stream (list ProcessingResponse) :=
  let? s := get in
  let body := Some (request_body_buf s) in
  let bodyless := match phase with
                  | RqBody => is_complete (eos_request_headers (eos_tracker s))
                  | RqHeaders => false
                  end in
  if bodyless then build_bodyless_selected_request_response mutation original_len
  else ret (build_request_for_phase phase (with_content_length mutation body original_len) body
              (request_body_mode (protocol_config s)) end_of_stream).

Definition run_request_pipeline_inner (phase : RequestPhase) (pipeline : FilterPipeline) (eos : bool)
  (run_ordinary_body_filters : bool) : Stream (list ProcessingResponse) :=
  let? s := get in
  match request s with
  | None => missing_request_headers
  | Some rq =>
      let? fresh := fresh_context pipeline rq in
      let? ctx := hydrate_from_state fresh in
      let? (outcome, ctx) := execute_request_filters_if_needed pipeline ctx in
      let? imm := lift outcome in
      match imm with
      | Some i => ret [immediate i]
      | None =>
          let? s := get in
          if selected_input_exceeds_limit phase pipeline (len (request_body_buf s)) then
            let? r := selected_input_limit_rejection in ret [r]
          else
            let prior_len := len (request_body_buf s) in
            let? (outcome, ctx, body) :=
              run_request_body_filters_at_eos phase pipeline ctx (request_body_buf s)
                run_ordinary_body_filters (max_body_accumulation s) in
            modify (with_request_body_buf body) ;;;
            let? imm := lift outcome in
            match imm with
            | Some i => ret [immediate i]
            | None =>
                let mutation := collect_request_header_mutations ctx in
                dehydrate_to_state ctx ;;;
                build_request phase mutation prior_len eos
            end
      end
  end.

Definition run_request_pipeline (phase : RequestPhase) (pipeline : FilterPipeline) (end_of_stream : bool)
  : Stream (list ProcessingResponse) :=
  run_request_pipeline_inner phase pipeline end_of_stream true.

Definition run_bodyless_selected_upstream_pipeline (pipeline : FilterPipeline)
  : Stream (list ProcessingResponse) :=
  run_request_pipeline_inner RqBody pipeline true false.

(** ** The response pipeline *)

Definition execute_response_pipeline_and_body_filters (phase : ResponsePhase) (pipeline : FilterPipeline)
  (ctx : Ctx) (body : bytes) (filters_executed : bool)
  : Stream (result Status (option ImmediateResponse) * Ctx * bytes) :=
  let should_execute := match phase with RsHeaders => true | RsBody => negb filters_executed end in
  let? (first, ctx1) :=
    if should_execute then
      let? (r, ctx') := execute_response pipeline ctx in
      let? outcome := attempt (action_outcome r) in
      ret (outcome, ctx')
    else ret (Ok None, ctx) in
  match first with
  | Ok None =>
      match phase with
      | RsHeaders => ret (Ok None, ctx1, body)
      | RsBody => run_resp_body_filters pipeline ctx1 body true
      end
  | _ => ret (first, ctx1, body)
  end.

Definition run_response_pipeline (phase : ResponsePhase) (pipeline : FilterPipeline) (end_of_stream : bool)
  : Stream (list ProcessingResponse) :=
  let? s := get in
  match request s with
  | None => missing_request_headers
  | Some rq =>
      modify (with_response None) ;;;
      match response s with
      | None => missing_response_headers
      | Some resp =>
          let? fresh := fresh_context pipeline rq in
          let? ctx := hydrate_from_state fresh in
          let original_headers := rs_headers resp in
          let ctx := ctx_with_response resp ctx in
          let? s := get in
          let original_len := len (response_body_buf s) in
          let? (outcome, ctx, body) :=
            execute_response_pipeline_and_body_filters phase pipeline ctx (response_body_buf s)
              (response_filters_executed (header_state s)) in
          modify (with_response_body_buf body) ;;;
          let? imm := lift outcome in
          match imm with
          | Some i => ret [immediate i]
          | None =>
              let current_mutation := collect_response_header_mutations_diff ctx original_headers in
              dehydrate_to_state ctx ;;;
              let? s := get in
              let? mutation :=
                match phase with
                | RsHeaders => ret current_mutation
                | RsBody =>
                    modify (with_deferred_response_header_mutation None) ;;;
                    ret (merge_mutations (deferred_response_header_mutation s) current_mutation)
                end in
              let body := Some (response_body_buf s) in
              ret (build_response_for_phase phase (with_content_length mutation body original_len) body
                     (response_body_mode (protocol_config s)) end_of_stream)
          end
      end
  end.

(** ** Streamed chunks *)

Definition deferred_header_response (is_request : bool) : Stream ProcessingResponse :=
  let? s := get in
  if is_request then
    modify (with_deferred_request_header_mutation None) ;;;
    ret (request_headers (deferred_request_header_mutation s))
  else
    modify (with_deferred_response_header_mutation None) ;;;
    ret (response_headers (deferred_response_header_mutation s)).

(** [state.header_state.take_first_chunk(is_request)]. *)
Definition take_first (is_request : bool) : Stream bool :=
  let? s := get in
  let '(b, h) := take_first_chunk is_request (header_state s) in
  modify (with_header_state h) ;;; ret b.

Definition passthrough_chunk (body : HttpBody) (mode : BodyMode) (is_request : bool)
  : Stream (list ProcessingResponse) :=
  let body_data := body_data_if_present (hb_body body) in
  let body_responses :=
    if is_request then request_body body_data None mode (hb_end_of_stream body)
    else response_body body_data None mode (hb_end_of_stream body) in
  let? first := take_first is_request in
  if negb first then ret body_responses
  else let? h := deferred_header_response is_request in ret (h :: body_responses).

(** [buffer_response_chunk]: the chunk to filter now; the state keeps what is held back. *)
Definition buffer_response_chunk (ctx : Ctx) (chunk : bytes) (eos : bool) : Stream bytes :=
  match ctx_response_body_mode ctx with
  | FilterStreamBuffer max_bytes =>
      let? s := get in
      let buffered := response_body_buf s in
      let total := saturating_add (len buffered) (len chunk) in
      let over limit := match limit with Some l => l <? total | None => false end in
      if over max_bytes || over (max_body_accumulation s) then
        record_body_size_rejection ;;;
        fail (Status_resource_exhausted "buffered response exceeds maximum size")
      else if eos then
        modify (with_response_body_buf []) ;;; ret (buffered ++ chunk)
      else
        modify (with_response_body_buf (buffered ++ chunk)) ;;; ret []
  | _ => ret chunk
  end.

(** [warn_unapplied_header_mutations], through the process-wide [OnceWarning]. *)
Definition warn_unapplied_header_mutations (is_request : bool) (mutation : option HeaderMutation)
  : Stream unit :=
  let? warned := get_warned in
  if warned then ret tt
  else match mutation with
       | Some m =>
           put_warned true ;;;
           emit (EWarnUnapplied is_request (len (set_headers m)) (len (remove_headers m)))
       | None => ret tt
       end.

(** What a streamed chunk's response carries: an emptied chunk must be sent as an
    explicit empty body, an originally empty one is left alone. *)
Definition streamed_body_data (original_chunk_had_bytes : bool) (chunk : bytes) : option bytes :=
  if original_chunk_had_bytes && bool_decide (chunk = []) then Some chunk else body_data_if_present chunk.

(** The response borrowed by the context, written back to the state. *)
Definition write_back_response (ctx : Ctx) : Stream unit :=
  match ctx_response_header ctx with
  | Some resp => modify (with_response (Some resp))
  | None => ret tt
  end.

Definition process_streamed_body_chunk (pipeline : FilterPipeline) (body : HttpBody) (is_request : bool)
  : Stream (list ProcessingResponse) :=
  let? s := get in
  match request s with
  | None => missing_request_headers
  | Some rq =>
      let? fresh := fresh_context pipeline rq in
      let? (fresh, original_response_headers) :=
        if is_request then ret (fresh, None)
        else match response s with
             | None => missing_response_headers
             | Some resp => ret (ctx_with_response resp fresh, Some (rs_headers resp))
             end in
      let? ctx := hydrate_from_state fresh in
      let eos := hb_end_of_stream body in
      let original_chunk_had_bytes := negb (bool_decide (hb_body body = [])) in
      let? chunk :=
        if is_request then ret (hb_body body) else buffer_response_chunk ctx (hb_body body) eos in
      let? (outcome, ctx, chunk) :=
        if is_request then run_body_filters pipeline ctx chunk eos
        else run_resp_body_filters pipeline ctx chunk eos in
      (if is_request then ret tt else write_back_response ctx) ;;;
      let? reject := lift outcome in
      match reject with
      | Some i => ret [immediate i]
      | None =>
          let current_mutation :=
            if is_request then collect_request_header_mutations ctx
            else match original_response_headers with
                 | Some original => collect_response_header_mutations_diff ctx original
                 | None => None
                 end in
          warn_unapplied_header_mutations is_request current_mutation ;;;
          dehydrate_to_state ctx ;;;
          let? s := get in
          let body_mode := if is_request then request_body_mode (protocol_config s)
                           else response_body_mode (protocol_config s) in
          let body_data := streamed_body_data original_chunk_had_bytes chunk in
          ret (if is_request then request_body body_data None body_mode eos
               else response_body body_data None body_mode eos)
      end
  end.

(** ** Early header filters *)

Inductive MutationDelivery := Send | DeferWithResponse | DeferSilent.

Definition deliver_request (d : MutationDelivery) (mutation : option HeaderMutation)
  : Stream (list ProcessingResponse) :=
  match d with
  | Send => ret [request_headers mutation]
  | DeferWithResponse =>
      modify (with_deferred_request_header_mutation mutation) ;;; ret [request_headers None]
  | DeferSilent => modify (with_deferred_request_header_mutation mutation) ;;; ret []
  end.

Definition deliver_response (d : MutationDelivery) (mutation : option HeaderMutation)
  : Stream (list ProcessingResponse) :=
  match d with
  | Send => ret [response_headers mutation]
  | DeferWithResponse =>
      modify (with_deferred_response_header_mutation mutation) ;;; ret [response_headers None]
  | DeferSilent => modify (with_deferred_response_header_mutation mutation) ;;; ret []
  end.

Definition run_request_header_filters_early (pipeline : FilterPipeline) (delivery : MutationDelivery)
  : Stream (list ProcessingResponse) :=
  let? s := get in
  match request s with
  | None => deliver_request delivery None
  | Some rq =>
      let? fresh := fresh_context pipeline rq in
      let? ctx := hydrate_from_state fresh in
      let? (r, ctx) := execute_request pipeline ctx in
      let? imm := action_outcome r in
      match imm with
      | Some i => ret [immediate i]
      | None =>
          modify (set_request_filters_executed true) ;;;
          let mutation := collect_request_header_mutations ctx in
          dehydrate_to_state ctx ;;;
          deliver_request delivery mutation
      end
  end.

Definition run_response_header_filters_early (pipeline : FilterPipeline) (delivery : MutationDelivery)
  : Stream (list ProcessingResponse) :=
  let? s := get in
  match request s with
  | None => deliver_response delivery None
  | Some rq =>
      let? fresh := fresh_context pipeline rq in
      match response s with
      | None => deliver_response delivery None
      | Some resp =>
          let? ctx := hydrate_from_state fresh in
          let original_headers := rs_headers resp in
          let ctx := ctx_with_response resp ctx in
          let? (r, ctx) := execute_response pipeline ctx in
          write_back_response ctx ;;;
          let? imm := action_outcome r in
          match imm with
          | Some i => ret [immediate i]
          | None =>
              let buffers := match ctx_response_body_mode ctx with
                             | FilterStreamBuffer _ => true
                             | _ => false
                             end in
              if bool_decide (response_body_mode (protocol_config s) = None_) && buffers then
                ret [local_rejection 502
                       "response filters require response body delivery; NONE mode is unsupported"]
              else
                modify (set_response_filters_executed true) ;;;
                let mutation := collect_response_header_mutations_diff ctx original_headers in
                dehydrate_to_state ctx ;;;
                deliver_response delivery mutation
          end
      end
  end.

(** ** Bodies closed by trailers *)

Definition run_trailing_body (pipeline : FilterPipeline) (ctx : Ctx) (is_request : bool)
  : Stream (result Status FilterAction * Ctx) :=
  let? (r, (ctx', _body)) :=
    if is_request then execute_request_body pipeline ctx None true
    else execute_response_body pipeline ctx None true in
  ret (r, ctx').

Definition flush_streamed_body_filters (pipeline : FilterPipeline) (is_request : bool)
  : Stream (list ProcessingResponse) :=
  let? s := get in
  if negb is_request && negb (bool_decide (response_body_buf s = [])) then
    ret [local_rejection 502 "buffered response filters require a final body message before trailers"]
  else
    match request s with
    | None => missing_request_headers
    | Some rq =>
        let? fresh := fresh_context pipeline rq in
        let? fresh :=
          if is_request then ret fresh
          else match response s with
               | None => missing_response_headers
               | Some resp => ret (ctx_with_response resp fresh)
               end in
        let? ctx := hydrate_from_state fresh in
        let? (r, ctx) := run_trailing_body pipeline ctx is_request in
        (if is_request then ret tt else write_back_response ctx) ;;;
        let? action := lift r in
        dehydrate_to_state ctx ;;;
        let? imm := immediate_from_action action in
        ret (match imm with Some i => [immediate i] | None => [] end)
    end.
End Pipeline.
