(* ===== verification/Handlers.v ===== *)
(** * Per-phase message handlers ([src/handlers.rs])

    One definition per handler, in the order of the source: local replies, redelivery,
    request headers and body, response headers and body, trailers. *)

From S2P Require Import Prelude RustStd Proto Effect Extern Metrics Response Protocol Adapter ResponseMode State Pipeline.

(** ** Guardrail selection headers *)

(** [is_guardrail_selection_header]. *)
Definition is_guardrail_selection_header (name : string) : bool :=
  match strip_prefix (as_bytes "x-aigateway-guardrail-") (as_bytes name) with
  | None => false
  | Some suffix =>
      bool_decide (suffix = as_bytes "input") || bool_decide (suffix = as_bytes "output") ||
      (bool_decide (length suffix = 64%nat) && forallb is_ascii_hexdigit suffix)
  end.

(** The raw bytes the check compares. *)
Definition selection_value (h : HeaderValue) : bytes :=
  match hv_raw_value h with [] => as_bytes (hv_value h) | b => b end.

(** The loop of [reject_ambiguous_guardrail_selection]; [names] are the ones seen. *)
Fixpoint ambiguous_selection (names : gset string) (headers : list HeaderValue) : bool :=
  match headers with
  | [] => false
  | h :: hs =>
      let name := to_ascii_lowercase (hv_key h) in
      if negb (is_guardrail_selection_header name) then ambiguous_selection names hs
      else
        bool_decide (name ∈ names) ||
        negb (bool_decide (selection_value h = as_bytes "true") ||
              bool_decide (selection_value h = as_bytes "false")) ||
        ambiguous_selection ({[name]} ∪ names) hs
  end.

(** [extract_header_list]. *)
Definition extract_header_list (headers : HttpHeaders) : list HeaderValue := default [] (hh_headers headers).

Section Handlers.
Context `{PraxisFilter}.

Abbreviation Stream := (M Env StreamState).
Variable pipeline : FilterPipeline.

Definition caps := body_capabilities pipeline.

(** ** Utilities *)

(** [state.eos_tracker.check_and_mark(phase, eos)]. *)
Definition mark_phase (phase : ProtocolPhase) (eos : bool) : Stream PhaseState :=
  zoom eos_tracker with_eos_tracker (check_and_mark phase eos).

Definition check_body_limit (current incoming : Z) (limit : option Z) : Stream unit :=
  match limit with
  | Some max =>
      if max <? saturating_add current incoming then
        record_body_size_rejection ;;;
        fail (Status_resource_exhausted "body exceeds maximum size")
      else ret tt
  | None => ret tt
  end.

(** ** Redelivery *)

Definition handle_body_redelivery (entry_state : PhaseState) (mode : BodyMode) (phase : ProtocolPhase)
  : Stream (option (list ProcessingResponse)) :=
  match entry_state with
  | Active => ret None
  | Completed =>
      if bool_decide (mode = FullDuplexStreamed) then ret (Some []) else duplicate_after_eos phase
  end.

(** ** Local replies *)

Definition local_reply_headers (headers : HttpHeaders) : Stream (list ProcessingResponse) :=
  let? entry := mark_phase PResponseHeaders (hh_end_of_stream headers) in
  if is_complete entry then duplicate_after_eos PResponseHeaders
  else
    record_local_reply (hm ← hh_headers headers; response_status hm) ;;;
    let? s := get in
    if negb (hh_end_of_stream headers)
       && bool_decide (response_body_mode (protocol_config s) = FullDuplexStreamed)
    then ret []
    else
      modify (set_response_headers_sent true) ;;;
      ret [response_headers None].

Definition local_reply_body (body : HttpBody) : Stream (list ProcessingResponse) :=
  let? s := get in
  let mode := response_body_mode (protocol_config s) in
  let? entry_state := mark_phase PResponseBody (hb_end_of_stream body) in
  let? redelivered := handle_body_redelivery entry_state mode PResponseBody in
  match redelivered with
  | Some response => ret response
  | None =>
      if bool_decide (mode = FullDuplexStreamed) then passthrough_chunk body mode false
      else ret (response_body None None mode (hb_end_of_stream body))
  end.

Definition local_reply_passthrough (req : ReqMsg) : Stream (list ProcessingResponse) :=
  match req with
  | ResponseHeaders h => local_reply_headers h
  | ResponseBody b => local_reply_body b
  | ResponseTrailers _ => ret [response_trailers]
  | RequestHeaders _ | RequestBody _ | RequestTrailers _ =>
      fail (Status_internal (request_type_label req +:+ " dispatched as part of a local reply")%string)
  end.

(** ** Rejections *)

Definition reject_ambiguous_guardrail_selection (headers : list HeaderValue) : option ProcessingResponse :=
  if ambiguous_selection ∅ headers
  then Some (local_rejection 400 "guardrail selection headers must be unique boolean values")
  else None.

Definition request_processing_rejection (body : string) : ProcessingResponse := local_rejection 500 body.

Definition request_body_limit_exceeded : ProcessingResponse :=
  local_rejection 413
    (if needs_selected_upstream_request_body caps
     then "request body exceeds the selected-upstream limit"
     else "request body exceeds maximum size").

(** ** Request headers *)

(** [apply_response_mode_override]: the responses, possibly with a mode override. *)
Definition apply_response_mode_override (responses : list ProcessingResponse)
  (envoy_headers : list HeaderValue) : Stream (list ProcessingResponse) :=
  let? s := get in
  let cfg := protocol_config s in
  if bool_decide (request_body_mode cfg = FullDuplexStreamed)
     || bool_decide (response_body_mode cfg = FullDuplexStreamed)
     || bool_decide (response_body_mode cfg = None_)
     || send_body_without_waiting_for_header_response cfg
  then ret responses
  else
    match cap_response_body_mode caps with
    | FilterStreamBuffer _ => ret responses
    | _ =>
        if should_stream (response_mode_selector s) envoy_headers then
          let changed := map (fun r => set_response_mode_streamed r (request_body_mode cfg)) responses in
          (if existsb snd changed
           then modify (with_protocol_config (with_response_body_mode Streamed cfg))
           else ret tt) ;;;
          ret (map fst changed)
        else ret responses
    end.

Definition handle_end_stream_request_headers : Stream (list ProcessingResponse) :=
  if needs_selected_upstream_request_body caps
  then run_bodyless_selected_upstream_pipeline pipeline
  else run_request_pipeline RqHeaders pipeline true.

Definition has_selected_body_filter : bool := needs_selected_upstream_request_body caps.

Definition request_headers_without_body_filter : Stream (list ProcessingResponse) :=
  modify (set_request_headers_sent true) ;;; ret [request_headers None].

Definition handle_unsupported_selected_request_headers : Stream (list ProcessingResponse) :=
  let? responses := run_request_header_filters_early pipeline DeferSilent in
  match responses with
  | r :: _ =>
      if is_immediate r then ret responses
      else ret [request_processing_rejection "selected-upstream request-body processing requires BUFFERED mode"]
  | [] => ret [request_processing_rejection "selected-upstream request-body processing requires BUFFERED mode"]
  end.

Definition handle_request_headers_with_body : Stream (list ProcessingResponse) :=
  let? s := get in
  let mode := request_body_mode (protocol_config s) in
  if has_selected_body_filter && (bool_decide (mode = None_) || bool_decide (mode = Streamed))
  then handle_unsupported_selected_request_headers
  else
    match mode with
    | None_ | Streamed =>
        modify (set_request_headers_sent true) ;;; run_request_header_filters_early pipeline Send
    | FullDuplexStreamed =>
        if negb (needs_request_body caps) then run_request_header_filters_early pipeline DeferSilent
        else ret []
    | Buffered | BufferedPartial => request_headers_without_body_filter
    end.

Definition handle_request_headers (headers : HttpHeaders) : Stream (list ProcessingResponse) :=
  let? entry := mark_phase PRequestHeaders (hh_end_of_stream headers) in
  if is_complete entry then duplicate_after_eos PRequestHeaders
  else
    let envoy_headers := extract_header_list headers in
    match reject_ambiguous_guardrail_selection envoy_headers with
    | Some rejection => ret [rejection]
    | None =>
        modify (with_request (Some (envoy_headers_to_request envoy_headers))) ;;;
        let? s := get in
        let cfg := protocol_config s in
        if (bool_decide (request_body_mode cfg = FullDuplexStreamed)
            || bool_decide (response_body_mode cfg = FullDuplexStreamed))
           && has_selected_guardrail (response_mode_selector s) envoy_headers
        then ret [request_processing_rejection
                    "selected guardrails are not supported in FULL_DUPLEX_STREAMED mode"]
        else if hh_end_of_stream headers then
          let? responses := handle_end_stream_request_headers in
          apply_response_mode_override responses envoy_headers
        else if bool_decide (request_body_mode cfg = FullDuplexStreamed)
                && needs_selected_upstream_request_body caps
        then ret [request_processing_rejection
                    "selected-upstream request-body processing is not supported in FULL_DUPLEX_STREAMED mode"]
        else
          let? responses := handle_request_headers_with_body in
          apply_response_mode_override responses envoy_headers
    end.

(** ** Request body *)

Definition reject_streamed_request_over_limit (chunk_len : Z) : Stream (option ProcessingResponse) :=
  let? s := get in
  let? check := attempt (check_body_limit (streamed_request_bytes s) chunk_len (max_body_accumulation s)) in
  if negb (is_ok check) then ret (Some request_body_limit_exceeded)
  else
    modify (with_streamed_request_bytes (saturating_add (streamed_request_bytes s) chunk_len)) ;;;
    ret None.

Definition accumulate_request_body (body : HttpBody) : Stream (list ProcessingResponse) :=
  let? s := get in
  let? check := attempt (check_body_limit (len (request_body_buf s)) (len (hb_body body))
                           (max_body_accumulation s)) in
  if negb (is_ok check) then ret [request_body_limit_exceeded]
  else
    modify (with_request_body_buf (request_body_buf s ++ hb_body body)) ;;;
    let buffered := bool_decide (request_body_mode (protocol_config s) = Buffered) in
    if negb (hb_end_of_stream body) && negb buffered then ret []
    else
      modify (with_buffered_request_body_processed buffered) ;;;
      run_request_pipeline RqBody pipeline (hb_end_of_stream body).

Definition handle_request_body (body : HttpBody) : Stream (list ProcessingResponse) :=
  let? s := get in
  let mode := request_body_mode (protocol_config s) in
  modify (mark_body_chunk_seen true) ;;;
  let? entry := mark_phase PRequestBody (hb_end_of_stream body) in
  let? redelivered := handle_body_redelivery entry mode PRequestBody in
  match redelivered with
  | Some response => ret response
  | None =>
      match mode, needs_request_body caps with
      | Streamed, false | FullDuplexStreamed, false =>
          let? rejection := reject_streamed_request_over_limit (len (hb_body body)) in
          match rejection with
          | Some r => ret [r]
          | None => passthrough_chunk body mode true
          end
      | Streamed, true =>
          let? rejection := reject_streamed_request_over_limit (len (hb_body body)) in
          match rejection with
          | Some r => ret [r]
          | None => process_streamed_body_chunk pipeline body true
          end
      | _, _ => accumulate_request_body body
      end
  end.

(** ** Response *)

Definition handle_response_headers (headers : HttpHeaders) : Stream (list ProcessingResponse) :=
  let? entry := mark_phase PResponseHeaders (hh_end_of_stream headers) in
  if is_complete entry then duplicate_after_eos PResponseHeaders
  else
    modify (with_response (Some (envoy_headers_to_response (extract_header_list headers)))) ;;;
    if hh_end_of_stream headers then run_response_pipeline RsHeaders pipeline true
    else
      let? s := get in
      match response_body_mode (protocol_config s) with
      | None_ | Streamed =>
          modify (set_response_headers_sent true) ;;; run_response_header_filters_early pipeline Send
      | FullDuplexStreamed =>
          if negb (needs_response_body caps) then run_response_header_filters_early pipeline DeferSilent
          else ret []
      | Buffered | BufferedPartial =>
          if needs_response_body caps then ret [response_headers None]
          else run_response_header_filters_early pipeline DeferWithResponse
      end.

Definition accumulate_response_body (body : HttpBody) : Stream (list ProcessingResponse) :=
  let? s := get in
  check_body_limit (len (response_body_buf s)) (len (hb_body body)) (max_body_accumulation s) ;;;
  modify (with_response_body_buf (response_body_buf s ++ hb_body body)) ;;;
  if negb (hb_end_of_stream body) then ret []
  else run_response_pipeline RsBody pipeline true.

Definition handle_response_body (body : HttpBody) : Stream (list ProcessingResponse) :=
  let? s := get in
  let mode := response_body_mode (protocol_config s) in
  modify (mark_body_chunk_seen false) ;;;
  let? entry := mark_phase PResponseBody (hb_end_of_stream body) in
  let? redelivered := handle_body_redelivery entry mode PResponseBody in
  match redelivered with
  | Some response => ret response
  | None =>
      match mode, needs_response_body caps with
      | Streamed, false | FullDuplexStreamed, false => passthrough_chunk body mode false
      | Streamed, true => process_streamed_body_chunk pipeline body false
      | _, _ => accumulate_response_body body
      end
  end.

(** ** Trailers *)

Definition trailing_body_phase (s : StreamState) (is_request : bool) : ProtocolPhase * BodyMode * bool :=
  if is_request then
    (PRequestBody, request_body_mode (protocol_config s),
     needs_request_body caps || needs_selected_upstream_request_body caps)
  else (PResponseBody, response_body_mode (protocol_config s), needs_response_body caps).

Definition run_trailing_body_pipeline (is_request : bool) : Stream (list ProcessingResponse) :=
  if is_request then run_request_pipeline RqBody pipeline false
  else run_response_pipeline RsBody pipeline false.

Definition run_trailing_fds_body (is_request : bool) : Stream (list ProcessingResponse) :=
  let? s := get in
  let chunk_seen := body_chunk_seen is_request s in
  let? responses := run_trailing_body_pipeline is_request in
  let? s := get in
  let produced_body := negb (bool_decide ((if is_request then request_body_buf s
                                           else response_body_buf s) = [])) in
  if chunk_seen || produced_body then ret responses
  else ret (List.filter (fun r => negb (is_body r)) responses).

Definition flush_deferred_fds_headers (is_request : bool) : Stream (list ProcessingResponse) :=
  let? first := take_first is_request in
  if first then let? h := deferred_header_response is_request in ret [h] else ret [].

Definition rejection_only (responses : list ProcessingResponse) : list ProcessingResponse :=
  List.filter is_immediate responses.

Definition finalize_body_on_trailers (is_request : bool) : Stream (list ProcessingResponse) :=
  let? s := get in
  if negb (body_open is_request s) then ret []
  else
    let '(phase, mode, needs_body) := trailing_body_phase s is_request in
    modify (with_eos_tracker (mark_complete phase (eos_tracker s))) ;;;
    match mode with
    | Streamed => if needs_body then flush_streamed_body_filters pipeline is_request else ret []
    | FullDuplexStreamed =>
        if needs_body then run_trailing_fds_body is_request else flush_deferred_fds_headers is_request
    | Buffered =>
        if is_request && buffered_request_body_processed s then ret []
        else
          let? responses := run_trailing_body_pipeline is_request in
          ret (rejection_only responses)
    | None_ | BufferedPartial => ret []
    end.

Definition handle_trailers (is_request : bool) : Stream (list ProcessingResponse) :=
  let? responses := finalize_body_on_trailers is_request in
  if match last responses with Some r => is_immediate r | None => false end then ret responses
  else ret (responses ++ [if is_request then request_trailers else response_trailers]).
End Handlers.
