(* ===== verification/Server.v ===== *)
(** * The stream loop ([src/server.rs], the service half)

    Protocol configuration, dispatch of one message, and the loop over a stream. The inbound
    gRPC stream is the list of what it yields (a transport error is its text); the response
    channel is a predicate telling, from the number of messages already accepted, whether the
    next send succeeds. *)

From S2P Require Import Prelude RustStd Proto Effect Extern Metrics Response Protocol Adapter ResponseMode State Pipeline Handlers.

Section Server.
Context `{PraxisFilter}.

Abbreviation Stream := (M Env StreamState).
Variable pipeline : FilterPipeline.

(** ** Protocol configuration *)

Definition config_from_first_message (proto_cfg : ProtocolConfiguration) : Stream unit :=
  match ProtocolConfig_try_from proto_cfg with
  | Ok c => modify (with_protocol_config c)
  | Err m =>
      record_invalid_argument "protocol_config" "unsupported_mode" ;;;
      fail (Status_invalid_argument m)
  end.

Definition apply_protocol_config (proto_cfg : option ProtocolConfiguration)
  (first_message_processed : bool) : Stream unit :=
  match proto_cfg with
  | None => ret tt
  | Some c =>
      if first_message_processed then
        record_invalid_argument "protocol_config" "after_first_message" ;;;
        fail (Status_invalid_argument "protocol_config may only be sent on the first stream message")
      else config_from_first_message c
  end.

(** ** Dispatch *)

Definition dispatch_request (req : ReqMsg) : Stream (list ProcessingResponse) :=
  let? s := get in
  validate_body_message req (protocol_config s) ;;;
  zoom phase_order with_phase_order (check_and_advance req) ;;;
  let? s := get in
  if local_reply (phase_order s) then local_reply_passthrough req
  else
    match req with
    | RequestHeaders h => handle_request_headers pipeline h
    | RequestBody b => handle_request_body pipeline b
    | ResponseHeaders h => handle_response_headers pipeline h
    | ResponseBody b => handle_response_body pipeline b
    | RequestTrailers _ => handle_trailers pipeline true
    | ResponseTrailers _ => handle_trailers pipeline false
    end.

(** ** The loop *)

Definition release_buffers_after_immediate (s : StreamState) : StreamState :=
  with_streamed_request_bytes 0 (with_response_body_buf [] (with_request_body_buf [] s)).

(** [for resp in responses { tx.send(Ok(resp)).await }]: what was accepted, and whether the
    channel was still open at the end. *)
Fixpoint send_all (open : nat -> bool) (sent : list ProcessingResponse) (rs : list ProcessingResponse)
  : list ProcessingResponse * bool :=
  match rs with
  | [] => (sent, true)
  | r :: rs' => if open (length sent) then send_all open (sent ++ [r]) rs' else (sent, false)
  end.

(** [process_messages]: the responses accepted by the channel, and the outcome. *)
Fixpoint process_messages (open : nat -> bool) (first_message_processed : bool)
  (inbound : list (result string ProcessingRequest)) (sent : list ProcessingResponse)
  : Stream (list ProcessingResponse * result Status unit) :=
  match inbound with
  | [] => ret (sent, Ok tt)
  | Err e :: _ => ret (sent, Err (Status_internal e))
  | Ok msg :: rest =>
      let? applied := attempt (apply_protocol_config (pr_protocol_config msg) first_message_processed) in
      match applied with
      | Err e => ret (sent, Err e)
      | Ok _ =>
          match pr_request msg with
          | None => process_messages open true rest sent
          | Some req =>
              let? dispatched := attempt (dispatch_request req) in
              match dispatched with
              | Err e => ret (sent, Err e)
              | Ok responses =>
                  let stop_after_immediate := existsb is_immediate responses in
                  let '(sent', still_open) := send_all open sent responses in
                  if negb still_open then ret (sent', Ok tt)
                  else if stop_after_immediate then
                    modify release_buffers_after_immediate ;;; ret (sent', Ok tt)
                  else process_messages open true rest sent'
              end
          end
      end
  end.

(** [handle_stream]: a fresh state with the service's options, the loop, and the request
    counter. *)
Definition initial_state (max_body : option Z) (trust : bool) (selector : ResponseModeSelector)
  : StreamState :=
  with_response_mode_selector selector
    (with_trust_forwarded_for trust (with_max_body_accumulation max_body StreamState_new)).

Definition handle_stream (open : nat -> bool) (inbound : list (result string ProcessingRequest))
  (max_body : option Z) (trust : bool) (selector : ResponseModeSelector) (g : Glob Env)
  : list ProcessingResponse * result Status unit * StreamState * Glob Env :=
  match (let? r := process_messages open false inbound [] in record_request ;;; ret r)
          (initial_state max_body trust selector) g with
  | (Ok (sent, r), s, g') => (sent, r, s, g')
  | (Err e, s, g') => ([], Err e, s, g')
  end.

(** [process]: the status appended to the response stream when the loop fails. *)
Definition process_output (sent : list ProcessingResponse) (r : result Status unit)
  : list (result Status ProcessingResponse) :=
  map Ok sent ++ match r with Ok _ => [] | Err e => [Err e] end.
End Server.
