(* ===== verification/Errors.v ===== *)
(** * Errors of the server process ([src/error.rs])

    [ExtProcError] and the text each variant displays. The payload of [Grpc] is the text of the
    [tonic::transport::Error] it wraps. *)

From S2P Require Import Prelude.

Inductive ExtProcError :=
| Config (m : string)
| Pipeline (m : string)
| Grpc (m : string)
| Crypto (m : string).

#[export] Instance ExtProcError_eq_dec : EqDecision ExtProcError.
Proof. solve_decision. Defined.

(** [Display], as [thiserror] derives it from the [#[error]] attributes. *)
Definition display_ExtProcError (e : ExtProcError) : string :=
  match e with
  | Config m => "config: " +:+ m
  | Pipeline m => "pipeline: " +:+ m
  | Grpc m => "grpc: " +:+ m
  | Crypto m => "crypto: " +:+ m
  end.

(** [error::Result]. *)
Abbreviation ExtProcResult := (result ExtProcError).

(** [[String]::join]. *)
Fixpoint join (sep : string) (l : list string) : string :=
  match l with
  | [] => ""
  | [s] => s
  | s :: rest => s +:+ sep +:+ join sep rest
  end.

(** [map_err] inverted: what an [Ok] and an [Err] came from. *)
Lemma map_err_ok {E F A} (f : E -> F) (r : result E A) a : map_err f r = Ok a <-> r = Ok a.
Proof. destruct r; simpl; split; by intros [= ->]. Qed.

Lemma map_err_err {E F A} (f : E -> F) (r : result E A) e : map_err f r = Err e <-> exists e', r = Err e' /\ e = f e'.
Proof. destruct r; simpl; naive_solver. Qed.

Lemma bind_ok {E A B} (r : result E A) (f : A -> result E B) b :
  result_bind r f = Ok b <-> exists a, r = Ok a /\ f a = Ok b.
Proof. destruct r; simpl; naive_solver. Qed.

Lemma bind_err {E A B} (r : result E A) (f : A -> result E B) e :
  result_bind r f = Err e <-> r = Err e \/ exists a, r = Ok a /\ f a = Err e.
Proof. destruct r; simpl; naive_solver. Qed.

Lemma ok_or_ok {E A} (e : E) (o : option A) a : ok_or e o = Ok a <-> o = Some a.
Proof. destruct o; simpl; naive_solver. Qed.
