(* ===== verification/Tls.v ===== *)
(** * TLS of the gRPC listener ([src/tls.rs])

    The configuration and its validation, and the construction of an acceptor. OpenSSL is a
    parameter: [OpenSsl] has the calls the source makes, each with the text of the error it may
    give, and [OpenSslLaws] what they are documented to configure. [TlsIncoming] has the
    connections and their handshakes. *)

From S2P Require Import Prelude RustStd Errors.

(** ** Configuration *)

Definition HANDSHAKE_CONCURRENCY : Z := 64.
(** In seconds. *)
Definition HANDSHAKE_TIMEOUT : Z := 10.

Inductive TlsMode := SelfSigned | Provided | NoTls.

#[export] Instance TlsMode_eq_dec : EqDecision TlsMode.
Proof. solve_decision. Defined.

Definition TlsMode_default : TlsMode := NoTls.

Definition display_TlsMode (m : TlsMode) : string :=
  match m with
  | NoTls => "none"
  | SelfSigned => "self_signed"
  | Provided => "provided"
  end.

Record TlsConfig := {
  mode : TlsMode;
  cert_path : option string;
  key_path : option string;
  ca_cert_path : option string;
  handshake_concurrency : Z;
  handshake_timeout_secs : Z;
}.

Definition default_handshake_concurrency : Z := HANDSHAKE_CONCURRENCY.
Definition default_handshake_timeout_secs : Z := HANDSHAKE_TIMEOUT.

Definition TlsConfig_default : TlsConfig :=
  {| mode := NoTls; cert_path := None; key_path := None; ca_cert_path := None;
     handshake_concurrency := HANDSHAKE_CONCURRENCY; handshake_timeout_secs := HANDSHAKE_TIMEOUT |}.

Definition unused_field (field : string) (m : TlsMode) : ExtProcError :=
  Config ("tls." +:+ field +:+ " is not used in `" +:+ display_TlsMode m +:+ "` mode").

Definition validate (self : TlsConfig) : ExtProcResult unit :=
  if handshake_concurrency self =? 0 then Err (Config "tls.handshake_concurrency must be greater than zero")
  else if handshake_timeout_secs self =? 0 then Err (Config "tls.handshake_timeout_secs must be greater than zero")
  else match mode self with
  | Provided => Ok tt
  | m =>
      if bool_decide (is_Some (cert_path self)) then Err (unused_field "cert_path" m)
      else if bool_decide (is_Some (key_path self)) then Err (unused_field "key_path" m)
      else if bool_decide (is_Some (ca_cert_path self)) then Err (unused_field "ca_cert_path" m)
      else Ok tt
  end.

(** Wrap an OpenSSL error as a TLS config error. *)
Definition cfg_err (what e : string) : ExtProcError := Config (what +:+ ": " +:+ e).

(** ** OpenSSL *)

(** The calls of the [openssl] crate. A [&mut self] setter gives the changed object; a failing
    call gives the text of its error. *)
Class OpenSsl := {
  SslAcceptorBuilder : Type;
  SslAcceptor : Type;
  SslVersion : Type;
  SslVerifyMode : Type;
  X509 : Type;
  PKey : Type;
  PkeyCtx : Type;
  X509Name : Type;
  X509Builder : Type;
  Asn1Integer : Type;
  Asn1Time : Type;
  X509Extension : Type;

  TLS1_2 : SslVersion;
  PEER : SslVerifyMode;
  FAIL_IF_NO_PEER_CERT : SslVerifyMode;
  verify_or : SslVerifyMode -> SslVerifyMode -> SslVerifyMode;

  mozilla_modern_v5 : result string SslAcceptorBuilder;
  set_min_proto_version : SslAcceptorBuilder -> option SslVersion -> result string SslAcceptorBuilder;
  set_cipher_list : SslAcceptorBuilder -> string -> result string SslAcceptorBuilder;
  set_certificate : SslAcceptorBuilder -> X509 -> result string SslAcceptorBuilder;
  set_private_key : SslAcceptorBuilder -> PKey -> result string SslAcceptorBuilder;
  set_certificate_chain_file : SslAcceptorBuilder -> string -> result string SslAcceptorBuilder;
  set_private_key_file_pem : SslAcceptorBuilder -> string -> result string SslAcceptorBuilder;
  check_private_key : SslAcceptorBuilder -> result string unit;
  set_alpn_protos : SslAcceptorBuilder -> bytes -> result string SslAcceptorBuilder;
  set_alpn_select_callback : SslAcceptorBuilder -> (bytes -> option bytes) -> SslAcceptorBuilder;
  set_ca_file : SslAcceptorBuilder -> string -> result string SslAcceptorBuilder;
  set_verify : SslAcceptorBuilder -> SslVerifyMode -> SslAcceptorBuilder;
  acceptor_build : SslAcceptorBuilder -> SslAcceptor;
  select_next_proto : bytes -> bytes -> option bytes;

  (** Key generation: [PkeyCtx::new_id(Id::EC)], the P-256 curve, the key. *)
  pkey_ctx_new_ec : result string PkeyCtx;
  keygen_init : PkeyCtx -> result string PkeyCtx;
  set_ec_paramgen_p256 : PkeyCtx -> result string PkeyCtx;
  keygen : PkeyCtx -> result string PKey;

  (** Certificates. *)
  x509_name_cn : string -> result string X509Name;
  random_serial : Z -> result string Asn1Integer;
  days_from_now : Z -> result string Asn1Time;
  x509_builder_new : result string X509Builder;
  set_version : X509Builder -> Z -> result string X509Builder;
  set_serial_number : X509Builder -> Asn1Integer -> result string X509Builder;
  set_subject_name : X509Builder -> X509Name -> result string X509Builder;
  set_issuer_name : X509Builder -> X509Name -> result string X509Builder;
  set_pubkey : X509Builder -> PKey -> result string X509Builder;
  set_not_before : X509Builder -> Asn1Time -> result string X509Builder;
  set_not_after : X509Builder -> Asn1Time -> result string X509Builder;
  basic_constraints_leaf : result string X509Extension;
  key_usage_digital_signature : result string X509Extension;
  extended_key_usage_server_auth : result string X509Extension;
  san_dns : X509Builder -> string -> result string X509Extension;
  append_extension : X509Builder -> X509Extension -> result string X509Builder;
  sign_sha256 : X509Builder -> PKey -> result string X509Builder;
  x509_build : X509Builder -> X509;
}.

Section Tls.
Context `{OpenSsl}.

Definition step {A} (what : string) (r : result string A) : ExtProcResult A := map_err (cfg_err what) r.

(** ** The acceptor *)

Definition ecdhe_cipher_list : string :=
  "ECDHE-ECDSA-AES128-GCM-SHA256:ECDHE-RSA-AES128-GCM-SHA256:" +:+
  "ECDHE-ECDSA-AES256-GCM-SHA384:ECDHE-RSA-AES256-GCM-SHA384:" +:+
  "ECDHE-ECDSA-CHACHA20-POLY1305:ECDHE-RSA-CHACHA20-POLY1305".

Definition ecdhe_acceptor : ExtProcResult SslAcceptorBuilder :=
  let! builder := step "SSL context" mozilla_modern_v5 in
  let! builder := step "min protocol" (set_min_proto_version builder (Some TLS1_2)) in
  step "cipher list" (set_cipher_list builder ecdhe_cipher_list).

(** [b"\x02h2"]: the one protocol advertised. *)
Definition h2_protos : bytes := byte_of 2 :: as_bytes "h2".

(** The selection callback; [None] is [AlpnError::ALERT_FATAL]. *)
Definition alpn_callback (client : bytes) : option bytes := select_next_proto h2_protos client.

Definition set_alpn_h2 (builder : SslAcceptorBuilder) : ExtProcResult SslAcceptorBuilder :=
  let! builder := step "ALPN protos" (set_alpn_protos builder h2_protos) in
  Ok (set_alpn_select_callback builder alpn_callback).

(** ** The self-signed certificate *)

Definition generate_p256_key : ExtProcResult PKey :=
  let! ctx := step "EC keygen context" pkey_ctx_new_ec in
  let! ctx := step "EC keygen init" (keygen_init ctx) in
  let! ctx := step "EC curve" (set_ec_paramgen_p256 ctx) in
  step "EC keygen" (keygen ctx).

Definition append_leaf_extensions (builder : X509Builder) : ExtProcResult X509Builder :=
  let! basic := step "basic constraints" basic_constraints_leaf in
  let! builder := step "basic constraints" (append_extension builder basic) in
  let! key_usage := step "key usage" key_usage_digital_signature in
  let! builder := step "key usage" (append_extension builder key_usage) in
  let! ext_key_usage := step "extended key usage" extended_key_usage_server_auth in
  let! builder := step "extended key usage" (append_extension builder ext_key_usage) in
  let! san := step "subject alt name" (san_dns builder "localhost") in
  step "subject alt name" (append_extension builder san).

Definition self_signed_cert : ExtProcResult (X509 * PKey) :=
  let! pkey := generate_p256_key in
  let! name := step "name" (x509_name_cn "localhost") in
  let! serial := step "serial" (random_serial 159) in
  let! builder := step "certificate" x509_builder_new in
  let! builder := step "version" (set_version builder 2) in
  let! builder := step "serial" (set_serial_number builder serial) in
  let! builder := step "subject" (set_subject_name builder name) in
  let! builder := step "issuer" (set_issuer_name builder name) in
  let! builder := step "public key" (set_pubkey builder pkey) in
  let! not_before := step "not before" (days_from_now 0) in
  let! builder := step "not before" (set_not_before builder not_before) in
  let! not_after := step "not after" (days_from_now 365) in
  let! builder := step "not after" (set_not_after builder not_after) in
  let! builder := append_leaf_extensions builder in
  let! builder := step "sign" (sign_sha256 builder pkey) in
  Ok (x509_build builder, pkey).

(** ** The three modes *)

Definition build_self_signed : ExtProcResult SslAcceptor :=
  let! p := self_signed_cert in
  let! builder := ecdhe_acceptor in
  let! builder := step "set certificate" (set_certificate builder (fst p)) in
  let! builder := step "set private key" (set_private_key builder (snd p)) in
  let! builder := set_alpn_h2 builder in
  Ok (acceptor_build builder).

(** The [if let Some(ca_path)] block: client verification. *)
Definition with_client_ca (ca : option string) (builder : SslAcceptorBuilder) : ExtProcResult SslAcceptorBuilder :=
  match ca with
  | Some ca_path =>
      let! builder := step "CA cert" (set_ca_file builder ca_path) in
      Ok (set_verify builder (verify_or PEER FAIL_IF_NO_PEER_CERT))
  | None => Ok builder
  end.

Definition build_provided (cfg : TlsConfig) : ExtProcResult SslAcceptor :=
  let! cert := ok_or (Config "tls.cert_path required for provided mode") (cert_path cfg) in
  let! key := ok_or (Config "tls.key_path required for provided mode") (key_path cfg) in
  let! builder := ecdhe_acceptor in
  let! builder := step "certificate" (set_certificate_chain_file builder cert) in
  let! builder := step "private key" (set_private_key_file_pem builder key) in
  let! _ := step "cert/key mismatch" (check_private_key builder) in
  let! builder := set_alpn_h2 builder in
  let! builder := with_client_ca (ca_cert_path cfg) builder in
  Ok (acceptor_build builder).

Definition build_tls_config (cfg : TlsConfig) : ExtProcResult (option SslAcceptor) :=
  let! _ := validate cfg in
  match mode cfg with
  | NoTls => Ok None
  | SelfSigned => let! a := build_self_signed in Ok (Some a)
  | Provided => let! a := build_provided cfg in Ok (Some a)
  end.
End Tls.

(** ** What the OpenSSL calls configure *)

(** The wire format of ALPN: each protocol after a byte with its length. *)
Fixpoint protocols_go (fuel : nat) (s : bytes) : list bytes :=
  match fuel, s with
  | S f, n :: rest => take (Z.to_nat (byte_val n)) rest :: protocols_go f (drop (Z.to_nat (byte_val n)) rest)
  | _, _ => []
  end.
Definition protocols (s : bytes) : list bytes := protocols_go (length s) s.

Section Settings.
Context `{OpenSsl}.

(** The settings of an acceptor this program decides. *)
Record Settings := {
  s_min_version : option SslVersion;
  s_ciphers : string;
  s_alpn : bytes;
  s_select : option (bytes -> option bytes);
  s_chain_file : option string;
  s_key_file : option string;
  s_ca_file : option string;
  s_verify : option SslVerifyMode;
}.

Definition with_min_version v s := {| s_min_version := v; s_ciphers := s_ciphers s; s_alpn := s_alpn s;
  s_select := s_select s; s_chain_file := s_chain_file s; s_key_file := s_key_file s; s_ca_file := s_ca_file s;
  s_verify := s_verify s |}.
Definition with_ciphers v s := {| s_min_version := s_min_version s; s_ciphers := v; s_alpn := s_alpn s;
  s_select := s_select s; s_chain_file := s_chain_file s; s_key_file := s_key_file s; s_ca_file := s_ca_file s;
  s_verify := s_verify s |}.
Definition with_alpn v s := {| s_min_version := s_min_version s; s_ciphers := s_ciphers s; s_alpn := v;
  s_select := s_select s; s_chain_file := s_chain_file s; s_key_file := s_key_file s; s_ca_file := s_ca_file s;
  s_verify := s_verify s |}.
Definition with_select v s := {| s_min_version := s_min_version s; s_ciphers := s_ciphers s; s_alpn := s_alpn s;
  s_select := Some v; s_chain_file := s_chain_file s; s_key_file := s_key_file s; s_ca_file := s_ca_file s;
  s_verify := s_verify s |}.
Definition with_chain_file v s := {| s_min_version := s_min_version s; s_ciphers := s_ciphers s; s_alpn := s_alpn s;
  s_select := s_select s; s_chain_file := Some v; s_key_file := s_key_file s; s_ca_file := s_ca_file s;
  s_verify := s_verify s |}.
Definition with_key_file v s := {| s_min_version := s_min_version s; s_ciphers := s_ciphers s; s_alpn := s_alpn s;
  s_select := s_select s; s_chain_file := s_chain_file s; s_key_file := Some v; s_ca_file := s_ca_file s;
  s_verify := s_verify s |}.
Definition with_ca_file v s := {| s_min_version := s_min_version s; s_ciphers := s_ciphers s; s_alpn := s_alpn s;
  s_select := s_select s; s_chain_file := s_chain_file s; s_key_file := s_key_file s; s_ca_file := Some v;
  s_verify := s_verify s |}.
Definition with_verify v s := {| s_min_version := s_min_version s; s_ciphers := s_ciphers s; s_alpn := s_alpn s;
  s_select := s_select s; s_chain_file := s_chain_file s; s_key_file := s_key_file s; s_ca_file := s_ca_file s;
  s_verify := Some v |}.
End Settings.

(** Every setter that succeeds changes its own setting and no other one, building keeps them
    all, and [select_next_proto] takes the first protocol of the server the client offers. *)
Class OpenSslLaws `{OpenSsl} := {
  settings : SslAcceptorBuilder -> Settings;
  acceptor_settings : SslAcceptor -> Settings;
  modern_verify b : mozilla_modern_v5 = Ok b -> s_verify (settings b) = None /\ s_ca_file (settings b) = None;
  set_min_spec b b' v : set_min_proto_version b v = Ok b' -> settings b' = with_min_version v (settings b);
  set_ciphers_spec b b' v : set_cipher_list b v = Ok b' -> settings b' = with_ciphers v (settings b);
  set_certificate_spec b b' c : set_certificate b c = Ok b' -> settings b' = settings b;
  set_private_key_spec b b' k : set_private_key b k = Ok b' -> settings b' = settings b;
  set_chain_spec b b' v : set_certificate_chain_file b v = Ok b' -> settings b' = with_chain_file v (settings b);
  set_key_spec b b' v : set_private_key_file_pem b v = Ok b' -> settings b' = with_key_file v (settings b);
  set_alpn_spec b b' v : set_alpn_protos b v = Ok b' -> settings b' = with_alpn v (settings b);
  set_select_spec b f : settings (set_alpn_select_callback b f) = with_select f (settings b);
  set_ca_spec b b' v : set_ca_file b v = Ok b' -> settings b' = with_ca_file v (settings b);
  set_verify_spec b v : settings (set_verify b v) = with_verify v (settings b);
  build_spec b : acceptor_settings (acceptor_build b) = settings b;
  select_spec server client :
    select_next_proto server client =
    List.find (fun p => bool_decide (p ∈ protocols client)) (protocols server);
}.

(** ** Correctness of the construction *)

(** Take apart a successful chain of [?] calls. *)
Ltac ok_steps :=
  repeat match goal with
  | H : result_bind _ _ = Ok _ |- _ => apply bind_ok in H; destruct H as (? & ? & H)
  | H : step _ _ = Ok _ |- _ => apply map_err_ok in H
  | H : ok_or _ _ = Ok _ |- _ => apply ok_or_ok in H
  | H : Ok _ = Ok _ |- _ => injection H as ?; subst
  end.

Section TlsTheorems.
Context `{OpenSslLaws}.

(** The settings every acceptor has, whatever its certificate. *)
Definition policy (s : Settings) : Prop :=
  s_min_version s = Some TLS1_2 /\ s_ciphers s = ecdhe_cipher_list /\ s_alpn s = h2_protos /\
  s_select s = Some alpn_callback.

(** The settings of [Provided]: the files named, and client certificates demanded exactly when
    a CA is named. *)
Definition provided_policy (cfg : TlsConfig) (s : Settings) : Prop :=
  s_chain_file s = cert_path cfg /\ s_key_file s = key_path cfg /\
  is_Some (cert_path cfg) /\ is_Some (key_path cfg) /\
  s_ca_file s = ca_cert_path cfg /\
  s_verify s = (fun _ => verify_or PEER FAIL_IF_NO_PEER_CERT) <$> ca_cert_path cfg.

Lemma ecdhe_acceptor_spec b : ecdhe_acceptor = Ok b ->
  s_min_version (settings b) = Some TLS1_2 /\ s_ciphers (settings b) = ecdhe_cipher_list /\
  s_verify (settings b) = None /\ s_ca_file (settings b) = None.
Proof.
  unfold ecdhe_acceptor. intros Hb. ok_steps.
  match goal with Hm : mozilla_modern_v5 = Ok _ |- _ => apply modern_verify in Hm as [Hv Hc] end.
  match goal with Hs : set_cipher_list _ _ = Ok b |- _ => rewrite (set_ciphers_spec _ _ _ Hs) end.
  match goal with Hs : set_min_proto_version _ _ = Ok _ |- _ => rewrite (set_min_spec _ _ _ Hs) end. done.
Qed.

Lemma set_alpn_h2_spec b b' : set_alpn_h2 b = Ok b' ->
  settings b' = with_select alpn_callback (with_alpn h2_protos (settings b)).
Proof.
  unfold set_alpn_h2. intros Hb. ok_steps. rewrite set_select_spec.
  match goal with Hs : set_alpn_protos _ _ = Ok _ |- _ => by rewrite (set_alpn_spec _ _ _ Hs) end.
Qed.

Lemma with_client_ca_spec ca b b' : with_client_ca ca b = Ok b' ->
  settings b' = match ca with
                | Some p => with_verify (verify_or PEER FAIL_IF_NO_PEER_CERT) (with_ca_file p (settings b))
                | None => settings b
                end.
Proof.
  destruct ca; simpl; intros Hb; ok_steps; [|done]. rewrite set_verify_spec.
  match goal with Hs : set_ca_file _ _ = Ok _ |- _ => by rewrite (set_ca_spec _ _ _ Hs) end.
Qed.

Lemma build_self_signed_spec a : build_self_signed = Ok a ->
  policy (acceptor_settings a) /\ s_verify (acceptor_settings a) = None.
Proof.
  unfold build_self_signed. intros Ha. ok_steps. rewrite build_spec.
  match goal with He : ecdhe_acceptor = Ok _ |- _ => apply ecdhe_acceptor_spec in He as (E1 & E2 & E3 & _) end.
  match goal with Hs : set_alpn_h2 _ = Ok _ |- _ => rewrite (set_alpn_h2_spec _ _ Hs) end.
  match goal with Hs : set_private_key _ _ = Ok _ |- _ => rewrite (set_private_key_spec _ _ _ Hs) end.
  match goal with Hs : set_certificate _ _ = Ok _ |- _ => rewrite (set_certificate_spec _ _ _ Hs) end. done.
Qed.

Lemma build_provided_spec cfg a : build_provided cfg = Ok a ->
  policy (acceptor_settings a) /\ provided_policy cfg (acceptor_settings a).
Proof.
  unfold build_provided. intros Ha. ok_steps. rewrite build_spec.
  match goal with He : ecdhe_acceptor = Ok _ |- _ => apply ecdhe_acceptor_spec in He as (E1 & E2 & E3 & E4) end.
  match goal with Hs : with_client_ca _ _ = Ok _ |- _ => rewrite (with_client_ca_spec _ _ _ Hs) end.
  match goal with Hs : set_alpn_h2 _ = Ok _ |- _ => rewrite (set_alpn_h2_spec _ _ Hs) end.
  match goal with Hs : set_private_key_file_pem _ _ = Ok _ |- _ => rewrite (set_key_spec _ _ _ Hs) end.
  match goal with Hs : set_certificate_chain_file _ _ = Ok _ |- _ => rewrite (set_chain_spec _ _ _ Hs) end.
  unfold policy, provided_policy. by destruct (ca_cert_path cfg); naive_solver.
Qed.

Lemma validate_ok cfg : validate cfg = Ok tt <->
  handshake_concurrency cfg <> 0 /\ handshake_timeout_secs cfg <> 0 /\
  (mode cfg = Provided \/ cert_path cfg = None /\ key_path cfg = None /\ ca_cert_path cfg = None).
Proof.
  unfold validate. destruct (Z.eqb_spec (handshake_concurrency cfg) 0); [naive_solver|].
  destruct (Z.eqb_spec (handshake_timeout_secs cfg) 0); [naive_solver|].
  destruct (mode cfg), (cert_path cfg), (key_path cfg), (ca_cert_path cfg); naive_solver.
Qed.

(** C32. The listener is what the configuration says: plaintext exactly in mode [none] with no
    path set, so a named certificate, key or CA is never silently ignored; otherwise TLS 1.2 or
    later with the ECDHE suites and only [h2] offered; and in [provided] mode the named files,
    with a client certificate signed by the CA demanded exactly when a CA is named. *)
Theorem tls_as_configured cfg r :
  build_tls_config cfg = Ok r ->
  match r with
  | None => mode cfg = NoTls /\ cert_path cfg = None /\ key_path cfg = None /\ ca_cert_path cfg = None
  | Some a =>
      policy (acceptor_settings a) /\
      match mode cfg with
      | NoTls => False
      | SelfSigned => cert_path cfg = None /\ key_path cfg = None /\ ca_cert_path cfg = None
      | Provided => provided_policy cfg (acceptor_settings a)
      end
  end.
Proof.
  unfold build_tls_config. intros Hr. ok_steps.
  match goal with Hv : validate cfg = Ok ?u |- _ => destruct u; apply validate_ok in Hv as (_ & _ & Hp) end.
  destruct (mode cfg) eqn:Hm; ok_steps.
  - destruct Hp as [?|Hp]; [done|]. split; [|done]. by apply build_self_signed_spec.
  - by apply build_provided_spec.
  - by destruct Hp.
Qed.

(** The handshake settles on [h2] or fails: the selection callback answers [h2] when the
    client offers it and a fatal alert otherwise. *)
Lemma alpn_is_h2 client :
  alpn_callback client = if bool_decide (as_bytes "h2" ∈ protocols client) then Some (as_bytes "h2") else None.
Proof.
  unfold alpn_callback. rewrite select_spec.
  assert (protocols h2_protos = [as_bytes "h2"]) as -> by (vm_compute; reflexivity). simpl. by case_bool_decide.
Qed.
End TlsTheorems.

(** ** A concrete OpenSSL *)

(** A builder is its settings; the file system has the files ending in [.pem]. *)
Definition pem_file (p : string) : result string unit :=
  if bool_decide (is_Some (strip_suffix (as_bytes ".pem") (as_bytes p))) then Ok tt else Err "no such file".

Record DemoSettings := {
  d_min : option nat; d_ciphers : string; d_alpn : bytes; d_select : option (bytes -> option bytes);
  d_chain : option string; d_key : option string; d_ca : option string; d_verify : option (list nat);
}.

#[export] Instance DemoOpenSsl : OpenSsl := {|
  SslAcceptorBuilder := DemoSettings; SslAcceptor := DemoSettings; SslVersion := nat; SslVerifyMode := list nat;
  X509 := string; PKey := string; PkeyCtx := unit; X509Name := string; X509Builder := string;
  Asn1Integer := Z; Asn1Time := Z; X509Extension := string;
  TLS1_2 := 12%nat; PEER := [1%nat]; FAIL_IF_NO_PEER_CERT := [2%nat]; verify_or := app;
  mozilla_modern_v5 := Ok (Build_DemoSettings (Some 13%nat) "" [] None None None None None);
  set_min_proto_version b v := Ok (Build_DemoSettings v (d_ciphers b) (d_alpn b) (d_select b) (d_chain b) (d_key b) (d_ca b) (d_verify b));
  set_cipher_list b v := Ok (Build_DemoSettings (d_min b) v (d_alpn b) (d_select b) (d_chain b) (d_key b) (d_ca b) (d_verify b));
  set_certificate b _ := Ok b;
  set_private_key b _ := Ok b;
  set_certificate_chain_file b v :=
    let! _ := pem_file v in Ok (Build_DemoSettings (d_min b) (d_ciphers b) (d_alpn b) (d_select b) (Some v) (d_key b) (d_ca b) (d_verify b));
  set_private_key_file_pem b v :=
    let! _ := pem_file v in Ok (Build_DemoSettings (d_min b) (d_ciphers b) (d_alpn b) (d_select b) (d_chain b) (Some v) (d_ca b) (d_verify b));
  check_private_key _ := Ok tt;
  set_alpn_protos b v := Ok (Build_DemoSettings (d_min b) (d_ciphers b) v (d_select b) (d_chain b) (d_key b) (d_ca b) (d_verify b));
  set_alpn_select_callback b f := Build_DemoSettings (d_min b) (d_ciphers b) (d_alpn b) (Some f) (d_chain b) (d_key b) (d_ca b) (d_verify b);
  set_ca_file b v :=
    let! _ := pem_file v in Ok (Build_DemoSettings (d_min b) (d_ciphers b) (d_alpn b) (d_select b) (d_chain b) (d_key b) (Some v) (d_verify b));
  set_verify b v := Build_DemoSettings (d_min b) (d_ciphers b) (d_alpn b) (d_select b) (d_chain b) (d_key b) (d_ca b) (Some v);
  acceptor_build b := b;
  select_next_proto server client := List.find (fun p => bool_decide (p ∈ protocols client)) (protocols server);
  pkey_ctx_new_ec := Ok tt; keygen_init c := Ok c; set_ec_paramgen_p256 c := Ok c; keygen _ := Ok "key"%string;
  x509_name_cn s := Ok s; random_serial n := Ok n; days_from_now n := Ok n; x509_builder_new := Ok ""%string;
  set_version b _ := Ok b; set_serial_number b _ := Ok b; set_subject_name b _ := Ok b; set_issuer_name b _ := Ok b;
  set_pubkey b k := Ok (b +:+ k); set_not_before b _ := Ok b; set_not_after b _ := Ok b;
  basic_constraints_leaf := Ok "CA:false"%string; key_usage_digital_signature := Ok "digitalSignature"%string;
  extended_key_usage_server_auth := Ok "serverAuth"%string; san_dns _ s := Ok s;
  append_extension b e := Ok (b +:+ ";" +:+ e); sign_sha256 b _ := Ok b; x509_build b := b;
|}.

Definition demo_view (b : DemoSettings) : Settings (H := DemoOpenSsl) :=
  @Build_Settings DemoOpenSsl (d_min b) (d_ciphers b) (d_alpn b) (d_select b) (d_chain b) (d_key b) (d_ca b) (d_verify b).

Ltac demo_law :=
  intros; cbn in *; repeat match goal with H : context [pem_file ?p] |- _ => destruct (pem_file p); simpl in H end;
  simplify_eq/=; done.

#[export] Program Instance DemoOpenSslLaws : OpenSslLaws (H := DemoOpenSsl) :=
  {| settings := demo_view; acceptor_settings := demo_view |}.
Next Obligation. demo_law. Qed.
Next Obligation. demo_law. Qed.
Next Obligation. demo_law. Qed.
Next Obligation. demo_law. Qed.
Next Obligation. demo_law. Qed.
Next Obligation. demo_law. Qed.
Next Obligation. demo_law. Qed.
Next Obligation. demo_law. Qed.
Next Obligation. demo_law. Qed.
Next Obligation. demo_law. Qed.
Next Obligation. demo_law. Qed.
Next Obligation. demo_law. Qed.
Next Obligation. demo_law. Qed.

Definition demo_mtls : TlsConfig :=
  {| mode := Provided; cert_path := Some "tls.pem"%string; key_path := Some "key.pem"%string;
     ca_cert_path := Some "ca.pem"%string; handshake_concurrency := 8; handshake_timeout_secs := 5 |}.

Definition demo_acceptor : DemoSettings :=
  Build_DemoSettings (Some 12%nat) ecdhe_cipher_list h2_protos (Some (alpn_callback (H := DemoOpenSsl)))
    (Some "tls.pem"%string) (Some "key.pem"%string) (Some "ca.pem"%string) (Some [1%nat; 2%nat]).

Lemma tls_as_configured_witness :
  build_tls_config (H := DemoOpenSsl) demo_mtls = Ok (Some demo_acceptor) /\
  provided_policy (H := DemoOpenSsl) demo_mtls (acceptor_settings (OpenSslLaws := DemoOpenSslLaws) demo_acceptor).
Proof.
  assert (Ha : build_tls_config (H := DemoOpenSsl) demo_mtls = Ok (Some demo_acceptor)) by reflexivity.
  split; [exact Ha|].
  exact (proj2 (tls_as_configured (H0 := DemoOpenSslLaws) demo_mtls (Some demo_acceptor) Ha)).
Defined.
