(* ===== verification/TlsIncoming.v ===== *)
(** * Accepting TLS connections ([src/tls.rs], [build_tls_incoming])

    The stream of TLS connections the gRPC server reads: each accepted TCP connection gets a
    handshake under a deadline, and [buffer_unordered] keeps up to [concurrency] of them
    running. [incoming_fire] takes one step, named by a label: a connection arrives, a
    handshake ends as the peer will have it, a deadline passes, a second passes. A second
    passes only once the deadlines that are due have been noticed, as the timer polls them. *)

From S2P Require Import Prelude RustStd Errors Tls.

(** ** I/O errors *)

Inductive ErrorKind := OtherError | TimedOut | ConnectionAborted | OsError (code : Z).

Record IoError := { io_kind : ErrorKind; io_message : string }.

(** [io::Error::other]. *)
Definition io_other (e : string) : IoError := {| io_kind := OtherError; io_message := e |}.

(** What the source calls of tokio's sockets and of [tokio_openssl]. [set_nodelay] gives the
    socket with the option set; [ssl_accept] is the peer's part, and a label decides it. *)
Class Sockets `{OpenSsl} := {
  TcpStream : Type;
  PeerAddr : Type;
  SslState : Type;
  SslStream : Type;
  set_nodelay : TcpStream -> bool -> result IoError TcpStream;
  local_addr : TcpStream -> result IoError PeerAddr;
  peer_addr : TcpStream -> result IoError PeerAddr;
  ssl_new : SslAcceptor -> result string SslState;
  ssl_stream_new : SslState -> TcpStream -> result string SslStream;
}.

Section Incoming.
Context `{Sockets}.

(** [OpenSslStream], with the addresses [connect_info] reports. *)
Record OpenSslStream := {
  inner : SslStream;
  stream_local_addr : option PeerAddr;
  stream_remote_addr : option PeerAddr;
}.

Definition ok_of {E A} (r : result E A) : option A := match r with Ok a => Some a | Err _ => None end.

(** [perform_handshake], given how [accept] ends on the stream it is called on. *)
Definition perform_handshake (accepted : result IoError TcpStream) (acceptor : SslAcceptor)
  (accept : SslStream -> result string SslStream) : result IoError OpenSslStream :=
  let! stream := accepted in
  let! stream := set_nodelay stream true in
  let local := ok_of (local_addr stream) in
  let remote := ok_of (peer_addr stream) in
  let! ssl := map_err io_other (ssl_new acceptor) in
  let! tls := map_err io_other (ssl_stream_new ssl stream) in
  let! tls := map_err (fun e => {| io_kind := ConnectionAborted; io_message := e |}) (accept tls) in
  Ok {| inner := tls; stream_local_addr := local; stream_remote_addr := remote |}.

Definition handshake_timed_out : IoError := {| io_kind := TimedOut; io_message := "TLS handshake timed out" |}.

(** ** The stream of connections *)

(** A handshake in flight: the number of its connection, what the listener gave, its deadline. *)
Record Handshake := { hs_number : nat; hs_connection : result IoError TcpStream; hs_deadline : Z }.

Record Incoming := {
  in_flight : list Handshake;
  arrivals : nat;
  yielded : list (nat * result IoError OpenSslStream);
  incoming_clock : Z;
}.

Definition incoming_start : Incoming := {| in_flight := []; arrivals := 0; yielded := []; incoming_clock := 0 |}.

Inductive IncomingLabel :=
| Arrive (connection : result IoError TcpStream)
| Finish (i : nat) (accept : SslStream -> result string SslStream)
| Expire (i : nat)
| Second.

Definition due (st : Incoming) (h : Handshake) : bool := hs_deadline h <=? incoming_clock st.

(** A handshake leaves its slot with a result. *)
Definition yield_one (i : nat) (h : Handshake) (r : result IoError OpenSslStream) (st : Incoming) : Incoming :=
  {| in_flight := delete i (in_flight st); arrivals := arrivals st;
     yielded := yielded st ++ [(hs_number h, r)]; incoming_clock := incoming_clock st |}.

(** [build_tls_incoming(listener, acceptor, concurrency, timeout)]. *)
Definition incoming_fire (acceptor : SslAcceptor) (concurrency timeout : Z) (l : IncomingLabel) (st : Incoming)
  : option Incoming :=
  match l with
  | Arrive c =>
      if len (in_flight st) <? concurrency then
        Some {| in_flight := in_flight st ++
                  [{| hs_number := arrivals st; hs_connection := c; hs_deadline := incoming_clock st + timeout |}];
                arrivals := S (arrivals st); yielded := yielded st; incoming_clock := incoming_clock st |}
      else None
  | Finish i accept =>
      h ← in_flight st !! i;
      Some (yield_one i h (perform_handshake (hs_connection h) acceptor accept) st)
  | Expire i =>
      h ← in_flight st !! i;
      if due st h then Some (yield_one i h (Err handshake_timed_out) st) else None
  | Second =>
      if existsb (due st) (in_flight st) then None
      else Some {| in_flight := in_flight st; arrivals := arrivals st; yielded := yielded st;
                   incoming_clock := incoming_clock st + 1 |}
  end.

Fixpoint incoming_run (acceptor : SslAcceptor) (concurrency timeout : Z) (ls : list IncomingLabel) (st : Incoming)
  : option Incoming :=
  match ls with
  | [] => Some st
  | l :: rest => st' ← incoming_fire acceptor concurrency timeout l st; incoming_run acceptor concurrency timeout rest st'
  end.

(** [serve_tls]: the stream as the TLS configuration has it. *)
Definition tls_incoming (cfg : TlsConfig) (acceptor : SslAcceptor) (ls : list IncomingLabel) : option Incoming :=
  incoming_run acceptor (handshake_concurrency cfg) (handshake_timeout_secs cfg) ls incoming_start.

(** ** Slots *)

Variable acceptor : SslAcceptor.
Variable concurrency timeout : Z.

Abbreviation fires := (incoming_fire acceptor concurrency timeout).
Abbreviation runs := (incoming_run acceptor concurrency timeout).

(** The slots are never overrun, every deadline is ahead by at most [timeout], and every
    connection is in flight or has yielded one result. *)
Record slots_ok (st : Incoming) : Prop := {
  slots_bound : len (in_flight st) <= concurrency;
  slots_deadlines : Forall (fun h => incoming_clock st <= hs_deadline h <= incoming_clock st + timeout) (in_flight st);
  slots_numbers : map fst (yielded st) ++ map hs_number (in_flight st) ≡ₚ seq 0 (arrivals st);
}.

Lemma slots_yield i h r st :
  slots_ok st -> in_flight st !! i = Some h -> slots_ok (yield_one i h r st).
Proof.
  intros [Hb Hd Hn] Hi. pose proof (delete_Permutation _ _ _ Hi) as Hp. constructor; cbn [yield_one in_flight].
  - unfold len in *. cbn. apply Permutation_length in Hp. cbn in Hp. lia.
  - cbn. rewrite Hp in Hd. by apply Forall_cons in Hd as [_ ?].
  - cbn. rewrite <- Hn, map_app, <- app_assoc. cbn. apply Permutation_app_head.
    symmetry. by rewrite Hp at 1.
Qed.

Lemma slots_fire l st st' : 0 <= timeout -> slots_ok st -> fires l st = Some st' -> slots_ok st'.
Proof.
  intros Ht Hs Hf. destruct l as [c|i accept|i|]; cbn in Hf.
  - destruct (_ <? _) eqn:Hlt; [|done]. injection Hf as <-. destruct Hs as [Hb Hd Hn].
    constructor; cbn [in_flight incoming_clock yielded arrivals].
    + rewrite len_app. unfold len in *. cbn. lia.
    + apply Forall_app. split; [done|]. constructor; [cbn; lia|done].
    + rewrite map_app, app_assoc, Hn, seq_S. done.
  - destruct (in_flight st !! i) as [h|] eqn:Hi; [|done]. injection Hf as <-. by apply slots_yield.
  - destruct (in_flight st !! i) as [h|] eqn:Hi; [|done]. cbn in Hf. destruct (due st h); [|done].
    injection Hf as <-. by apply slots_yield.
  - destruct (existsb _ _) eqn:Hd; [done|]. injection Hf as <-. destruct Hs as [Hb Hdl Hn]. constructor; cbn; try done.
    apply Forall_forall. intros h Hh. rewrite Forall_forall in Hdl. specialize (Hdl h Hh).
    assert (due st h = false) as Hdue; [|unfold due in Hdue; lia].
    destruct (due st h) eqn:E; [|done]. assert (existsb (due st) (in_flight st) = true) as Hx; [|congruence].
    apply existsb_exists. exists h. split; [by apply list_elem_of_In|done].
Qed.

Lemma slots_run ls : forall st st', 0 <= timeout -> slots_ok st -> runs ls st = Some st' -> slots_ok st'.
Proof.
  induction ls as [|l ls IH]; intros st st' Ht Hs Hr; simpl in Hr; [by injection Hr as <-|].
  destruct (fires l st) as [st1|] eqn:Hf; [|done]. eapply IH; [done| |exact Hr]. by eapply slots_fire.
Qed.

Lemma runs_app ls1 ls2 st st1 st2 : runs ls1 st = Some st1 -> runs ls2 st1 = Some st2 -> runs (ls1 ++ ls2) st = Some st2.
Proof.
  revert st. induction ls1 as [|l ls1 IH]; intros st H1 H2; simpl in *; [by injection H1 as ->|].
  destruct (fires l st) as [s|]; [|done]. by apply IH.
Qed.

(** ** Freeing the slots *)

Definition own (l : IncomingLabel) : bool := match l with Expire _ | Second => true | _ => false end.
Definition is_second (l : IncomingLabel) : bool := match l with Second => true | _ => false end.
Definition seconds (ls : list IncomingLabel) : Z := len (List.filter is_second ls).

Lemma expire_due n : forall st (P : Handshake -> Prop),
  (length (in_flight st) <= n)%nat -> Forall P (in_flight st) ->
  exists ls st', forallb own ls = true /\ seconds ls = 0 /\ runs ls st = Some st' /\
    incoming_clock st' = incoming_clock st /\ Forall P (in_flight st') /\
    existsb (due st') (in_flight st') = false.
Proof.
  induction n as [|n IH]; intros st P Hn HP.
  - destruct (in_flight st) eqn:E; [|cbn in Hn; lia]. exists [], st. rewrite E. by split_and!.
  - destruct (existsb (due st) (in_flight st)) eqn:Hd; [|by exists [], st].
    apply existsb_exists in Hd as (h & Hh%list_elem_of_In & Hdue). apply list_elem_of_lookup in Hh as [i Hi].
    pose proof (delete_Permutation _ _ _ Hi) as Hp.
    destruct (IH (yield_one i h (Err handshake_timed_out) st) P) as (ls & st' & Ho & Hs & Hr & Hc & HP' & Hx).
    { cbn. apply Permutation_length in Hp. cbn in Hp. lia. }
    { cbn. rewrite Hp in HP. by apply Forall_cons in HP as [_ ?]. }
    exists (Expire i :: ls), st'. split_and!; try done. cbn. rewrite Hi. cbn. by rewrite Hdue.
Qed.

Lemma slots_free k : forall st,
  Forall (fun h => hs_deadline h <= incoming_clock st + Z.of_nat k) (in_flight st) ->
  exists ls st', forallb own ls = true /\ seconds ls <= Z.of_nat k /\ runs ls st = Some st' /\ in_flight st' = [].
Proof.
  induction k as [|k IH]; intros st Hd;
    destruct (expire_due (length (in_flight st)) st _ (le_n _) Hd) as (ls & st1 & Ho & Hs & Hr & Hc & Hd1 & Hx).
  - exists ls, st1. split_and!; [done|lia|done|]. destruct (in_flight st1) as [|h l]; [done|].
    apply Forall_cons in Hd1 as [Hh _]. cbn in Hx. apply orb_false_iff in Hx as [Hx _]. unfold due in Hx. lia.
  - set (st2 := {| in_flight := in_flight st1; arrivals := arrivals st1; yielded := yielded st1;
                   incoming_clock := incoming_clock st1 + 1 |}).
    destruct (IH st2) as (ls2 & st' & Ho2 & Hs2 & Hr2 & He).
    { eapply Forall_impl; [exact Hd1|]. cbn. intros h. rewrite Hc. lia. }
    assert (H1 : runs [Second] st1 = Some st2) by (cbn; by rewrite Hx).
    exists (ls ++ Second :: ls2), st'. split_and!; [| |eapply runs_app; [exact Hr|exact (runs_app [Second] ls2 _ _ _ H1 Hr2)]|done].
    + rewrite forallb_app, Ho. cbn. done.
    + unfold seconds in *. rewrite List.filter_app, len_app. cbn [List.filter is_second].
      change (Second :: List.filter is_second ls2) with ([Second] ++ List.filter is_second ls2).
      rewrite len_app. unfold len at 2. cbn. lia.
Qed.
End Incoming.

(** C33. Stalled clients cannot take the listener: with a validated TLS configuration, whatever
    connects and however the peers behave, at most [handshake_concurrency] handshakes are in
    flight, every connection is in flight or has yielded exactly one result, and from any such
    moment the timers alone free every slot within [handshake_timeout_secs] seconds. *)
Theorem handshakes_are_bounded `{Sockets} cfg acceptor ls st :
  validate cfg = Ok tt -> 0 <= handshake_concurrency cfg -> 0 <= handshake_timeout_secs cfg ->
  tls_incoming cfg acceptor ls = Some st ->
  0 < handshake_concurrency cfg /\ len (in_flight st) <= handshake_concurrency cfg /\
  map fst (yielded st) ++ map hs_number (in_flight st) ≡ₚ seq 0 (arrivals st) /\
  exists ls' st', forallb own ls' = true /\ seconds ls' <= handshake_timeout_secs cfg /\
    tls_incoming cfg acceptor (ls ++ ls') = Some st' /\ in_flight st' = [].
Proof.
  intros Hv Hc Ht Hr.
  assert (Hpos : 0 < handshake_concurrency cfg).
  { unfold validate in Hv. destruct (handshake_concurrency cfg =? 0) eqn:E; [done|lia]. }
  assert (Hstart : slots_ok (handshake_concurrency cfg) (handshake_timeout_secs cfg) incoming_start) by (by constructor).
  destruct (slots_run acceptor _ _ ls _ _ Ht Hstart Hr) as [Hb Hd Hn].
  destruct (slots_free acceptor (handshake_concurrency cfg) (handshake_timeout_secs cfg)
              (Z.to_nat (handshake_timeout_secs cfg)) st) as (ls' & st' & Ho & Hs & Hr' & He).
  { eapply Forall_impl; [exact Hd|]. cbn. intros h. lia. }
  split_and!; [done..|]. exists ls', st'. split_and!; [done|lia| |done]. by eapply runs_app.
Qed.

(** ** An instance *)

#[export] Instance DemoSockets : Sockets (H := DemoOpenSsl) := {|
  TcpStream := Z; PeerAddr := Z; SslState := unit; SslStream := Z;
  set_nodelay s _ := Ok s; local_addr s := Ok 443; peer_addr s := Ok s;
  ssl_new _ := Ok tt; ssl_stream_new _ s := Ok s;
|}.

Definition demo_tls : TlsConfig :=
  {| mode := SelfSigned; cert_path := None; key_path := None; ca_cert_path := None;
     handshake_concurrency := 2; handshake_timeout_secs := 3 |}.

(** Two peers fill the slots; one finishes, the other stalls. *)
Definition demo_peers : list (IncomingLabel (H0 := DemoSockets)) :=
  [Arrive (Ok 1001); Arrive (Ok 1002); Second; Finish 0 (fun s => Ok s); Arrive (Ok 1003)].
Definition demo_slots : Incoming (H0 := DemoSockets) :=
  {| in_flight := [{| hs_number := 1%nat; hs_connection := Ok 1002; hs_deadline := 3 |};
                   {| hs_number := 2%nat; hs_connection := Ok 1003; hs_deadline := 4 |}];
     arrivals := 3;
     yielded := [(0%nat, Ok {| inner := 1001; stream_local_addr := Some 443; stream_remote_addr := Some 1001 |})];
     incoming_clock := 1 |}.

Lemma handshakes_are_bounded_witness :
  tls_incoming (H0 := DemoSockets) demo_tls demo_acceptor (demo_peers ++ [Arrive (Ok 1004)]) = None /\
  len (in_flight demo_slots) <= 2.
Proof.
  split; [reflexivity|].
  assert (Hr : tls_incoming (H0 := DemoSockets) demo_tls demo_acceptor demo_peers = Some demo_slots)
    by (reflexivity).
  assert (Hv : validate demo_tls = Ok tt) by (reflexivity).
  exact (proj1 (proj2 (handshakes_are_bounded (H0 := DemoSockets) demo_tls demo_acceptor demo_peers demo_slots Hv
                         ltac:(cbn; lia) ltac:(cbn; lia) Hr))).
Defined.
