(* ===== verification/Config.v ===== *)
(** * The service configuration ([src/config.rs])

    The configuration records with their defaults, the two constrained integers, the effective
    body ceiling, and the assembly of the filter pipeline from the configured chains. YAML
    decoding is serde's; the registry and the pipeline builder are praxis_filter's, taken as the
    operations of [PipelineBuilder]. *)

From S2P Require Import Prelude RustStd Effect Proto IpAddr Extern Concrete State Errors Tls.

(** ** Constrained integers *)

(** [NonZeroU64], [NonZeroUsize]: a positive integer. *)
Record DrainTimeoutSecs := { drain_secs : Z }.
Definition DrainTimeoutSecs_get (self : DrainTimeoutSecs) : Z := drain_secs self.
Definition DrainTimeoutSecs_default : DrainTimeoutSecs := {| drain_secs := 20 |}.
Definition DrainTimeoutSecs_try_from (value : Z) : result string DrainTimeoutSecs :=
  if value =? 0 then Err "shutdown_drain_timeout_secs must be greater than zero"
  else Ok {| drain_secs := value |}.

Record MaxBodyBytes := { max_bytes : Z }.
Definition MaxBodyBytes_get (self : MaxBodyBytes) : Z := max_bytes self.
Definition MaxBodyBytes_default : MaxBodyBytes := {| max_bytes := DEFAULT_MAX_BODY_BYTES |}.
Definition MaxBodyBytes_try_from (value : Z) : result string MaxBodyBytes :=
  if value =? 0 then Err "max_body_bytes must be greater than zero" else Ok {| max_bytes := value |}.

(** ** Records *)

Record MetricsAuthConfig := { enabled : bool }.
Definition MetricsAuthConfig_default : MetricsAuthConfig := {| enabled := true |}.

Record ServerConfig := {
  grpc_address : string;
  health_address : string;
  metrics_address : string;
  tls : TlsConfig;
  shutdown_drain_timeout_secs : DrainTimeoutSecs;
  max_body_bytes : MaxBodyBytes;
  trust_forwarded_for : bool;
  metrics_auth : MetricsAuthConfig;
}.

Definition ServerConfig_default : ServerConfig :=
  {| grpc_address := "0.0.0.0:50051"; health_address := "0.0.0.0:50052"; metrics_address := "0.0.0.0:9090";
     tls := TlsConfig_default; shutdown_drain_timeout_secs := DrainTimeoutSecs_default;
     max_body_bytes := MaxBodyBytes_default; trust_forwarded_for := false;
     metrics_auth := MetricsAuthConfig_default |}.

(** The filter framework's builder. [InsecureOptions] is praxis_core's; the source reads two of
    its flags. *)
Class PipelineBuilder `{PraxisFilter} `{SerdeYaml} := {
  InsecureOptions : Type;
  allow_unbounded_body : InsecureOptions -> bool;
  allow_private_upstreams : InsecureOptions -> bool;

  FilterRegistry : Type;
  available_filters : FilterRegistry -> list string;
  (** [register] of the built-in filter of that name; it fails on a name already taken. *)
  registry_register : FilterRegistry -> string -> result string FilterRegistry;

  (** [responses-store]: whether the feature is compiled in. *)
  responses_store : bool;
  build_with_chains :
    list FilterEntry -> FilterRegistry -> gmap string (list FilterEntry) -> InsecureOptions ->
    result string FilterPipeline;
  set_allow_private_upstreams : FilterPipeline -> bool -> FilterPipeline;
  apply_body_limits : FilterPipeline -> option Z -> option Z -> bool -> result string FilterPipeline;
  apply_insecure_options : FilterPipeline -> InsecureOptions -> FilterPipeline;
  add_response_store : FilterPipeline -> FilterPipeline;
}.

Section Config.
Context `{PipelineBuilder}.

Record ExtProcConfig := {
  filter_chains : list FilterChainConfig;
  insecure_options : InsecureOptions;
  server : ServerConfig;
}.

(** Effective body-accumulation ceiling in bytes; [None] means unbounded. *)
Definition max_body_accumulation (self : ExtProcConfig) : option Z :=
  if allow_unbounded_body (insecure_options self) then None
  else Some (MaxBodyBytes_get (max_body_bytes (server self))).

(** ** Pipeline construction *)

Definition duplicate_chain (name : string) : ExtProcError := Config ("duplicate filter chain name: " +:+ name).

(** The loop of [validate_chain_names] over the chains left, with the names seen. *)
Fixpoint validate_names (seen : gset string) (chains : list FilterChainConfig) : ExtProcResult unit :=
  match chains with
  | [] => Ok tt
  | chain :: rest =>
      if decide (fc_name chain ∈ seen) then Err (duplicate_chain (fc_name chain))
      else validate_names ({[fc_name chain]} ∪ seen) rest
  end.
Definition validate_chain_names (chains : list FilterChainConfig) : ExtProcResult unit := validate_names ∅ chains.

Definition flatten_chains (chains : list FilterChainConfig) : list FilterEntry := concat (map fc_filters chains).

(** [collect] into a [HashMap]: a later entry replaces an earlier one of the same key. *)
Definition chain_map (chains : list FilterChainConfig) : gmap string (list FilterEntry) :=
  fold_left (fun m c => <[fc_name c := fc_filters c]> m) chains ∅.

Definition build_pipeline (config : ExtProcConfig) (registry : FilterRegistry) : ExtProcResult FilterPipeline :=
  let! _ := validate_chain_names (filter_chains config) in
  let chains := chain_map (filter_chains config) in
  let entries := flatten_chains (filter_chains config) in
  let! pipeline := map_err Pipeline (build_with_chains entries registry chains (insecure_options config)) in
  let pipeline := set_allow_private_upstreams pipeline (allow_private_upstreams (insecure_options config)) in
  let! pipeline :=
    map_err Pipeline (apply_body_limits pipeline None None (allow_unbounded_body (insecure_options config))) in
  let pipeline := apply_insecure_options pipeline (insecure_options config) in
  Ok (if responses_store then add_response_store pipeline else pipeline).

(** ** Duplicate names *)

Lemma validate_names_spec chains : forall seen,
  validate_names seen chains = Ok tt <->
  NoDup (map fc_name chains) /\ (forall c, c ∈ chains -> fc_name c ∉ seen).
Proof.
  induction chains as [|c chains IH]; intros seen; simpl.
  { split; [intros _; split; [constructor|by intros ? ?%elem_of_nil]|done]. }
  case_decide as Hc; [split; [done|intros [_ Hs]; exfalso; by apply (Hs c (list_elem_of_here _ _))]|].
  rewrite IH, NoDup_cons. split.
  - intros [Hd Hs]. repeat split; [|done|].
    + intros (c' & Heq & Hin)%list_elem_of_fmap. apply (Hs c' Hin). set_solver.
    + intros c' [->|Hin]%elem_of_cons; [done|]. specialize (Hs c' Hin). set_solver.
  - intros [[Hn Hd] Hs]. split; [done|]. intros c' Hin.
    assert (fc_name c' ∉ seen) by by apply Hs, list_elem_of_further.
    assert (fc_name c' <> fc_name c); [|set_solver].
    intros E. apply Hn. rewrite <- E. by apply list_elem_of_fmap_2.
Qed.

Lemma validate_names_err chains : forall seen e,
  validate_names seen chains = Err e ->
  exists pre c post, chains = pre ++ c :: post /\ e = duplicate_chain (fc_name c) /\
    (fc_name c ∈ seen \/ fc_name c ∈ map fc_name pre).
Proof.
  induction chains as [|c chains IH]; intros seen e; simpl; [done|]. case_decide as Hc.
  - intros [= <-]. exists [], c, chains. auto.
  - intros (pre & c' & post & -> & -> & Hin)%IH. exists (c :: pre), c', post. simpl.
    split_and!; [done..|]. set_solver.
Qed.

(** The names are accepted exactly when no two chains share one, and the error names a chain
    whose name an earlier chain has. *)
Lemma validate_chain_names_spec chains :
  match validate_chain_names chains with
  | Ok _ => NoDup (map fc_name chains)
  | Err e => exists pre c post, chains = pre ++ c :: post /\ fc_name c ∈ map fc_name pre /\
               e = duplicate_chain (fc_name c)
  end.
Proof.
  unfold validate_chain_names. destruct (validate_names ∅ chains) as [[]|e] eqn:E.
  - by apply validate_names_spec in E as [? _].
  - apply validate_names_err in E as (pre & c & post & -> & -> & [Hin|Hin]); [set_solver|]. eauto 10.
Qed.

(** ** The map of chains *)

Lemma chain_map_insert (c : FilterChainConfig) chains (m : gmap string (list FilterEntry)) :
  fc_name c ∉ map fc_name chains ->
  fold_left (fun m c => <[fc_name c := fc_filters c]> m) chains (<[fc_name c := fc_filters c]> m) !! fc_name c =
  Some (fc_filters c).
Proof.
  revert m. induction chains as [|c' chains IH]; intros m Hn; simpl; [by rewrite lookup_insert_eq|].
  apply not_elem_of_cons in Hn as [Hne Hn]. rewrite insert_insert_ne by congruence. by apply IH.
Qed.

Lemma chain_map_lookup chains : forall (m : gmap string (list FilterEntry)) (c : FilterChainConfig),
  NoDup (map fc_name chains) -> c ∈ chains ->
  fold_left (fun m c => <[fc_name c := fc_filters c]> m) chains m !! fc_name c = Some (fc_filters c).
Proof.
  induction chains as [|c' chains IH]; intros m c Hd Hin; [by apply elem_of_nil in Hin|].
  simpl in *. apply NoDup_cons in Hd as [Hn Hd].
  apply elem_of_cons in Hin as [->|Hin]; [by apply chain_map_insert|by apply IH].
Qed.

(** The pipeline is built from what the configuration lists: it exists only when no two
    chains share a name; then every chain, whatever its position, is found under its own name,
    and the entries are those of the chains in their order, none dropped or repeated. *)
Theorem pipeline_from_chains config registry p :
  build_pipeline config registry = Ok p ->
  NoDup (map fc_name (filter_chains config)) /\
  exists chains built limited,
    (forall c, c ∈ filter_chains config -> chains !! fc_name c = Some (fc_filters c)) /\
    build_with_chains (concat (map fc_filters (filter_chains config))) registry chains (insecure_options config) = Ok built /\
    apply_body_limits (set_allow_private_upstreams built (allow_private_upstreams (insecure_options config)))
      None None (allow_unbounded_body (insecure_options config)) = Ok limited /\
    p = (if responses_store then add_response_store else id)
          (apply_insecure_options limited (insecure_options config)).
Proof.
  unfold build_pipeline. intros (u & Hv & (built & Hb & (limited & Hl & Hp)%bind_ok)%bind_ok)%bind_ok.
  apply map_err_ok in Hb. apply map_err_ok in Hl.
  pose proof (validate_chain_names_spec (filter_chains config)) as Hd. rewrite Hv in Hd.
  split; [done|]. exists (chain_map (filter_chains config)), built, limited.
  split_and!; [|done..|].
  - intros c Hin. by apply chain_map_lookup.
  - injection Hp as <-. by destruct responses_store.
Qed.
End Config.

(** ** Bounds *)

Lemma max_body_try_from_pos v m : 0 <= v -> MaxBodyBytes_try_from v = Ok m -> 0 < MaxBodyBytes_get m.
Proof. unfold MaxBodyBytes_try_from. destruct (Z.eqb_spec v 0); [done|]. intros ? [= <-]. simpl. lia. Qed.

Lemma drain_try_from_pos v m : 0 <= v -> DrainTimeoutSecs_try_from v = Ok m -> 0 < DrainTimeoutSecs_get m.
Proof. unfold DrainTimeoutSecs_try_from. destruct (Z.eqb_spec v 0); [done|]. intros ? [= <-]. simpl. lia. Qed.

(** ** A concrete builder *)

(** The registry is the list of filter types it knows; a build fails on any other. *)
#[export] Instance DemoBuilder : PipelineBuilder (H0 := ConcretePraxis) (H1 := ConcreteYaml) := {|
  InsecureOptions := bool * bool;
  allow_unbounded_body := fst;
  allow_private_upstreams := snd;
  FilterRegistry := list string;
  available_filters r := r;
  registry_register r name := if bool_decide (name ∈ r) then Err (name +:+ " is already registered") else Ok (r ++ [name]);
  responses_store := false;
  build_with_chains entries registry _ _ :=
    if forallb (fun e => bool_decide (fe_filter_type e ∈ registry)) entries
    then Ok (pass_pipeline (demo_caps false false false false)) else Err "unknown filter type"%string;
  set_allow_private_upstreams p _ := p;
  apply_body_limits p _ _ _ := Ok p;
  apply_insecure_options p _ := p;
  add_response_store p := p;
|}.

Definition demo_entry (filter_type : string) : FilterEntry (H := ConcreteYaml) :=
  Build_FilterEntry filter_type (YMap []) [] [].

Definition demo_config : ExtProcConfig (H2 := DemoBuilder) :=
  @Build_ExtProcConfig ConcreteHttp ConcretePraxis ConcreteYaml DemoBuilder
    [Build_FilterChainConfig "pre" [demo_entry "request_id"];
     Build_FilterChainConfig "main" [demo_entry "guardrail"; demo_entry "request_id"]]
    (false, false) ServerConfig_default.

Lemma pipeline_from_chains_witness :
  build_pipeline (H2 := DemoBuilder) demo_config ["request_id"; "guardrail"]%string =
    Ok (pass_pipeline (demo_caps false false false false)) /\
  NoDup (map fc_name (filter_chains demo_config)).
Proof.
  assert (Hb : build_pipeline (H2 := DemoBuilder) demo_config ["request_id"; "guardrail"]%string =
    Ok (pass_pipeline (demo_caps false false false false))) by reflexivity.
  split; [exact Hb|].
  exact (proj1 (pipeline_from_chains (H2 := DemoBuilder) demo_config ["request_id"; "guardrail"]%string
                  (pass_pipeline (demo_caps false false false false)) Hb)).
Defined.
