(* ===== verification/Fips.v ===== *)
(** * FIPS mode ([src/fips.rs])

    Installing the crypto provider, the filters that rule FIPS mode out, and the fail-closed
    requirement. The provider and its signals are [praxis_tls::provider]'s. *)

From S2P Require Import Prelude RustStd Effect Proto IpAddr Extern Concrete State Errors Tls Config.

(** [praxis_tls::provider]: its status record is read through [status_installed] and
    [status_unmet], the reasons why FIPS mode is not in effect. *)
Class CryptoProvider := {
  Status : Type;
  Process : Type;
  provider_name : string;
  provider_install : Process -> bool * Process;
  provider_status : Process -> Status;
  status_installed : Status -> bool;
  status_unmet : Status -> list string;
  (** [provider::required]: whether [PRAXIS_REQUIRE_FIPS] is set. *)
  fips_required : Process -> bool;
}.

Definition REQUIRE_FIPS_ENV : string := "PRAXIS_REQUIRE_FIPS".

(** ** Non-FIPS filters *)

(** [NON_FIPS_FILTERS], by whether [responses-full] is compiled in. *)
Definition NON_FIPS_FILTERS (responses_full : bool) : list string :=
  if responses_full then ["policy"; "openai_responses_store"]%string else ["policy"]%string.

Section Fips.
Context `{PipelineBuilder} `{CryptoProvider} (responses_full : bool).

(** Install the provider and read its signals. *)
Definition install (process : Process) : ExtProcResult Status * Process :=
  let '(_, process) := provider_install process in
  let status := provider_status process in
  if negb (status_installed status)
  then (Err (Crypto ("failed to install the " +:+ provider_name +:+ " crypto provider")), process)
  else (Ok status, process).

Definition blocker (registry : FilterRegistry) : option string :=
  let available := available_filters registry in
  let registered :=
    map (fun name => "`" +:+ name +:+ "` filter")
      (List.filter (fun name => bool_decide (name ∈ available)) (NON_FIPS_FILTERS responses_full)) in
  match registered with
  | [] => None
  | _ => Some (REQUIRE_FIPS_ENV +:+ " is set but this binary registers the " +:+ join " and " registered +:+
               ", whose dependencies do their own cryptography outside the system OpenSSL; run the FIPS build")
  end.

(** ** The requirement *)

Definition active (status : Status) : bool := bool_decide (status_unmet status = []).

Definition require_if (status : Status) (required : bool) : ExtProcResult unit :=
  if negb required then Ok tt
  else match status_unmet status with
       | [] => Ok tt
       | unmet => Err (Crypto (REQUIRE_FIPS_ENV +:+ " is set but FIPS mode is not in effect: " +:+ join "; " unmet))
       end.

Definition require (process : Process) (status : Status) : ExtProcResult unit :=
  require_if status (fips_required process).

Lemma require_if_ok status required :
  require_if status required = Ok tt <-> (required = true -> active status = true).
Proof.
  unfold require_if, active. destruct required; simpl; [|naive_solver].
  case_bool_decide; destruct (status_unmet status); naive_solver.
Qed.

Lemma blocker_none registry :
  blocker registry = None <-> (forall name, name ∈ NON_FIPS_FILTERS responses_full -> name ∉ available_filters registry).
Proof.
  unfold blocker. set (l := NON_FIPS_FILTERS responses_full). clearbody l.
  assert (Hf : List.filter (fun name => bool_decide (name ∈ available_filters registry)) l = [] <->
               (forall name, name ∈ l -> name ∉ available_filters registry)).
  { induction l as [|a l IH]; simpl; [split; [by intros _ ? ?%elem_of_nil|done]|].
    case_bool_decide; [split; [done|intros Hn; by destruct (Hn a (list_elem_of_here _ _))]|].
    rewrite IH. split; [intros Hn ? [->|?]%elem_of_cons; auto|intros Hn ? ?; by apply Hn, list_elem_of_further]. }
  rewrite <- Hf. destruct (List.filter _ l); simpl; naive_solver.
Qed.
End Fips.
