(* ===== verification/MetricsServer.v ===== *)
(** * The metrics endpoint and its authentication ([src/metrics.rs])

    Routing, bearer-token extraction, the [TokenReview] and [SubjectAccessReview] round trips,
    and startup. The Kubernetes API server is a parameter: an operation per review kind, on a
    state of its own. Every call made is recorded in order, so a theorem can speak of what was
    sent. Accepting connections and rendering Prometheus text are hyper's and the exporter's. *)

From S2P Require Import Prelude RustStd Effect Proto IpAddr Extern Concrete State Errors Tls Config.

(** ** Kubernetes objects *)

(** The parts of a [TokenReview] the source writes and reads. *)
Record UserInfo := { ui_username : option string; ui_groups : option (list string) }.
Definition UserInfo_default : UserInfo := {| ui_username := None; ui_groups := None |}.
Record TokenReviewStatus := { trs_authenticated : option bool; trs_user : option UserInfo }.
Record TokenReview := { tr_token : string; tr_status : option TokenReviewStatus }.

Record NonResourceAttributes := { nra_path : option string; nra_verb : option string }.
Record SubjectAccessReview := {
  sar_user : option string;
  sar_groups : option (list string);
  sar_non_resource : option NonResourceAttributes;
  sar_status_allowed : option bool;
}.

(** What [tokio::time::timeout(.., api.create(..))] resolves to. *)
Inductive Created (K : Type) :=
| CreatedOk (object : K)
| CreateFailed (error : string)
| CreateElapsed.
Arguments CreatedOk {K}.
Arguments CreateFailed {K}.
Arguments CreateElapsed {K}.

(** A client of the API server, with the server's state. *)
Class KubeApi := {
  Cluster : Type;
  create_token_review : Cluster -> TokenReview -> Created TokenReview * Cluster;
  create_subject_access_review : Cluster -> SubjectAccessReview -> Created SubjectAccessReview * Cluster;
}.

Inductive ApiCall :=
| SentTokenReview (r : TokenReview)
| SentSubjectAccessReview (r : SubjectAccessReview).

(** The outcome of an authentication attempt. *)
Record TokenReviewResult := { username : string; groups : list string }.
Inductive AuthnOutcome :=
| Authenticated (id : TokenReviewResult)
| NotAuthenticated
| ApiError (e : string).

Definition KUBERNETES_API_TIMEOUT : Z := 10.

(** ** HTTP *)

Record HttpResponse := { resp_status : Z; resp_body : bytes }.

(** [Response::new] has status 200. *)
Definition response_new (body : bytes) : HttpResponse := {| resp_status := 200; resp_body := body |}.
Definition response_with_status (status : Z) (body : string) : HttpResponse :=
  {| resp_status := status; resp_body := as_bytes body |}.

Section Metrics.
Context `{HttpLib} `{KubeApi}.

Record HttpRequest := {
  req_method : Method;
  req_path : string;
  req_headers : HMap;
}.

(** [eq_ignore_ascii_case] against [b"Bearer "] on the first seven bytes, then the rest. *)
Definition BEARER_PREFIX : bytes := as_bytes "Bearer ".
Definition extract_bearer_token (req : HttpRequest) : option string :=
  value ← hmap_get_str (req_headers req) "authorization";
  value_str ← hvalue_to_str value;
  let b := as_bytes value_str in
  if (length BEARER_PREFIX <=? length b)%nat
     && eq_ignore_ascii_case_bytes (take (length BEARER_PREFIX) b) BEARER_PREFIX
  then Some (of_bytes (drop (length BEARER_PREFIX) b)) else None.

(** [namespace:name] when [username] is a service account. *)
Definition service_account_subject (username : string) : option string :=
  account ← strip_prefix (as_bytes "system:serviceaccount:") (as_bytes username);
  if bool_decide (account = []) then None else Some (of_bytes account).

(** What [warn_denied] logs. *)
Definition warn_denied (username : string) : option string := service_account_subject username.

(** ** The two reviews *)

(** The client's state: the API server and the calls sent so far. *)
Record Client := { cluster : Cluster; sent : list ApiCall }.

(** [kubernetes_create] for one kind of object. *)
Definition kubernetes_create {K} (create : Cluster -> K -> Created K * Cluster) (call : ApiCall)
    (object : K) (name : string) (c : Client) : result string K * Client :=
  let '(created, cl) := create (cluster c) object in
  let c := {| cluster := cl; sent := sent c ++ [call] |} in
  match created with
  | CreatedOk created => (Ok created, c)
  | CreateFailed error => (Err (name +:+ " API call failed: " +:+ error), c)
  | CreateElapsed =>
      (Err (name +:+ " API call timed out after " +:+ of_bytes (display_unsigned KUBERNETES_API_TIMEOUT) +:+ "s"), c)
  end.

Definition token_review (token : string) : TokenReview := {| tr_token := token; tr_status := None |}.

Definition authenticate_token (token : string) (c : Client) : AuthnOutcome * Client :=
  let review := token_review token in
  let '(r, c) := kubernetes_create create_token_review (SentTokenReview review) review "TokenReview" c in
  (match r with
   | Err error => ApiError error
   | Ok result =>
       match tr_status result with
       | None => ApiError "TokenReview response missing status"
       | Some status =>
           match trs_authenticated status with
           | Some true =>
               let user := default UserInfo_default (trs_user status) in
               Authenticated {| username := default ""%string (ui_username user);
                                groups := default [] (ui_groups user) |}
           | Some false => NotAuthenticated
           | None => ApiError "TokenReview response missing authenticated"
           end
       end
   end, c).

Definition access_review (username : string) (groups : list string) : SubjectAccessReview :=
  {| sar_user := Some username; sar_groups := Some groups;
     sar_non_resource := Some {| nra_path := Some "/metrics"%string; nra_verb := Some "get"%string |};
     sar_status_allowed := None |}.

Definition authorize_metrics_access (username : string) (groups : list string) (c : Client) : result string bool * Client :=
  let sar := access_review username groups in
  let '(r, c) :=
    kubernetes_create create_subject_access_review (SentSubjectAccessReview sar) sar "SubjectAccessReview" c in
  (let! result := r in ok_or "SubjectAccessReview response missing status"%string (sar_status_allowed result), c).

(** ** Requests *)

(** [serve_metrics]; [render] is what the Prometheus handle renders. *)
Definition serve_metrics (req : HttpRequest) (render : bytes) (kube_client : option Client)
    : HttpResponse * option Client :=
  match kube_client with
  | None => (response_new render, None)
  | Some c =>
      match extract_bearer_token req with
      | None => (response_with_status 401 "unauthorized", Some c)
      | Some bearer =>
          let '(outcome, c) := authenticate_token bearer c in
          match outcome with
          | NotAuthenticated => (response_with_status 401 "unauthorized", Some c)
          | ApiError _ => (response_with_status 500 "internal error", Some c)
          | Authenticated who =>
              let '(allowed, c) := authorize_metrics_access (username who) (groups who) c in
              (match allowed with
               | Ok true => response_new render
               | Ok false => response_with_status 403 "forbidden"
               | Err _ => response_with_status 500 "internal error"
               end, Some c)
          end
      end
  end.

Definition route_request (req : HttpRequest) (render : bytes) (kube_client : option Client)
    : HttpResponse * option Client :=
  if bool_decide (req_path req = "/healthz"%string) then (response_with_status 200 "ok", kube_client)
  else if bool_decide (req_path req = "/metrics"%string) then
    if bool_decide (req_method req = method_get) then serve_metrics req render kube_client
    else (response_with_status 405 "method not allowed", kube_client)
  else (response_with_status 404 "not found", kube_client).

(** ** Startup *)

(** [build_kube_client], given what [kube::Client::try_default] gives. *)
Definition build_kube_client (config : MetricsAuthConfig) (try_default : result string Client)
    : ExtProcResult (option Client) :=
  if negb (enabled config) then Ok None
  else let! client := map_err (fun e => Config ("metrics_auth kube client: " +:+ e)) try_default in
       Ok (Some client).

(** [install_recorder]: the process-wide cell is filled by the first call. *)
Definition install_recorder {Handle} (builder : result string Handle) (cell : option (result string Handle))
    : ExtProcResult Handle * option (result string Handle) :=
  let r := default (map_err (fun e => "metrics recorder: " +:+ e) builder) cell in
  (map_err Config r, Some r).

Definition bind_listener {L} (bound : result string L) : ExtProcResult L :=
  map_err (fun e => Config ("metrics bind: " +:+ e)) bound.

(** [serve] up to [accept_loop]: what the loop serves with. [ready] is sent exactly when this is
    [Ok]; on an error it is dropped unsent. *)
Definition serve_start {Handle L} (auth_config : MetricsAuthConfig)
    (builder : result string Handle) (cell : option (result string Handle))
    (try_default : result string Client) (bound : result string L)
    : ExtProcResult (L * Handle * option Client) * option (result string Handle) :=
  let '(handle, cell) := install_recorder builder cell in
  (let! handle := handle in
   let! kube_client := build_kube_client auth_config try_default in
   let! listener := bind_listener bound in
   Ok (listener, handle, kube_client), cell).

(** ** What a scrape needs *)

(** The API server's answers to the two reviews of a token. *)
Definition token_answer (c : Client) (token : string) : Created TokenReview :=
  fst (create_token_review (cluster c) (token_review token)).
Definition access_answer (c : Client) (token : string) (id : TokenReviewResult) : Created SubjectAccessReview :=
  fst (create_subject_access_review (snd (create_token_review (cluster c) (token_review token)))
         (access_review (username id) (groups id))).

(** The identity an answer authenticates: [None] when the answer decides nothing, [Some None]
    when it denies. *)
Definition answered_identity (a : Created TokenReview) : option (option TokenReviewResult) :=
  match a with
  | CreatedOk r =>
      s ← tr_status r;
      b ← trs_authenticated s;
      Some (if b : bool then
              let user := default UserInfo_default (trs_user s) in
              Some {| username := default ""%string (ui_username user); groups := default [] (ui_groups user) |}
            else None)
  | _ => None
  end.

Definition answered_access (a : Created SubjectAccessReview) : option bool :=
  match a with CreatedOk r => sar_status_allowed r | _ => None end.

(** The status of a scrape, from the token and the two answers. *)
Definition scrape_status (c : Client) (token : option string) : Z :=
  match token with
  | None => 401
  | Some token =>
      match answered_identity (token_answer c token) with
      | None => 500
      | Some None => 401
      | Some (Some id) =>
          match answered_access (access_answer c token id) with
          | None => 500
          | Some false => 403
          | Some true => 200
          end
      end
  end.

(** The calls a scrape makes. *)
Definition scrape_calls (c : Client) (token : option string) : list ApiCall :=
  match token with
  | None => []
  | Some token =>
      SentTokenReview (token_review token) ::
      match answered_identity (token_answer c token) with
      | Some (Some id) => [SentSubjectAccessReview (access_review (username id) (groups id))]
      | _ => []
      end
  end.

Lemma authenticate_token_spec token c :
  authenticate_token token c =
  (match answered_identity (token_answer c token) with
   | None => fst (authenticate_token token c)
   | Some None => NotAuthenticated
   | Some (Some id) => Authenticated id
   end,
   {| cluster := snd (create_token_review (cluster c) (token_review token));
      sent := sent c ++ [SentTokenReview (token_review token)] |}) /\
  (answered_identity (token_answer c token) = None -> exists e, fst (authenticate_token token c) = ApiError e).
Proof.
  unfold authenticate_token, token_answer, kubernetes_create.
  destruct (create_token_review (cluster c) (token_review token)) as [[r|e|] cl]; simpl; [|by split; eauto..].
  destruct (tr_status r) as [[[[]|] u]|]; simpl; by split; eauto.
Qed.

Lemma authorize_spec c id :
  let a := create_subject_access_review (cluster c) (access_review (username id) (groups id)) in
  snd (authorize_metrics_access (username id) (groups id) c) =
    {| cluster := snd a; sent := sent c ++ [SentSubjectAccessReview (access_review (username id) (groups id))] |} /\
  match answered_access (fst a) with
  | Some b => fst (authorize_metrics_access (username id) (groups id) c) = Ok b
  | None => exists e, fst (authorize_metrics_access (username id) (groups id) c) = Err e
  end.
Proof.
  unfold authorize_metrics_access, kubernetes_create.
  destruct (create_subject_access_review _ _) as [[r|e|] cl]; simpl; [|by split; eauto..].
  destruct (sar_status_allowed r); simpl; by split; eauto.
Qed.

(** One scrape: its response and the calls it makes. *)
Lemma serve_metrics_spec req render c :
  let r := serve_metrics req render (Some c) in
  let status := scrape_status c (extract_bearer_token req) in
  resp_status (fst r) = status /\
  (status = 200 -> resp_body (fst r) = render) /\
  (status <> 200 -> resp_body (fst r) ∈ map as_bytes ["unauthorized"; "forbidden"; "internal error"]%string) /\
  exists c', snd r = Some c' /\ sent c' = sent c ++ scrape_calls c (extract_bearer_token req).
Proof.
  cbv zeta. unfold serve_metrics, scrape_status, scrape_calls.
  destruct (extract_bearer_token req) as [token|]; simpl; [|rewrite app_nil_r; split_and!; [done..|set_solver|eauto]].
  destruct (authenticate_token_spec token c) as [E1 E2].
  destruct (answered_identity (token_answer c token)) as [[id|]|] eqn:Ha; rewrite E1; simpl.
  - set (c1 := {| cluster := snd (create_token_review (cluster c) (token_review token)); sent := _ |}).
    destruct (authorize_spec c1 id) as [E3 E4]. fold (access_answer c token id) in E4.
    destruct (authorize_metrics_access (username id) (groups id) c1) as [allowed c2]. simpl in E3, E4. subst c2.
    simpl in E4. fold (access_answer c token id) in E4.
    destruct (answered_access (access_answer c token id)) as [[]|]; [subst allowed..|destruct E4 as [e ->]];
      simpl; (split_and!; [done..|set_solver|eexists; split; [done|]; by rewrite <- app_assoc]).
  - split_and!; [done..|set_solver|eauto].
  - destruct (E2 eq_refl) as [e ->]. split_and!; [done..|set_solver|eauto].
Qed.

(** With authentication enabled, metrics leave the process only for a caller the API server
    vouches for twice: a [200] on [/metrics] means a bearer token whose [TokenReview] was
    answered authenticated, and a [SubjectAccessReview] of exactly that user and those groups, for
    [get] on [/metrics], answered allowed; and the body is the render. *)
Theorem metrics_need_both_reviews {Handle L} auth builder cell try_default bound cell'
    (listener : L) (handle : Handle) kube req render :
  serve_start auth builder cell try_default bound = (Ok (listener, handle, kube), cell') ->
  enabled auth = true ->
  req_path req = "/metrics"%string ->
  resp_status (fst (route_request req render kube)) = 200 ->
  resp_body (fst (route_request req render kube)) = render /\
  exists c token id,
    kube = Some c /\ extract_bearer_token req = Some token /\
    answered_identity (token_answer c token) = Some (Some id) /\
    answered_access (access_answer c token id) = Some true.
Proof.
  intros Hs Ha Hp Hr. unfold serve_start, build_kube_client in Hs. rewrite Ha in Hs.
  destruct (install_recorder builder cell) as [r cell0]. injection Hs as Hs _.
  apply bind_ok in Hs as (h & _ & (k & Hk & (l & _ & [= -> -> ->])%bind_ok)%bind_ok).
  apply bind_ok in Hk as (c & _ & [= <-]).
  unfold route_request in *. rewrite Hp in *.
  rewrite (bool_decide_false ("/metrics"%string = "/healthz"%string)) in * by done.
  rewrite (bool_decide_true ("/metrics"%string = "/metrics"%string)) in * by done.
  destruct (bool_decide (req_method req = method_get)); [|done].
  destruct (serve_metrics_spec req render c) as (Hst & Hbody & _ & _). rewrite Hst in Hr.
  split; [auto|]. exists c. unfold scrape_status in Hr.
  destruct (extract_bearer_token req) as [token|]; [|done].
  destruct (answered_identity (token_answer c token)) as [[id|]|] eqn:E1; [|done..].
  destruct (answered_access (access_answer c token id)) as [[]|] eqn:E2; [|done..]. eauto 10.
Qed.

(** Every outcome of an authenticated scrape has its status: no usable token or a denied one is
    401, a denied subject 403, an API server that does not answer, answers an error or leaves its
    answer out is 500 and never 401 or 200; the body of a refusal is a fixed text. The calls sent
    are the [TokenReview] of the token, if there is one, then the [SubjectAccessReview] only for an
    authenticated identity; no other route calls the API server. *)
Theorem scrape_outcomes req render c :
  let r := route_request req render (Some c) in
  if bool_decide (req_path req = "/metrics"%string /\ req_method req = method_get) then
    resp_status (fst r) = scrape_status c (extract_bearer_token req) /\
    (resp_status (fst r) <> 200 ->
     resp_body (fst r) ∈ map as_bytes ["unauthorized"; "forbidden"; "internal error"]%string) /\
    exists c', snd r = Some c' /\ sent c' = sent c ++ scrape_calls c (extract_bearer_token req)
  else
    snd r = Some c /\
    resp_status (fst r) =
      (if bool_decide (req_path req = "/healthz"%string) then 200
       else if bool_decide (req_path req = "/metrics"%string) then 405 else 404).
Proof.
  cbv zeta. unfold route_request.
  destruct (serve_metrics_spec req render c) as (Hst & _ & Hbody & Hc).
  destruct (decide (req_path req = "/metrics"%string)) as [Hp|Hp].
  - rewrite (bool_decide_false (req_path req = "/healthz"%string)) by (by rewrite Hp).
    rewrite (bool_decide_true _ Hp). destruct (decide (req_method req = method_get)) as [Hm|Hm].
    + rewrite !bool_decide_true by done. rewrite Hst. auto.
    + rewrite !bool_decide_false by naive_solver. done.
  - rewrite (bool_decide_false (_ /\ _)), (bool_decide_false _ Hp) by naive_solver.
    by destruct (bool_decide (req_path req = "/healthz"%string)).
Qed.
End Metrics.

(** ** A concrete API server *)

(** It knows one token, of a Prometheus service account, and lets its group scrape. *)
Definition prometheus : string := "system:serviceaccount:monitoring:prometheus".

#[export] Instance DemoKube : KubeApi := {|
  Cluster := nat;
  create_token_review n r :=
    (CreatedOk {| tr_token := tr_token r;
                  tr_status := Some {| trs_authenticated := Some (String.eqb (tr_token r) "s3cret");
                                       trs_user := Some {| ui_username := Some prometheus;
                                                           ui_groups := Some ["scrapers"%string] |} |} |}, S n);
  create_subject_access_review n r :=
    (CreatedOk {| sar_user := sar_user r; sar_groups := sar_groups r; sar_non_resource := sar_non_resource r;
                  sar_status_allowed := Some (bool_decide (sar_groups r = Some ["scrapers"%string])) |}, S n);
|}.

Definition demo_scrape (authorization : string) : HttpRequest (H := ConcreteHttp) :=
  @Build_HttpRequest ConcreteHttp "GET"%string "/metrics"%string
    (hmap_append (HttpLib := ConcreteHttp) [] "authorization"%string (as_bytes authorization)).

Definition demo_client : Client (H0 := DemoKube) := @Build_Client DemoKube 0%nat [].

Lemma metrics_need_both_reviews_witness :
  resp_status (fst (route_request (demo_scrape "bearer s3cret") (as_bytes "up 1") (Some demo_client))) = 200 /\
  resp_status (fst (route_request (demo_scrape "bearer guess") (as_bytes "up 1") (Some demo_client))) = 401 /\
  exists c token id,
    Some demo_client = Some c /\ extract_bearer_token (demo_scrape "bearer s3cret") = Some token /\
    answered_identity (token_answer c token) = Some (Some id) /\
    answered_access (access_answer c token id) = Some true.
Proof.
  assert (H1 : resp_status (fst (route_request (demo_scrape "bearer s3cret") (as_bytes "up 1") (Some demo_client))) = 200)
    by (vm_compute; reflexivity).
  split; [exact H1|]. split; [vm_compute; reflexivity|].
  exact (proj2 (metrics_need_both_reviews (H := ConcreteHttp) (H0 := DemoKube) MetricsAuthConfig_default (Ok tt) None
    (Ok demo_client) (Ok tt) (Some (Ok tt)) tt tt (Some demo_client) (demo_scrape "bearer s3cret") (as_bytes "up 1")
    eq_refl eq_refl eq_refl H1)).
Defined.
