(* ===== verification/MetricsLoop.v ===== *)
(** * The metrics server at run time ([src/metrics.rs], [accept_loop] and [serve_connection])

    The accept loop and the connections it spawned, over the request handling of [MetricsServer].
    [loop_fire] takes one step, named by a label. A scrape with authentication is three steps, as
    it waits for the API server twice; scrapes of other connections, and changes of the API
    server's state by others, run in between. *)

From S2P Require Import Prelude RustStd Effect Proto IpAddr Extern Concrete State Errors Tls Config MetricsServer.

Section MetricsLoop.
Context `{HttpLib} `{KubeApi}.

(** A connection: waiting for a request, in [serve_metrics] at the await of the token's review or
    of the access review, ended. *)
Inductive Stage :=
| AwaitRequest
| AwaitToken (req : HttpRequest) (bearer : string)
| AwaitAccess (req : HttpRequest) (who : TokenReviewResult)
| Ended.

(** What happened on a connection: a review, with the state of the API server that answered it, or
    an answered request. *)
Inductive Entry :=
| TokenReviewed (cl : Cluster) (token : string)
| AccessReviewed (cl : Cluster) (who : TokenReviewResult)
| Answered (req : HttpRequest) (response : HttpResponse).

(** [accepting]: the loop has not left through the shutdown future. *)
Record Loop := {
  kube_client : option Client;
  stages : list Stage;
  trace : list (nat * Entry);
  accept_warnings : list string;
  accepting : bool;
}.

Definition loop_start (kube : option Client) : Loop :=
  {| kube_client := kube; stages := []; trace := []; accept_warnings := []; accepting := true |}.

Inductive LoopLabel :=
| ShutdownResolves
| Accepted (connection : result string unit)
| Requested (n : nat) (req : HttpRequest) (render : bytes)
| TokenAnswered (n : nat)
| AccessAnswered (n : nat) (render : bytes)
| Disconnected (n : nat)
| ElsewhereInCluster (cl : Cluster).

Definition update (n : nat) (s : Stage) (es : list Entry) (kube : option Client) (l : Loop) : Loop :=
  {| kube_client := kube; stages := <[n := s]> (stages l); trace := trace l ++ map (pair n) es;
     accept_warnings := accept_warnings l; accepting := accepting l |}.

(** The connection's future is at its next await, or the request is answered. *)
Definition answer (n : nat) (req : HttpRequest) (response : HttpResponse) (es : list Entry) (kube : option Client)
  (l : Loop) : Loop :=
  update n AwaitRequest (es ++ [Answered req response]) kube l.

(** [route_request], up to the answer or the first call of the API server. *)
Definition on_request (n : nat) (req : HttpRequest) (render : bytes) (l : Loop) : Loop :=
  match kube_client l, extract_bearer_token req with
  | Some _, Some bearer =>
      if bool_decide (req_path req = "/metrics"%string /\ req_method req = method_get)
      then update n (AwaitToken req bearer) [] (kube_client l) l
      else answer n req (route_request req render (kube_client l)).1 [] (kube_client l) l
  | _, _ => answer n req (route_request req render (kube_client l)).1 [] (kube_client l) l
  end.

(** [serve_metrics], from the answer of the token's review to its next await. *)
Definition on_token (n : nat) (req : HttpRequest) (bearer : string) (c : Client) (l : Loop) : Loop :=
  let e := TokenReviewed (cluster c) bearer in
  let '(outcome, c) := authenticate_token bearer c in
  match outcome with
  | NotAuthenticated => answer n req (response_with_status 401 "unauthorized") [e] (Some c) l
  | ApiError _ => answer n req (response_with_status 500 "internal error") [e] (Some c) l
  | Authenticated who => update n (AwaitAccess req who) [e] (Some c) l
  end.

(** [serve_metrics], from the answer of the access review. *)
Definition on_access (n : nat) (req : HttpRequest) (who : TokenReviewResult) (render : bytes) (c : Client) (l : Loop) : Loop :=
  let e := AccessReviewed (cluster c) who in
  let '(allowed, c) := authorize_metrics_access (username who) (groups who) c in
  answer n req
    (match allowed with
     | Ok true => response_new render
     | Ok false => response_with_status 403 "forbidden"
     | Err _ => response_with_status 500 "internal error"
     end) [e] (Some c) l.

(** [accept_loop]: the shutdown future ends it, an accept error does not; [serve_connection]
    spawns a task the loop never waits for. *)
Definition accept_loop (connection : option (result string unit)) (l : Loop) : option Loop :=
  if negb (accepting l) then None else
  Some match connection with
       | None =>
           {| kube_client := kube_client l; stages := stages l; trace := trace l;
              accept_warnings := accept_warnings l; accepting := false |}
       | Some (Ok _) =>
           {| kube_client := kube_client l; stages := stages l ++ [AwaitRequest]; trace := trace l;
              accept_warnings := accept_warnings l; accepting := true |}
       | Some (Err e) =>
           {| kube_client := kube_client l; stages := stages l; trace := trace l;
              accept_warnings := accept_warnings l ++ ["metrics accept error: " +:+ e]; accepting := true |}
       end.

Definition loop_fire (label : LoopLabel) (l : Loop) : option Loop :=
  match label with
  | ShutdownResolves => accept_loop None l
  | Accepted connection => accept_loop (Some connection) l
  | Requested n req render =>
      match stages l !! n with Some AwaitRequest => Some (on_request n req render l) | _ => None end
  | TokenAnswered n =>
      match stages l !! n, kube_client l with
      | Some (AwaitToken req bearer), Some c => Some (on_token n req bearer c l)
      | _, _ => None
      end
  | AccessAnswered n render =>
      match stages l !! n, kube_client l with
      | Some (AwaitAccess req who), Some c => Some (on_access n req who render c l)
      | _, _ => None
      end
  | Disconnected n => _ ← stages l !! n; Some (update n Ended [] (kube_client l) l)
  | ElsewhereInCluster cl =>
      Some {| kube_client := (fun c => {| cluster := cl; sent := sent c |}) <$> kube_client l; stages := stages l;
              trace := trace l; accept_warnings := accept_warnings l; accepting := accepting l |}
  end.

Fixpoint loop_run (ls : list LoopLabel) (l : Loop) : option Loop :=
  match ls with
  | [] => Some l
  | label :: rest => l' ← loop_fire label l; loop_run rest l'
  end.

(** What happened on one connection. *)
Definition history (n : nat) (l : Loop) : list Entry := map snd (filter (fun e => e.1 = n) (trace l)).

(** ** Both reviews, on every connection *)

(** A scrape was vouched for: its token's review, then the access review of the very identity it
    authenticated, are the last things on its connection. *)
Definition vouched (past : list Entry) (req : HttpRequest) : Prop :=
  exists before cl1 token cl2 who,
    past = before ++ [TokenReviewed cl1 token; AccessReviewed cl2 who] /\
    extract_bearer_token req = Some token /\
    answered_identity (create_token_review cl1 (token_review token)).1 = Some (Some who) /\
    answered_access (create_subject_access_review cl2 (access_review (username who) (groups who))).1 = Some true.

Definition justified (past : list Entry) (e : Entry) : Prop :=
  match e with
  | Answered req response => req_path req = "/metrics"%string -> resp_status response = 200 -> vouched past req
  | _ => True
  end.

Definition history_ok (h : list Entry) : Prop :=
  forall past e later, h = past ++ e :: later -> justified past e.

Lemma history_ok_snoc h e : history_ok h -> justified h e -> history_ok (h ++ [e]).
Proof.
  intros Hh He past x later. destruct later as [|y later] using rev_ind.
  - by intros [-> [= ->]]%app_inj_tail.
  - rewrite app_comm_cons, app_assoc. intros [-> _]%app_inj_tail. by eapply Hh.
Qed.

Definition stage_ok (h : list Entry) (s : Stage) : Prop :=
  match s with
  | AwaitToken req bearer => extract_bearer_token req = Some bearer
  | AwaitAccess req who =>
      exists before cl token, h = before ++ [TokenReviewed cl token] /\ extract_bearer_token req = Some token /\
        answered_identity (create_token_review cl (token_review token)).1 = Some (Some who)
  | _ => True
  end.

Record loop_inv (l : Loop) : Prop := {
  inv_history : forall n, history_ok (history n l);
  inv_stage : forall n s, stages l !! n = Some s -> stage_ok (history n l) s;
  inv_enabled : is_Some (kube_client l);
}.

Lemma history_update n m s es kube l :
  history m (update n s es kube l) = history m l ++ (if decide (n = m) then es else []).
Proof.
  unfold history, update. cbn [trace]. rewrite filter_app, map_app. f_equal.
  induction es as [|e es IH]; [by destruct (decide _)|]. cbn [map]. rewrite filter_cons. cbn [fst].
  destruct (decide (n = m)); [|done]. cbn. by rewrite IH.
Qed.

Lemma loop_inv_update n s s' es kube l :
  loop_inv l -> stages l !! n = Some s -> is_Some kube -> history_ok (history n l ++ es) -> stage_ok (history n l ++ es) s' ->
  loop_inv (update n s' es kube l).
Proof.
  intros [I1 I2 I3] Hn Hk Hh Hs. assert (Hlt : (n < length (stages l))%nat) by by eapply lookup_lt_Some.
  constructor; [| |done]; intros m; rewrite history_update; destruct (decide (n = m)) as [<-|Hne]; rewrite ?app_nil_r; auto.
  - intros z. cbn [stages update]. rewrite list_lookup_insert_eq by done. by intros [= <-].
  - intros z. cbn [stages update]. rewrite list_lookup_insert_ne by done. apply I2.
Qed.

Lemma loop_inv_answer n s req response es kube l :
  loop_inv l -> stages l !! n = Some s -> is_Some kube -> history_ok (history n l ++ es) ->
  justified (history n l ++ es) (Answered req response) -> loop_inv (answer n req response es kube l).
Proof.
  intros Hl Hn Hk Hh Hj. apply (loop_inv_update n s); [done..| |done]. rewrite app_assoc. by apply history_ok_snoc.
Qed.

(** Without a call of the API server, [/metrics] gives no metrics. *)
Lemma refused_at_once req render c :
  req_path req = "/metrics"%string -> extract_bearer_token req = None \/ req_method req <> method_get ->
  resp_status (route_request req render (Some c)).1 <> 200.
Proof.
  intros Hp Hr. unfold route_request. rewrite Hp, bool_decide_false, bool_decide_true by done.
  case_bool_decide as Hm; [|done]. destruct Hr as [Hr|]; [|done]. unfold serve_metrics. by rewrite Hr.
Qed.

Lemma loop_inv_on_request n req render l :
  loop_inv l -> stages l !! n = Some AwaitRequest -> loop_inv (on_request n req render l).
Proof.
  intros Hl Hn. pose proof (inv_enabled _ Hl) as [c Hc]. pose proof (inv_history _ Hl n) as Hh.
  assert (Hrest : (req_path req = "/metrics"%string -> extract_bearer_token req = None \/ req_method req <> method_get) ->
    loop_inv (answer n req (route_request req render (Some c)).1 [] (Some c) l)).
  { intros Hx. apply (loop_inv_answer n AwaitRequest); rewrite ?app_nil_r; [done..|]. intros Hp Hs.
    by destruct (refused_at_once req render c Hp (Hx Hp)). }
  unfold on_request. rewrite Hc. destruct (extract_bearer_token req) as [bearer|] eqn:Hb; [|by apply Hrest; left].
  case_bool_decide as Hm; [apply (loop_inv_update n AwaitRequest); rewrite ?app_nil_r; [done..|exact Hb]|].
  apply Hrest. intros Hp. right. by intros Hg; apply Hm.
Qed.

Lemma loop_inv_on_token n req bearer c l :
  loop_inv l -> stages l !! n = Some (AwaitToken req bearer) -> loop_inv (on_token n req bearer c l).
Proof.
  intros Hl Hn. pose proof (inv_stage _ Hl _ _ Hn) as Hb. cbn in Hb.
  assert (Hh : history_ok (history n l ++ [TokenReviewed (cluster c) bearer])) by (apply history_ok_snoc; [apply Hl|done]).
  unfold on_token. destruct (authenticate_token_spec bearer c) as [E1 E2].
  destruct (authenticate_token bearer c) as [outcome c'].
  destruct (answered_identity (token_answer c bearer)) as [[who|]|] eqn:Ha.
  - injection E1 as -> _. eapply loop_inv_update; [done..|]. by eexists _, _, _.
  - injection E1 as -> _. by eapply loop_inv_answer.
  - destruct (E2 eq_refl) as [e He]. cbn in He. subst outcome. by eapply loop_inv_answer.
Qed.

Lemma loop_inv_on_access n req who render c l :
  loop_inv l -> stages l !! n = Some (AwaitAccess req who) -> loop_inv (on_access n req who render c l).
Proof.
  intros Hl Hn. destruct (inv_stage _ Hl _ _ Hn) as (before & cl & token & Hb & Ht & Hw).
  assert (Hh : history_ok (history n l ++ [AccessReviewed (cluster c) who])) by (apply history_ok_snoc; [apply Hl|done]).
  unfold on_access. destruct (authorize_spec c who) as [_ E].
  destruct (authorize_metrics_access (username who) (groups who) c) as [allowed c'].
  destruct (answered_access _) as [[]|] eqn:Ha; [cbn in E; subst allowed..|destruct E as [e E]; cbn in E; subst allowed];
    (eapply loop_inv_answer; [done..|]); [|done..].
  intros _ _. rewrite Hb, <- app_assoc. by eexists _, _, _, _, _.
Qed.

Lemma loop_inv_fire label l l' : loop_inv l -> loop_fire label l = Some l' -> loop_inv l'.
Proof.
  intros Hl. destruct label as [|[u|e]|n req render|n|n render|n|cl]; unfold loop_fire, accept_loop.
  - destruct (accepting l); [|done]. intros [= <-]. by destruct Hl.
  - destruct (accepting l); [|done]. intros [= <-]. destruct Hl as [I1 I2 I3]. constructor; [done| |done].
    intros n s [Hn|[Hle Hn]]%lookup_app_Some; [by apply I2|]. by apply list_lookup_singleton_Some in Hn as [_ <-].
  - destruct (accepting l); [|done]. intros [= <-]. by destruct Hl.
  - destruct (stages l !! n) as [[]|] eqn:Hn; try done. intros [= <-]. by apply loop_inv_on_request.
  - destruct (stages l !! n) as [[]|] eqn:Hn; try done. destruct (kube_client l); [|done]. intros [= <-]. by apply loop_inv_on_token.
  - destruct (stages l !! n) as [[]|] eqn:Hn; try done. destruct (kube_client l); [|done]. intros [= <-]. by apply loop_inv_on_access.
  - destruct (stages l !! n) as [s|] eqn:Hn; [|done]. intros [= <-]. pose proof (inv_enabled _ Hl).
    apply (loop_inv_update n s); rewrite ?app_nil_r; [done..|apply Hl|done].
  - intros [= <-]. destruct Hl as [I1 I2 [c I3]]. constructor; [done|done|]. cbn [kube_client]. by rewrite I3.
Qed.

Lemma loop_inv_run ls : forall l l', loop_inv l -> loop_run ls l = Some l' -> loop_inv l'.
Proof.
  induction ls as [|label ls IH]; intros l l' Hl Hr; simpl in Hr; [by injection Hr as <-|].
  destruct (loop_fire label l) as [l1|] eqn:Hf; [|done]. eapply IH; [by eapply loop_inv_fire|done].
Qed.

(** C24. With authentication enabled, whatever connects, however the scrapes of the connections
    interleave and whatever others do to the API server in between: a [200] on [/metrics] was sent
    only when the last two things that happened on its own connection were the review of its own
    bearer token, answered authenticated, and the access review, for [get] on [/metrics], of
    exactly the user and groups that answer named, answered allowed. *)
Theorem scrapes_need_both_reviews {Handle L} auth builder cell try_default bound cell' (listener : L) (handle : Handle)
  kube ls l n past req response later :
  serve_start auth builder cell try_default bound = (Ok (listener, handle, kube), cell') -> enabled auth = true ->
  loop_run ls (loop_start kube) = Some l ->
  history n l = past ++ Answered req response :: later ->
  req_path req = "/metrics"%string -> resp_status response = 200 ->
  vouched past req.
Proof.
  intros Hs Ha Hr Hh Hp Hst.
  assert (Hl : loop_inv (loop_start kube)).
  { constructor; [by intros ? [|]|by intros ? ?|]. unfold serve_start, build_kube_client in Hs. rewrite Ha in Hs.
    destruct (install_recorder builder cell) as [r cell0]. injection Hs as Hs _.
    apply bind_ok in Hs as (h & _ & (k & Hk & (x & _ & [= -> -> ->])%bind_ok)%bind_ok).
    apply bind_ok in Hk as (c & _ & [= <-]). by eexists. }
  destruct (loop_inv_run _ _ _ Hl Hr) as [I1 _ _]. exact (I1 n _ _ _ Hh Hp Hst).
Qed.

(** ** The steps of a request are its handler *)

Definition of_connection (n : nat) (render : bytes) (req : HttpRequest) : list LoopLabel :=
  [Requested n req render; TokenAnswered n; AccessAnswered n render].

(** A request nothing interrupts is answered as [route_request] says, with the calls it makes. *)
Definition answers_as (n : nat) (req : HttpRequest) (r : HttpResponse * option Client) (l' : Loop) : Prop :=
  stages l' !! n = Some AwaitRequest /\ kube_client l' = r.2 /\ exists past, history n l' = past ++ [Answered req r.1].

Lemma answer_answers n req response es kube l :
  (n < length (stages l))%nat -> answers_as n req (response, kube) (answer n req response es kube l).
Proof.
  intros Hlt. split_and!; [by apply list_lookup_insert_eq|done|]. unfold answer. rewrite history_update.
  destruct (decide (n = n)); [|done]. exists (history n l ++ es). by rewrite <- app_assoc.
Qed.

Lemma stages_update n s es kube l : (n < length (stages l))%nat ->
  stages (update n s es kube l) !! n = Some s /\ (n < length (stages (update n s es kube l)))%nat.
Proof. intros Hlt. split; [by apply list_lookup_insert_eq|]. cbn [stages update]. by rewrite length_insert. Qed.

Lemma uninterrupted_request n req render l :
  stages l !! n = Some AwaitRequest ->
  exists k l', loop_run (take k (of_connection n render req)) l = Some l' /\
    answers_as n req (route_request req render (kube_client l)) l'.
Proof.
  intros Hn. assert (Hlt : (n < length (stages l))%nat) by by eapply lookup_lt_Some.
  assert (Hone : on_request n req render l = answer n req (route_request req render (kube_client l)).1 [] (kube_client l) l ->
    (route_request req render (kube_client l)).2 = kube_client l -> exists k l',
    loop_run (take k (of_connection n render req)) l = Some l' /\
    answers_as n req (route_request req render (kube_client l)) l').
  { intros Ho Hk. exists 1%nat, (on_request n req render l). cbn. rewrite Hn, Ho. split; [done|].
    rewrite (surjective_pairing (route_request _ _ _)), Hk. by apply answer_answers. }
  unfold on_request in Hone. unfold route_request in Hone |- *.
  destruct (decide (req_path req = "/metrics"%string)) as [Hp|Hp].
  2: { rewrite (bool_decide_false _ Hp) in Hone |- *. rewrite (bool_decide_false (_ /\ _)) in Hone by naive_solver.
       apply Hone; [by destruct (kube_client l), (extract_bearer_token req)|by case_bool_decide]. }
  rewrite Hp, (bool_decide_false ("/metrics"%string = "/healthz"%string)) in Hone |- * by done.
  rewrite (bool_decide_true ("/metrics"%string = "/metrics"%string)) in Hone |- * by done.
  destruct (decide (req_method req = method_get)) as [Hm|Hm].
  2: { rewrite (bool_decide_false _ Hm) in Hone |- *. rewrite (bool_decide_false (_ /\ _)) in Hone by naive_solver.
       apply Hone; [by destruct (kube_client l), (extract_bearer_token req)|done]. }
  rewrite (bool_decide_true _ Hm) in Hone |- *. rewrite bool_decide_true in Hone by done.
  unfold serve_metrics in Hone |- *. destruct (kube_client l) as [c|] eqn:Hk; [|by apply Hone].
  destruct (extract_bearer_token req) as [bearer|] eqn:Hb; [clear Hone|by apply Hone].
  set (l1 := update n (AwaitToken req bearer) [] (Some c) l).
  destruct (stages_update n (AwaitToken req bearer) [] (Some c) l Hlt) as [Hs1 Hlt1].
  assert (H1 : loop_fire (Requested n req render) l = Some l1).
  { cbn. rewrite Hn. unfold on_request. by rewrite Hk, Hb, bool_decide_true. }
  assert (H2 : loop_fire (TokenAnswered n) l1 = Some (on_token n req bearer c l1)).
  { unfold loop_fire. change (stages l1) with (stages (update n (AwaitToken req bearer) [] (Some c) l)). by rewrite Hs1. }
  unfold on_token in H2. destruct (authenticate_token bearer c) as [[who| |e] c1].
  2, 3: exists 2%nat; eexists; (split; [|by apply answer_answers]); cbn [take of_connection loop_run]; rewrite H1; cbn [mbind option_bind];
    by rewrite H2.
  set (l2 := update n (AwaitAccess req who) _ (Some c1) l1) in H2.
  destruct (stages_update n (AwaitAccess req who) [TokenReviewed (cluster c) bearer] (Some c1) l1 Hlt1) as [Hs2 Hlt2].
  assert (H3 : loop_fire (AccessAnswered n render) l2 = Some (on_access n req who render c1 l2)).
  { unfold loop_fire. fold l2 in Hs2. by rewrite Hs2. }
  unfold on_access in H3. destruct (authorize_metrics_access (username who) (groups who) c1) as [allowed c2].
  exists 3%nat. eexists. split; [|by apply answer_answers]. cbn [take of_connection loop_run]. rewrite H1. cbn [mbind option_bind].
  rewrite H2. cbn [mbind option_bind]. by rewrite H3.
Qed.
End MetricsLoop.

(** ** An instance *)

(** A guess and a valid token, scraping at the same time. *)
Definition two_scrapes : list (LoopLabel (H := ConcreteHttp) (H0 := DemoKube)) :=
  [Accepted (Ok tt); Accepted (Err "too many open files"%string); Accepted (Ok tt);
   Requested 0 (demo_scrape "Bearer s3cret") (as_bytes "up 1"); Requested 1 (demo_scrape "Bearer guess") (as_bytes "up 1");
   TokenAnswered 0; TokenAnswered 1; ShutdownResolves; AccessAnswered 0 (as_bytes "up 2")].
Definition two_scraped : Loop (H := ConcreteHttp) (H0 := DemoKube) :=
  default (loop_start None) (loop_run two_scrapes (loop_start (Some demo_client))).
Definition demo_past : list (Entry (H := ConcreteHttp) (H0 := DemoKube)) :=
  [TokenReviewed (H := ConcreteHttp) (H0 := DemoKube) 0%nat "s3cret";
   AccessReviewed (H := ConcreteHttp) (H0 := DemoKube) 2%nat {| username := prometheus; groups := ["scrapers"%string] |}].

Lemma scrapes_need_both_reviews_witness :
  history 1 two_scraped = [TokenReviewed (H := ConcreteHttp) (H0 := DemoKube) 1%nat "guess";
                           Answered (demo_scrape "Bearer guess") (response_with_status 401 "unauthorized")] /\
  history 0 two_scraped = demo_past ++ [Answered (demo_scrape "Bearer s3cret") (response_new (as_bytes "up 2"))] /\
  vouched demo_past (demo_scrape "Bearer s3cret").
Proof.
  assert (Hr : loop_run two_scrapes (loop_start (Some demo_client)) = Some two_scraped) by (reflexivity).
  assert (Hh : history 0 two_scraped =
    demo_past ++ [Answered (demo_scrape "Bearer s3cret") (response_new (as_bytes "up 2"))]) by (reflexivity).
  split; [reflexivity|split; [exact Hh|]].
  exact (scrapes_need_both_reviews (H := ConcreteHttp) (H0 := DemoKube) MetricsAuthConfig_default (Ok tt) None
    (Ok demo_client) (Ok tt) (Some (Ok tt)) tt tt (Some demo_client) two_scrapes two_scraped 0%nat demo_past
    (demo_scrape "Bearer s3cret") (response_new (as_bytes "up 2")) [] eq_refl eq_refl Hr Hh eq_refl eq_refl).
Defined.
