(* ===== verification/GrpcLimits.v ===== *)
(** * The gRPC receive limit ([src/grpc_limits.rs])

    Parsing of [GRPC_MAX_RECV_MSG_SIZE]: plain byte counts and Kubernetes quantities. Errors
    are the constructors of [SizeError] with the text they quote. *)

From S2P Require Import Prelude RustStd State.

(** ** Constants *)

Definition GRPC_RECV_FRAMING_HEADROOM : Z := 1024 * 1024.
Definition DEFAULT_GRPC_MAX_RECV_MSG_SIZE : Z := 32 * 1024 * 1024 + GRPC_RECV_FRAMING_HEADROOM.
Definition GRPC_COMPILED_MAX_RECV_DEFAULT : Z := 4 * 1024 * 1024.

Definition SUFFIXES : list (bytes * Z) :=
  [(as_bytes "Ki", 1024); (as_bytes "Mi", 1024 * 1024); (as_bytes "Gi", 1024 * 1024 * 1024);
   (as_bytes "K", 1000); (as_bytes "k", 1000); (as_bytes "M", 1000 * 1000); (as_bytes "G", 1000 * 1000 * 1000)].

(** ** Errors *)

(** The [String] errors of the parser: ["parse size: invalid quantity {raw:?}"],
    ["size {raw:?} overflows"], ["size must be positive"], ["size {v} overflows usize"]. *)
Inductive SizeError :=
| InvalidQuantity (raw : bytes)
| SizeOverflows (raw : bytes)
| SizeMustBePositive
| OverflowsUsize (v : Z).

(** The [ExtProcError::Config] errors of the resolver: the variable is not Unicode, does not
    parse, or is zero. *)
Inductive ResolveError :=
| EnvNotUnicode (raw : bytes)
| BadSize (raw : bytes) (e : SizeError)
| ZeroSize (raw : bytes).

(** ** Parsing *)

Definition split_decimal_parts (num raw : bytes) : result SizeError (bytes * bytes) :=
  let '(integer, fraction) := default (num, []) (split_once "."%char num) in
  if (bool_decide (integer = []) && bool_decide (fraction = []))
     || negb (forallb is_ascii_digit integer) || negb (forallb is_ascii_digit fraction)
  then Err (InvalidQuantity raw)
  else Ok (integer, fraction).

Definition parse_u128_or_zero (integer raw : bytes) : result SizeError Z :=
  match integer with
  | [] => Ok 0
  | _ => ok_or (SizeOverflows raw) (parse_unsigned u128_max integer)
  end.

(** The loop of [fractional_digits] from a scale and a value. *)
Fixpoint fractional_loop (fraction raw : bytes) (scale fractional : Z) : result SizeError (Z * Z) :=
  match fraction with
  | [] => Ok (scale, fractional)
  | digit :: rest =>
      let! scale' := ok_or (SizeOverflows raw) (checked_mul u128_max scale 10) in
      let! fractional' :=
        ok_or (SizeOverflows raw)
          (v ← checked_mul u128_max fractional 10; checked_add u128_max v (digit_val digit)) in
      fractional_loop rest raw scale' fractional'
  end.
Definition fractional_digits (fraction raw : bytes) : result SizeError (Z * Z) :=
  fractional_loop fraction raw 1 0.

Definition scale_and_ceil (integer scale fractional mul : Z) (raw : bytes) : result SizeError Z :=
  let! scaled :=
    ok_or (SizeOverflows raw)
      (v ← checked_mul u128_max integer scale;
       v ← checked_add u128_max v fractional;
       checked_mul u128_max v mul) in
  let b := scaled / scale in
  if scaled mod scale =? 0 then Ok b else ok_or (SizeOverflows raw) (checked_add u128_max b 1).

Definition u128_to_usize (v : Z) : result SizeError Z :=
  if v <=? usize_max then Ok v else Err (OverflowsUsize v).

Definition parse_decimal_quantity (num : bytes) (mul : Z) (raw : bytes) : result SizeError Z :=
  let num := default num (strip_prefix [plus_sign] num) in
  let! p := split_decimal_parts num raw in
  let! integer := parse_u128_or_zero (fst p) raw in
  let! f := fractional_digits (snd p) raw in
  scale_and_ceil integer (fst f) (snd f) mul raw.

(** The loop over [SUFFIXES]: the first matching suffix decides. *)
Fixpoint parse_with_suffixes (suffixes : list (bytes * Z)) (raw : bytes) : result SizeError Z :=
  match suffixes with
  | [] => Err (InvalidQuantity raw)
  | (suffix, mul) :: rest =>
      match strip_suffix suffix raw with
      | Some num =>
          let! b := parse_decimal_quantity (trim_bytes num) mul raw in
          if b =? 0 then Err SizeMustBePositive else u128_to_usize b
      | None => parse_with_suffixes rest raw
      end
  end.
Definition parse_k8s_quantity (raw : bytes) : result SizeError Z := parse_with_suffixes SUFFIXES raw.

Definition parse_msg_size_bytes (raw : bytes) : result SizeError Z :=
  match parse_unsigned usize_max raw with
  | Some n => Ok n
  | None => parse_k8s_quantity raw
  end.

(** ** Resolution *)

Definition resolve_grpc_max_recv_msg_size_from (raw : option bytes) : result ResolveError Z :=
  match trim_bytes <$> raw with
  | None | Some [] => Ok DEFAULT_GRPC_MAX_RECV_MSG_SIZE
  | Some raw =>
      let! n := map_err (BadSize raw) (parse_msg_size_bytes raw) in
      if n =? 0 then Err (ZeroSize raw) else Ok n
  end.

(** [std::env::VarError]. *)
Inductive VarError := NotPresent | NotUnicode (raw : bytes).

(** [resolve_grpc_max_recv_msg_size], given what [env::var] returned. *)
Definition resolve_grpc_max_recv_msg_size (var : result VarError bytes) : result ResolveError Z :=
  let! raw := match var with
              | Ok value => Ok (Some value)
              | Err NotPresent => Ok None
              | Err (NotUnicode raw) => Err (EnvNotUnicode raw)
              end in
  resolve_grpc_max_recv_msg_size_from raw.

(** ** Exactness *)

Lemma fractional_loop_spec fraction raw : forall scale fractional r,
  0 < scale -> 0 <= fractional -> forallb is_ascii_digit fraction = true ->
  fractional_loop fraction raw scale fractional = Ok r ->
  r = (scale * 10 ^ len fraction, digits_value fractional fraction).
Proof.
  induction fraction as [|d rest IH]; simpl; intros scale fractional r Hs Hf Hd.
  { intros [= <-]. unfold digits_value, len. simpl. by rewrite Z.mul_1_r. }
  apply andb_prop in Hd as [Hd Hrest]. pose proof (digit_val_range d Hd).
  unfold checked_mul, checked_add. repeat (case_match; simpl; try done). intros Hr.
  apply IH in Hr as ->; [|lia..|done].
  rewrite len_cons, Z.pow_add_r by (try lia; apply len_nonneg).
  f_equal. lia.
Qed.

(** Rounding up: [b] is the ceiling of [n / d]. *)
Definition is_ceil (b n d : Z) : Prop := n <= b * d < n + d.

Lemma scale_and_ceil_spec integer scale fractional mul raw b :
  0 < scale -> scale_and_ceil integer scale fractional mul raw = Ok b ->
  is_ceil b ((integer * scale + fractional) * mul) scale.
Proof.
  intros Hs. unfold scale_and_ceil, checked_mul, checked_add, is_ceil.
  repeat (case_match; simpl; try done); intros [= <-];
    repeat match goal with H : context [if ?x then _ else _] |- _ => destruct x eqn:? end; simplify_eq/=;
    match goal with |- context [?n / scale] => pose proof (Z.div_mod n scale); pose proof (Z.mod_pos_bound n scale) end;
    lia.
Qed.

(** The number a decimal denotes: digits of both parts together, over a power of ten. *)
Definition decimal_num (i f : bytes) : Z := digits_value 0 (i ++ f).
Definition decimal_den (f : bytes) : Z := 10 ^ len f.

Lemma decimal_num_split i f : decimal_num i f = digits_value 0 i * decimal_den f + digits_value 0 f.
Proof. unfold decimal_num, decimal_den. by rewrite digits_value_app, digits_value_shift. Qed.

Lemma decimal_den_pos f : 0 < decimal_den f.
Proof. apply Z.pow_pos_nonneg; [lia|apply len_nonneg]. Qed.

(** The text of a decimal: an integer part, and a fraction after a point if there is a point. *)
Definition decimal_text (num i f : bytes) : Prop := num = i ++ "."%char :: f \/ num = i /\ f = [].

Lemma split_decimal_parts_spec num raw i f :
  split_decimal_parts num raw = Ok (i, f) ->
  decimal_text num i f /\ forallb is_ascii_digit i = true /\ forallb is_ascii_digit f = true /\ i ++ f <> [].
Proof.
  unfold split_decimal_parts. destruct (default _ _) as [i' f'] eqn:Hs. case_match eqn:Hc; [done|].
  intros [= -> ->]. apply orb_false_iff in Hc as [[Hn Hi%negb_false_iff]%orb_false_iff Hf%negb_false_iff].
  split_and!; try done.
  - destruct (split_once "."%char num) as [[a b]|] eqn:E; simpl in Hs; simplify_eq; [|by right].
    left. by apply split_once_some in E as [-> _].
  - intros [-> ->]%app_eq_nil. by rewrite !bool_decide_true in Hn by done.
Qed.

Lemma parse_u128_or_zero_spec i raw n :
  forallb is_ascii_digit i = true -> parse_u128_or_zero i raw = Ok n -> n = digits_value 0 i.
Proof.
  intros Hi. unfold parse_u128_or_zero. destruct i as [|c s]; [by intros [= <-]|].
  unfold parse_unsigned. simpl in Hi. apply andb_prop in Hi as Hcs.
  rewrite decide_False by (apply digit_not_plus; by destruct Hcs).
  rewrite parse_digits_spec by (unfold u128_max; lia). simpl. rewrite Hi. simpl.
  case_match; [|done]. by intros [= <-].
Qed.

Lemma parse_decimal_quantity_spec num mul raw b :
  parse_decimal_quantity num mul raw = Ok b ->
  exists i f, decimal_text (default num (strip_prefix [plus_sign] num)) i f /\
    forallb is_ascii_digit i = true /\ forallb is_ascii_digit f = true /\ i ++ f <> [] /\
    is_ceil b (decimal_num i f * mul) (decimal_den f).
Proof.
  unfold parse_decimal_quantity. set (num' := default num _).
  destruct (split_decimal_parts num' raw) as [[i f]|] eqn:Hs; [|done]. simpl.
  apply split_decimal_parts_spec in Hs as (Ht & Hi & Hf & Hne).
  destruct (parse_u128_or_zero i raw) as [n|] eqn:Hn; [|done]. simpl.
  apply parse_u128_or_zero_spec in Hn as ->; [|done].
  destruct (fractional_digits f raw) as [r|] eqn:Hfr; [|done].
  apply fractional_loop_spec in Hfr as ->; [|lia..|done]. simpl. rewrite Z.mul_1_l. intros Hc.
  exists i, f. split_and!; [done..|]. rewrite decimal_num_split.
  apply scale_and_ceil_spec in Hc; [done|apply decimal_den_pos].
Qed.

Lemma parse_with_suffixes_spec l raw b :
  parse_with_suffixes l raw = Ok b ->
  exists suffix mul num, (suffix, mul) ∈ l /\ raw = num ++ suffix /\
    parse_decimal_quantity (trim_bytes num) mul raw = Ok b /\ b <> 0 /\ b <= usize_max.
Proof.
  induction l as [|[suffix mul] l IH]; simpl; [done|].
  destruct (strip_suffix suffix raw) as [num|] eqn:Hs.
  - destruct (parse_decimal_quantity _ mul raw) as [v|] eqn:Hp; [|done]. simpl.
    destruct (Z.eqb_spec v 0); [done|]. unfold u128_to_usize. case_match eqn:Hu; [|done]. intros [= <-].
    exists suffix, mul, num. split_and!; [by apply elem_of_cons; left|by apply strip_suffix_some|done..|lia].
  - intros Hb. destruct (IH Hb) as (s & m & num & Hin & Hrest). exists s, m, num.
    split; [by apply elem_of_cons; right|done].
Qed.

(** C39. A Kubernetes quantity is read exactly: an accepted size is the exact value of the
    decimal times the multiplier of its suffix, rounded up to whole bytes, and lies between 1 and
    the largest [usize]; no intermediate product wraps. *)
Theorem quantity_is_exact_ceiling raw b :
  parse_k8s_quantity raw = Ok b ->
  1 <= b <= usize_max /\
  exists suffix mul num i f,
    (suffix, mul) ∈ SUFFIXES /\ raw = num ++ suffix /\
    decimal_text (default (trim_bytes num) (strip_prefix [plus_sign] (trim_bytes num))) i f /\
    forallb is_ascii_digit i = true /\ forallb is_ascii_digit f = true /\
    is_ceil b (decimal_num i f * mul) (decimal_den f).
Proof.
  intros Hp. apply parse_with_suffixes_spec in Hp as (suffix & mul & num & Hin & Hraw & Hd & Hnz & Hmax).
  apply parse_decimal_quantity_spec in Hd as (i & f & Ht & Hi & Hf & _ & Hc).
  split; [|by exists suffix, mul, num, i, f].
  assert (0 <= decimal_num i f) by (apply digits_value_ge; [lia|by rewrite forallb_app, Hi]).
  assert (0 < mul) by (unfold SUFFIXES in Hin; set_unfold in Hin; intuition (simplify_eq; lia)).
  pose proof (decimal_den_pos f). unfold is_ceil in Hc. nia.
Qed.

Lemma quantity_is_exact_ceiling_witness :
  parse_k8s_quantity (as_bytes "1.5Gi") = Ok 1610612736 /\ 1 <= 1610612736 <= usize_max.
Proof.
  assert (Hp : parse_k8s_quantity (as_bytes "1.5Gi") = Ok 1610612736) by (vm_compute; reflexivity).
  split; [exact Hp|]. exact (proj1 (quantity_is_exact_ceiling (as_bytes "1.5Gi") 1610612736 Hp)).
Defined.

(** ** The order of the suffixes *)

Lemma suffix_unique raw s1 m1 s2 m2 a b :
  (s1, m1) ∈ SUFFIXES -> (s2, m2) ∈ SUFFIXES ->
  strip_suffix s1 raw = Some a -> strip_suffix s2 raw = Some b -> (s1, m1) = (s2, m2).
Proof.
  intros H1 H2 Ha%strip_suffix_some Hb%strip_suffix_some. rewrite Ha in Hb. clear Ha.
  apply (f_equal (@rev ascii)) in Hb. rewrite !rev_app_distr in Hb.
  unfold SUFFIXES in *. set_unfold in H1. set_unfold in H2.
  destruct_or! H1; destruct_or! H2; injection H1 as -> ->; injection H2 as -> ->; try done;
    simpl in Hb; by simplify_eq.
Qed.

(** The loop's answer, from the one suffix that matches. *)
Lemma parse_with_suffixes_match l raw suffix mul num :
  (forall s m a, (s, m) ∈ l -> strip_suffix s raw = Some a -> (s, m) = (suffix, mul)) ->
  (suffix, mul) ∈ l -> strip_suffix suffix raw = Some num ->
  parse_with_suffixes l raw = parse_with_suffixes [(suffix, mul)] raw.
Proof.
  induction l as [|[s m] l IH]; intros Huniq Hin Hs; [by apply elem_of_nil in Hin|].
  destruct (strip_suffix s raw) as [a|] eqn:Ha.
  - assert ((s, m) = (suffix, mul)) as [= -> ->] by (eapply Huniq; [apply list_elem_of_here|done]).
    simpl. by rewrite Hs.
  - simpl. rewrite Ha. apply elem_of_cons in Hin as [[= -> ->]|Hin]; [congruence|].
    rewrite IH; [simpl; by rewrite Hs| |done..]. intros s' m' a' Hin'. apply Huniq. by apply list_elem_of_further.
Qed.

Lemma parse_with_suffixes_none l raw :
  (forall s m, (s, m) ∈ l -> strip_suffix s raw = None) -> parse_with_suffixes l raw = Err (InvalidQuantity raw).
Proof.
  induction l as [|[s m] l IH]; intros Hn; simpl; [done|]. rewrite (Hn s m) by apply list_elem_of_here.
  apply IH. intros s' m' Hin. by eapply Hn, list_elem_of_further.
Qed.

(** The order of the suffix table does not matter: no quantity ends with two of them, so
    any permutation of the table reads every quantity alike. *)
Theorem suffix_order_irrelevant l raw :
  Permutation l SUFFIXES -> parse_with_suffixes l raw = parse_k8s_quantity raw.
Proof.
  intros Hp. unfold parse_k8s_quantity.
  destruct (decide (Exists (fun p => is_Some (strip_suffix (fst p) raw)) SUFFIXES)) as [Hex|Hno].
  - apply Exists_exists in Hex as ([s m] & Hin & [num Hs]). simpl in Hs.
    assert (Huniq : forall s' m' a, (s', m') ∈ SUFFIXES -> strip_suffix s' raw = Some a -> (s', m') = (s, m))
      by (intros; eapply suffix_unique; done).
    rewrite (parse_with_suffixes_match l raw s m num), (parse_with_suffixes_match SUFFIXES raw s m num);
      try done; [intros s' m' a Hin'; apply Huniq|]; by rewrite <- ?Hp, ?Hp in *.
  - assert (Hnone : forall s m, (s, m) ∈ SUFFIXES -> strip_suffix s raw = None).
    { intros s m Hin. destruct (strip_suffix s raw) eqn:E; [|done]. destruct Hno. apply Exists_exists.
      by exists (s, m); simpl; rewrite E. }
    rewrite !parse_with_suffixes_none; [done|done|]. intros s m Hin. apply (Hnone s m). by rewrite <- Hp.
Qed.

Lemma suffix_order_irrelevant_witness :
  Permutation (rev SUFFIXES) SUFFIXES /\
  parse_with_suffixes (rev SUFFIXES) (as_bytes "64Ki") = Ok 65536.
Proof.
  assert (Hp : Permutation (rev SUFFIXES) SUFFIXES) by (symmetry; apply Permutation_rev).
  split; [exact Hp|]. rewrite (suffix_order_irrelevant (rev SUFFIXES) (as_bytes "64Ki") Hp).
  vm_compute; reflexivity.
Defined.

(** ** Plain byte counts *)

(** A plain byte count is taken as it is, and is the size the server uses: printing any size
    between 1 and the largest [usize] and resolving the variable from it gives that size. *)
Theorem plain_size_roundtrip n :
  1 <= n <= usize_max -> resolve_grpc_max_recv_msg_size (Ok (display_unsigned n)) = Ok n.
Proof.
  intros Hn. unfold resolve_grpc_max_recv_msg_size, resolve_grpc_max_recv_msg_size_from. simpl.
  destruct (display_spec n) as (_ & Hd & Hne); [lia|].
  rewrite trim_visible by (done || by apply digits_visible).
  destruct (display_unsigned n) as [|c s] eqn:E; [done|].
  unfold parse_msg_size_bytes. rewrite <- E, parse_display by lia. simpl. by rewrite (proj2 (Z.eqb_neq _ _)) by lia.
Qed.

Lemma plain_size_roundtrip_witness :
  1 <= 4194304 <= usize_max /\ resolve_grpc_max_recv_msg_size (Ok (as_bytes "4194304")) = Ok 4194304.
Proof.
  assert (Hn : 1 <= 4194304 <= usize_max) by (vm_compute; split; discriminate).
  split; [exact Hn|]. exact (plain_size_roundtrip 4194304 Hn).
Defined.

(** ** Acceptance *)

Lemma fractional_loop_ok fraction raw : forall scale fractional,
  0 < scale -> 0 <= fractional -> forallb is_ascii_digit fraction = true ->
  scale * 10 ^ len fraction <= u128_max -> digits_value fractional fraction <= u128_max ->
  fractional_loop fraction raw scale fractional =
    Ok (scale * 10 ^ len fraction, digits_value fractional fraction).
Proof.
  induction fraction as [|d rest IH]; intros scale fractional Hs Hf Hd Hm Hv.
  { unfold digits_value, len. simpl. by rewrite Z.mul_1_r. }
  simpl in Hd. apply andb_prop in Hd as [Hd Hrest]. pose proof (digit_val_range d Hd).
  change (digits_value fractional (d :: rest)) with (digits_value (fractional * 10 + digit_val d) rest) in *.
  rewrite len_cons, Z.pow_add_r in * by (try lia; apply len_nonneg). change (10 ^ 1) with 10 in *.
  pose proof (digits_value_ge (fractional * 10 + digit_val d) rest ltac:(lia) Hrest).
  assert (0 < 10 ^ len rest) by (apply Z.pow_pos_nonneg; [lia|apply len_nonneg]).
  assert (scale * 10 <= scale * (10 * 10 ^ len rest)) by nia.
  simpl. unfold checked_mul, checked_add. rewrite (proj2 (Z.leb_le (scale * 10) _)) by lia. simpl.
  rewrite (proj2 (Z.leb_le (fractional * 10) _)) by lia. simpl. rewrite (proj2 (Z.leb_le _ _)) by lia. simpl.
  rewrite IH by (try done; try lia; nia). f_equal. f_equal. lia.
Qed.

Lemma le_mul_self x k : 0 <= x -> 1 <= k -> x <= x * k.
Proof. nia. Qed.

Lemma ceil_exists scaled scale mul integer fractional raw :
  scaled = (integer * scale + fractional) * mul -> 0 <= integer -> 0 <= fractional < scale -> 1 <= mul ->
  scaled <= u128_max -> exists b, scale_and_ceil integer scale fractional mul raw = Ok b.
Proof.
  intros -> Hi Hf Hm Hmax. unfold scale_and_ceil, checked_mul, checked_add.
  assert (integer * scale <= integer * scale + fractional) by lia.
  assert (0 <= integer * scale) by (apply Z.mul_nonneg_nonneg; lia).
  pose proof (le_mul_self (integer * scale + fractional) mul ltac:(lia) Hm).
  rewrite (proj2 (Z.leb_le (integer * scale) _)) by lia. simpl.
  rewrite (proj2 (Z.leb_le (integer * scale + fractional) _)) by lia. simpl.
  rewrite (proj2 (Z.leb_le _ _)) by lia. simpl.
  set (n := (integer * scale + fractional) * mul) in *.
  case_match eqn:Hz; [by eexists|]. simpl. pose proof (Z.div_mod n scale ltac:(lia)).
  pose proof (Z.mod_pos_bound n scale ltac:(lia)).
  assert (scale <> 1) by (intros ->; rewrite Z.mod_1_r in Hz; done).
  assert (0 <= n / scale) by (apply Z.div_pos; [nia|lia]).
  assert (2 <= u128_max) by (vm_compute; discriminate).
  assert (n / scale * 2 <= n / scale * scale) by nia.
  assert (n / scale + 1 <= u128_max) by lia. rewrite (proj2 (Z.leb_le _ _)) by lia. by eexists.
Qed.

Lemma digits_value_lt f : forallb is_ascii_digit f = true -> 0 <= digits_value 0 f < decimal_den f.
Proof.
  intros Hf. split; [by apply digits_value_ge|]. unfold decimal_den. induction f as [|c f IH] using rev_ind.
  { unfold digits_value, len. simpl. lia. }
  rewrite forallb_app in Hf. apply andb_prop in Hf as [Hf Hc]. simpl in Hc. rewrite andb_true_r in Hc.
  apply digit_val_range in Hc. specialize (IH Hf).
  rewrite digits_value_app, len_app, Z.pow_add_r by (try apply len_nonneg).
  change (digits_value (digits_value 0 f) [c]) with (digits_value 0 f * 10 + digit_val c).
  change (10 ^ len [c]) with 10. lia.
Qed.

Lemma parse_u128_or_zero_ok i raw :
  forallb is_ascii_digit i = true -> digits_value 0 i <= u128_max ->
  parse_u128_or_zero i raw = Ok (digits_value 0 i).
Proof.
  intros Hi Hv. unfold parse_u128_or_zero. destruct i as [|c s]; [done|]. unfold parse_unsigned.
  rewrite decide_False by (apply digit_not_plus; simpl in Hi; by apply andb_prop in Hi as [? _]).
  rewrite parse_digits_spec by (vm_compute; split; discriminate). rewrite Hi. cbn [andb].
  by rewrite (proj2 (Z.leb_le _ _)) by lia.
Qed.

(** Every well-formed decimal whose scaled value fits 128 bits is accepted: the parser turns
    away nothing but malformed text and true overflow, and what it answers is the exact value
    rounded up. *)
Theorem well_formed_quantity_accepted i f mul raw :
  forallb is_ascii_digit i = true -> forallb is_ascii_digit f = true -> i ++ f <> [] ->
  1 <= mul -> decimal_den f <= u128_max -> decimal_num i f * mul <= u128_max ->
  exists b, parse_decimal_quantity (i ++ "."%char :: f) mul raw = Ok b /\
    is_ceil b (decimal_num i f * mul) (decimal_den f).
Proof.
  intros Hi Hf Hne Hm Hden Hnum.
  assert (Hplus : default (i ++ "."%char :: f) (strip_prefix [plus_sign] (i ++ "."%char :: f)) = i ++ "."%char :: f).
  { destruct i as [|c i]; [done|]. simpl in Hi. apply andb_prop in Hi as [Hc _]. simpl.
    by rewrite decide_False by (intros E; by apply (digit_not_plus c)). }
  assert (Hdot : forall a, is_ascii_digit a = true -> a <> "."%char) by (intros a Ha ->; by vm_compute in Ha).
  assert (Hsplit : forall k, forallb is_ascii_digit k = true ->
            split_once "."%char (k ++ "."%char :: f) = Some (k, f)).
  { clear -Hdot. induction k as [|a k IH]; intros Hk; [done|]. simpl in Hk. apply andb_prop in Hk as [Ha Hk].
    simpl. by rewrite decide_False, IH by auto. }
  pose proof (decimal_den_pos f) as Hden0.
  pose proof (digits_value_lt f Hf) as Hfv.
  assert (Hiv : 0 <= digits_value 0 i) by (apply digits_value_ge; done).
  assert (Hle : digits_value 0 i <= u128_max).
  { rewrite decimal_num_split in Hnum. pose proof (le_mul_self _ (decimal_den f) Hiv ltac:(lia)).
    pose proof (le_mul_self (digits_value 0 i * decimal_den f + digits_value 0 f) mul ltac:(lia) Hm). lia. }
  destruct (ceil_exists (decimal_num i f * mul) (decimal_den f) mul (digits_value 0 i) (digits_value 0 f) raw)
    as [b Hb]; [by rewrite decimal_num_split|done..|].
  exists b. split.
  - unfold parse_decimal_quantity. rewrite Hplus. unfold split_decimal_parts. rewrite Hsplit by done. cbn [default from_option id].
    rewrite Hi, Hf. assert (bool_decide (i = []) && bool_decide (f = []) = false) as ->.
    { repeat case_bool_decide; try done. by subst. }
    cbn [negb orb result_bind fst snd].
    rewrite parse_u128_or_zero_ok by done.
    cbn [result_bind]. unfold fractional_digits. rewrite fractional_loop_ok by (done || unfold decimal_den in *; lia).
    cbn [result_bind fst snd]. by rewrite Z.mul_1_l.
  - rewrite decimal_num_split. apply scale_and_ceil_spec in Hb; done.
Qed.

Lemma well_formed_quantity_accepted_witness :
  exists b, parse_decimal_quantity (as_bytes "0.0001") 1024 (as_bytes "0.0001Ki") = Ok b /\
    is_ceil b (decimal_num (as_bytes "0") (as_bytes "0001") * 1024) (decimal_den (as_bytes "0001")).
Proof.
  apply (well_formed_quantity_accepted (as_bytes "0") (as_bytes "0001") 1024 (as_bytes "0.0001Ki")).
  - reflexivity.
  - reflexivity.
  - discriminate.
  - discriminate.
  - vm_compute; discriminate.
  - vm_compute; discriminate.
Defined.
