(* ===== verification/Main.v ===== *)
(** * The process entry point ([src/bin/praxis_extproc.rs], up to the running services)

    What [prepare], [run], [--validate] and [serve_grpc] decide before a listener is opened. The
    file system, the environment, YAML decoding, socket addresses and the registry builders are
    the operations of [Host]; the outcome of [run] is a [Plan], the services to supervise.
    [comes_up] then follows such a plan to its open listeners, given what the host gives it
    ([Bringup]); the running services are [Supervisor]'s. *)

From S2P Require Import Prelude RustStd Effect Proto IpAddr Extern Concrete State ResponseMode Errors Tls Config Fips MetricsServer GrpcLimits.

(** ** The host *)

Class Host `{PipelineBuilder} := {
  SocketAddr : Type;
  parse_socket_addr : string -> result string SocketAddr;
  read_to_string : string -> result string string;
  yaml_config : string -> result string ExtProcConfig;
  env_max_recv : result VarError bytes;
  build_ai_registry : FilterRegistry;
  (** The [k8s-e2e] and [responses-full] features. *)
  k8s_e2e : bool;
  responses_full : bool;
}.

(** The errors [Box<dyn Error>] wraps here. *)
Inductive BoxError :=
| FromExtProc (e : ExtProcError)
| FromLimits (e : ResolveError)
| FromText (m : string).

Section Main.
Context `{Host} `{CryptoProvider} `{OpenSsl}.

(** ** Data *)

Record Cli := {
  cli_config : string;
  (** Only parsed with the [k8s-e2e] feature. *)
  cli_e2e_sse_backend : bool;
  cli_grpc_address : option string;
  cli_health_address : option string;
  cli_metrics_address : option string;
  cli_validate : bool;
}.

Record BodyLimits := { max_body : option Z; max_recv : Z }.

Record Prepared := {
  p_fips : Fips.Status;
  p_cfg : ExtProcConfig;
  p_registry : FilterRegistry;
  p_pipeline : ExtProcResult FilterPipeline;
  p_limits : BodyLimits;
}.

(** The configured service ([PraxisExtProc] and its builder methods), with the receive limit,
    the drain deadline and the acceptor it is served with. *)
Record GrpcService := {
  g_pipeline : FilterPipeline;
  g_max_body_accumulation : option Z;
  g_trust_forwarded_for : bool;
  g_response_mode_selector : ResponseModeSelector;
  g_max_decoding_message_size : Z;
  g_drain_secs : Z;
  g_acceptor : option SslAcceptor;
}.

(** The foreground of [run_with_sidecars]. *)
Inductive Foreground :=
| ServeGrpc (addr : SocketAddr) (service : ExtProcResult GrpcService)
| AwaitDrain.

(** [run_with_sidecars]'s arguments. *)
Record Plan := {
  addrs : SocketAddr * SocketAddr * SocketAddr;
  serving : bool;
  fips_active : bool;
  auth : MetricsAuthConfig;
  foreground : Foreground;
}.

(** How [run] ends: the configuration validated, or services to run. *)
Inductive Outcome := Validated | Run (plan : Plan).

(** ** Startup *)

Definition load_config (path : string) : ExtProcResult ExtProcConfig :=
  let! content := map_err (fun e => Config (path +:+ ": " +:+ e)) (read_to_string path) in
  map_err Config (yaml_config content).

(** [e2e::register_e2e_filters]: the filter of [BodyOracle]. *)
Definition register_e2e_filters (registry : FilterRegistry) : result string FilterRegistry :=
  registry_register registry "e2e_body_oracle".

Definition build_filter_registry : result BoxError FilterRegistry :=
  if k8s_e2e then map_err FromText (register_e2e_filters build_ai_registry) else Ok build_ai_registry.

Definition prepare (config_path : string) (process : Process) : result BoxError Prepared * Process :=
  let '(fips, process) := install process in
  (let! fips := map_err FromExtProc fips in
   let! recv := map_err FromLimits (resolve_grpc_max_recv_msg_size env_max_recv) in
   let! cfg := map_err FromExtProc (load_config config_path) in
   let! registry := build_filter_registry in
   Ok {| p_fips := fips; p_cfg := cfg; p_registry := registry;
         p_pipeline := build_pipeline cfg registry;
         p_limits := {| max_body := max_body_accumulation cfg; max_recv := recv |} |}, process).

(** What [warn_invalid_response_mode_config] logs. *)
Definition warn_invalid_response_mode_config (selector : ResponseModeSelector) : option string :=
  (fun reason => "invalid guardrail response-mode configuration; keeping buffered mode and rejecting FDS: " +:+ reason)
    <$> invalid_reason selector.

(** ** Addresses *)

Definition parse_addr (cli_override : option string) (config_default : string) : result BoxError SocketAddr :=
  map_err FromText (parse_socket_addr (default config_default cli_override)).

Definition resolve_addresses (cli : Cli) (cfg : ExtProcConfig) : result BoxError (SocketAddr * SocketAddr * SocketAddr) :=
  let! grpc := parse_addr (cli_grpc_address cli) (grpc_address (server cfg)) in
  let! health := parse_addr (cli_health_address cli) (health_address (server cfg)) in
  let! metrics := parse_addr (cli_metrics_address cli) (metrics_address (server cfg)) in
  Ok (grpc, health, metrics).

(** ** Limits *)

Definition buffered_body_cannot_fit_recv (max_body : option Z) (max_recv : Z) : bool :=
  match max_body with
  | Some n => max_recv <? saturating_add n GRPC_RECV_FRAMING_HEADROOM
  | None => false
  end.

(** Whether [warn_if_buffered_body_cannot_fit_recv] warns, and about which body size. *)
Definition warn_if_buffered_body_cannot_fit_recv (limits : BodyLimits) : option Z :=
  if negb (buffered_body_cannot_fit_recv (max_body limits) (max_recv limits)) then None else max_body limits.

(** ** FIPS *)

Definition fips_refusal (process : Process) (fips : Fips.Status) (registry : FilterRegistry) : option string :=
  match require process fips with
  | Err e => Some (display_ExtProcError e)
  | Ok _ => if fips_required process then blocker responses_full registry else None
  end.

(** ** Validate *)

Definition validate_config (process : Process) (server_cfg : ServerConfig) (fips : Fips.Status)
    (registry : FilterRegistry) (pipeline : ExtProcResult FilterPipeline) (limits : BodyLimits) : result BoxError unit :=
  match fips_refusal process fips registry with
  | Some reason => Err (FromText reason)
  | None =>
      let! _ := map_err FromExtProc pipeline in
      let! _ := map_err FromExtProc (build_tls_config (tls server_cfg)) in
      Ok tt
  end.

Definition validate_prepared (process : Process) (cli : Cli) (prepared : Prepared) : result BoxError unit :=
  let! _ := resolve_addresses cli (p_cfg prepared) in
  validate_config process (server (p_cfg prepared)) (p_fips prepared) (p_registry prepared)
    (p_pipeline prepared) (p_limits prepared).

(** ** Serve *)

(** [serve_grpc] up to the listener: the service and how it is served. *)
Definition serve_grpc (pipeline : FilterPipeline) (server_cfg : ServerConfig) (limits : BodyLimits)
    (selector : ResponseModeSelector) : ExtProcResult GrpcService :=
  let! acceptor := build_tls_config (tls server_cfg) in
  Ok {| g_pipeline := pipeline; g_max_body_accumulation := max_body limits;
        g_trust_forwarded_for := trust_forwarded_for server_cfg; g_response_mode_selector := selector;
        g_max_decoding_message_size := max_recv limits;
        g_drain_secs := DrainTimeoutSecs_get (shutdown_drain_timeout_secs server_cfg);
        g_acceptor := acceptor |}.

Definition start_services (a : SocketAddr * SocketAddr * SocketAddr) (pipeline : FilterPipeline)
    (server_cfg : ServerConfig) (limits : BodyLimits) (selector : ResponseModeSelector) (fips : bool) : Plan :=
  {| addrs := a; serving := true; fips_active := fips; auth := metrics_auth server_cfg;
     foreground := ServeGrpc (fst (fst a)) (serve_grpc pipeline server_cfg limits selector) |}.

Definition serve_unready (a : SocketAddr * SocketAddr * SocketAddr) (fips : bool) (m : MetricsAuthConfig) : Plan :=
  {| addrs := a; serving := false; fips_active := fips; auth := m; foreground := AwaitDrain |}.

Definition serve_pipeline (a : SocketAddr * SocketAddr * SocketAddr) (pipeline : ExtProcResult FilterPipeline)
    (server_cfg : ServerConfig) (limits : BodyLimits) (selector : ResponseModeSelector) (fips : bool) : Plan :=
  match pipeline with
  | Ok pipeline => start_services a pipeline server_cfg limits selector fips
  | Err _ => serve_unready a fips (metrics_auth server_cfg)
  end.

Definition run (cli : Cli) (process : Process) : result BoxError Outcome * Process :=
  let '(prepared, process) := prepare (cli_config cli) process in
  (let! prepared := prepared in
   let selector := from_config (filter_chains (p_cfg prepared)) in
   if cli_validate cli then
     let! _ := validate_prepared process cli prepared in Ok Validated
   else
     let! a := resolve_addresses cli (p_cfg prepared) in
     match fips_refusal process (p_fips prepared) (p_registry prepared) with
     | Some _ => Ok (Run (serve_unready a (active (p_fips prepared)) (metrics_auth (server (p_cfg prepared)))))
     | None =>
         Ok (Run (serve_pipeline a (p_pipeline prepared) (server (p_cfg prepared)) (p_limits prepared) selector
                    (active (p_fips prepared))))
     end, process).
End Main.

(** ** Bringing a plan up *)

Inductive Listener := GrpcListener | HealthListener | MetricsListener.

Section Bringup.
Context `{Host} `{OpenSsl} `{KubeApi}.

(** What the host gives a starting process: the metrics recorder, the Kubernetes client of its
    environment, and how binding each of the three addresses goes. *)
Record Bringup (Handle L : Type) := {
  recorder : result string Handle;
  kube_default : result string Client;
  bind : Listener -> SocketAddr -> result string L;
}.
#[global] Arguments recorder {_ _} _.
#[global] Arguments kube_default {_ _} _.
#[global] Arguments bind {_ _} _.

(** The services of a plan as [run_with_sidecars] brings them up: the metrics server must be
    ready before the foreground is created, a failed bind of any of the three ends the process.
    [Some service]: every listener is open, the gRPC one for [service]. *)
Definition comes_up {Handle L : Type} (b : Bringup Handle L) (plan : Plan) : option GrpcService :=
  let '(_, health, metrics) := addrs plan in
  match (serve_start (auth plan) (recorder b) None (kube_default b) (bind b MetricsListener metrics)).1,
        bind b HealthListener health with
  | Ok _, Ok _ =>
      match foreground plan with
      | ServeGrpc grpc (Ok service) => if bind b GrpcListener grpc is Ok _ then Some service else None
      | _ => None
      end
  | _, _ => None
  end.
End Bringup.

(** ** What startup guarantees *)

Section MainTheorems.
Context `{Host} `{CryptoProvider} `{OpenSsl}.

(** The same command line with and without [--validate]. *)
Definition with_validate (b : bool) (cli : Cli) : Cli :=
  {| cli_config := cli_config cli; cli_e2e_sse_backend := cli_e2e_sse_backend cli; cli_grpc_address := cli_grpc_address cli;
     cli_health_address := cli_health_address cli; cli_metrics_address := cli_metrics_address cli;
     cli_validate := b |}.

(** The plan has a gRPC service to serve: it is built, its TLS acceptor too. No listener is open
    yet; what is left is [comes_up]. *)
Definition plans (o : Outcome) (s : GrpcService) : Prop :=
  exists plan a, o = Run plan /\ serving plan = true /\ foreground plan = ServeGrpc a (Ok s).

(** [prepare] puts in [Prepared] what its parts give. *)
Lemma prepare_ok path process p process' :
  prepare path process = (Ok p, process') ->
  install process = (Ok (p_fips p), process') /\
  resolve_grpc_max_recv_msg_size env_max_recv = Ok (max_recv (p_limits p)) /\
  load_config path = Ok (p_cfg p) /\
  build_filter_registry = Ok (p_registry p) /\
  p_pipeline p = build_pipeline (p_cfg p) (p_registry p) /\
  max_body (p_limits p) = max_body_accumulation (p_cfg p).
Proof.
  unfold prepare. destruct (install process) as [fips process0]. intros [= Hp ->].
  apply bind_ok in Hp as (f & Hf & (n & Hn & (c & Hc & (r & Hr & Hp)%bind_ok)%bind_ok)%bind_ok).
  apply map_err_ok in Hf as ->. apply map_err_ok in Hn. apply map_err_ok in Hc.
  injection Hp as <-. simpl. split_and!; try done.
Qed.

Lemma serve_grpc_ok pipeline cfg limits selector s :
  serve_grpc pipeline cfg limits selector = Ok s <->
  exists acceptor, build_tls_config (tls cfg) = Ok acceptor /\
    s = {| g_pipeline := pipeline; g_max_body_accumulation := max_body limits;
           g_trust_forwarded_for := trust_forwarded_for cfg; g_response_mode_selector := selector;
           g_max_decoding_message_size := max_recv limits;
           g_drain_secs := DrainTimeoutSecs_get (shutdown_drain_timeout_secs cfg);
           g_acceptor := acceptor |}.
Proof. unfold serve_grpc. rewrite bind_ok. naive_solver. Qed.

Lemma validate_config_ok process cfg fips registry pipeline limits :
  validate_config process cfg fips registry pipeline limits = Ok tt <->
  fips_refusal process fips registry = None /\ (exists p, pipeline = Ok p) /\
  exists acceptor, build_tls_config (tls cfg) = Ok acceptor.
Proof.
  unfold validate_config. destruct (fips_refusal process fips registry); [naive_solver|].
  destruct pipeline, (build_tls_config (tls cfg)); simpl; naive_solver.
Qed.

(** The run that plans a gRPC service, from the run's parts. *)
Lemma run_plans cli process s process' :
  cli_validate cli = false ->
  (exists o, run cli process = (Ok o, process') /\ plans o s) <->
  exists p a pipeline,
    prepare (cli_config cli) process = (Ok p, process') /\
    resolve_addresses cli (p_cfg p) = Ok a /\
    fips_refusal process' (p_fips p) (p_registry p) = None /\
    p_pipeline p = Ok pipeline /\
    serve_grpc pipeline (server (p_cfg p)) (p_limits p) (from_config (filter_chains (p_cfg p))) = Ok s.
Proof.
  intros Hc. unfold run, plans. rewrite Hc. destruct (prepare (cli_config cli) process) as [[p|e] process0]; simpl.
  2: { split; [intros (o & E & _); by injection E|intros (p & a & q & E & _); by injection E]. }
  destruct (resolve_addresses cli (p_cfg p)) as [a|e] eqn:Ha; simpl.
  2: { split; [intros (o & E & _); by injection E|intros (p' & a & q & E & E2 & _); injection E as <- <-; congruence]. }
  split.
  - intros (o & [= Ho ->] & plan & ad & -> & Hs & Hf). exists p, a.
    destruct (fips_refusal process' (p_fips p) (p_registry p)); injection Ho as <-; [done|].
    unfold serve_pipeline in *. destruct (p_pipeline p) as [q|]; [|done]. simpl in *. injection Hf as _ Hf. eauto 10.
  - intros (p' & a' & q & [= <- ->] & [= <-]%(eq_trans (eq_sym Ha)) & -> & Hq & Hg).
    eexists. split; [done|]. rewrite Hq. simpl. eexists _, _. split; [done|]. simpl. by rewrite Hg.
Qed.

(** Only a plan that serves has a gRPC service. *)
Lemma run_serving cli process plan process' grpc s :
  run cli process = (Ok (Run plan), process') -> foreground plan = ServeGrpc grpc (Ok s) -> plans (Run plan) s.
Proof.
  unfold run. destruct (prepare (cli_config cli) process) as [[p|e] process0]; [|done]. simpl. intros [= Hr _] Hf.
  exists plan, grpc. split_and!; [done| |done].
  destruct (cli_validate cli); [by apply bind_ok in Hr as (? & _ & ?)|]. apply bind_ok in Hr as (a & _ & Hr).
  destruct (fips_refusal _ _ _); injection Hr as <-; [done|]. unfold serve_pipeline in *. by destruct (p_pipeline p).
Qed.

(** The planned service of an accepted configuration, and the other way round. *)
Lemma validated_plans cli process process' :
  run (with_validate true cli) process = (Ok Validated, process') <->
  exists p a pipeline s,
    prepare (cli_config cli) process = (Ok p, process') /\
    resolve_addresses cli (p_cfg p) = Ok a /\
    fips_refusal process' (p_fips p) (p_registry p) = None /\
    p_pipeline p = Ok pipeline /\
    serve_grpc pipeline (server (p_cfg p)) (p_limits p) (from_config (filter_chains (p_cfg p))) = Ok s.
Proof.
  unfold run. simpl. destruct (prepare (cli_config cli) process) as [[p|e] process0]; simpl; [|naive_solver].
  split.
  - intros [= (u & Hv & _)%bind_ok ->]. unfold validate_prepared in Hv. apply bind_ok in Hv as (a & Hr & Hv). destruct u.
    apply validate_config_ok in Hv as (Hf & (q & Hq) & acceptor & Ht).
    eexists p, a, q, _. split_and!; try done. apply serve_grpc_ok. eauto.
  - intros (p' & a & q & s & [= <- ->] & Hr & Hf & Hq & (acceptor & Ht & _)%serve_grpc_ok).
    unfold validate_prepared.
    assert (resolve_addresses (with_validate true cli) (p_cfg p) = Ok a) as -> by done. simpl.
    assert (validate_config process' (server (p_cfg p)) (p_fips p) (p_registry p) (p_pipeline p) (p_limits p) = Ok tt) as ->
      by (apply validate_config_ok; eauto).
    done.
Qed.

(** The plan of a run, from the run's parts. *)
Lemma run_plan cli process p process' a pipeline :
  cli_validate cli = false ->
  prepare (cli_config cli) process = (Ok p, process') ->
  resolve_addresses cli (p_cfg p) = Ok a ->
  fips_refusal process' (p_fips p) (p_registry p) = None ->
  p_pipeline p = Ok pipeline ->
  run cli process =
    (Ok (Run (start_services a pipeline (server (p_cfg p)) (p_limits p) (from_config (filter_chains (p_cfg p)))
                (active (p_fips p)))), process').
Proof.
  intros Hc Hp Ha Hf Hq. unfold run. rewrite Hc, Hp. cbn -[resolve_addresses fips_refusal]. rewrite Ha.
  cbn -[fips_refusal]. by rewrite Hf, Hq.
Qed.

(** C25. The FIPS requirement fails closed: when it is set, the process opens the gRPC listener only
    with both FIPS signals present and with no filter registered that does its own cryptography;
    otherwise it stays up with health reporting not serving, and no listener. *)
Theorem fips_requirement_fails_closed cli process plan process' :
  run cli process = (Ok (Run plan), process') ->
  fips_required process' = true ->
  (serving plan = true ->
     fips_active plan = true /\
     forall registry, build_filter_registry = Ok registry ->
       forall name, name ∈ NON_FIPS_FILTERS responses_full -> name ∉ available_filters registry) /\
  (serving plan = false -> foreground plan = AwaitDrain).
Proof.
  unfold run. destruct (prepare (cli_config cli) process) as [[p|e] process0] eqn:Hp; [|done]. simpl.
  intros [= Hr ->] Hreq. apply prepare_ok in Hp as (_ & _ & _ & Hreg & _).
  destruct (cli_validate cli); [by apply bind_ok in Hr as (? & _ & ?)|].
  apply bind_ok in Hr as (a & _ & Hr).
  destruct (fips_refusal process' (p_fips p) (p_registry p)) eqn:Hf; injection Hr as <-; [done|].
  unfold serve_pipeline. destruct (p_pipeline p); [|done]. split; [intros _|done]. simpl.
  unfold fips_refusal, require in Hf. rewrite Hreq in Hf.
  destruct (require_if (p_fips p) true) as [[]|] eqn:Hq; [|done].
  split; [by apply require_if_ok in Hq; auto|]. intros registry Hb.
  rewrite Hreg in Hb. injection Hb as <-. by apply blocker_none.
Qed.

(** C27. A listener that opens is the configured one: the pipeline is the one built from the
    configured chains, and the body ceiling, receive limit, forwarded-for trust, response-mode
    selector, drain deadline and TLS acceptor are those of the configuration and the environment. *)
Theorem served_as_configured cli process o process' s :
  cli_validate cli = false ->
  run cli process = (Ok o, process') -> plans o s ->
  exists cfg registry,
    load_config (cli_config cli) = Ok cfg /\
    build_filter_registry = Ok registry /\
    build_pipeline cfg registry = Ok (g_pipeline s) /\
    g_max_body_accumulation s = max_body_accumulation cfg /\
    resolve_grpc_max_recv_msg_size env_max_recv = Ok (g_max_decoding_message_size s) /\
    g_trust_forwarded_for s = trust_forwarded_for (server cfg) /\
    g_response_mode_selector s = from_config (filter_chains cfg) /\
    g_drain_secs s = DrainTimeoutSecs_get (shutdown_drain_timeout_secs (server cfg)) /\
    build_tls_config (tls (server cfg)) = Ok (g_acceptor s).
Proof.
  intros Hc Hr Hs. destruct (proj1 (run_plans cli process s process' Hc)) as (p & a & q & Hp & _ & _ & Hq & Hg); [eauto|].
  apply prepare_ok in Hp as (_ & Hn & Hl & Hreg & Hb & Hm). apply serve_grpc_ok in Hg as (acceptor & Ht & ->).
  exists (p_cfg p), (p_registry p). simpl. rewrite Hm. split_and!; try done. congruence.
Qed.
End MainTheorems.

(** ** What [--validate] promises *)

Section Validate.
Context `{Host} `{CryptoProvider} `{OpenSsl} `{KubeApi}.
Variables (Handle L : Type) (b : Bringup Handle L).

(** What validation does not look at: the recorder, the Kubernetes client when the metrics are
    authenticated, and the three addresses being free. *)
Definition provides (m : MetricsAuthConfig) (a : SocketAddr * SocketAddr * SocketAddr) : bool :=
  let '(grpc, health, metrics) := a in
  is_ok (recorder b) && (negb (enabled m) || is_ok (kube_default b)) &&
  is_ok (bind b GrpcListener grpc) && is_ok (bind b HealthListener health) && is_ok (bind b MetricsListener metrics).

Lemma started_comes_up a pipeline cfg limits selector fips s :
  serve_grpc pipeline cfg limits selector = Ok s ->
  is_Some (comes_up b (start_services a pipeline cfg limits selector fips)) <-> provides (metrics_auth cfg) a = true.
Proof.
  intros Hs. destruct a as [[grpc health] metrics]. unfold comes_up, provides, serve_start, install_recorder, build_kube_client.
  simpl. rewrite Hs. destruct (recorder b); simpl; [|naive_solver].
  destruct (enabled (metrics_auth cfg)); simpl; [destruct (kube_default b); simpl; [|naive_solver]|];
    destruct (bind b MetricsListener metrics), (bind b HealthListener health), (bind b GrpcListener grpc); naive_solver.
Qed.

(** C26. [--validate] tells the truth about what it looks at, and looks at everything but what the
    host gives. The same command line without it comes up with its gRPC listener open exactly when
    [--validate] accepts it and the host provides the rest: a metrics recorder, a Kubernetes client
    unless the metrics are unauthenticated, and the three resolved addresses to bind. *)
Theorem validate_predicts_serving cli process process' :
  (exists plan, run (with_validate false cli) process = (Ok (Run plan), process') /\ is_Some (comes_up b plan)) <->
  run (with_validate true cli) process = (Ok Validated, process') /\
  exists cfg a, load_config (cli_config cli) = Ok cfg /\ resolve_addresses cli cfg = Ok a /\
    provides (metrics_auth (server cfg)) a = true.
Proof.
  rewrite validated_plans. split.
  - intros (plan & Hr & s & Hs).
    assert (Hp : exists grpc, foreground plan = ServeGrpc grpc (Ok s)).
    { unfold comes_up in Hs. destruct (addrs plan) as [[]]. repeat case_match; simplify_eq/=. eauto. }
    destruct Hp as [grpc Hp]. pose proof (run_serving _ _ _ _ _ _ Hr Hp) as Hpl.
    destruct (proj1 (run_plans (with_validate false cli) process s process' eq_refl)) as (p & a & q & Hpr & Ha & Hf & Hq & Hg);
      [by eexists|].
    split; [by exists p, a, q, s|]. pose proof (prepare_ok _ _ _ _ Hpr) as (_ & _ & Hl & _).
    exists (p_cfg p), a. split_and!; try done.
    rewrite (run_plan (with_validate false cli) _ _ _ _ _ eq_refl Hpr Ha Hf Hq) in Hr. injection Hr as <-.
    eapply started_comes_up; [done|]. by exists s.
  - intros [(p & a & q & s & Hpr & Ha & Hf & Hq & Hg) (cfg & a' & Hl & Ha' & Hv)].
    pose proof (prepare_ok _ _ _ _ Hpr) as (_ & _ & Hl' & _).
    assert (cfg = p_cfg p) as -> by congruence. assert (a' = a) as -> by congruence.
    eexists. split; [exact (run_plan (with_validate false cli) _ _ _ _ _ eq_refl Hpr Ha Hf Hq)|]. apply (started_comes_up _ _ _ _ _ _ _ Hg), Hv.
Qed.
End Validate.

(** ** A concrete host *)

(** A process: whether FIPS is required, and whether the host is in FIPS mode. *)
#[export] Instance DemoCrypto : CryptoProvider := {|
  Status := bool;
  Process := bool * bool;
  provider_name := "openssl";
  provider_install p := (true, p);
  provider_status := snd;
  status_installed _ := true;
  status_unmet s := if s then [] else ["the kernel is not in FIPS mode"%string];
  fips_required := fst;
|}.

#[export] Instance DemoHost : Host (H2 := DemoBuilder) := {|
  SocketAddr := string;
  parse_socket_addr s := match split_once ":"%char (as_bytes s) with Some _ => Ok s | None => Err "invalid socket address"%string end;
  read_to_string path := if String.eqb path "praxis-extproc.yaml" then Ok "{}"%string else Err "not found"%string;
  yaml_config _ := Ok demo_config;
  env_max_recv := Err NotPresent;
  build_ai_registry := (["request_id"; "guardrail"]%string : FilterRegistry (PipelineBuilder := DemoBuilder));
  k8s_e2e := false;
  responses_full := false;
|}.

Definition demo_cli : Cli :=
  {| cli_config := "praxis-extproc.yaml"; cli_e2e_sse_backend := false; cli_grpc_address := Some "127.0.0.1:9004"%string;
     cli_health_address := None; cli_metrics_address := None; cli_validate := false |}.

Definition demo_service : GrpcService (H0 := ConcretePraxis) (H5 := DemoOpenSsl) :=
  @Build_GrpcService ConcreteHttp ConcretePraxis DemoOpenSsl
    (pass_pipeline (demo_caps false false false false)) (Some DEFAULT_MAX_BODY_BYTES) false
    (from_config (filter_chains demo_config)) DEFAULT_GRPC_MAX_RECV_MSG_SIZE 20 None.

Definition demo_plan : Plan (H3 := DemoHost) (H5 := DemoOpenSsl) :=
  @Build_Plan ConcreteHttp ConcretePraxis ConcreteYaml DemoBuilder DemoHost DemoOpenSsl
    ("127.0.0.1:9004", "0.0.0.0:50052", "0.0.0.0:9090")%string true true MetricsAuthConfig_default
    (ServeGrpc "127.0.0.1:9004"%string (Ok demo_service)).

(** In a cluster the process comes up; out of one the same configuration, whose metrics are
    authenticated, is accepted by [--validate] and does not. *)
Definition demo_bringup (cluster : result string (Client (H0 := DemoKube))) : Bringup (H3 := DemoHost) (H5 := DemoKube) unit unit :=
  @Build_Bringup ConcreteHttp ConcretePraxis ConcreteYaml DemoBuilder DemoHost DemoKube unit unit (Ok tt) cluster (fun _ _ => Ok tt).
#[local] Abbreviation demo_run validate :=
  (run (H3 := DemoHost) (H4 := DemoCrypto) (H5 := DemoOpenSsl) (with_validate validate demo_cli) (true, true)).

Lemma validate_predicts_serving_witness :
  (exists plan, demo_run false = (Ok (Run plan), (true, true)) /\
     is_Some (comes_up (H3 := DemoHost) (H4 := DemoOpenSsl) (H5 := DemoKube) (demo_bringup (Ok demo_client)) plan)) /\
  demo_run true = (Ok Validated, (true, true)) /\
  comes_up (H3 := DemoHost) (H4 := DemoOpenSsl) (H5 := DemoKube) (demo_bringup (Err "not in a cluster"%string)) demo_plan = None.
Proof.
  assert (Hv : demo_run true = (Ok Validated, (true, true))) by reflexivity.
  split; [|split; [exact Hv|reflexivity]].
  apply (proj2 (validate_predicts_serving (H3 := DemoHost) (H4 := DemoCrypto) (H5 := DemoOpenSsl) (H6 := DemoKube)
                  unit unit (demo_bringup (Ok demo_client)) demo_cli (true, true) (true, true))).
  split; [exact Hv|]. exists demo_config, ("127.0.0.1:9004", "0.0.0.0:50052", "0.0.0.0:9090")%string.
  split_and!; reflexivity.
Defined.

Lemma fips_requirement_fails_closed_witness :
  run (H3 := DemoHost) (H4 := DemoCrypto) (H5 := DemoOpenSsl) demo_cli (true, true) = (Ok (Run demo_plan), (true, true)) /\
  fips_active demo_plan = true /\ "policy"%string ∉ ["request_id"; "guardrail"]%string.
Proof.
  assert (Hr : run (H3 := DemoHost) (H4 := DemoCrypto) (H5 := DemoOpenSsl) demo_cli (true, true) =
    (Ok (Run demo_plan), (true, true))) by reflexivity.
  split; [exact Hr|].
  pose proof (fips_requirement_fails_closed (H3 := DemoHost) (H4 := DemoCrypto) (H5 := DemoOpenSsl)
                demo_cli (true, true) demo_plan (true, true) Hr eq_refl) as [Hs _].
  destruct (Hs eq_refl) as [Ha Hn]. split; [exact Ha|].
  apply (Hn ["request_id"; "guardrail"]%string eq_refl "policy"%string). apply list_elem_of_here.
Defined.

Lemma served_as_configured_witness :
  plans (Run demo_plan) demo_service /\
  exists cfg registry,
    load_config (H3 := DemoHost) "praxis-extproc.yaml" = Ok cfg /\ build_filter_registry (H3 := DemoHost) = Ok registry.
Proof.
  assert (Hs : plans (Run demo_plan) demo_service) by (exists demo_plan, "127.0.0.1:9004"%string; repeat split).
  split; [exact Hs|].
  destruct (served_as_configured (H3 := DemoHost) (H4 := DemoCrypto) (H5 := DemoOpenSsl) demo_cli (true, true)
              (Run demo_plan) (true, true) demo_service eq_refl eq_refl Hs) as (cfg & registry & Hl & Hb & _).
  exists cfg, registry. exact (conj Hl Hb).
Defined.
