(* ===== verification/Health.v ===== *)
(** * The health service ([src/health.rs])

    The statuses the reporter holds, by service name, and the two points where the source changes
    them. Answering probes is tonic-health's. *)

From S2P Require Import Prelude.

Definition FIPS_SERVICE : string := "fips".

(** [<ExtProcServer as NamedService>::NAME]. *)
Definition ext_proc_service : string := "envoy.service.ext_proc.v3.ExternalProcessor".

(** The name an empty request asks about. *)
Definition default_service : string := "".

(** [tonic_health::ServingStatus], the variants set here. *)
Inductive ServingStatus := Serving | NotServing.

#[export] Instance ServingStatus_eq_dec : EqDecision ServingStatus.
Proof. solve_decision. Defined.

(** [HealthReporter]: a status per service. *)
Abbreviation HealthReporter := (gmap string ServingStatus).

(** [tonic_health::server::health_reporter()]: the default service, the empty name, is serving from the
    start, as tonic-health documents and [docs/architecture.md] repeats. *)
Definition health_reporter : HealthReporter := {[default_service := Serving]}.

Definition set_initial_status (serving fips_active : bool) (reporter : HealthReporter) : HealthReporter :=
  let reporter := <[ext_proc_service := if serving then Serving else NotServing]> reporter in
  <[FIPS_SERVICE := if fips_active then Serving else NotServing]> reporter.

(** [report_not_serving_on_drain] once [on_drain] has resolved; it then holds forever. *)
Definition report_not_serving_on_drain (reporter : HealthReporter) : HealthReporter :=
  <[ext_proc_service := NotServing]> reporter.
