(* ===== verification/Sse.v ===== *)
(** * The gated SSE backend of the qualification suite ([src/e2e/sse_backend.rs])

    A server whose event stream stops after its first event until a control request releases it.
    [sse_fire] takes one step of the server and its connection tasks, named by a label: the
    listener accepts, hyper hands a connection's request to the service, a request body ends, a
    pending response or a response body is polled, a connection goes away. Between two labels no
    task runs; the order of the labels is the scheduler's and the clients'. [tokio::sync::Notify]
    is a parameter. *)

From S2P Require Import Prelude RustStd Text.

(** ** Notify *)

(** The calls of [Notify]. A [notified()] future is named by the task that polls it: a connection
    has at most one at a time. *)
Class NotifyApi := {
  Notify : Type;
  notify_default : Notify;
  notify_one : Notify -> Notify;
  poll_notified : nat -> Notify -> bool * Notify;
  drop_notified : nat -> Notify -> Notify;
}.

(** What it is documented to do: [notify_one] gives one permit, to a waiter or to keep, and a
    kept one is not doubled; a future completes by taking a permit, or waits; a permit no other
    task waits for is there for whoever polls. *)
Class NotifyLaws `{NotifyApi} := {
  permits : Notify -> nat;
  waiters : Notify -> list nat;
  default_permits : permits notify_default = 0%nat;
  default_waiters : waiters notify_default = [];
  notify_permits n : (0 < permits (notify_one n) <= S (permits n))%nat;
  notify_waiters n : waiters (notify_one n) ⊆ waiters n;
  poll_permits t n :
    if (poll_notified t n).1 then (S (permits (poll_notified t n).2) <= permits n)%nat
    else permits (poll_notified t n).2 = permits n;
  poll_waiters t n t' :
    t' ∈ waiters (poll_notified t n).2 -> t' ∈ waiters n /\ t' <> t \/ (poll_notified t n).1 = false /\ t' = t;
  poll_alone t n : (0 < permits n)%nat -> (forall t', t' ∈ waiters n -> t' = t) -> (poll_notified t n).1 = true;
  drop_permits t n : (permits (drop_notified t n) <= permits n)%nat;
  drop_waiters t n t' : t' ∈ waiters (drop_notified t n) -> t' ∈ waiters n /\ t' <> t;
}.

Section Sse.
Context `{NotifyApi}.

(** ** Data *)

Record StreamGate := { release : Notify; started : Notify }.

Definition StreamGate_default : StreamGate := {| release := notify_default; started := notify_default |}.

(** Response bodies: [Full], and the stream [first.chain(last)] of [gated_body] before its first
    frame, before [last] is polled, within [last], and exhausted. *)
Inductive SseBody := Full (data : string) | First | Last | AwaitRelease | Exhausted.

Record SseResponse := { content_type : option string; sse_body : SseBody }.

(** A connection: waiting for a request; its [respond] future at one of its awaits; its response
    body being sent; gone. *)
Inductive Conn := Idle | OnStarted | Collecting | Sending (body : SseBody) | Closed.

(** What a client sees of its connection. *)
Inductive Event := Answer (response : SseResponse) | Data (data : string) | End.

Record SseServer := { gate : StreamGate; conns : list Conn; events : list (nat * Event); failed : option string }.

Definition blank_line : string := String newline (String newline EmptyString).
Definition first_event : string := "data: first" +:+ blank_line.
Definition done_event : string := "data: [DONE]" +:+ blank_line.

(** ** Handlers *)

(** [gated_body] and its polls: the frame given, if any, [None] the end of the stream. *)
Definition gated_body : SseBody := First.

Inductive Polled := Pending | Ready (frame : option string).

(** [gate.release.notified().await] within [last]. *)
Definition poll_release (t : nat) (g : StreamGate) : Polled * SseBody * StreamGate :=
  let '(ready, n) := poll_notified t (release g) in
  let g := {| release := n; started := started g |} in
  if ready then (Ready (Some done_event), Exhausted, g) else (Pending, AwaitRelease, g).

Definition poll_frame (t : nat) (b : SseBody) (g : StreamGate) : Polled * SseBody * StreamGate :=
  match b with
  | Full data => (Ready (Some data), Exhausted, g)
  | First => (Ready (Some first_event), Last, g)
  | Last => poll_release t {| release := release g; started := notify_one (started g) |}
  | AwaitRelease => poll_release t g
  | Exhausted => (Ready None, Exhausted, g)
  end.

(** [stream_response], once the request body has been collected, successfully or not. *)
Definition stream_response : SseResponse :=
  {| content_type := Some "text/event-stream"; sse_body := gated_body |}.

(** [Response::new(body)]. *)
Definition response_of (data : string) : SseResponse := {| content_type := None; sse_body := Full data |}.

(** [gate.started.notified().await] within [respond]. *)
Definition poll_started (t : nat) (g : StreamGate) : option SseResponse * Conn * StreamGate :=
  let '(ready, n) := poll_notified t (started g) in
  let g := {| release := release g; started := n |} in
  if ready then (Some (response_of "started"), Idle, g) else (None, OnStarted, g).

(** [respond], up to its answer or its first await. *)
Definition respond (t : nat) (path : string) (g : StreamGate) : option SseResponse * Conn * StreamGate :=
  if String.eqb path "/ready" then (Some (response_of "ready"), Idle, g)
  else if String.eqb path "/oracle/started" then poll_started t g
  else if String.eqb path "/oracle/release" then
    (Some (response_of "released"), Idle, {| release := notify_one (release g); started := started g |})
  else (None, Collecting, g).

(** ** Steps *)

Inductive SseLabel :=
| Accept (connection : result string unit)   (** [listener.accept()], and the connection's task spawned *)
| Request (c : nat) (path : string)          (** hyper calls the service *)
| Collected (c : nat) (body : result string string)
| Poll (c : nat)                             (** hyper polls the pending response or its body *)
| Close (c : nat).

Definition put (c : nat) (x : Conn) (evs : list Event) (g : StreamGate) (s : SseServer) : SseServer :=
  {| gate := g; conns := <[c := x]> (conns s); events := events s ++ map (pair c) evs; failed := failed s |}.

(** A response of the service starts to be sent; until then the future is at an await. *)
Definition answered (c : nat) (r : option SseResponse * Conn * StreamGate) (s : SseServer) : SseServer :=
  match r with
  | (Some r, _, g) => put c (Sending (sse_body r)) [Answer r] g s
  | (None, x, g) => put c x [] g s
  end.

(** A poll of a response body; after its end the connection takes the next request. *)
Definition frame_sent (c : nat) (p : Polled * SseBody * StreamGate) (s : SseServer) : SseServer :=
  match p with
  | (Pending, b, g) => put c (Sending b) [] g s
  | (Ready (Some d), b, g) => put c (Sending b) [Data d] g s
  | (Ready None, _, g) => put c Idle [End] g s
  end.

(** The connection's task is dropped, with a pending [notified()] future if it has one. *)
Definition drop_conn (c : nat) (x : Conn) (g : StreamGate) : StreamGate :=
  match x with
  | OnStarted => {| release := release g; started := drop_notified c (started g) |}
  | Sending AwaitRelease => {| release := drop_notified c (release g); started := started g |}
  | _ => g
  end.

(** [serve]: a failed [accept] ends the loop with its error, and the process with it. *)
Definition sse_fire (l : SseLabel) (s : SseServer) : option SseServer :=
  if failed s is Some _ then None else
  match l with
  | Accept (Ok _) =>
      Some {| gate := gate s; conns := conns s ++ [Idle]; events := events s; failed := None |}
  | Accept (Err e) => Some {| gate := gate s; conns := conns s; events := events s; failed := Some e |}
  | Request c path =>
      match conns s !! c with Some Idle => Some (answered c (respond c path (gate s)) s) | _ => None end
  | Collected c _ =>
      match conns s !! c with
      | Some Collecting => Some (answered c (Some stream_response, Idle, gate s) s)
      | _ => None
      end
  | Poll c =>
      match conns s !! c with
      | Some OnStarted => Some (answered c (poll_started c (gate s)) s)
      | Some (Sending b) => Some (frame_sent c (poll_frame c b (gate s)) s)
      | _ => None
      end
  | Close c => x ← conns s !! c; Some (put c Closed [] (drop_conn c x (gate s)) s)
  end.

Fixpoint sse_run (ls : list SseLabel) (s : SseServer) : option SseServer :=
  match ls with
  | [] => Some s
  | l :: rest => s' ← sse_fire l s; sse_run rest s'
  end.

(** [serve]: bind, then the loop with a fresh gate. *)
Definition serve (bind : result string unit) : result string SseServer :=
  let! _ := bind in
  Ok {| gate := StreamGate_default; conns := []; events := []; failed := None |}.

(** ** What the clients have seen *)

Definition is_data (d : string) (e : Event) : bool := match e with Data d' => String.eqb d d' | _ => false end.
Definition is_answer (d : string) (e : Event) : bool :=
  match e with Answer {| sse_body := Full d' |} => String.eqb d d' | _ => false end.

Definition count (P : Event -> bool) (s : SseServer) : nat := length (List.filter (fun ce => P ce.2) (events s)).

(** The events of one connection. *)
Definition seen (c : nat) (s : SseServer) : list Event := map snd (filter (fun ce => ce.1 = c) (events s)).

(** The frames still to come of a body. *)
Definition frames_left (b : SseBody) : list string :=
  match b with
  | Full d => [d]
  | First => [first_event; done_event]
  | Last | AwaitRelease => [done_event]
  | Exhausted => []
  end.

(** Well-formed exchanges, one after the other: an answer, the frames of its body in order, its
    end. [None] between two exchanges, else the frames still owed. *)
Definition wire_step (st : option (list string)) (e : Event) : option (option (list string)) :=
  match st, e with
  | None, Answer r => Some (Some (frames_left (sse_body r)))
  | Some (d :: rest), Data d' => if String.eqb d d' then Some (Some rest) else None
  | Some [], End => Some None
  | _, _ => None
  end.
Fixpoint wire (st : option (list string)) (evs : list Event) : option (option (list string)) :=
  match evs with
  | [] => Some st
  | e :: rest => st' ← wire_step st e; wire st' rest
  end.

Lemma wire_app evs1 evs2 : forall st st1, wire st evs1 = Some st1 -> wire st (evs1 ++ evs2) = wire st1 evs2.
Proof.
  induction evs1 as [|e evs1 IH]; intros st st1 Hw; simpl in *; [by injection Hw as ->|].
  destruct (wire_step st e); [|done]. by apply IH.
Qed.

(** ** The invariant *)

Definition at_last (x : Conn) : nat := match x with Sending Last => 1%nat | _ => 0%nat end.

(** What a connection owes its client; a closed one may owe anything. *)
Definition owes (x : Conn) (st : option (list string)) : Prop :=
  match x with Closed => True | Sending b => st = Some (frames_left b) | _ => st = None end.

Lemma weight_insert (f : Conn -> nat) l : forall c x y,
  l !! c = Some x -> (sum_list_with f (<[c := y]> l) + f x = sum_list_with f l + f y)%nat.
Proof.
  induction l as [|z l IH]; intros [|c] x y Hc; simpl in *; [done|done|simplify_eq; lia|].
  specialize (IH c x y Hc). lia.
Qed.

Context `{!NotifyLaws}.

Record sse_inv (s : SseServer) : Prop := {
  inv_release : (permits (release (gate s)) + count (is_data done_event) s <= count (is_answer "released") s)%nat;
  inv_started :
    (permits (started (gate s)) + count (is_answer "started") s + sum_list_with at_last (conns s) <=
     count (is_data first_event) s)%nat;
  inv_waiting : forall c, c ∈ waiters (release (gate s)) -> conns s !! c = Some (Sending AwaitRelease);
  inv_wire : forall c x, conns s !! c = Some x -> exists st, wire None (seen c s) = Some st /\ owes x st;
  inv_new : forall c, conns s !! c = None -> seen c s = [];
  inv_full : forall c, conns s !! c <> Some (Sending (Full done_event));
}.

Lemma count_put P c x evs g s :
  count P (put c x evs g s) = (count P s + length (List.filter P evs))%nat.
Proof.
  unfold count, put. cbn [events]. rewrite List.filter_app, length_app. f_equal.
  induction evs as [|e evs IH]; [done|]. cbn. by destruct (P e); cbn; rewrite IH.
Qed.

Lemma seen_put c c' x evs g s : seen c' (put c x evs g s) = seen c' s ++ (if decide (c = c') then evs else []).
Proof.
  unfold seen, put. cbn [events]. rewrite filter_app, map_app. f_equal.
  induction evs as [|e evs IH]; [by destruct (decide _)|]. cbn [map]. rewrite filter_cons. cbn [fst].
  destruct (decide (c = c')); [|done]. cbn. by rewrite IH.
Qed.

Lemma done_is_not_first : String.eqb first_event done_event = false /\ String.eqb done_event first_event = false.
Proof. done. Qed.

Ltac counts := cbn; rewrite ?String.eqb_refl, ?(proj1 done_is_not_first), ?(proj2 done_is_not_first); cbn; lia.

(** A step of connection [c], from [x] to [y], with the gate [g]. *)
Lemma sse_inv_put c x y evs g s :
  sse_inv s -> conns s !! c = Some x ->
  (permits (release g) + length (List.filter (is_data done_event) evs) <=
   permits (release (gate s)) + length (List.filter (is_answer "released") evs))%nat ->
  (permits (started g) + length (List.filter (is_answer "started") evs) + at_last y <=
   permits (started (gate s)) + length (List.filter (is_data first_event) evs) + at_last x)%nat ->
  (forall t, t ∈ waiters (release g) -> t ∈ waiters (release (gate s)) /\ t <> c \/ t = c /\ y = Sending AwaitRelease) ->
  (forall st, owes x st -> exists st', wire st evs = Some st' /\ owes y st') ->
  y <> Sending (Full done_event) ->
  sse_inv (put c y evs g s).
Proof.
  intros [I1 I2 I3 I4 I5 I6] Hc H1 H2 H3 H4 Hy. pose proof (weight_insert at_last _ c x y Hc) as Hw.
  assert (Hlt : (c < length (conns s))%nat) by by eapply lookup_lt_Some.
  constructor; rewrite ?count_put; cbn [put gate conns].
  - lia.
  - lia.
  - intros t Ht. destruct (H3 t Ht) as [[Hx Hne]|[-> ->]]; [rewrite list_lookup_insert_ne by done; auto|].
    by apply list_lookup_insert_eq.
  - intros c' z. rewrite seen_put. destruct (decide (c = c')) as [<-|Hne].
    + rewrite list_lookup_insert_eq by done. intros [= <-]. destruct (I4 c x Hc) as (st & Hst & Ho).
      destruct (H4 st Ho) as (st' & Hst' & Ho'). exists st'. split; [|done]. by rewrite (wire_app _ _ _ st).
    + rewrite list_lookup_insert_ne, app_nil_r by done. apply I4.
  - intros c' Hn. rewrite seen_put. destruct (decide (c = c')) as [<-|Hne].
    + by rewrite list_lookup_insert_eq in Hn.
    + rewrite list_lookup_insert_ne in Hn by done. by rewrite I5.
  - intros c'. destruct (decide (c = c')) as [<-|Hne]; [rewrite list_lookup_insert_eq by done; congruence|].
    by rewrite list_lookup_insert_ne.
Qed.

(** A gate whose release side is not touched keeps its waiters, the mover not among them. *)
Lemma unmoved c x y (g : StreamGate) s :
  sse_inv s -> conns s !! c = Some x -> x <> Sending AwaitRelease -> release g = release (gate s) ->
  forall t, t ∈ waiters (release g) -> t ∈ waiters (release (gate s)) /\ t <> c \/ t = c /\ y = Sending AwaitRelease.
Proof.
  intros [_ _ I3 _ _ _] Hc Hx -> t Ht. left. split; [done|]. intros ->. specialize (I3 c Ht). congruence.
Qed.

Lemma sse_inv_poll_started c x s :
  sse_inv s -> conns s !! c = Some x -> x = Idle \/ x = OnStarted -> sse_inv (answered c (poll_started c (gate s)) s).
Proof.
  intros Hs Hc Hx. pose proof (poll_permits c (started (gate s))) as Hp. unfold poll_started, answered.
  destruct (poll_notified c (started (gate s))) as [[] n]; cbn in Hp |- *;
    (apply (sse_inv_put c x); [done|done|counts|destruct Hx as [->| ->]; counts|
      by apply (unmoved c x); [..|by destruct Hx as [->| ->]|]| |done]);
    intros st Ho; eexists; (split; [|done]); by destruct Hx as [->| ->]; cbn in Ho; subst st.
Qed.

Lemma sse_inv_respond c path s :
  sse_inv s -> conns s !! c = Some Idle -> sse_inv (answered c (respond c path (gate s)) s).
Proof.
  intros Hs Hc. unfold respond. destruct (String.eqb path "/ready"); [|destruct (String.eqb path "/oracle/started");
    [by apply (sse_inv_poll_started c Idle); auto|destruct (String.eqb path "/oracle/release")]];
    cbn [answered]; (apply (sse_inv_put c Idle); [done|done|cbn|counts| |intros st Ho; eexists; (split; [|done]); by cbn in Ho; subst st|done]).
  - lia.
  - by apply (unmoved c Idle).
  - pose proof (notify_permits (release (gate s))). lia.
  - intros t Ht%notify_waiters. by apply (unmoved c Idle _ (gate s)).
  - lia.
  - by apply (unmoved c Idle).
Qed.

Lemma sse_inv_poll_release c x g s :
  sse_inv s -> conns s !! c = Some x -> release g = release (gate s) -> x = Sending Last \/ x = Sending AwaitRelease ->
  (permits (started g) <= permits (started (gate s)) + at_last x)%nat ->
  sse_inv (frame_sent c (poll_release c g) s).
Proof.
  intros Hs Hc Hg Hx Hst. pose proof (poll_permits c (release g)) as Hp. pose proof (poll_waiters c (release g)) as Hw.
  unfold poll_release, frame_sent. rewrite Hg in Hp, Hw |- *.
  destruct (poll_notified c (release (gate s))) as [[] n]; cbn in Hp, Hw |- *; (apply (sse_inv_put c x); [done|done|counts|counts| | |done]).
  - intros t Ht. by destruct (Hw t Ht) as [?|[? _]]; [left|].
  - intros st Ho. exists (Some []). split; [|done]. by destruct Hx as [->| ->]; cbn in Ho; subst st.
  - intros t Ht. by destruct (Hw t Ht) as [?|[_ ?]]; [left|right].
  - intros st Ho. eexists. split; [done|]. by destruct Hx as [->| ->]; cbn in Ho; subst st.
Qed.

Lemma sse_inv_poll_frame c b s :
  sse_inv s -> conns s !! c = Some (Sending b) -> sse_inv (frame_sent c (poll_frame c b (gate s)) s).
Proof.
  intros Hs Hc. pose proof (sse_inv_put c (Sending b)) as Hput. destruct b; cbn [poll_frame frame_sent].
  - assert (String.eqb done_event data = false) as Hd.
    { apply String.eqb_neq. intros <-. by apply (inv_full _ Hs c). }
    apply Hput; [done|done|cbn; rewrite Hd; cbn; lia|counts|by eapply unmoved| |done].
    intros st ->. cbn. rewrite String.eqb_refl. by eexists.
  - apply Hput; [done|done|counts|counts|by eapply unmoved| |done]. intros st ->. by eexists.
  - eapply sse_inv_poll_release; [done|done|done|by left|]. cbn. pose proof (notify_permits (started (gate s))). lia.
  - eapply sse_inv_poll_release; [done|done|done|by right|]. lia.
  - apply Hput; [done|done|counts|counts|by eapply unmoved| |done]. intros st ->. by eexists.
Qed.

Lemma sse_inv_close c x s : sse_inv s -> conns s !! c = Some x -> sse_inv (put c Closed [] (drop_conn c x (gate s)) s).
Proof.
  intros Hs Hc.
  assert (Hput : forall g, (permits (release g) <= permits (release (gate s)))%nat ->
    (permits (started g) <= permits (started (gate s)))%nat ->
    (forall t, t ∈ waiters (release g) -> t ∈ waiters (release (gate s)) /\ t <> c) -> sse_inv (put c Closed [] g s)).
  { intros g H1 H2 H3. apply (sse_inv_put c x); [done|done|counts|counts|by auto| |done]. intros st _. by exists st. }
  assert (Hkeep : x <> Sending AwaitRelease -> sse_inv (put c Closed [] (gate s) s)).
  { intros Hx. apply Hput; [done|done|]. intros t Ht. split; [done|]. intros ->.
    pose proof (inv_waiting _ Hs c Ht). congruence. }
  destruct x as [| | |[]|]; cbn [drop_conn]; try by apply Hkeep.
  - apply Hput; [done|apply drop_permits|]. cbn. intros t Ht. split; [done|]. intros ->.
    pose proof (inv_waiting _ Hs c Ht). congruence.
  - apply Hput; [apply drop_permits|done|]. cbn. by intros t Ht%drop_waiters.
Qed.

Lemma sse_inv_fire l s s' : sse_inv s -> sse_fire l s = Some s' -> sse_inv s'.
Proof.
  intros Hs. unfold sse_fire. destruct (failed s); [done|]. destruct l as [[[]|e]|c path|c body|c|c].
  - intros [= <-]. destruct Hs as [I1 I2 I3 I4 I5 I6]. constructor; cbn [gate conns events].
    + exact I1.
    + rewrite sum_list_with_app. cbn. unfold count in *. cbn [events]. lia.
    + intros c Hc. by apply lookup_app_l_Some, I3.
    + intros c x [Hx|[Hle Hx]]%lookup_app_Some; [by apply I4|].
      apply list_lookup_singleton_Some in Hx as [Hz <-]. exists None. split; [|done].
      change (seen c _) with (seen c s). rewrite I5; [done|]. apply lookup_ge_None. lia.
    + intros c Hn. apply I5. rewrite lookup_ge_None in Hn |- *. rewrite length_app in Hn. lia.
    + intros c [Hx|[_ Hx]]%lookup_app_Some; [by apply (I6 c)|]. by apply list_lookup_singleton_Some in Hx as [_ Hx].
  - intros [= <-]. destruct Hs as [I1 I2 I3 I4 I5 I6]. by constructor.
  - destruct (conns s !! c) as [[]|] eqn:Hc; try done. intros [= <-]. by apply sse_inv_respond.
  - destruct (conns s !! c) as [[]|] eqn:Hc; try done. intros [= <-]. cbn [answered].
    apply (sse_inv_put c Collecting); [done|done|counts|counts|by eapply unmoved| |done]. intros st ->. by eexists.
  - destruct (conns s !! c) as [[]|] eqn:Hc; try done; intros [= <-]; [by eapply sse_inv_poll_started; auto|by apply sse_inv_poll_frame].
  - destruct (conns s !! c) as [x|] eqn:Hc; [|done]. intros [= <-]. by apply sse_inv_close.
Qed.

Lemma sse_inv_run ls : forall s s', sse_inv s -> sse_run ls s = Some s' -> sse_inv s'.
Proof.
  induction ls as [|l ls IH]; intros s s' Hs Hr; simpl in Hr; [by injection Hr as <-|].
  destruct (sse_fire l s) as [s1|] eqn:Hf; [|done]. eapply IH; [by eapply sse_inv_fire|done].
Qed.

Lemma sse_inv_serve bind s : serve bind = Ok s -> sse_inv s.
Proof.
  destruct bind; [|done]. intros [= <-]. constructor; cbn; rewrite ?default_permits, ?default_waiters; try done.
  by intros c ?%not_elem_of_nil.
Qed.

(** C37. Whatever connects, asks, hangs up, and in whatever order the tasks run: no terminal event is
    sent that no release request paid for, and no [/oracle/started] is answered before a first
    event was sent for it; every client sees well-formed exchanges, an event stream being its
    first event, then the terminal one, then its end; and a release request that finds one stream
    waiting lets its very next poll send the terminal event. *)
Theorem final_event_waits_for_release bind s0 ls s :
  serve bind = Ok s0 -> sse_run ls s0 = Some s ->
  (count (is_data done_event) s <= count (is_answer "released") s)%nat /\
  (count (is_answer "started") s <= count (is_data first_event) s)%nat /\
  (forall c, is_Some (wire None (seen c s))) /\
  (forall c k s1,
     conns s !! c = Some (Sending AwaitRelease) ->
     (forall c', conns s !! c' = Some (Sending AwaitRelease) -> c' = c) ->
     sse_fire (Request k "/oracle/release") s = Some s1 ->
     exists s2, sse_fire (Poll c) s1 = Some s2 /\ events s2 = events s1 ++ [(c, Data done_event)]).
Proof.
  intros Hb Hr. apply sse_inv_serve in Hb. destruct (sse_inv_run _ _ _ Hb Hr) as [I1 I2 I3 I4 I5 I6]. split_and!; [lia|lia| |].
  - intros c. destruct (conns s !! c) as [x|] eqn:Hc; [|by rewrite I5].
    destruct (I4 c x Hc) as (st & -> & _). by eexists.
  - intros c k s1 Hc Hone. unfold sse_fire at 1. destruct (failed s) eqn:Hf; [done|].
    destruct (conns s !! k) as [[]|] eqn:Hk; try done. intros [= <-].
    unfold sse_fire, respond. cbn [String.eqb Ascii.eqb Bool.eqb answered put gate failed conns]. rewrite Hf.
    rewrite list_lookup_insert_ne by congruence. rewrite Hc. cbn [poll_frame].
    assert (Hready : (poll_notified c (notify_one (release (gate s)))).1 = true).
    { apply poll_alone; [apply notify_permits|]. intros t Ht%notify_waiters. by apply Hone, I3. }
    eexists. split; [done|]. unfold poll_release. cbn [release started].
    by destruct (poll_notified _ _) as [[] n].
Qed.
End Sse.

(** ** An instance *)

(** Tokio's policy: the waiters in order, with whether they have been given a permit. *)
Record FifoNotify := { kept : bool; queue : list (nat * bool) }.

Fixpoint wake (q : list (nat * bool)) : option (list (nat * bool)) :=
  match q with
  | [] => None
  | (t, false) :: q => Some ((t, true) :: q)
  | (t, true) :: q => cons (t, true) <$> wake q
  end.
Definition fifo_notify (n : FifoNotify) : FifoNotify :=
  match wake (queue n) with
  | Some q => {| kept := kept n; queue := q |}
  | None => {| kept := true; queue := queue n |}
  end.
Definition others (t : nat) (q : list (nat * bool)) : list (nat * bool) := List.filter (fun x => negb (x.1 =? t)%nat) q.
Definition given (t : nat) (q : list (nat * bool)) : bool := existsb (fun x => (x.1 =? t)%nat && x.2) q.
Definition queued (t : nat) (q : list (nat * bool)) : bool := existsb (fun x => (x.1 =? t)%nat) q.
Definition fifo_poll (t : nat) (n : FifoNotify) : bool * FifoNotify :=
  if given t (queue n) then (true, {| kept := kept n; queue := others t (queue n) |})
  else if kept n then (true, {| kept := false; queue := others t (queue n) |})
  else (false, {| kept := false; queue := if queued t (queue n) then queue n else queue n ++ [(t, false)] |}).
Definition fifo_drop (t : nat) (n : FifoNotify) : FifoNotify :=
  let rest := {| kept := kept n; queue := others t (queue n) |} in
  if given t (queue n) then fifo_notify rest else rest.

#[export] Instance Fifo : NotifyApi := {|
  Notify := FifoNotify; notify_default := {| kept := false; queue := [] |}; notify_one := fifo_notify;
  poll_notified := fifo_poll; drop_notified := fifo_drop;
|}.

Definition woken (q : list (nat * bool)) : nat := length (List.filter snd q).
Definition fifo_permits (n : FifoNotify) : nat := ((if kept n then 1 else 0) + woken (queue n))%nat.

Lemma wake_spec q q' : wake q = Some q' -> woken q' = S (woken q) /\ map fst q' = map fst q.
Proof.
  revert q'. induction q as [|[t []] q IH]; intros q'; cbn; [done| |by intros [= <-]].
  destruct (wake q) as [r|]; [|done]. intros [= <-]. destruct (IH r eq_refl) as [H1 H2]. unfold woken in *. cbn.
  by rewrite H1, H2.
Qed.

Lemma woken_others t q : (woken (others t q) + (if given t q then 1 else 0) <= woken q)%nat.
Proof.
  unfold woken, others, given. induction q as [|[u []] q IH]; cbn; [lia|..]; destruct (u =? t)%nat; cbn in *; lia.
Qed.

Lemma in_others t t' q : t' ∈ map fst (others t q) -> t' ∈ map fst q /\ t' <> t.
Proof.
  unfold others. intros ([u b] & -> & Hin)%list_elem_of_fmap. apply list_elem_of_In, List.filter_In in Hin as [Hin Hne].
  cbn in *. split; [apply list_elem_of_fmap; exists (u, b); split; [done|by apply list_elem_of_In]|].
  intros ->. by rewrite Nat.eqb_refl in Hne.
Qed.

Lemma fifo_notify_spec n :
  (0 < fifo_permits (fifo_notify n) <= S (fifo_permits n))%nat /\ map fst (queue (fifo_notify n)) = map fst (queue n).
Proof.
  unfold fifo_notify, fifo_permits. destruct (wake (queue n)) as [q|] eqn:Hq; cbn [kept queue].
  - apply wake_spec in Hq as [H1 H2]. rewrite H1. split; [lia|done].
  - split; [destruct (kept n); lia|done].
Qed.

Lemma queued_spec t q : queued t q = true <-> t ∈ map fst q.
Proof.
  unfold queued. rewrite existsb_exists, list_elem_of_fmap. split.
  - intros (x & Hx & He%Nat.eqb_eq). exists x. split; [done|by apply list_elem_of_In].
  - intros (x & -> & Hx). exists x. split; [by apply list_elem_of_In|apply Nat.eqb_refl].
Qed.

Lemma given_alone t q : (0 < woken q)%nat -> (forall t', t' ∈ map fst q -> t' = t) -> given t q = true.
Proof.
  unfold woken, given. intros Hw Ha. destruct (List.filter snd q) as [|x l] eqn:Hf; [cbn in Hw; lia|].
  assert (Hx : In x (List.filter snd q)) by (rewrite Hf; by left). apply List.filter_In in Hx as [Hx Hs].
  apply existsb_exists. exists x. split; [done|]. rewrite Hs, andb_true_r. apply Nat.eqb_eq, Ha, list_elem_of_fmap.
  exists x. split; [done|by apply list_elem_of_In].
Qed.

#[export] Instance FifoLaws : NotifyLaws (H := Fifo).
Proof.
  refine (Build_NotifyLaws Fifo fifo_permits (fun n => map fst (queue n)) _ _ _ _ _ _ _ _ _).
  - done.
  - done.
  - intros n. apply fifo_notify_spec.
  - intros n t. cbn. by rewrite (proj2 (fifo_notify_spec n)).
  - intros t n. cbn. unfold fifo_poll, fifo_permits. pose proof (woken_others t (queue n)).
    destruct (given t (queue n)); cbn [fst snd kept queue]; [lia|]. destruct (kept n); cbn [fst snd kept queue]; [lia|].
    destruct (queued t (queue n)); [done|]. unfold woken. by rewrite List.filter_app, app_nil_r.
  - intros t n t'. cbn. unfold fifo_poll. destruct (given t (queue n)); cbn; [by intros ?%in_others; left|].
    destruct (kept n); cbn; [by intros ?%in_others; left|].
    destruct (queued t (queue n)) eqn:Hq; [intros Hin|rewrite map_app; intros [Hin|Hin]%elem_of_app].
    1, 2: destruct (decide (t' = t)); auto.
    apply list_elem_of_singleton in Hin. auto.
  - intros t n Hp Ha. cbn. unfold fifo_poll. destruct (given t (queue n)) eqn:Hg; [done|]. destruct (kept n) eqn:Hk; [done|].
    unfold permits, fifo_permits in Hp. rewrite Hk in Hp. cbn in Hp. by rewrite (given_alone t (queue n)) in Hg.
  - intros t n. cbn. unfold fifo_drop. pose proof (woken_others t (queue n)).
    set (rest := {| kept := kept n; queue := others t (queue n) |}).
    assert (fifo_permits rest = (if kept n then 1 else 0) + woken (others t (queue n)))%nat as Hr by done.
    pose proof (proj1 (fifo_notify_spec rest)). unfold fifo_permits at 2. destruct (given t (queue n)); lia.
  - intros t n t'. cbn. unfold fifo_drop. destruct (given t (queue n)); [rewrite (proj2 (fifo_notify_spec _))|]; by intros ?%in_others.
Qed.

(** A client streams, its test waits for the start, then releases it. *)
Definition gated_exchange : list SseLabel :=
  [Accept (Ok tt); Accept (Ok tt); Request 1 "/oracle/started"; Request 0 "/v1/chat"; Collected 0 (Ok "{}");
   Poll 0; Poll 0; Poll 1; Poll 1; Poll 1].
Definition gate_closed : SseServer (H := Fifo) := {| gate := StreamGate_default; conns := []; events := []; failed := None |}.
Definition held_back : SseServer (H := Fifo) := default gate_closed (sse_run gated_exchange gate_closed).

Lemma final_event_waits_for_release_witness :
  seen 0 held_back = [Answer stream_response; Data first_event] /\
  seen 1 held_back = [Answer (response_of "started"); Data "started"; End] /\
  (count (is_data done_event) held_back <= count (is_answer "released") held_back)%nat /\
  exists s1 s2, sse_fire (Request 1 "/oracle/release") held_back = Some s1 /\ sse_fire (Poll 0) s1 = Some s2 /\
    events s2 = events s1 ++ [(0%nat, Data done_event)].
Proof.
  assert (Hr : sse_run gated_exchange gate_closed = Some held_back) by (vm_compute; reflexivity).
  pose proof (final_event_waits_for_release (Ok tt) gate_closed gated_exchange held_back eq_refl Hr) as (H1 & _ & _ & H4).
  split; [vm_compute; reflexivity|split; [vm_compute; reflexivity|split; [exact H1|]]].
  eexists.
  edestruct (H4 0%nat 1%nat) as (s2 & Hs2 & He); [reflexivity| |vm_compute; reflexivity|exists s2].
  - intros [|[|c]]; [done|by vm_compute|by vm_compute].
  - split; [vm_compute; reflexivity|split; [exact Hs2|exact He]].
Defined.
