(* ===== verification/Supervisor.v ===== *)
(** * Supervision and shutdown ([src/bin/praxis_extproc.rs], the running process)

    [run_with_sidecars], [serve_bounded] and [shutdown_with_deadline] as a state machine. A state
    holds the three supervised tasks, the latches they share (drain, force, the shutdown
    broadcast, the readiness of the metrics server), the drain deadline with a clock in seconds,
    the health statuses, and how far [run_with_sidecars] has got. [fire] takes one step, named by
    a label; the order of steps is the scheduler's. What tonic, hyper and the clients do is a
    choice of labels: an error may end a task at any moment, but a server given a shutdown future
    ends without one only after that future has resolved. *)

From S2P Require Import Prelude Health.

(** ** States *)

(** [Selected]: the supervised futures. *)
Inductive Selected := Foreground | Health | Metrics.

#[export] Instance Selected_eq_dec : EqDecision Selected.
Proof. solve_decision. Defined.

(** An error is its text; a panic of a spawned task is an error ([task_outcome]). *)
Abbreviation Outcome := (result string unit).

Inductive TaskState := NotStarted | Running | Done (r : Outcome).

(** The metrics server's [ready] channel: unsent, sent, dropped unsent. *)
Inductive Ready := Pending | Sent | Dropped.

#[export] Instance Ready_eq_dec : EqDecision Ready.
Proof. solve_decision. Defined.

(** Where [run_with_sidecars] is: awaiting [metrics_ready_rx], in the [select!], awaiting the
    health and the metrics sidecar with the outcome in hand, returned. *)
Inductive Phase :=
| AwaitReady
| InSelect
| DrainHealth (outcome : Outcome) (selected : Selected)
| DrainMetrics (outcome : Outcome) (selected : Selected)
| Returned (outcome : Outcome).

(** The foreground: [wait_drain], or [serve_grpc]: a setup error, or serving with a drain
    timeout. *)
Inductive Service :=
| WaitDrain
| ServeGrpc (setup : result string Z).

(** What [run_with_sidecars] is called with. *)
Record Args := { serving : bool; fips_active : bool; foreground : Service }.

Record Sup := {
  tasks : Selected -> TaskState;
  ready : Ready;
  drain : bool;
  force : bool;
  dropped : bool;
  deadline : option Z;
  clock : Z;
  reporter : HealthReporter;
  phase : Phase;
}.

Definition upd (t : Selected) (v : TaskState) (ts : Selected -> TaskState) : Selected -> TaskState :=
  fun t' => if decide (t' = t) then v else ts t'.

Definition with_task (t : Selected) (v : TaskState) (s : Sup) : Sup :=
  {| tasks := upd t v (tasks s); ready := ready s; drain := drain s; force := force s; dropped := dropped s;
     deadline := deadline s; clock := clock s; reporter := reporter s; phase := phase s |}.
Definition with_ready (v : Ready) (s : Sup) : Sup :=
  {| tasks := tasks s; ready := v; drain := drain s; force := force s; dropped := dropped s;
     deadline := deadline s; clock := clock s; reporter := reporter s; phase := phase s |}.
Definition with_drain (s : Sup) : Sup :=
  {| tasks := tasks s; ready := ready s; drain := true; force := force s; dropped := dropped s;
     deadline := deadline s; clock := clock s; reporter := reporter s; phase := phase s |}.
Definition with_force (s : Sup) : Sup :=
  {| tasks := tasks s; ready := ready s; drain := drain s; force := true; dropped := dropped s;
     deadline := deadline s; clock := clock s; reporter := reporter s; phase := phase s |}.
Definition with_dropped (s : Sup) : Sup :=
  {| tasks := tasks s; ready := ready s; drain := drain s; force := force s; dropped := true;
     deadline := deadline s; clock := clock s; reporter := reporter s; phase := phase s |}.
Definition with_deadline (v : Z) (s : Sup) : Sup :=
  {| tasks := tasks s; ready := ready s; drain := drain s; force := force s; dropped := dropped s;
     deadline := Some v; clock := clock s; reporter := reporter s; phase := phase s |}.
Definition with_clock (v : Z) (s : Sup) : Sup :=
  {| tasks := tasks s; ready := ready s; drain := drain s; force := force s; dropped := dropped s;
     deadline := deadline s; clock := v; reporter := reporter s; phase := phase s |}.
Definition with_reporter (v : HealthReporter) (s : Sup) : Sup :=
  {| tasks := tasks s; ready := ready s; drain := drain s; force := force s; dropped := dropped s;
     deadline := deadline s; clock := clock s; reporter := v; phase := phase s |}.
Definition with_phase (v : Phase) (s : Sup) : Sup :=
  {| tasks := tasks s; ready := ready s; drain := drain s; force := force s; dropped := dropped s;
     deadline := deadline s; clock := clock s; reporter := reporter s; phase := v |}.

(** Both sidecars spawned, nothing signalled; the reporter as tonic-health creates it. *)
Definition start : Sup :=
  {| tasks := fun t => match t with Foreground => NotStarted | _ => Running end; ready := Pending;
     drain := false; force := false; dropped := false; deadline := None; clock := 0;
     reporter := health_reporter; phase := AwaitReady |}.

Definition running (t : Selected) (s : Sup) : bool := match tasks s t with Running => true | _ => false end.

(** [phase] has not reached [Returned]: the shutdown sender is dropped when the function ends. *)
Definition is_done (t : Selected) (s : Sup) : option Outcome := match tasks s t with Done r => Some r | _ => None end.

(** ** Steps *)

Inductive Label :=
| Signal                            (** [shutdown_signal] resolves: the drain latch flips *)
| HealthStart                       (** the health task sets the initial statuses *)
| HealthOnDrain                     (** the health task observes the drain latch *)
| HealthEnds (r : Outcome)
| MetricsReady                      (** recorder, client and listener are up: [ready.send(())] *)
| MetricsEnds (r : Outcome)
| ReadyOk                           (** [metrics_ready_rx] yields: the foreground is created *)
| ReadyErr                          (** [metrics_ready_rx] fails: the metrics task's outcome returns *)
| ArmDeadline                       (** [shutdown_with_deadline]: drain seen, the timer spawned *)
| Tick                              (** one second passes *)
| ForceFires                        (** the timer's sleep is over: the force latch flips *)
| ServeEnds (r : Outcome)           (** tonic's serving future completes *)
| ForceClose                        (** [serve_bounded]'s other branch: the force latch is seen *)
| ForegroundEnds                    (** [wait_drain] or a setup error completes the foreground *)
| Select (t : Selected)             (** the [select!] takes a completed future *)
| JoinHealth                        (** [drain("health", health)], unless already selected *)
| JoinMetrics.                      (** [drain("metrics", metrics)], unless already selected *)

(** A server with a shutdown future: an error at any time, success only once it resolved. *)
Definition may_end (resolved : bool) (r : Outcome) : bool := is_ok r && resolved || negb (is_ok r).

Section Steps.
Variable args : Args.

Definition when (b : bool) (s : Sup) : option Sup := if b then Some s else None.

(** The gRPC drain timeout, when the foreground is a set-up gRPC service. *)
Definition grpc_drain : option Z :=
  match foreground args with ServeGrpc (Ok secs) => Some secs | _ => None end.

(** [shutdown_with_deadline]: once the drain latch is seen, the timer is armed. *)
Definition shutdown_with_deadline (s : Sup) : option Sup :=
  match grpc_drain with
  | Some secs =>
      when (running Foreground s && drain s && bool_decide (deadline s = None)) (with_deadline (clock s + secs) s)
  | None => None
  end.

(** Its detached timer: [sleep(drain)], then [force_tx.send(true)]. *)
Definition deadline_timer (s : Sup) : option Sup :=
  match deadline s with Some d => when (d <=? clock s) (with_force s) | None => None end.

(** [serve_bounded]: the serving future's result, or, given none, the force latch. *)
Definition serve_bounded (served : option Outcome) (s : Sup) : option Sup :=
  match grpc_drain, served with
  | Some _, Some r =>
      when (running Foreground s && may_end (bool_decide (is_Some (deadline s))) r) (with_task Foreground (Done r) s)
  | Some _, None => when (running Foreground s && force s) (with_task Foreground (Done (Ok tt)) s)
  | None, _ => None
  end.

(** [spawn_drain_signal]: the latch flips when [shutdown_signal] resolves. *)
Definition spawn_drain_signal (s : Sup) : Sup := with_drain s.

Definition fire (l : Label) (s : Sup) : option Sup :=
  match l with
  | Signal => Some (spawn_drain_signal s)
  | HealthStart =>
      when (running Health s && bool_decide (reporter s !! ext_proc_service = None))
        (with_reporter (set_initial_status (serving args) (fips_active args) (reporter s)) s)
  | HealthOnDrain =>
      when (running Health s && drain s && bool_decide (is_Some (reporter s !! ext_proc_service)))
        (with_reporter (report_not_serving_on_drain (reporter s)) s)
  | HealthEnds r => when (running Health s && may_end (dropped s) r) (with_task Health (Done r) s)
  | MetricsReady => when (running Metrics s && bool_decide (ready s = Pending)) (with_ready Sent s)
  | MetricsEnds r =>
      when (running Metrics s && may_end (dropped s && bool_decide (ready s = Sent)) r)
        (with_ready (if decide (ready s = Pending) then Dropped else ready s) (with_task Metrics (Done r) s))
  | ReadyOk =>
      match phase s with
      | AwaitReady => when (bool_decide (ready s = Sent)) (with_phase InSelect (with_task Foreground Running s))
      | _ => None
      end
  | ReadyErr =>
      match phase s, is_done Metrics s with
      | AwaitReady, Some r => when (bool_decide (ready s = Dropped)) (with_phase (Returned r) (with_dropped s))
      | _, _ => None
      end
  | ArmDeadline => shutdown_with_deadline s
  | Tick => Some (with_clock (clock s + 1) s)
  | ForceFires => deadline_timer s
  | ServeEnds r => serve_bounded (Some r) s
  | ForceClose => serve_bounded None s
  | ForegroundEnds =>
      match foreground args with
      | WaitDrain => when (running Foreground s && drain s) (with_task Foreground (Done (Ok tt)) s)
      | ServeGrpc (Err e) => when (running Foreground s) (with_task Foreground (Done (Err e)) s)
      | ServeGrpc (Ok _) => None
      end
  | Select t =>
      match phase s, is_done t s with
      | InSelect, Some r => Some (with_phase (DrainHealth r t) (with_dropped s))
      | _, _ => None
      end
  | JoinHealth =>
      match phase s with
      | DrainHealth r t =>
          when (bool_decide (t = Health) || bool_decide (is_Some (is_done Health s))) (with_phase (DrainMetrics r t) s)
      | _ => None
      end
  | JoinMetrics =>
      match phase s with
      | DrainMetrics r t =>
          when (bool_decide (t = Metrics) || bool_decide (is_Some (is_done Metrics s))) (with_phase (Returned r) s)
      | _ => None
      end
  end.

Fixpoint fire_all (ls : list Label) (s : Sup) : option Sup :=
  match ls with
  | [] => Some s
  | l :: ls => s' ← fire l s; fire_all ls s'
  end.

Inductive reachable : Sup -> Prop :=
| reach_start : reachable start
| reach_fire s l s' : reachable s -> fire l s = Some s' -> reachable s'.
End Steps.

(** ** Invariants *)

Section Invariants.
Variable args : Args.

(** The outcome in hand while the sidecars are joined is the selected task's, and the joined
    sidecars have ended; the early return has the metrics task's outcome and no foreground. *)
Definition phase_ok (s : Sup) : Prop :=
  match phase s with
  | AwaitReady => tasks s Foreground = NotStarted /\ dropped s = false
  | InSelect => tasks s Foreground <> NotStarted /\ ready s = Sent /\ dropped s = false
  | DrainHealth r t =>
      tasks s t = Done r /\ ready s = Sent /\ dropped s = true /\ (r = Ok tt -> drain s = true)
  | DrainMetrics r t =>
      tasks s t = Done r /\ ready s = Sent /\ dropped s = true /\ (r = Ok tt -> drain s = true) /\
      is_Some (is_done Health s)
  | Returned r =>
      dropped s = true /\
      ((exists t, tasks s t = Done r /\ ready s = Sent /\ (r = Ok tt -> drain s = true) /\
          is_Some (is_done Health s) /\ is_Some (is_done Metrics s)) \/
       (exists e, r = Err e /\ tasks s Metrics = Done r /\ tasks s Foreground = NotStarted /\ ready s = Dropped))
  end.

(** A task that ended without an error had a reason to. *)
Definition ok_reason (s : Sup) : Prop :=
  (tasks s Health = Done (Ok tt) -> dropped s = true) /\
  (tasks s Metrics = Done (Ok tt) -> dropped s = true /\ ready s = Sent) /\
  (tasks s Foreground = Done (Ok tt) -> drain s = true) /\
  (tasks s Foreground <> NotStarted -> ready s = Sent).

(** The deadline follows the drain signal, and force the deadline. *)
Definition deadline_ok (s : Sup) : Prop :=
  (is_Some (deadline s) -> drain s = true) /\
  (force s = true -> exists d, deadline s = Some d /\ d <= clock s) /\
  (forall d secs, deadline s = Some d -> grpc_drain args = Some secs -> d <= clock s + secs).

(** The statuses reported: tonic-health's own, and, once set, the two services'. *)
Definition health_ok (s : Sup) : Prop :=
  reporter s !! default_service = Some Serving /\
  (reporter s !! ext_proc_service = None /\ reporter s !! FIPS_SERVICE = None \/
   reporter s !! FIPS_SERVICE = Some (if fips_active args then Serving else NotServing) /\
   (reporter s !! ext_proc_service = Some NotServing \/
    reporter s !! ext_proc_service = Some Serving /\ serving args = true)).

Ltac guards :=
  repeat match goal with
  | H : _ && _ = true |- _ => apply andb_true_iff in H; destruct H
  | H : bool_decide _ = true |- _ => apply bool_decide_eq_true in H
  end.

Ltac fire_cases Hf :=
  unfold shutdown_with_deadline, deadline_timer, serve_bounded, spawn_drain_signal, when in Hf; repeat (case_match; simplify_eq/=); simplify_eq/=; guards.

Lemma fire_health s l s' : health_ok s -> fire args l s = Some s' -> health_ok s'.
Proof.
  intros Hok Hf. assert (Hk : ext_proc_service <> FIPS_SERVICE) by done.
  assert (Hd1 : default_service <> FIPS_SERVICE) by done. assert (Hd2 : default_service <> ext_proc_service) by done.
  destruct l; simpl in Hf; fire_cases Hf; try exact Hok; destruct Hok as [Hd Hh];
    (split; [|right]); cbn [reporter with_reporter]; unfold set_initial_status, report_not_serving_on_drain.
  - by rewrite !lookup_insert_ne.
  - rewrite lookup_insert_eq, lookup_insert_ne, lookup_insert_eq by done. split; [done|]. destruct (serving args); auto.
  - by rewrite lookup_insert_ne.
  - rewrite lookup_insert_eq, lookup_insert_ne by done.
    destruct Hh as [[Hn _]|[Hp _]]; [|auto]. rewrite Hn in *. by match goal with H : is_Some None |- _ => destruct H end.
Qed.

Lemma fire_deadline s l s' : deadline_ok s -> fire args l s = Some s' -> deadline_ok s'.
Proof.
  intros (H1 & H2 & H3) Hf. destruct l; simpl in Hf; fire_cases Hf; unfold deadline_ok; simpl; try done.
  - split_and!; [done| |intros; simplify_eq; lia]. intros Hfo. destruct (H2 Hfo) as (d & Hd & _). congruence.
  - split_and!; [done| |].
    + intros Hfo. destruct (H2 Hfo) as (d & Hd & Hle). exists d. split; [done|lia].
    + intros d secs Hd Hg. specialize (H3 d secs Hd Hg). lia.
  - split_and!; [intros _; apply H1; eauto|intros _; eexists; split; [done|by apply Z.leb_le]|].
    intros d secs Hd Hg. apply H3; congruence.
  - split_and!; [done..|]. intros d secs Hd Hg. apply H3; congruence.
  - split_and!; [done..|]. intros d secs Hd Hg. apply H3; congruence.
Qed.

Lemma upd_eq t v ts : upd t v ts t = v.
Proof. unfold upd. by rewrite decide_True. Qed.
Lemma upd_ne t t' v ts : t' <> t -> upd t v ts t' = ts t'.
Proof. intros. unfold upd. by rewrite decide_False. Qed.

Lemma running_spec t s : running t s = true <-> tasks s t = Running.
Proof. unfold running. destruct (tasks s t); naive_solver. Qed.

Lemma is_done_spec t s r : is_done t s = Some r <-> tasks s t = Done r.
Proof. unfold is_done. destruct (tasks s t); naive_solver. Qed.

Lemma may_end_ok b r : may_end b r = true -> r = Ok tt -> b = true.
Proof. intros Hm ->. by destruct b. Qed.

(** The whole invariant: outcomes, reasons, deadlines. *)
Definition inv (s : Sup) : Prop := phase_ok s /\ ok_reason s /\ deadline_ok s.

Ltac ends t :=
  repeat match goal with
  | |- context [upd t ?v ?ts t] => rewrite (upd_eq t v ts)
  | |- context [upd t ?v ?ts ?t'] => rewrite (upd_ne t t' v ts) by done
  end.

(** A running task that ends: every other task, and the phase's bookkeeping, is as before. *)
Lemma fire_reason s l s' : inv s -> fire args l s = Some s' -> ok_reason s'.
Proof.
  intros (Hp & (R1 & R2 & R3 & R4) & (D1 & D2 & _)) Hf.
  destruct l; simpl in Hf; fire_cases Hf; unfold ok_reason; simpl;
    repeat match goal with
    | H : running _ _ = true |- _ => apply running_spec in H
    | H : may_end _ _ = true |- _ => pose proof (may_end_ok _ _ H); clear H
    end; ends Health; ends Metrics; ends Foreground;
    try exact (conj R1 (conj R2 (conj R3 R4))); clear Hp; split_and!; try (intuition congruence);
    intros Hdone; simplify_eq;
    repeat match goal with H : Ok () = Ok () -> _ |- _ => specialize (H eq_refl) end; guards; try (by auto).
  - congruence.
  - destruct D2 as (d & Hd & _); [done|]. apply D1. by rewrite Hd.
Qed.

(** Ended tasks stay ended, latches stay set, and readiness is decided once. *)
Lemma fire_mono s l s' : inv s -> fire args l s = Some s' ->
  (forall t r, tasks s t = Done r -> tasks s' t = Done r) /\
  (ready s <> Pending -> ready s' = ready s) /\
  (drain s = true -> drain s' = true) /\ (dropped s = true -> dropped s' = true) /\
  (tasks s Foreground <> NotStarted -> tasks s' Foreground <> NotStarted) /\
  (phase s' = phase s -> tasks s Foreground = NotStarted -> tasks s' Foreground = NotStarted) /\
  (phase s' = phase s -> dropped s' = dropped s).
Proof.
  intros (Hp & _ & _) Hf. unfold phase_ok in Hp.
  destruct l; simpl in Hf; fire_cases Hf; simpl;
    repeat match goal with H : running _ _ = true |- _ => apply running_spec in H end;
    try match goal with H : phase s = _ |- _ => rewrite H in * end;
    split_and!; try done; unfold upd; intros; repeat case_decide; simplify_eq; intuition congruence.
Qed.

Lemma fire_phase_same s l s' : inv s -> fire args l s = Some s' -> phase s' = phase s -> phase_ok s'.
Proof.
  intros Hi Hf He. destruct (fire_mono s l s' Hi Hf) as (Ht & Hr & Hd & Hx & Hs & Hn & Hk).
  destruct Hi as (Hp & _ & _).
  assert (Hdone : forall t, is_Some (is_done t s) -> is_Some (is_done t s')).
  { intros t [r E%is_done_spec]. exists r. by apply is_done_spec, Ht. }
  assert (Hsent : ready s = Sent -> ready s' = Sent) by (intros E; rewrite Hr; congruence).
  assert (Hdrop : ready s = Dropped -> ready s' = Dropped) by (intros E; rewrite Hr; congruence).
  specialize (Hk He). specialize (Hn He).
  unfold phase_ok in *. rewrite He. destruct (phase s); [intuition congruence|intuition congruence|..].
  - naive_solver.
  - naive_solver.
  - destruct Hp as [Hp [(t & Hp')|(e & Hp')]]; (split; [auto|]).
    + left. exists t. naive_solver.
    + right. exists e. naive_solver.
Qed.

Lemma fire_phase s l s' : inv s -> fire args l s = Some s' -> phase_ok s'.
Proof.
  intros Hi Hf. pose proof Hi as (Hp & (R1 & R2 & R3 & R4) & _). unfold phase_ok in Hp.
  destruct l; try (eapply fire_phase_same; [done|done|]; simpl in Hf; fire_cases Hf; done);
    simpl in Hf; fire_cases Hf; unfold phase_ok; simpl;
    repeat match goal with H : is_done _ _ = Some _ |- _ => apply is_done_spec in H end.
  - rewrite upd_eq. by destruct Hp.
  - destruct Hp as [Hfg Hdr]. split; [done|]. right. destruct r as [[]|e]; [|by exists e].
    destruct R2 as [? _]; [done|congruence].
  - destruct Hp as (Hfg & Hrd & Hdr). split_and!; [done..|]. intros ->. destruct t; [auto| |].
    + rewrite R1 in Hdr by done. done.
    + destruct R2 as [R2 _]; [done|]. congruence.
  - destruct Hp as (? & ? & ? & ?). split_and!; [done..|].
    match goal with H : _ || _ = true |- _ => apply orb_true_iff in H as [->%bool_decide_eq_true|?%bool_decide_eq_true] end;
      [|done]. eexists. by apply is_done_spec.
  - destruct Hp as (? & ? & ? & ? & ?). split; [done|]. left. exists selected. split_and!; try done.
    match goal with H : _ || _ = true |- _ => apply orb_true_iff in H as [->%bool_decide_eq_true|?%bool_decide_eq_true] end;
      [|done]. eexists. by apply is_done_spec.
Qed.

Lemma supervised_inv s : reachable args s -> inv s /\ health_ok s.
Proof.
  induction 1 as [|s l s' _ [IH Hh] Hf].
  - split; [|by split; [|left]]. split_and!; [done|by split_and!|]. split_and!; [by intros [? ?]|done|done].
  - split; [|by eapply fire_health]. split_and!; [by eapply fire_phase|by eapply fire_reason|].
    eapply fire_deadline; [|done]. by destruct IH as (_ & _ & ?).
Qed.

(** The supervisor answers with the originating outcome: what it returns is the result of
    the task the [select!] took, after both sidecars have ended; or, when the metrics server never
    came up, its error, and then the foreground was never started. Success is returned only after
    the shutdown signal, and gRPC is never served before the metrics endpoint is bound. *)
Theorem originating_outcome_returned s :
  reachable args s ->
  (tasks s Foreground <> NotStarted -> ready s = Sent) /\
  forall r, phase s = Returned r ->
    (r = Ok tt -> drain s = true) /\
    ((exists t, tasks s t = Done r /\ is_Some (is_done Health s) /\ is_Some (is_done Metrics s)) \/
     (is_ok r = false /\ tasks s Metrics = Done r /\ tasks s Foreground = NotStarted)).
Proof.
  intros [(Hp & (_ & _ & _ & R4) & _) _]%supervised_inv. split; [done|]. intros r Hr.
  unfold phase_ok in Hp. rewrite Hr in Hp.
  destruct Hp as [_ [(t & ? & ? & ? & ? & ?)|(e & -> & ? & ? & _)]]; [split; [done|]; left; eauto|].
  split; [done|]. by right.
Qed.


(** Success is the foreground's: a sidecar ends without an error only once it was told to. *)
Definition success_ok (s : Sup) : Prop :=
  match phase s with
  | DrainHealth (Ok _) t | DrainMetrics (Ok _) t => t = Foreground
  | Returned (Ok _) => tasks s Foreground = Done (Ok tt)
  | _ => True
  end.

Lemma success_from_foreground s : reachable args s -> success_ok s.
Proof.
  induction 1 as [|s l s' Hr IH Hf]; [done|]. apply supervised_inv in Hr as [(Hp & (R1 & R2 & _) & _) _].
  unfold success_ok, phase_ok in *.
  destruct l; simpl in Hf; fire_cases Hf; simpl in *; try done; try exact IH;
    repeat match goal with
    | H : running _ _ = true |- _ => apply running_spec in H
    | H : is_done _ _ = Some _ |- _ => apply is_done_spec in H
    | a : () |- _ => destruct a
    end; try congruence.
  - destruct Hp as [_ Hd]. match goal with H : tasks s Metrics = _ |- _ => destruct (R2 H) end. congruence.
  - destruct Hp as (_ & _ & Hd). destruct t; [done| |].
    + rewrite R1 in Hd by done. done.
    + destruct (R2 ltac:(done)). congruence.
  - destruct Hp as [Ht _]. by subst.
Qed.

(** Only the signal flips the drain latch. *)
Lemma drained_by_signal s l s' : fire args l s = Some s' -> drain s' = true -> drain s = true \/ l = Signal.
Proof. intros Hf Hd. destruct l; simpl in Hf; fire_cases Hf; auto. Qed.

(** ** Shutdown terminates *)

Lemma fire_all_app ls ks s s' s'' :
  fire_all args ls s = Some s' -> fire_all args ks s' = Some s'' -> fire_all args (ls ++ ks) s = Some s''.
Proof.
  revert s. induction ls as [|l ls IH]; simpl; intros s; [by intros [= ->]|].
  destruct (fire args l s); simpl; [apply IH|done].
Qed.

Lemma fire_one l s s' : fire args l s = Some s' -> fire_all args [l] s = Some s'.
Proof. intros Hf. cbn [fire_all]. by rewrite Hf. Qed.

(** The steps the process and its runtime take on their own: no further signal, no help from
    the clients' connections, no failure. The metrics server stops accepting and ends as soon as it
    is told to ([accept_loop]); the health server, like the gRPC one, is tonic's, and tonic's
    graceful shutdown waits for the clients' open calls, a health [Watch] among them, with no
    deadline here: its end is not the process's own. *)
Definition own (l : Label) : bool :=
  match l with
  | Signal | ServeEnds _ | HealthEnds _ | MetricsEnds (Err _) => false
  | _ => true
  end.

Definition seconds (ls : list Label) : Z := len (List.filter (fun l => match l with Tick => true | _ => false end) ls).

Lemma seconds_app ls ks : seconds (ls ++ ks) = seconds ls + seconds ks.
Proof. unfold seconds. by rewrite List.filter_app, len_app. Qed.

Lemma sidecars_started s : reachable args s -> tasks s Health <> NotStarted /\ tasks s Metrics <> NotStarted.
Proof.
  induction 1 as [|s l s' Hr [IH1 IH2] Hf]; [done|]. clear Hr.
  destruct l; simpl in Hf; fire_cases Hf; simpl; try done; unfold upd; by repeat case_decide.
Qed.

Lemma wait_seconds n s :
  exists ls s', fire_all args ls s = Some s' /\ s' = with_clock (clock s + Z.of_nat n) s /\
    forallb own ls = true /\ seconds ls = Z.of_nat n.
Proof.
  induction n as [|n (ls & s' & Hf & -> & Ho & Hs)].
  - exists [], s. split_and!; try done. destruct s. unfold with_clock. simpl. f_equal. lia.
  - exists (ls ++ [Tick]), (with_clock (clock s + Z.of_nat (S n)) s). split_and!.
    + eapply fire_all_app; [done|]. simpl. unfold with_clock. simpl. do 2 f_equal. lia.
    + done.
    + by rewrite forallb_app, Ho.
    + rewrite seconds_app, Hs. unfold seconds, len. simpl. lia.
Qed.

(** The metrics server ends once the broadcast is dropped, if it has not. *)
Lemma end_metrics s : tasks s Metrics <> NotStarted -> dropped s = true -> ready s = Sent ->
  exists ls s', fire_all args ls s = Some s' /\ is_Some (is_done Metrics s') /\ phase s' = phase s /\
    forallb own ls = true /\ seconds ls = 0.
Proof.
  intros Hn Hd Hr. destruct (tasks s Metrics) eqn:E; [done| |].
  - eexists [MetricsEnds (Ok tt)], _. simpl. unfold running. rewrite E, Hd, Hr. simpl. by split_and!.
  - exists [], s. split_and!; try done. exists r. by apply is_done_spec.
Qed.

(** With the health server ended, the rest of the way to the return. *)
Lemma exits_after_health s r t :
  reachable args s -> phase s = DrainHealth r t -> is_Some (is_done Health s) ->
  exists ls s', fire_all args ls s = Some s' /\ phase s' = Returned r /\ forallb own ls = true /\ seconds ls = 0.
Proof.
  intros Hr Hp Hh. destruct (sidecars_started s Hr) as [_ Hm]. apply supervised_inv in Hr as [(Hi & _) _].
  unfold phase_ok in Hi. rewrite Hp in Hi. destruct Hi as (_ & Hrd & Hd & _).
  set (s1 := with_phase (DrainMetrics r t) s).
  assert (F1 : fire args JoinHealth s = Some s1).
  { simpl. rewrite Hp. simpl. by rewrite (bool_decide_true _ Hh), orb_true_r. }
  destruct (end_metrics s1) as (l2 & s2 & F2 & D2 & P2 & O2 & S2); [done..|].
  exists ([JoinHealth] ++ l2 ++ [JoinMetrics]), (with_phase (Returned r) s2). split_and!; [|done| |].
  - eapply fire_all_app; [by apply fire_one|]. eapply fire_all_app; [done|].
    simpl. rewrite P2. simpl. by rewrite (bool_decide_true _ D2), orb_true_r.
  - by rewrite !forallb_app, O2.
  - rewrite !seconds_app, S2. done.
Qed.

Definition health_ends (l : Label) : bool := match l with HealthEnds _ => true | _ => false end.

(** And without it, no way at all. *)
Lemma waits_for_health ls r t : forall s s',
  reachable args s -> phase s = DrainHealth r t -> running Health s = true ->
  fire_all args ls s = Some s' -> existsb health_ends ls = false ->
  phase s' = DrainHealth r t /\ running Health s' = true.
Proof.
  induction ls as [|l ls IH]; intros s s' Hr Hp Hh Hf Hn; [by injection Hf as <-|].
  cbn in Hf, Hn. apply orb_false_iff in Hn as [Hl Hn].
  destruct (fire args l s) as [s1|] eqn:Hf1; [|done]. apply (IH s1); [by eapply reach_fire| | |done|done].
  - apply supervised_inv in Hr as [(Hi & _) _]. unfold phase_ok in Hi. rewrite Hp in Hi.
    destruct Hi as [Ht _]. apply running_spec in Hh. destruct l; simpl in Hf1; fire_cases Hf1; try done.
    match goal with H : _ || _ = true |- _ => apply orb_true_iff in H as [->%bool_decide_eq_true|[? ?%is_done_spec]%bool_decide_eq_true] end;
      congruence.
  - clear IH Hn. apply running_spec in Hh. apply running_spec. destruct l; simpl in Hf1; fire_cases Hf1; done.
Qed.

(** The foreground gives up the connections at the deadline. *)
Lemma force_closes secs s :
  grpc_drain args = Some secs -> inv s -> drain s = true -> tasks s Foreground = Running ->
  exists ls s', fire_all args ls s = Some s' /\ tasks s' Foreground = Done (Ok tt) /\ phase s' = phase s /\
    ready s' = ready s /\ tasks s' Health = tasks s Health /\ tasks s' Metrics = tasks s Metrics /\
    forallb own ls = true /\ seconds ls <= Z.max 0 secs.
Proof.
  intros Hg (_ & _ & (_ & _ & D3)) Hd Ht.
  assert (Hrun : running Foreground s = true) by by apply running_spec.
  assert (Harm : exists ls s1 d, fire_all args ls s = Some s1 /\ s1 = with_deadline d s /\ d <= clock s + secs /\
            forallb own ls = true /\ seconds ls = 0).
  { destruct (deadline s) as [d|] eqn:E.
    - exists [], s, d. split_and!; try done; [|by eapply D3]. destruct s. unfold with_deadline. simpl in *. by subst.
    - eexists [ArmDeadline], _, (clock s + secs). simpl. unfold shutdown_with_deadline. rewrite Hg, Hrun, Hd, bool_decide_true by done.
      split_and!; try done. }
  destruct Harm as (l1 & s1 & d & F1 & -> & Hle & O1 & S1).
  destruct (wait_seconds (Z.to_nat (d - clock s)) (with_deadline d s)) as (l2 & s2 & F2 & -> & O2 & S2).
  set (s2 := with_clock _ (with_deadline d s)) in *.
  exists (l1 ++ l2 ++ [ForceFires; ForceClose]), (with_task Foreground (Done (Ok tt)) (with_force s2)). split_and!; try done.
  - eapply fire_all_app; [done|]. eapply fire_all_app; [done|]. simpl.
    unfold deadline_timer, serve_bounded, when. simpl.
    rewrite (proj2 (Z.leb_le _ _)) by (simpl; lia). simpl. rewrite Hg. unfold running in *. simpl. by rewrite Hrun.
  - by rewrite !forallb_app, O1, O2.
  - rewrite !seconds_app, S1, S2. unfold seconds at 1, len. simpl. lia.
Qed.

(** Serving ends in bounded time: once the drain signal is in, a serving process can, within the
    drain timeout and by its own steps alone, be done with gRPC and have told the sidecars to stop.
    No connection has to finish: the timer forces those that do not. *)
Theorem shutdown_is_bounded secs s :
  grpc_drain args = Some secs -> reachable args s -> drain s = true -> phase s = InSelect ->
  exists ls s' r, fire_all args ls s = Some s' /\ phase s' = DrainHealth r Foreground /\ dropped s' = true /\
    is_Some (is_done Foreground s') /\ forallb own ls = true /\ seconds ls <= Z.max 0 secs.
Proof.
  intros Hg Hr Hd Hp. apply supervised_inv in Hr as [Hi _].
  pose proof Hi as (Hph & _ & _). unfold phase_ok in Hph. rewrite Hp in Hph. destruct Hph as (Hf & Hrd & _).
  assert (Hsel : forall s r, phase s = InSelect -> tasks s Foreground = Done r ->
            fire args (Select Foreground) s = Some (with_phase (DrainHealth r Foreground) (with_dropped s))).
  { intros s0 r Hp0 Ht0. simpl. rewrite Hp0. assert (is_done Foreground s0 = Some r) as -> by by apply is_done_spec. done. }
  destruct (tasks s Foreground) as [| |r] eqn:E; [done| |].
  - destruct (force_closes secs s Hg Hi Hd E) as (l1 & s1 & F1 & T1 & P1 & _ & _ & _ & O1 & S1).
    exists (l1 ++ [Select Foreground]), (with_phase (DrainHealth (Ok tt) Foreground) (with_dropped s1)), (Ok tt).
    split_and!; [|done|done|by eexists; apply is_done_spec|by rewrite forallb_app, O1|].
    + eapply fire_all_app; [done|]. apply fire_one, Hsel; congruence.
    + rewrite seconds_app. unfold seconds at 2, len. simpl. lia.
  - exists [Select Foreground], (with_phase (DrainHealth r Foreground) (with_dropped s)), r.
    split_and!; [by apply fire_one, Hsel|done|done|by eexists; apply is_done_spec|done|]. unfold seconds, len. simpl. lia.
Qed.
End Invariants.

(** ** A run *)

Lemma fire_all_reachable args ls s s' : reachable args s -> fire_all args ls s = Some s' -> reachable args s'.
Proof.
  revert s. induction ls as [|l ls IH]; simpl; intros s Hr; [by intros [= <-]|].
  destruct (fire args l s) eqn:Hf; simpl; [|done]. apply IH. by eapply reach_fire.
Qed.

Definition demo_args : Args := {| serving := true; fips_active := false; foreground := ServeGrpc (Ok 20) |}.
Definition demo_after (ls : list Label) : Sup := default start (fire_all demo_args ls start).

Lemma demo_reachable ls : is_Some (fire_all demo_args ls start) -> reachable demo_args (demo_after ls).
Proof.
  intros [s Hs]. unfold demo_after. rewrite Hs. eapply fire_all_reachable; [constructor|done].
Qed.

(** The process comes up and is told to stop; then it stops with no stream left open. *)
Definition demo_up : list Label := [HealthStart; MetricsReady; ReadyOk; Signal].
Definition demo_down : list Label :=
  demo_up ++ [HealthOnDrain; ArmDeadline; ServeEnds (Ok tt); Select Foreground; HealthEnds (Ok tt); JoinHealth;
              MetricsEnds (Ok tt); JoinMetrics].

Lemma originating_outcome_returned_witness :
  phase (demo_after demo_down) = Returned (Ok tt) /\ drain (demo_after demo_down) = true.
Proof.
  assert (Hr : reachable demo_args (demo_after demo_down)) by (apply demo_reachable; vm_compute; eexists; reflexivity).
  split; [reflexivity|].
  destruct (originating_outcome_returned demo_args (demo_after demo_down) Hr) as [_ Ho].
  exact (proj1 (Ho (Ok tt) eq_refl) eq_refl).
Defined.


Lemma shutdown_is_bounded_witness :
  exists ls s' r, fire_all demo_args ls (demo_after demo_up) = Some s' /\ phase s' = DrainHealth r Foreground /\
    dropped s' = true /\ is_Some (is_done Foreground s') /\ forallb own ls = true /\ seconds ls <= 20.
Proof.
  assert (Hr : reachable demo_args (demo_after demo_up)) by (apply demo_reachable; vm_compute; eexists; reflexivity).
  exact (shutdown_is_bounded demo_args 20 (demo_after demo_up) eq_refl Hr eq_refl eq_refl).
Defined.

(** The status says what was built, not what listens: it is set before the metrics server is up
    and the foreground created. *)
Example serving_before_grpc :
  reporter (demo_after [HealthStart]) !! ext_proc_service = Some Serving /\
  tasks (demo_after [HealthStart]) Foreground = NotStarted.
Proof. by split. Qed.
