(* ===== verification/Lifecycle.v ===== *)
(** * The process from launch to exit ([src/bin/praxis_extproc.rs], [main] and [run_command])

    [launch] is [main] up to the first await that waits for the outside: it ends the process, or
    leaves it supervising services, or serving the qualification backend. [live_fire] is a step of
    the process from there: a signal of the operating system, a step of [Supervisor], a step of
    the backend, the return of [main]. *)

From S2P Require Import Prelude RustStd Effect Proto IpAddr Extern Concrete State ResponseMode Errors Tls Config Fips GrpcLimits Health Sse.
From S2P Require Main Supervisor.

(** ** Signals *)

(** What [shutdown_signal] resolved on. *)
Inductive Cause := Sigint | Sigterm | NoHandler.

(** [shutdown_signal]: not polled yet, in the [select!], resolved. *)
Inductive Signals := Unpolled | Listening | Resolved (cause : Cause).

(** How the SIGTERM handler's installation went, [ctrl_c] resolving, SIGTERM. *)
Inductive SignalEvent := Installed (r : result string unit) | CtrlC (r : result string unit) | Terminate.

Definition shutdown_signal (e : SignalEvent) (s : Signals) : option Signals :=
  match s, e with
  | Unpolled, Installed (Ok _) => Some Listening
  | Unpolled, Installed (Err _) => Some (Resolved NoHandler)
  | Listening, CtrlC _ => Some (Resolved Sigint)
  | Listening, Terminate => Some (Resolved Sigterm)
  | _, _ => None
  end.

(** The events it resolves on: SIGINT, or the failure of [ctrl_c] itself, SIGTERM, and a SIGTERM
    handler that cannot be installed. *)
Definition resolves (e : SignalEvent) : bool := match e with Installed (Ok _) => false | _ => true end.

Lemma shutdown_signal_resolved e s s' :
  shutdown_signal e s = Some s' -> (match s' with Resolved _ => true | _ => false end) = resolves e.
Proof. destruct s, e as [[]| |]; by intros [= <-]. Qed.

Definition resolved (s : Signals) : bool := match s with Resolved _ => true | _ => false end.

Section Lifecycle.
Context `{Main.Host} `{CryptoProvider} `{OpenSsl} `{NotifyApi}.

(** ** Launch *)

(** The arguments [run_with_sidecars] is called with. *)
Definition foreground_of (f : Main.Foreground) : Supervisor.Service :=
  match f with
  | Main.ServeGrpc _ (Ok service) => Supervisor.ServeGrpc (Ok (Main.g_drain_secs service))
  | Main.ServeGrpc _ (Err e) => Supervisor.ServeGrpc (Err (display_ExtProcError e))
  | Main.AwaitDrain => Supervisor.WaitDrain
  end.
Definition args_of (plan : Main.Plan) : Supervisor.Args :=
  {| Supervisor.serving := Main.serving plan; Supervisor.fips_active := Main.fips_active plan;
     Supervisor.foreground := foreground_of (Main.foreground plan) |}.

Inductive Life :=
| Supervised (plan : Main.Plan) (signals : Signals) (sup : Supervisor.Sup)
| Backend (sse : SseServer)
| Exited (status : Z) (fatal : option Main.BoxError).

(** [main], once [run_command] has returned. *)
Definition main (r : result Main.BoxError unit) : Life :=
  match r with Ok _ => Exited 0 None | Err e => Exited 1 (Some e) end.

(** [run_command], up to its first long wait; [bind] is how the backend's bind goes. *)
Definition run_command (cli : Main.Cli) (bind : result string unit) (process : Process) : Life * Process :=
  if Main.k8s_e2e && Main.cli_e2e_sse_backend cli then
    (match serve bind with Ok s => Backend s | Err e => main (Err (Main.FromText e)) end, process)
  else
    let '(r, process) := Main.run cli process in
    (match r with
     | Ok (Main.Run plan) => Supervised plan Unpolled Supervisor.start
     | Ok Main.Validated => main (Ok tt)
     | Err e => main (Err e)
     end, process).

(** ** Steps *)

Inductive LifeLabel :=
| OsSignal (e : SignalEvent)
| Step (l : Supervisor.Label)
| BackendStep (l : SseLabel)
| MainReturns.

(** The drain latch flips when [shutdown_signal] has resolved, once. *)
Definition permitted (l : Supervisor.Label) (signals : Signals) (sup : Supervisor.Sup) : bool :=
  match l with Supervisor.Signal => resolved signals && negb (Supervisor.drain sup) | _ => true end.

Definition live_fire (l : LifeLabel) (x : Life) : option Life :=
  match x, l with
  | Supervised plan signals sup, OsSignal e => signals' ← shutdown_signal e signals; Some (Supervised plan signals' sup)
  | Supervised plan signals sup, Step l =>
      if permitted l signals sup then sup' ← Supervisor.fire (args_of plan) l sup; Some (Supervised plan signals sup')
      else None
  | Supervised _ _ sup, MainReturns =>
      match Supervisor.phase sup with
      | Supervisor.Returned r => Some (main (map_err Main.FromText r))
      | _ => None
      end
  | Backend s, BackendStep l =>
      s' ← sse_fire l s;
      Some (if failed s' is Some e then main (Err (Main.FromText e)) else Backend s')
  | _, _ => None
  end.

Fixpoint live (ls : list LifeLabel) (x : Life) : option Life :=
  match ls with
  | [] => Some x
  | l :: rest => x' ← live_fire l x; live rest x'
  end.

Lemma live_app ls ks x y z : live ls x = Some y -> live ks y = Some z -> live (ls ++ ks) x = Some z.
Proof.
  revert x. induction ls as [|l ls IH]; simpl; intros x; [by intros [= ->]|].
  destruct (live_fire l x); simpl; [apply IH|done].
Qed.

(** ** How a process ends *)

(** [shutdown_signal] resolved during the run. *)
Definition told_to_stop (past : list LifeLabel) : bool :=
  existsb (fun l => match l with OsSignal e => resolves e | _ => false end) past.

(** The supervised services have ended, told to by the drain latch. *)
Definition completed (plan : Main.Plan) (sup : Supervisor.Sup) : Prop :=
  Supervisor.reachable (args_of plan) sup /\ Supervisor.drain sup = true /\
  Supervisor.tasks sup Supervisor.Foreground = Supervisor.Done (Ok tt) /\
  is_Some (Supervisor.is_done Supervisor.Health sup) /\ is_Some (Supervisor.is_done Supervisor.Metrics sup).

Variable cli : Main.Cli.
Variable bind : result string unit.
Variable process : Process.

Abbreviation outcome := (Main.run cli process).1.
Abbreviation as_backend := (Main.k8s_e2e && Main.cli_e2e_sse_backend cli).

Definition life_ok (past : list LifeLabel) (x : Life) : Prop :=
  match x with
  | Supervised plan signals sup =>
      as_backend = false /\ outcome = Ok (Main.Run plan) /\ Supervisor.reachable (args_of plan) sup /\
      (Supervisor.drain sup = true -> resolved signals = true) /\
      (resolved signals = true -> told_to_stop past = true)
  | Backend _ => as_backend = true
  | Exited status fatal =>
      status = 0 /\ fatal = None /\ as_backend = false /\
        (outcome = Ok Main.Validated \/
         exists plan sup, outcome = Ok (Main.Run plan) /\ completed plan sup /\ told_to_stop past = true) \/
      status = 1 /\ is_Some fatal
  end.

Lemma life_fatal past e : life_ok past (main (Err e)).
Proof. right. by split. Qed.

Lemma life_launched : life_ok [] (run_command cli bind process).1.
Proof.
  unfold run_command. destruct as_backend eqn:Hb; [destruct bind; cbn [fst]; [done|exact (life_fatal [] _)]|].
  pose proof (surjective_pairing (Main.run cli process)) as Hr. destruct (Main.run cli process) as [[[|plan]|e] process'] eqn:E; cbn [fst].
  - left. rewrite E. by auto.
  - cbn. rewrite E. split_and!; [done|done|constructor|done|done].
  - exact (life_fatal [] _).
Qed.

Lemma told_later past l : told_to_stop past = true -> told_to_stop (past ++ [l]) = true.
Proof. unfold told_to_stop. rewrite existsb_app. by intros ->. Qed.

Lemma life_fire past l x x' : life_ok past x -> live_fire l x = Some x' -> life_ok (past ++ [l]) x'.
Proof.
  intros Hx Hf. destruct x as [plan signals sup|s|status fatal]; [| |done].
  - destruct Hx as (Hb & Ho & Hr & Hd & Ht). destruct l as [e|l| |]; cbn in Hf; [| |done|].
    + destruct (shutdown_signal e signals) as [signals'|] eqn:Hs; [|done]. injection Hf as <-. split_and!; try done.
      * intros Hdr. specialize (Hd Hdr). by destruct signals.
      * intros Hn. apply shutdown_signal_resolved in Hs. unfold resolved in Hn. rewrite Hn in Hs.
        unfold told_to_stop. rewrite existsb_app. cbn. by rewrite <- Hs, orb_true_r.
    + destruct (permitted l signals sup) eqn:Hp; [|done].
      destruct (Supervisor.fire (args_of plan) l sup) as [sup'|] eqn:Hs; [|done]. injection Hf as <-.
      split_and!; [done|done|by eapply Supervisor.reach_fire| |intros; by apply told_later, Ht]. intros Hdr.
      destruct (Supervisor.drained_by_signal _ _ _ _ Hs Hdr) as [|Hl]; [auto|]. subst l. cbn in Hp.
      by apply andb_true_iff in Hp as [? _].
    + destruct (Supervisor.phase sup) as [| | | |r] eqn:Hph; try done. injection Hf as <-.
      destruct r as [[]|e]; [|apply life_fatal]. left. split_and!; [done..|]. right. exists plan, sup. split; [done|].
      pose proof (Supervisor.success_from_foreground _ _ Hr) as Hs. unfold Supervisor.success_ok in Hs. rewrite Hph in Hs.
      apply Supervisor.supervised_inv in Hr as Hi. destruct Hi as [(Hi & _) _]. unfold Supervisor.phase_ok in Hi. rewrite Hph in Hi.
      destruct Hi as [_ [(t & _ & _ & Hdr & Hh & Hm)|(e & ? & _)]]; [|done].
      specialize (Hdr eq_refl). split; [by split_and!|]. by apply told_later, Ht, Hd.
  - destruct l as [| |l|]; cbn in Hf; try done. destruct (sse_fire l s) as [s'|]; [|done]. injection Hf as <-.
    destruct (failed s'); [apply life_fatal|done].
Qed.

Lemma life_live ls : forall past x x', life_ok past x -> live ls x = Some x' -> life_ok (past ++ ls) x'.
Proof.
  induction ls as [|l ls IH]; intros past x x' Hx Hl; simpl in Hl; [injection Hl as <-; by rewrite app_nil_r|].
  destruct (live_fire l x) as [y|] eqn:Hf; [|done]. rewrite (cons_middle l past ls), app_assoc. eapply IH; [by eapply life_fire|done].
Qed.

(** C28. The exit status tells the truth. The process exits with 0 or 1, and with 1 exactly when it
    logged a fatal error; with 0 only if [--validate] accepted the configuration, or if the
    services were run, [shutdown_signal] resolved in the course of the run, and the foreground (the
    gRPC server, or the process kept unready) completed without an error, both sidecars
    having ended too. It resolves on SIGINT and SIGTERM, but also on a handler that cannot be
    installed ([handler_failure_exits_zero]). The qualification backend never exits with 0. *)
Theorem exit_status_is_earned ls status fatal :
  live ls (run_command cli bind process).1 = Some (Exited status fatal) ->
  (status = 1 /\ is_Some fatal) \/
  (status = 0 /\ fatal = None /\ as_backend = false /\
   (outcome = Ok Main.Validated \/
    exists plan sup, outcome = Ok (Main.Run plan) /\ completed plan sup /\ told_to_stop ls = true)).
Proof. intros Hl. pose proof (life_live _ [] _ _ life_launched Hl) as [Hx|Hx]; auto. Qed.

(** ** A signal ends it *)

(** What happens without a further signal, the clients or a failure: the listener task that
    reacts to the signal, the supervisor, the return of [main]. *)
Definition by_itself (l : LifeLabel) : bool :=
  match l with
  | Step Supervisor.Signal | MainReturns => true
  | Step l => Supervisor.own l
  | OsSignal _ | BackendStep _ => false
  end.

Definition steps_of (ls : list LifeLabel) : list Supervisor.Label :=
  omap (fun l => match l with Step l => Some l | _ => None end) ls.

Lemma live_steps plan signals ls : forall sup sup',
  Supervisor.fire_all (args_of plan) ls sup = Some sup' -> forallb Supervisor.own ls = true ->
  live (map Step ls) (Supervised plan signals sup) = Some (Supervised plan signals sup') /\
  forallb by_itself (map Step ls) = true /\ steps_of (map Step ls) = ls.
Proof.
  induction ls as [|l ls IH]; intros sup sup' Hf Ho; simpl in *; [by injection Hf as ->|].
  apply andb_true_iff in Ho as [Hl Ho]. destruct (Supervisor.fire (args_of plan) l sup) as [sup1|]; [|done].
  assert (Hp : permitted l signals sup = true) by by destruct l. rewrite Hp. cbn.
  destruct (IH sup1 sup' Hf Ho) as (H1' & H2' & H3').
  split_and!; [exact H1'|rewrite H2', andb_true_r; destruct l; try done; exact Hl|]. unfold steps_of in *. simpl. by rewrite H3'.
Qed.

Lemma steps_app ls ks : steps_of (ls ++ ks) = steps_of ls ++ steps_of ks.
Proof. apply omap_app. Qed.

(** A gRPC service to be served has the drain timeout of the configuration. *)
Lemma configured_drain plan addr service :
  outcome = Ok (Main.Run plan) -> Main.foreground plan = Main.ServeGrpc addr (Ok service) ->
  exists cfg, Main.load_config (Main.cli_config cli) = Ok cfg /\
    Main.g_drain_secs service = DrainTimeoutSecs_get (shutdown_drain_timeout_secs (server cfg)).
Proof.
  unfold Main.run. destruct (Main.prepare (Main.cli_config cli) process) as [[p|e] process'] eqn:Hp; [|done].
  apply Main.prepare_ok in Hp as (_ & _ & Hc & _). cbn. destruct (Main.cli_validate cli).
  { by intros (? & _ & ?)%bind_ok. }
  intros (a & _ & Hr)%bind_ok Hf. exists (Main.p_cfg p). split; [done|].
  destruct (Main.fips_refusal process' (Main.p_fips p) (Main.p_registry p)); injection Hr as <-; [done|].
  unfold Main.serve_pipeline in Hf. destruct (Main.p_pipeline p); [|done]. injection Hf as _ Hf.
  by apply Main.serve_grpc_ok in Hf as (acceptor & _ & ->).
Qed.

Definition health_ends (l : LifeLabel) : bool :=
  match l with Step l => Supervisor.health_ends l | _ => false end.

(** While the health server is not over, no step but its end brings the process nearer to one. *)
Lemma held_by_health ls plan r t : forall sup x signals',
  Supervisor.reachable (args_of plan) sup -> Supervisor.phase sup = Supervisor.DrainHealth r t ->
  Supervisor.running Supervisor.Health sup = true ->
  live ls (Supervised plan signals' sup) = Some x -> existsb health_ends ls = false ->
  exists signals sup', x = Supervised plan signals sup' /\ Supervisor.phase sup' = Supervisor.DrainHealth r t.
Proof.
  induction ls as [|l ls IH]; intros sup x signals' Hr Hp Hh Hl Hn; [injection Hl as <-; eauto|].
  cbn in Hl, Hn. apply orb_false_iff in Hn as [Hn0 Hn].
  destruct l as [e|l|l|]; cbn in Hl; [| |done|by rewrite Hp in Hl].
  - destruct (shutdown_signal e signals') as [signals''|]; [|done]. exact (IH sup x signals'' Hr Hp Hh Hl Hn).
  - destruct (permitted l signals' sup); [|done].
    destruct (Supervisor.fire (args_of plan) l sup) as [sup1|] eqn:Hf; [|done].
    destruct (Supervisor.waits_for_health (args_of plan) [l] r t sup sup1) as [Hp1 Hh1]; [done..|by apply Supervisor.fire_one| |].
    { cbn. by rewrite orb_false_r. }
    exact (IH sup1 x signals' (Supervisor.reach_fire _ _ _ _ Hr Hf) Hp1 Hh1 Hl Hn).
Qed.

(** With the health server over, the process exits at once. *)
Lemma exits_once_health_ends plan signals sup r t :
  Supervisor.reachable (args_of plan) sup -> Supervisor.phase sup = Supervisor.DrainHealth r t ->
  is_Some (Supervisor.is_done Supervisor.Health sup) ->
  exists ls status fatal, live ls (Supervised plan signals sup) = Some (Exited status fatal) /\
    forallb by_itself ls = true /\ Supervisor.seconds (steps_of ls) = 0.
Proof.
  intros Hr Hp Hh. destruct (Supervisor.exits_after_health _ _ _ _ Hr Hp Hh) as (ls & sup' & Hf & Hp' & Ho & Hs).
  destruct (live_steps plan signals ls sup sup' Hf Ho) as (Hl & Hb & Hst).
  assert (Hend : exists status fatal, live (map Step ls ++ [MainReturns]) (Supervised plan signals sup) = Some (Exited status fatal)).
  { destruct r; eexists _, _; (eapply live_app; [done|]); cbn; by rewrite Hp'. }
  destruct Hend as (status & fatal & Hend). eexists _, status, fatal. split_and!; [done|by rewrite forallb_app, Hb|].
  rewrite steps_app, Hst, Supervisor.seconds_app, Hs. done.
Qed.

(** The step still missing, if any: the health server's end. *)
Definition health_over (r : result string unit) (sup : Supervisor.Sup) : list LifeLabel :=
  if Supervisor.running Supervisor.Health sup then [Step (Supervisor.HealthEnds r)] else [].

(** C31. A process told to stop while it serves stops serving within the drain timeout of its
    configuration, by its own steps and whatever its clients do: gRPC is done with, the sidecars
    have been told. From there one thing decides whether it exits. While the health server still
    runs, which tonic's graceful shutdown makes it do for as long as a client keeps a call open,
    the process has not exited and no other step ends it; once it has ended, however it does, the
    process exits by its own steps and without waiting. *)
Theorem signal_ends_process ls plan signals sup addr service :
  live ls (run_command cli bind process).1 = Some (Supervised plan signals sup) ->
  Main.foreground plan = Main.ServeGrpc addr (Ok service) -> Supervisor.phase sup = Supervisor.InSelect ->
  resolved signals = true ->
  exists cfg ls' sup',
    Main.load_config (Main.cli_config cli) = Ok cfg /\
    live (ls ++ ls') (run_command cli bind process).1 = Some (Supervised plan signals sup') /\
    forallb by_itself ls' = true /\
    Supervisor.seconds (steps_of ls') <= Z.max 0 (DrainTimeoutSecs_get (shutdown_drain_timeout_secs (server cfg))) /\
    is_Some (Supervisor.is_done Supervisor.Foreground sup') /\ Supervisor.dropped sup' = true /\
    (Supervisor.running Supervisor.Health sup' = true -> forall ks status fatal,
       existsb health_ends ks = false -> live ks (Supervised plan signals sup') <> Some (Exited status fatal)) /\
    forall r, exists ls'' status fatal,
      live (health_over r sup' ++ ls'') (Supervised plan signals sup') = Some (Exited status fatal) /\
      forallb by_itself ls'' = true /\ Supervisor.seconds (steps_of ls'') = 0.
Proof.
  intros Hl Hfg Hph Hsig. pose proof (life_live _ [] _ _ life_launched Hl) as (_ & Ho & Hr & _).
  destruct (configured_drain _ _ _ Ho Hfg) as (cfg & Hcfg & Hdrain).
  assert (Hready : exists ls0 sup0, live ls0 (Supervised plan signals sup) = Some (Supervised plan signals sup0) /\
    forallb by_itself ls0 = true /\ Supervisor.seconds (steps_of ls0) = 0 /\ Supervisor.reachable (args_of plan) sup0 /\
    Supervisor.drain sup0 = true /\ Supervisor.phase sup0 = Supervisor.InSelect).
  { destruct (Supervisor.drain sup) eqn:Hd; [by exists [], sup|].
    exists [Step Supervisor.Signal], (Supervisor.with_drain sup). cbn. rewrite Hsig, Hd. split_and!; try done.
    by eapply (Supervisor.reach_fire _ _ Supervisor.Signal). }
  destruct Hready as (ls0 & sup0 & H0' & Hb0 & Hs0 & Hr0 & Hd0 & Hp0).
  assert (Hg : Supervisor.grpc_drain (args_of plan) = Some (Main.g_drain_secs service)).
  { unfold Supervisor.grpc_drain, args_of. cbn. by rewrite Hfg. }
  destruct (Supervisor.shutdown_is_bounded _ _ _ Hg Hr0 Hd0 Hp0) as (ls1 & sup1 & r & H1' & Hp1 & Hx1 & Hf1 & Ho1 & Hs1).
  destruct (live_steps plan signals ls1 sup0 sup1 H1' Ho1) as (H2' & Hb1 & Hst).
  pose proof (Supervisor.fire_all_reachable _ _ _ _ Hr0 H1') as Hr1.
  exists cfg, (ls0 ++ map Step ls1), sup1.
  split_and!; [done|by (eapply live_app; [done|by eapply live_app])|by rewrite forallb_app, Hb0, Hb1| |done|done| |].
  - rewrite steps_app, Hst, Supervisor.seconds_app, Hs0, <- Hdrain. lia.
  - intros Hh ks status fatal Hn Hk. by destruct (held_by_health _ _ _ _ _ _ _ Hr1 Hp1 Hh Hk Hn) as (? & ? & ? & _).
  - intros rh. unfold health_over. destruct (Supervisor.running Supervisor.Health sup1) eqn:Hh.
    + set (sup2 := Supervisor.with_task Supervisor.Health (Supervisor.Done rh) sup1).
      assert (Hf : Supervisor.fire (args_of plan) (Supervisor.HealthEnds rh) sup1 = Some sup2).
      { cbn. rewrite Hh, Hx1. by destruct rh. }
      destruct (exits_once_health_ends plan signals sup2 r Supervisor.Foreground) as (ls2 & status & fatal & Hl2 & Hb2 & Hs2);
        [by eapply Supervisor.reach_fire|done|by eexists|].
      exists ls2, status, fatal. split_and!; try done. cbn [app live live_fire permitted]. by rewrite Hf.
    + destruct (exits_once_health_ends plan signals sup1 r Supervisor.Foreground) as (ls2 & status & fatal & Hl2 & Hb2 & Hs2);
        [done|done| |by exists ls2, status, fatal].
      destruct (Supervisor.sidecars_started _ _ Hr1) as [Hn _]. unfold Supervisor.running in Hh. unfold Supervisor.is_done.
      destruct (Supervisor.tasks sup1 Supervisor.Health); [done|done|by eexists].
Qed.
End Lifecycle.

(** ** Instances *)

#[local] Abbreviation launched :=
  (run_command (H3 := Main.DemoHost) (H4 := Main.DemoCrypto) (H5 := DemoOpenSsl) (H6 := Fifo) Main.demo_cli (Ok tt) (true, true)).1.
#[local] Abbreviation life_after ls := (live (H3 := Main.DemoHost) (H5 := DemoOpenSsl) (H6 := Fifo) ls launched).

(** The process comes up; SIGTERM; the last stream ends; everything stops. *)
Definition brought_up : list LifeLabel :=
  OsSignal (Installed (Ok tt)) ::
  map Step [Supervisor.HealthStart; Supervisor.MetricsReady; Supervisor.ReadyOk].
Definition wound_down : list LifeLabel :=
  map Step [Supervisor.Signal; Supervisor.HealthOnDrain; Supervisor.ArmDeadline; Supervisor.ServeEnds (Ok tt);
            Supervisor.Select Supervisor.Foreground; Supervisor.HealthEnds (Ok tt); Supervisor.JoinHealth;
            Supervisor.MetricsEnds (Ok tt); Supervisor.JoinMetrics] ++ [MainReturns].

#[local] Abbreviation demo_life := (Life (H3 := Main.DemoHost) (H5 := DemoOpenSsl) (H6 := Fifo)).
#[local] Abbreviation demo_outcome :=
  (Main.run (H3 := Main.DemoHost) (H4 := Main.DemoCrypto) (H5 := DemoOpenSsl) Main.demo_cli (true, true)).1.

(** The parts of a life, so that a run is computed without its plan's functions. *)
Definition exits_zero (x : option demo_life) : bool :=
  match x with Some (Exited status None) => status =? 0 | _ => false end.
Definition supervised (x : option demo_life) : bool :=
  match x with Some (Supervised _ signals sup) => resolved signals | _ => false end.
Definition plan_of (x : option demo_life) := match x with Some (Supervised plan _ _) => plan | _ => Main.demo_plan end.
Definition signals_of (x : option demo_life) := match x with Some (Supervised _ signals _) => signals | _ => Unpolled end.
Definition sup_of (x : option demo_life) := match x with Some (Supervised _ _ sup) => sup | _ => Supervisor.start end.
Definition is_run (r : result Main.BoxError (Main.Outcome (H3 := Main.DemoHost) (H5 := DemoOpenSsl))) : bool :=
  match r with Ok (Main.Run _) => true | _ => false end.

Lemma exits_zero_parts x : exits_zero x = true -> x = Some (Exited 0 None).
Proof. destruct x as [[| |status []]|]; try done. by intros ->%Z.eqb_eq. Defined.
Lemma supervised_parts x :
  supervised x = true -> x = Some (Supervised (plan_of x) (signals_of x) (sup_of x)) /\ resolved (signals_of x) = true.
Proof. by destruct x as [[]|]. Defined.

Lemma exit_status_is_earned_witness :
  exits_zero (life_after (brought_up ++ wound_down)) = false /\
  exits_zero (life_after (brought_up ++ [OsSignal Terminate] ++ wound_down)) = true /\
  exists plan sup, demo_outcome = Ok (Main.Run plan) /\ completed plan sup /\
    told_to_stop (brought_up ++ [OsSignal Terminate] ++ wound_down) = true.
Proof.
  assert (Hl : exits_zero (life_after (brought_up ++ [OsSignal Terminate] ++ wound_down)) = true) by (vm_compute; reflexivity).
  split; [vm_compute; reflexivity|split; [exact Hl|]].
  destruct (exit_status_is_earned (H3 := Main.DemoHost) (H4 := Main.DemoCrypto) (H5 := DemoOpenSsl) (H6 := Fifo)
              Main.demo_cli (Ok tt) (true, true) (brought_up ++ [OsSignal Terminate] ++ wound_down) 0 None (exits_zero_parts _ Hl))
    as [[Hx _]|(_ & _ & _ & [Hx|Hx])].
  - discriminate Hx.
  - apply (f_equal is_run) in Hx. vm_compute in Hx. discriminate Hx.
  - exact Hx.
Defined.

(** A stream that never ends does not keep the process from exiting. *)
#[local] Abbreviation stopping := (life_after (brought_up ++ [OsSignal Terminate])).

Lemma signal_ends_process_witness :
  exists cfg ls' sup',
    Main.load_config (H3 := Main.DemoHost) "praxis-extproc.yaml" = Ok cfg /\
    life_after ((brought_up ++ [OsSignal Terminate]) ++ ls') =
      Some (Supervised (plan_of stopping) (signals_of stopping) sup') /\
    Supervisor.seconds (steps_of ls') <= Z.max 0 (DrainTimeoutSecs_get (shutdown_drain_timeout_secs (server cfg))) /\
    Supervisor.dropped sup' = true /\
    exists ls'' status fatal,
      live (H3 := Main.DemoHost) (H5 := DemoOpenSsl) (H6 := Fifo) (health_over (Ok tt) sup' ++ ls'')
        (Supervised (plan_of stopping) (signals_of stopping) sup') = Some (Exited status fatal).
Proof.
  assert (Hs : supervised stopping = true) by (vm_compute; reflexivity).
  assert (Hp : Supervisor.phase (sup_of stopping) = Supervisor.InSelect) by (vm_compute; reflexivity).
  assert (Hf : Main.foreground (plan_of stopping) = Main.ServeGrpc (H3 := Main.DemoHost) (H5 := DemoOpenSsl) "127.0.0.1:9004"%string (Ok Main.demo_service)) by reflexivity.
  destruct (signal_ends_process (H3 := Main.DemoHost) (H4 := Main.DemoCrypto) (H5 := DemoOpenSsl) (H6 := Fifo)
              Main.demo_cli (Ok tt) (true, true) _ _ _ _ _ Main.demo_service
              (proj1 (supervised_parts stopping Hs)) Hf Hp (proj2 (supervised_parts stopping Hs)))
    as (cfg & ls' & sup' & Hc & Hl & _ & Hsec & _ & Hd & _ & He).
  destruct (He (Ok tt)) as (ls'' & status & fatal & Hx & _).
  exists cfg, ls', sup'. split; [exact Hc|]. split; [exact Hl|]. split; [exact Hsec|]. split; [exact Hd|].
  exists ls'', status, fatal. exact Hx.
Defined.

(** A client that watches the health service keeps the process: serving was forced to an end, the
    metrics server is over, an hour has passed, and the process has not exited. *)
Example health_watch_holds_process :
  supervised (life_after (brought_up ++ [OsSignal Terminate] ++
    map Step (Supervisor.Signal :: Supervisor.HealthOnDrain :: Supervisor.ArmDeadline :: repeat Supervisor.Tick 20 ++
      [Supervisor.ForceFires; Supervisor.ForceClose; Supervisor.Select Supervisor.Foreground;
       Supervisor.MetricsEnds (Ok tt)] ++ repeat Supervisor.Tick 3600))) = true.
Proof. vm_compute. reflexivity. Qed.

(** A SIGTERM handler that cannot be installed reads as the shutdown signal: nothing was sent to
    the process, and it drains and exits with 0. *)
Example handler_failure_exits_zero :
  exits_zero (life_after (OsSignal (Installed (Err "no more signal handlers"%string)) ::
                map Step [Supervisor.HealthStart; Supervisor.MetricsReady; Supervisor.ReadyOk] ++ wound_down)) = true.
Proof. vm_compute. reflexivity. Qed.
