(* ===== verification/Invariant.v ===== *)
(** * The stream invariant

    Specifications of the pipeline functions and the handlers in terms of what they touch:
    which filter phases they call, whether they give the carried context back, and which
    buffers they may grow. They add up to an invariant of every message the service
    dispatches; [Stream] draws the consequences for whole streams. *)

From S2P Require Import Prelude RustStd Proto Effect Extern Metrics Response Protocol Adapter ResponseMode State Pipeline Handlers Server.

(** ** Observations on the trace *)

Section Observe.
Context {E : Type}.

Definition calls (c : FilterCall) (g : Glob E) : nat := count_event (ECall c) (g_log g).

(** The [missing_headers] rejections a stream has recorded. *)
Definition missing (g : Glob E) : nat :=
  (count_event (EMetric (MInvalidArgument "missing_headers" "request")) (g_log g) +
   count_event (EMetric (MInvalidArgument "missing_headers" "response")) (g_log g))%nat.

(** No header-filter call and no [missing_headers] rejection in between. *)
Definition quiet (g g' : Glob E) : Prop :=
  calls CallRequest g' = calls CallRequest g /\ calls CallResponse g' = calls CallResponse g /\
  missing g' = missing g.

(** Exactly one call to [c] in between. *)
Definition called (c : FilterCall) (g g' : Glob E) : Prop :=
  calls CallRequest g' = (calls CallRequest g + if decide (c = CallRequest) then 1 else 0)%nat /\
  calls CallResponse g' = (calls CallResponse g + if decide (c = CallResponse) then 1 else 0)%nat /\
  missing g' = missing g.

Lemma count_log e e' (g : Glob E) :
  count_event e (g_log (log_event e' g)) =
  (count_event e (g_log g) + if decide (e' = e) then 1 else 0)%nat.
Proof.
  unfold count_event. simpl. rewrite count_occ_app. simpl.
  by destruct (Event_eq_dec e' e), (decide (e' = e)).
Qed.

Lemma quiet_refl g : quiet g g.
Proof. done. Qed.

Lemma quiet_trans g1 g2 g3 : quiet g1 g2 -> quiet g2 g3 -> quiet g1 g3.
Proof. unfold quiet. intuition congruence. Qed.

Lemma quiet_env v g : quiet g (with_env v g).
Proof. done. Qed.

Lemma quiet_warned b g : quiet g (with_warned b g).
Proof. done. Qed.

Lemma called_quiet c g1 g2 g3 : called c g1 g2 -> quiet g2 g3 -> called c g1 g3.
Proof. unfold called, quiet. intuition congruence. Qed.

Lemma quiet_called c g1 g2 g3 : quiet g1 g2 -> called c g2 g3 -> called c g1 g3.
Proof. unfold called, quiet. intuition congruence. Qed.

Lemma body_call_quiet c g g' :
  c <> CallRequest -> c <> CallResponse -> called c g g' -> quiet g g'.
Proof. unfold called, quiet. intros. rewrite !decide_False in * by done. intuition lia. Qed.

(** An event that is neither a header-filter call nor a [missing_headers] rejection. *)
Definition quiet_event (e : Event) : bool :=
  match e with
  | ECall CallRequest | ECall CallResponse => false
  | EMetric (MInvalidArgument r _) => negb (String.eqb r "missing_headers")
  | _ => true
  end.

Lemma quiet_log e g : quiet_event e = true -> quiet g (log_event e g).
Proof.
  intros He. unfold quiet, calls, missing. rewrite !count_log.
  rewrite !decide_False by (intros ->; done). split_and!; lia.
Qed.

Lemma called_log c v g : called c g (with_env v (log_event (ECall c) g)).
Proof.
  unfold called, calls, missing. cbn [g_log with_env]. rewrite !count_log.
  rewrite !(decide_False (P := ECall c = EMetric _)) by done.
  split_and!; [..|lia]; f_equal; repeat case_decide; congruence.
Qed.
End Observe.

#[export] Hint Resolve quiet_refl quiet_env quiet_warned quiet_log called_log : praxis.

(** ** Batches *)

(** What a handler returns: one immediate response, or no immediate response at all. *)
Definition good_batch (rs : list ProcessingResponse) : Prop :=
  (exists r, rs = [r] /\ is_immediate r = true) \/ existsb is_immediate rs = false.

Lemma good_immediate i : good_batch [immediate i].
Proof. left. by eexists. Qed.

Lemma good_one r : is_immediate r = false -> good_batch [r].
Proof. intros Hr. right. simpl. by rewrite Hr. Qed.

Lemma good_nil : good_batch [].
Proof. by right. Qed.

Lemma request_headers_not_immediate m : is_immediate (request_headers m) = false.
Proof. done. Qed.

Lemma response_headers_not_immediate m : is_immediate (response_headers m) = false.
Proof. done. Qed.

Lemma streamed_loop_no_immediate fuel : forall limit offset data mutation is_request eos,
  existsb is_immediate (streamed_loop fuel limit offset data mutation is_request eos) = false.
Proof.
  induction fuel as [|f IH]; intros; simpl; [done|].
  destruct (offset <? len data); simpl; [|done]. rewrite IH. by destruct is_request.
Qed.

Lemma body_responses_no_immediate body m is_request mode eos :
  existsb is_immediate (body_responses body m is_request mode eos) = false.
Proof.
  destruct mode; try by destruct is_request. simpl. unfold body_responses_streamed.
  destruct body as [[|a l]|]; [by destruct is_request| |by destruct is_request].
  apply streamed_loop_no_immediate.
Qed.

Lemma request_body_no_immediate body m mode eos : existsb is_immediate (request_body body m mode eos) = false.
Proof. apply body_responses_no_immediate. Qed.

Lemma response_body_no_immediate body m mode eos : existsb is_immediate (response_body body m mode eos) = false.
Proof. apply body_responses_no_immediate. Qed.

Lemma build_request_no_immediate phase m body mode eos :
  existsb is_immediate (build_request_for_phase phase m body mode eos) = false.
Proof. destruct phase, mode; try done; apply request_body_no_immediate. Qed.

Lemma build_response_no_immediate phase m body mode eos :
  existsb is_immediate (build_response_for_phase phase m body mode eos) = false.
Proof. destruct phase, mode; try done; apply response_body_no_immediate. Qed.

Lemma good_of_none rs : existsb is_immediate rs = false -> good_batch rs.
Proof. by right. Qed.

Lemma filter_no_immediate f rs :
  existsb is_immediate rs = false -> existsb is_immediate (List.filter f rs) = false.
Proof.
  induction rs as [|r rs IH]; simpl; [done|]. intros [Hr Hrs]%orb_false_iff.
  destruct (f r); simpl; [rewrite Hr|]; auto.
Qed.

Lemma good_filter_not_body rs :
  good_batch rs -> good_batch (List.filter (fun r => negb (is_body r)) rs).
Proof.
  intros [(r & -> & Hr)|Hn]; [|right; by apply filter_no_immediate]. left. exists r. simpl.
  assert (is_body r = false) as ->; [|done].
  unfold is_body. unfold is_immediate in Hr. by destruct (prs_response r) as [[]|].
Qed.

Lemma good_rejection_only rs : good_batch rs -> good_batch (rejection_only rs).
Proof.
  intros [(r & -> & Hr)|Hn]; [left; exists r; simpl; by rewrite Hr|right; by apply filter_no_immediate].
Qed.

#[export] Hint Resolve good_immediate good_one good_nil request_headers_not_immediate
  response_headers_not_immediate request_body_no_immediate response_body_no_immediate
  build_request_no_immediate build_response_no_immediate good_of_none good_filter_not_body
  good_rejection_only : praxis.

(** ** The pipeline functions *)

Section PipelineSpecs.
Context `{PraxisFilter}.
Variable pipeline : FilterPipeline.

(** No filter of the pipeline ever fails. *)
Definition filters_total : Prop :=
  (forall ctx env, is_ok (execute_http_request pipeline ctx env).1.1 = true) /\
  (forall ctx env, is_ok (execute_http_response pipeline ctx env).1.1 = true) /\
  (forall ctx b eos env, is_ok (execute_http_request_body pipeline ctx b eos env).1.1.1 = true) /\
  (forall ctx b env, is_ok (execute_http_selected_upstream_request_body pipeline ctx b env).1.1.1 = true) /\
  (forall ctx b eos env, is_ok (execute_http_response_body pipeline ctx b eos env).1.1.1 = true).

(** What a handler's error may be: a protocol or size error, unless some filter fails. *)
Definition blameless (e : Status) : Prop := filters_total -> st_code e <> Internal.

Lemma wp_run_call {A} c (f : Env -> result string FilterAction * A * Env) Q s (g : Glob Env) :
  (forall r a g', called c g g' -> (filters_total -> (forall env, is_ok (f env).1.1 = true) -> is_ok r = true) ->
     Q (Ok (r, a)) s g') ->
  wp (run_call c f) Q s g.
Proof.
  intros HQ. unfold run_call. repeat wp_step. cbn [g_env log_event].
  destruct (f (g_env g)) as [[r a] env'] eqn:E. repeat wp_step. apply HQ; [apply called_log|].
  intros _ Hf. specialize (Hf (g_env g)). rewrite E in Hf. by destruct r.
Qed.

Lemma wp_execute_request ctx Q s (g : Glob Env) :
  (forall r ctx' g', called CallRequest g g' -> (filters_total -> is_ok r = true) -> Q (Ok (r, ctx')) s g') ->
  wp (execute_request pipeline ctx) Q s g.
Proof.
  intros HQ. apply wp_run_call. intros r a g' Hc Hr. apply HQ; [done|].
  intros T. apply (Hr T). intros. apply T.
Qed.

Lemma wp_execute_response ctx Q s (g : Glob Env) :
  (forall r ctx' g', called CallResponse g g' -> (filters_total -> is_ok r = true) -> Q (Ok (r, ctx')) s g') ->
  wp (execute_response pipeline ctx) Q s g.
Proof.
  intros HQ. apply wp_run_call. intros r a g' Hc Hr. apply HQ; [done|].
  intros T. apply (Hr T). intros. apply T.
Qed.

(** The three body calls are quiet. *)
Lemma wp_execute_request_body ctx b eos Q s (g : Glob Env) :
  (forall r ctx' b' g', quiet g g' -> (filters_total -> is_ok r = true) -> Q (Ok (r, (ctx', b'))) s g') ->
  wp (execute_request_body pipeline ctx b eos) Q s g.
Proof.
  intros HQ. apply wp_run_call. intros r [ctx' b'] g' Hc Hr.
  apply HQ; [by eapply body_call_quiet; [..|exact Hc]|].
  intros T. apply (Hr T). intros env. destruct T as (_ & _ & T & _). specialize (T ctx b eos env).
  by destruct (execute_http_request_body pipeline ctx b eos env) as [[[??]?]?].
Qed.

Lemma wp_execute_selected_upstream ctx b Q s (g : Glob Env) :
  (forall r ctx' b' g', quiet g g' -> (filters_total -> is_ok r = true) -> Q (Ok (r, (ctx', b'))) s g') ->
  wp (execute_selected_upstream pipeline ctx b) Q s g.
Proof.
  intros HQ. apply wp_run_call. intros r [ctx' b'] g' Hc Hr.
  apply HQ; [by eapply body_call_quiet; [..|exact Hc]|].
  intros T. apply (Hr T). intros env. destruct T as (_ & _ & _ & T & _). specialize (T ctx b env).
  by destruct (execute_http_selected_upstream_request_body pipeline ctx b env) as [[[??]?]?].
Qed.

Lemma wp_execute_response_body ctx b eos Q s (g : Glob Env) :
  (forall r ctx' b' g', quiet g g' -> (filters_total -> is_ok r = true) -> Q (Ok (r, (ctx', b'))) s g') ->
  wp (execute_response_body pipeline ctx b eos) Q s g.
Proof.
  intros HQ. apply wp_run_call. intros r [ctx' b'] g' Hc Hr.
  apply HQ; [by eapply body_call_quiet; [..|exact Hc]|].
  intros T. apply (Hr T). intros env. destruct T as (_ & _ & _ & _ & T). specialize (T ctx b eos env).
  by destruct (execute_http_response_body pipeline ctx b eos env) as [[[??]?]?].
Qed.

Lemma wp_immediate_from_action action Q s (g : Glob Env) :
  (forall o g', quiet g g' -> Q (Ok o) s g') -> wp (immediate_from_action action) Q s g.
Proof. intros HQ. destruct action; repeat wp_step; apply HQ; auto with praxis. Qed.

(** [action_outcome] keeps the error of a failed call and is otherwise quiet. *)
Lemma wp_action_outcome r Q s (g : Glob Env) :
  (forall o g', quiet g g' -> (is_ok r = true -> is_ok o = true) -> Q o s g') ->
  wp (action_outcome r) Q s g.
Proof.
  intros HQ. unfold action_outcome. repeat wp_step. destruct r; [|by apply HQ].
  apply wp_immediate_from_action. intros. by apply HQ.
Qed.

(** The outcome of a group of filters: the error is one of the filters'. *)
Definition outcome_ok (o : result Status (option ImmediateResponse)) : Prop :=
  filters_total -> is_ok o = true.

Lemma outcome_blameless o e : outcome_ok o -> o = Err e -> blameless e.
Proof. intros Ho -> T. by specialize (Ho T). Qed.

Lemma run_body_filters_spec ctx body eos Q s (g : Glob Env) :
  (forall o ctx' body' g', quiet g g' -> outcome_ok o -> Q (Ok (o, ctx', body')) s g') ->
  wp (run_body_filters pipeline ctx body eos) Q s g.
Proof.
  intros HQ. unfold run_body_filters. wp_case; [apply wp_ret, HQ; by auto with praxis|].
  wp_step. apply wp_execute_request_body. intros r ctx' b' g' Hg Hr. repeat wp_step.
  apply wp_action_outcome. intros o g'' Hg' Ho. apply wp_ret, HQ; [by eapply quiet_trans|].
  intros T. auto.
Qed.

Lemma run_resp_body_filters_spec ctx body eos Q s (g : Glob Env) :
  (forall o ctx' body' g', quiet g g' -> outcome_ok o -> Q (Ok (o, ctx', body')) s g') ->
  wp (run_resp_body_filters pipeline ctx body eos) Q s g.
Proof.
  intros HQ. unfold run_resp_body_filters. wp_case; [apply wp_ret, HQ; by auto with praxis|].
  wp_step. apply wp_execute_response_body. intros r ctx' b' g' Hg Hr. repeat wp_step.
  apply wp_action_outcome. intros o g'' Hg' Ho. apply wp_ret, HQ; [by eapply quiet_trans|].
  intros T. auto.
Qed.

Lemma run_selected_spec ctx body max Q s (g : Glob Env) :
  (forall o ctx' body' g', quiet g g' -> outcome_ok o -> Q (Ok (o, ctx', body')) s g') ->
  wp (run_selected_upstream_body_filters pipeline ctx body max) Q s g.
Proof.
  intros HQ. unfold run_selected_upstream_body_filters. wp_case; [apply wp_ret, HQ; by auto with praxis|].
  wp_step. apply wp_execute_selected_upstream. intros r ctx' b' g' Hg Hr. repeat wp_step.
  apply wp_action_outcome. intros o g'' Hg' Ho.
  assert (quiet g g'') by (by eapply quiet_trans). assert (outcome_ok o) by (intros T; auto).
  destruct o as [[i|]|e]; [by apply wp_ret, HQ| |by apply wp_ret, HQ].
  wp_case; repeat wp_step; apply HQ; try done. eapply quiet_trans; [done|by auto with praxis].
Qed.

Lemma run_request_body_filters_at_eos_spec phase ctx body ord max Q s (g : Glob Env) :
  (forall o ctx' body' g', quiet g g' -> outcome_ok o -> (phase = RqHeaders -> body' = body) ->
     Q (Ok (o, ctx', body')) s g') ->
  wp (run_request_body_filters_at_eos phase pipeline ctx body ord max) Q s g.
Proof.
  intros HQ. unfold run_request_body_filters_at_eos. destruct phase; [by apply wp_ret, HQ; auto with praxis|].
  wp_step.
  assert (Hsel : forall o1 ctx1 body1 g1, quiet g g1 -> outcome_ok o1 ->
     wp (match o1 with
         | Ok None => run_selected_upstream_body_filters pipeline ctx1 body1 max
         | _ => ret (o1, ctx1, body1) end) Q s g1).
  { intros o1 ctx1 body1 g1 Hg1 Ho1. destruct o1 as [[i|]|e]; [by apply wp_ret, HQ| |by apply wp_ret, HQ].
    apply run_selected_spec. intros. apply HQ; [by eapply quiet_trans|done..]. }
  wp_case; [|by apply wp_ret; apply (Hsel (Ok None)); auto with praxis].
  apply run_body_filters_spec. intros. by apply Hsel.
Qed.

Lemma execute_request_filters_if_needed_spec ctx Q s (g : Glob Env) :
  (forall o ctx' s' g',
     outcome_ok o ->
     (request_filters_executed (header_state s) = true /\ o = Ok None /\ s' = s /\ quiet g g' \/
      request_filters_executed (header_state s) = false /\ called CallRequest g g' /\
      s' = match o with Ok None => set_request_filters_executed true s | _ => s end) ->
     Q (Ok (o, ctx')) s' g') ->
  wp (execute_request_filters_if_needed pipeline ctx) Q s g.
Proof.
  intros HQ. unfold execute_request_filters_if_needed. repeat wp_step.
  destruct (request_filters_executed (header_state s)) eqn:Hx; [apply wp_ret, HQ; [done|by auto with praxis]|].
  wp_step. apply wp_execute_request. intros r ctx' g' Hg Hr. repeat wp_step.
  apply wp_action_outcome. intros o g'' Hg' Ho.
  assert (called CallRequest g g'') by (by eapply called_quiet). assert (outcome_ok o) by (intros T; auto).
  destruct o as [[i|]|e]; repeat wp_step; apply HQ; try done; right; auto.
Qed.

Lemma execute_response_pipeline_spec phase ctx body executed Q s (g : Glob Env) :
  (forall o ctx' body' g', outcome_ok o -> (phase = RsHeaders -> body' = body) ->
     (called CallResponse g g' /\ (phase = RsBody -> executed = false) \/
      quiet g g' /\ phase = RsBody /\ executed = true) ->
     Q (Ok (o, ctx', body')) s g') ->
  wp (execute_response_pipeline_and_body_filters phase pipeline ctx body executed) Q s g.
Proof.
  intros HQ. unfold execute_response_pipeline_and_body_filters. wp_step.
  assert (Hbody : forall o1 ctx1 g1, outcome_ok o1 ->
     (called CallResponse g g1 /\ (phase = RsBody -> executed = false) \/
      quiet g g1 /\ phase = RsBody /\ executed = true) ->
     wp (match o1 with
         | Ok None => match phase with
                      | RsHeaders => ret (Ok None, ctx1, body)
                      | RsBody => run_resp_body_filters pipeline ctx1 body true end
         | _ => ret (o1, ctx1, body) end) Q s g1).
  { intros o1 ctx1 g1 Ho1 Hg1. destruct o1 as [[i|]|e]; [by apply wp_ret, HQ| |by apply wp_ret, HQ].
    destruct phase; [by apply wp_ret, HQ|]. apply run_resp_body_filters_spec.
    intros o ctx' body' g' Hg' Ho. apply HQ; [done|done|].
    destruct Hg1 as [[Hc Hx]|(Hq & ? & ?)]; [left; split; [by eapply called_quiet|done]|right].
    split_and!; [by eapply quiet_trans|done..]. }
  destruct (match phase with RsHeaders => true | RsBody => negb executed end) eqn:Hs.
  - wp_step. apply wp_execute_response. intros r ctx' g' Hg Hr. repeat wp_step.
    apply wp_action_outcome. intros o g'' Hg' Ho. apply wp_ret. apply Hbody; [intros T; auto|].
    left. split; [by eapply called_quiet|]. intros ->. by destruct executed.
  - apply wp_ret, (Hbody (Ok None)); [done|]. right. destruct phase; [done|]. by destruct executed.
Qed.

(** Context hand-over: a present slot is drained and never makes hydration fail. *)
Lemma wp_hydrate ctx Q s (g : Glob Env) :
  is_Some (carried_context s) ->
  (forall ctx', Q (Ok ctx') (with_carried_context None s) g) ->
  wp (hydrate_from_state ctx) Q s g.
Proof. intros [c Hc] HQ. unfold hydrate_from_state. repeat wp_step. rewrite Hc. apply HQ. Qed.

Lemma wp_fresh_context rq Q s (g : Glob Env) :
  (forall ctx, Q (Ok ctx) s g) -> wp (fresh_context pipeline rq) Q s g.
Proof. intros HQ. unfold fresh_context. repeat wp_step. apply HQ. Qed.

Lemma wp_dehydrate ctx Q s (g : Glob Env) :
  carried_context s = None ->
  Q (Ok tt) (with_carried_context (Some (capture ctx)) s) g ->
  wp (dehydrate_to_state ctx) Q s g.
Proof. intros Hn HQ. unfold dehydrate_to_state. repeat wp_step. by rewrite Hn. Qed.
End PipelineSpecs.

(** ** What the pipeline functions leave alone *)

Section Frames.
Context `{PraxisFilter}.

(** The fields only the handlers and the loop write. *)
Record same_stream (s s' : StreamState) : Prop := {
  same_request : request s' = request s;
  same_streamed : streamed_request_bytes s' = streamed_request_bytes s;
  same_eos : eos_tracker s' = eos_tracker s;
  same_config : protocol_config s' = protocol_config s;
  same_order : phase_order s' = phase_order s;
  same_max : max_body_accumulation s' = max_body_accumulation s;
  same_processed : buffered_request_body_processed s' = buffered_request_body_processed s;
}.

(** The response half, untouched by request processing, and the converse. *)
Record same_response (s s' : StreamState) : Prop := {
  same_response_message : response s' = response s;
  same_response_buf : response_body_buf s' = response_body_buf s;
  same_response_executed :
    response_filters_executed (header_state s') = response_filters_executed (header_state s);
}.
Record same_request_half (s s' : StreamState) : Prop := {
  same_request_buf : request_body_buf s' = request_body_buf s;
  same_request_executed :
    request_filters_executed (header_state s') = request_filters_executed (header_state s);
}.
End Frames.

(** Frames of states built by field assignments hold by computation. *)
Ltac solve_frame := solve [constructor; cbn; congruence || reflexivity].

(** Close the conjuncts of a specification. *)
Ltac finish := split_and!; try done; eauto with praxis.

#[export] Hint Extern 1 (same_stream _ _) => solve_frame : praxis.
#[export] Hint Extern 1 (same_response _ _) => solve_frame : praxis.
#[export] Hint Extern 1 (same_request_half _ _) => solve_frame : praxis.

Lemma good_plain `{PraxisFilter} c : good_batch [plain_rejection c].
Proof. apply good_immediate. Qed.
Lemma good_local `{PraxisFilter} c b : good_batch [local_rejection c b].
Proof. apply good_immediate. Qed.
#[export] Hint Resolve good_plain good_local : praxis.

Section PhaseSpecs.
Context `{PraxisFilter}.
Variable pipeline : FilterPipeline.

Lemma run_request_pipeline_inner_spec phase eos ord s (g : Glob Env) :
  is_Some (request s) -> is_Some (carried_context s) ->
  wp (run_request_pipeline_inner phase pipeline eos ord) (fun r s' g' =>
    same_stream s s' /\ same_response s s' /\
    (if request_filters_executed (header_state s) then quiet g g' else called CallRequest g g') /\
    match r with
    | Ok rs => good_batch rs /\
        (existsb is_immediate rs = false ->
         is_Some (carried_context s') /\ request_filters_executed (header_state s') = true /\
         (phase = RqHeaders -> request_body_buf s' = request_body_buf s))
    | Err e => blameless pipeline e
    end) s g.
Proof.
  intros [rq Hrq] Hc. unfold run_request_pipeline_inner. repeat wp_step. rewrite Hrq.
  wp_step. apply wp_fresh_context. intros fresh. wp_step. apply wp_hydrate; [done|]. intros ctx.
  wp_step. apply execute_request_filters_if_needed_spec. intros o ctx1 s1 g1 Ho Hs1.
  change (header_state (with_carried_context None s)) with (header_state s) in Hs1.
  cbv beta iota. repeat wp_step.
  assert (Hg1 : if request_filters_executed (header_state s) then quiet g g1 else called CallRequest g g1).
  { by destruct Hs1 as [(-> & _ & _ & ?)|(-> & ? & _)]. }
  assert (Hf1 : same_stream s s1 /\ same_response s s1 /\ request_body_buf s1 = request_body_buf s /\
                carried_context s1 = None).
  { destruct Hs1 as [(_ & _ & -> & _)|(_ & _ & ->)]; [|destruct o as [[]|]]; split_and!; done || auto with praxis. }
  destruct Hf1 as (Hst & Hrs & Hb & Hn).
  destruct o as [[i|]|e]; [| |split_and!; try done; by eapply outcome_blameless].
  { wp_step. split_and!; try done; by auto with praxis. }
  assert (Hx : request_filters_executed (header_state s1) = true).
  { by destruct Hs1 as [(? & _ & -> & _)|(_ & _ & ->)]. }
  clear Hs1 Ho Hc. repeat wp_step. wp_case.
  { unfold selected_input_limit_rejection. repeat wp_step. split_and!; try done; [|by auto with praxis].
    destruct (request_filters_executed _); [eapply quiet_trans|eapply called_quiet]; done || auto with praxis. }
  wp_step. apply run_request_body_filters_at_eos_spec. intros o ctx2 body g2 Hg2 Ho Hbody.
  assert (Hg : if request_filters_executed (header_state s) then quiet g g2 else called CallRequest g g2).
  { destruct (request_filters_executed _); [by eapply quiet_trans|by eapply called_quiet]. }
  destruct Hst, Hrs. cbv beta iota. repeat wp_step.
  destruct o as [[i|]|e]; [| |split_and!; auto with praxis; by eapply outcome_blameless].
  { wp_step. split_and!; auto with praxis. by intros. }
  wp_step. apply wp_dehydrate; [done|]. unfold build_request. repeat wp_step.
  wp_case; [unfold build_bodyless_selected_request_response; repeat wp_step; wp_case|];
    repeat wp_step; (split_and!; auto with praxis; []); intros _; split_and!; try done;
    cbn; intros Hp; rewrite (Hbody Hp); done.
Qed.
Lemma run_response_pipeline_spec phase eos s (g : Glob Env) :
  is_Some (request s) -> is_Some (response s) -> is_Some (carried_context s) ->
  wp (run_response_pipeline phase pipeline eos) (fun r s' g' =>
    same_stream s s' /\ same_request_half s s' /\
    response_filters_executed (header_state s') = response_filters_executed (header_state s) /\
    (called CallResponse g g' /\ (phase = RsBody -> response_filters_executed (header_state s) = false) \/
     quiet g g' /\ phase = RsBody /\ response_filters_executed (header_state s) = true) /\
    match r with
    | Ok rs => good_batch rs /\
        (existsb is_immediate rs = false ->
         is_Some (carried_context s') /\
         (phase = RsHeaders -> response_body_buf s' = response_body_buf s))
    | Err e => blameless pipeline e
    end) s g.
Proof.
  intros [rq Hrq] [resp Hresp] Hc. unfold run_response_pipeline. repeat wp_step. rewrite Hrq.
  repeat wp_step. rewrite Hresp.
  wp_step. apply wp_fresh_context. intros fresh. wp_step. apply wp_hydrate; [done|]. intros ctx.
  repeat wp_step. apply execute_response_pipeline_spec. intros o ctx1 body g1 Ho Hbody Hg.
  cbv beta iota. repeat wp_step.
  destruct o as [[i|]|e]; [| |finish; by eapply outcome_blameless].
  { wp_step. finish. }
  wp_step. apply wp_dehydrate; [done|]. repeat wp_step.
  destruct phase; repeat wp_step; finish; intros _; split; try done.
Qed.

Lemma run_request_header_filters_early_spec d s (g : Glob Env) :
  is_Some (request s) -> is_Some (carried_context s) ->
  wp (run_request_header_filters_early pipeline d) (fun r s' g' =>
    same_stream s s' /\ same_response s s' /\ called CallRequest g g' /\
    request_body_buf s' = request_body_buf s /\
    match r with
    | Ok rs => good_batch rs /\
        (existsb is_immediate rs = false ->
         is_Some (carried_context s') /\ request_filters_executed (header_state s') = true)
    | Err e => blameless pipeline e
    end) s g.
Proof.
  intros [rq Hrq] Hc. unfold run_request_header_filters_early. repeat wp_step. rewrite Hrq.
  wp_step. apply wp_fresh_context. intros fresh. wp_step. apply wp_hydrate; [done|]. intros ctx.
  wp_step. apply wp_execute_request. intros r ctx' g' Hg Hr.
  wp_step. apply wp_action_outcome. intros o g'' Hg' Ho.
  assert (called CallRequest g g'') by (by eapply called_quiet).
  destruct o as [[i|]|e]; repeat wp_step.
  - finish.
  - apply wp_dehydrate; [done|]. destruct d; cbn [deliver_request]; repeat wp_step;
      finish.
  - finish. eapply (outcome_blameless _ (Err e)); [|done]. intros T. auto.
Qed.

Lemma run_response_header_filters_early_spec d s (g : Glob Env) :
  is_Some (request s) -> is_Some (response s) -> is_Some (carried_context s) ->
  wp (run_response_header_filters_early pipeline d) (fun r s' g' =>
    same_stream s s' /\ same_request_half s s' /\ called CallResponse g g' /\
    response_body_buf s' = response_body_buf s /\
    match r with
    | Ok rs => good_batch rs /\
        (existsb is_immediate rs = false ->
         is_Some (carried_context s') /\ is_Some (response s') /\
         response_filters_executed (header_state s') = true)
    | Err e => blameless pipeline e
    end) s g.
Proof.
  intros [rq Hrq] [resp Hresp] Hc. unfold run_response_header_filters_early. repeat wp_step.
  rewrite Hrq. wp_step. apply wp_fresh_context. intros fresh. rewrite Hresp.
  wp_step. apply wp_hydrate; [done|]. intros ctx.
  wp_step. apply wp_execute_response. intros r ctx' g' Hg Hr.
  unfold write_back_response. wp_step.
  assert (forall g'', quiet g' g'' -> called CallResponse g g'') by (intros; by eapply called_quiet).
  destruct (ctx_response_header ctx') as [resp'|]; repeat wp_step; apply wp_action_outcome;
    intros o g'' Hg' Ho; (destruct o as [[i|]|e]; [repeat wp_step|wp_case|]).
  all: try (finish; eapply (outcome_blameless _ (Err e)); [|done]; intros T; by auto).
  all: try (finish).
  all: try (wp_step; finish).
  all: repeat wp_step; apply wp_dehydrate; [done|]; destruct d; cbn [deliver_response]; repeat wp_step;
    finish.
Qed.
(** A size within a configured maximum, whenever the maximum leaves room below the
    saturation point of [usize]. *)
Definition within (max : option Z) (n : Z) : Prop := forall m, max = Some m -> m < usize_max -> n <= m.

Lemma within_nil {A} max (l : list A) : within max (len l) -> within max (len (@nil A)).
Proof. intros Hw m Hm Hu. specialize (Hw m Hm Hu). pose proof (len_nonneg l). rewrite len_nil. lia. Qed.

Lemma within_app {A} max (l k : list A) :
  (forall m, max = Some m -> saturating_add (len l) (len k) <= m) -> within max (len (l ++ k)).
Proof.
  intros Hs m Hm Hu. specialize (Hs m Hm). rewrite len_app.
  apply saturating_add_le; auto using len_nonneg.
Qed.

Lemma passthrough_chunk_spec body mode is_request s (g : Glob Env) :
  wp (passthrough_chunk body mode is_request) (fun r s' g' =>
    same_stream s s' /\ same_response s s' /\ same_request_half s s' /\ quiet g g' /\
    carried_context s' = carried_context s /\
    exists rs, r = Ok rs /\ existsb is_immediate rs = false) s g.
Proof.
  unfold passthrough_chunk, take_first. repeat wp_step. unfold take_first_chunk.
  set (rs := if is_request then request_body _ _ _ _ else _).
  assert (existsb is_immediate rs = false) by (subst rs; destruct is_request; auto with praxis).
  destruct (headers_sent is_request (header_state s)); repeat wp_step.
  - finish.
  - cbn [negb]. repeat wp_step. unfold deferred_header_response. repeat wp_step.
    destruct is_request; repeat wp_step; finish.
Qed.

Lemma buffer_response_chunk_spec ctx chunk eos Q s (g : Glob Env) :
  (forall r b' g', quiet g g' -> (forall e, r = Err e -> st_code e <> Internal) ->
     (within (max_body_accumulation s) (len (response_body_buf s)) -> is_ok r = true ->
      within (max_body_accumulation s) (len b')) ->
     Q r (with_response_body_buf b' s) g') ->
  (forall b, Q (Ok b) s g) ->
  wp (buffer_response_chunk ctx chunk eos) Q s g.
Proof.
  intros HQ HQ'. unfold buffer_response_chunk. destruct (ctx_response_body_mode ctx); repeat wp_step; try apply HQ'.
  wp_case; repeat wp_step.
  { replace s with (with_response_body_buf (response_body_buf s) s) by by destruct s.
    apply HQ; [by auto with praxis|by intros e [= <-]|done]. }
  apply orb_false_iff in Hc as [_ Hc].
  wp_case; repeat wp_step; apply HQ; try done; [by intros; eapply within_nil|].
  intros _ _. apply within_app. intros m Hm. rewrite Hm in Hc. lia.
Qed.

Lemma wp_warn_unapplied is_request m Q s (g : Glob Env) :
  (forall g', quiet g g' -> Q (Ok tt) s g') -> wp (warn_unapplied_header_mutations is_request m) Q s g.
Proof.
  intros HQ. unfold warn_unapplied_header_mutations. repeat wp_step.
  destruct (g_warned g); [|destruct m]; repeat wp_step; apply HQ; try done.
  by apply (quiet_trans _ (with_warned true g)); auto with praxis.
Qed.

(** Writing back the borrowed response changes that field at most. *)
Lemma wp_write_back ctx Q s (g : Glob Env) :
  Q (Ok tt) s g -> (forall r, Q (Ok tt) (with_response (Some r) s) g) -> wp (write_back_response ctx) Q s g.
Proof. intros HQ HQ'. unfold write_back_response. destruct (ctx_response_header ctx); by wp_step. Qed.

Lemma process_streamed_body_chunk_spec body is_request s (g : Glob Env) :
  is_Some (request s) -> (is_request = false -> is_Some (response s)) -> is_Some (carried_context s) ->
  wp (process_streamed_body_chunk pipeline body is_request) (fun r s' g' =>
    same_stream s s' /\ same_request_half s s' /\ quiet g g' /\
    response_filters_executed (header_state s') = response_filters_executed (header_state s) /\
    (is_request = true -> same_response s s') /\
    match r with
    | Ok rs => good_batch rs /\
        (existsb is_immediate rs = false ->
         is_Some (carried_context s') /\
         (is_request = false -> is_Some (response s')) /\
         (within (max_body_accumulation s) (len (response_body_buf s)) ->
          within (max_body_accumulation s) (len (response_body_buf s'))))
    | Err e => blameless pipeline e
    end) s g.
Proof.
  intros [rq Hrq] Hresp Hc. unfold process_streamed_body_chunk. repeat wp_step. rewrite Hrq.
  wp_step. apply wp_fresh_context. intros fresh. wp_step.
  destruct is_request; cbn [negb].
  - repeat wp_step. apply wp_hydrate; [done|]. intros ctx. repeat wp_step.
    apply run_body_filters_spec. intros o ctx' chunk' g1 Hg1 Ho. repeat wp_step.
    destruct o as [[i|]|e]; [wp_step; finish| |finish; by eapply outcome_blameless].
    repeat wp_step. apply wp_warn_unapplied. intros g2 Hg2. wp_step. apply wp_dehydrate; [done|].
    repeat wp_step. finish. by eapply quiet_trans.
  - destruct (Hresp eq_refl) as [resp Hr]. rewrite Hr. repeat wp_step.
    apply wp_hydrate; [done|]. intros ctx. repeat wp_step.
    match goal with |- wp _ ?K _ _ =>
      assert (Hrest : forall c s1 g1, quiet g g1 -> carried_context s1 = None -> same_stream s s1 ->
        same_request_half s s1 -> header_state s1 = header_state s -> response s1 = Some resp ->
        (within (max_body_accumulation s) (len (response_body_buf s)) ->
         within (max_body_accumulation s) (len (response_body_buf s1))) -> K (Ok c) s1 g1)
    end.
    { intros c s1 g1 Hg1 Hn1 [] [] Hh1 Hr1 Hw1. repeat wp_step.
      apply run_resp_body_filters_spec. intros o ctx' chunk' g2 Hg2 Ho. repeat wp_step.
      assert (quiet g g2) by (by eapply quiet_trans).
      assert (Hend : forall s2, s2 = s1 \/ (exists r, s2 = with_response (Some r) s1) ->
                same_stream s s2 /\ same_request_half s s2 /\ carried_context s2 = None /\
                header_state s2 = header_state s /\ is_Some (response s2) /\
                response_body_buf s2 = response_body_buf s1).
      { intros s2 [->|[r ->]]; finish; solve_frame || by rewrite Hr1. }
      match goal with |- wp (write_back_response _) ?K' _ _ =>
        assert (Hk : forall s2, s2 = s1 \/ (exists r, s2 = with_response (Some r) s1) -> K' (Ok tt) s2 g2)
      end; [|apply wp_write_back; eauto].
      intros s2 Hs2. destruct (Hend s2 Hs2) as (F1 & F2 & F3 & F4 & F5 & F6). repeat wp_step.
      destruct o as [[i|]|e]; [wp_step; finish; congruence| |finish; [congruence|by eapply outcome_blameless]].
      repeat wp_step. apply wp_warn_unapplied. intros g3 Hg3. wp_step. apply wp_dehydrate; [done|].
      destruct F1, F2. repeat wp_step. finish; try solve_frame; [by eapply quiet_trans|cbn; congruence|].
      intros _. finish. cbn. by rewrite F6. }
    apply buffer_response_chunk_spec; cbn [response_body_buf max_body_accumulation with_carried_context].
    + intros r b' g1 Hg1 He Hw. destruct r as [c|e].
      * apply Hrest; try done; auto with praxis.
      * finish. intros _. by apply He.
    + intros c. apply Hrest; try done; auto with praxis.
Qed.

Lemma run_trailing_body_spec ctx is_request Q s (g : Glob Env) :
  (forall r ctx' g', quiet g g' -> (filters_total pipeline -> is_ok r = true) -> Q (Ok (r, ctx')) s g') ->
  wp (run_trailing_body pipeline ctx is_request) Q s g.
Proof.
  intros HQ. unfold run_trailing_body. wp_step.
  destruct is_request; [apply wp_execute_request_body|apply wp_execute_response_body];
    intros; wp_step; by apply HQ.
Qed.

Lemma flush_streamed_body_filters_spec is_request s (g : Glob Env) :
  is_Some (request s) -> (is_request = false -> is_Some (response s)) -> is_Some (carried_context s) ->
  wp (flush_streamed_body_filters pipeline is_request) (fun r s' g' =>
    same_stream s s' /\ same_request_half s s' /\ quiet g g' /\ header_state s' = header_state s /\
    (is_request = true -> same_response s s') /\
    match r with
    | Ok rs => good_batch rs /\ (existsb is_immediate rs = false -> is_Some (carried_context s'))
    | Err e => blameless pipeline e
    end) s g.
Proof.
  intros [rq Hrq] Hresp Hc. unfold flush_streamed_body_filters. wp_step. wp_step.
  wp_case; [wp_step; finish|]. rewrite Hrq.
  wp_step. apply wp_fresh_context. intros fresh. wp_step.
  match goal with |- wp _ ?K _ _ => assert (Hrest : forall c, K (Ok c) s g) end.
  2: { destruct is_request; [apply wp_ret, Hrest|]. destruct (Hresp eq_refl) as [resp ->].
       apply wp_ret, Hrest. }
  intros c. wp_step. apply wp_hydrate; [done|]. intros ctx. wp_step.
  apply run_trailing_body_spec. intros r ctx' g1 Hg1 Hr. wp_step.
  match goal with |- wp _ ?K _ _ =>
    assert (Hend : forall s1, same_stream s s1 /\ same_request_half s s1 /\
        header_state s1 = header_state s /\ carried_context s1 = None /\
        (is_request = true -> same_response s s1) -> K (Ok tt) s1 g1) end.
  - intros s1 (F1 & F2 & F3 & F4 & F5). repeat wp_step. destruct r as [a|e].
    + wp_step. apply wp_dehydrate; [done|]. destruct F1, F2. wp_step.
      apply wp_immediate_from_action. intros o g2 Hg2. repeat wp_step.
      assert (is_request = true -> same_response s (with_carried_context (Some (capture ctx')) s1))
        by (intros Hq; destruct (F5 Hq); solve_frame).
      destruct o; finish; try solve_frame; by eapply quiet_trans.
    + finish. intros T. by specialize (Hr T).
  - destruct is_request; [wp_step; apply Hend; finish|].
    apply wp_write_back; [|intros resp']; apply Hend; finish.
Qed.
End PhaseSpecs.
