(* ===== verification/StreamInv.v ===== *)
(** * The invariant of a stream and its preservation

    [Core] holds between any two messages of a stream; [Ordered] ties it to the position of
    the exchange. Every handler preserves them unless it ends the stream. *)

From S2P Require Import Prelude RustStd Proto Effect Extern Metrics Response Protocol Adapter ResponseMode State Pipeline Handlers Server Invariant.

Section StreamInv.
Context `{PraxisFilter}.
Variable pipeline : FilterPipeline.
Variable max : option Z.

(** The response direction can still carry body data. *)
Definition response_open (s : StreamState) : Prop :=
  eos_response_headers (eos_tracker s) = Active /\ eos_response_body (eos_tracker s) = Active.
Definition request_open (s : StreamState) : Prop :=
  eos_request_headers (eos_tracker s) = Active /\ eos_request_body (eos_tracker s) = Active.

Record Core (s : StreamState) (g : Glob Env) : Prop := {
  core_max : max_body_accumulation s = max;
  core_carried : is_Some (carried_context s);
  core_request_calls :
    (calls CallRequest g <= if request_filters_executed (header_state s) then 1 else 0)%nat;
  core_response_calls :
    calls CallResponse g = 0%nat \/
    calls CallResponse g = 1%nat /\
      (response_open s -> response_filters_executed (header_state s) = true);
  core_missing : missing g = 0%nat;
  core_streamed : forall m, max = Some m -> streamed_request_bytes s <= m;
  core_request_buf : buffered_request_body_processed s = false -> request_open s ->
    within max (len (request_body_buf s));
  core_response_buf : eos_response_body (eos_tracker s) = Active -> within max (len (response_body_buf s));
}.

(** What holds even after a handler ended the stream. *)
Record Bounded_calls (g : Glob Env) : Prop := {
  bounded_request : (calls CallRequest g <= 1)%nat;
  bounded_response : (calls CallResponse g <= 1)%nat;
  bounded_missing : missing g = 0%nat;
}.

Lemma core_bounded s g : Core s g -> Bounded_calls g.
Proof. intros []. constructor; [|lia|done]. destruct (request_filters_executed _); lia. Qed.

Lemma quiet_bounded g g' : quiet g g' -> Bounded_calls g -> Bounded_calls g'.
Proof. intros (? & ? & ?) []. constructor; congruence. Qed.

(** The outcome of a handler of each direction. *)
Definition keeps_request_side (s s' : StreamState) (g g' : Glob Env) : Prop :=
  phase_order s' = phase_order s /\ is_Some (request s') /\ response s' = response s /\
  eos_response_headers (eos_tracker s') = eos_response_headers (eos_tracker s) /\
  eos_response_body (eos_tracker s') = eos_response_body (eos_tracker s) /\
  calls CallResponse g' = calls CallResponse g.
Definition keeps_response_side (s s' : StreamState) : Prop :=
  phase_order s' = phase_order s /\ request s' = request s /\ (response_open s' -> is_Some (response s')).

Definition outcome_post (keeps : StreamState -> Glob Env -> Prop)
  (r : result Status (list ProcessingResponse)) (s' : StreamState) (g' : Glob Env) : Prop :=
  Bounded_calls g' /\
  match r with
  | Ok rs => good_batch rs /\ (existsb is_immediate rs = false -> Core s' g' /\ keeps s' g')
  | Err e => blameless pipeline e
  end.

Lemma protocol_error_blameless m : blameless pipeline (Status_invalid_argument m).
Proof. by intros _. Qed.

Lemma exhausted_blameless m : blameless pipeline (Status_resource_exhausted m).
Proof. by intros _. Qed.

(** A protocol error ends the stream harmlessly. *)
Lemma post_invalid keeps m s s' (g g' : Glob Env) :
  Core s g -> quiet g g' -> outcome_post keeps (Err (Status_invalid_argument m)) s' g'.
Proof. intros Hc Hq. split; [by eapply quiet_bounded, core_bounded|apply protocol_error_blameless]. Qed.

(** [mark_phase] by cases. *)
Lemma wp_mark_phase phase (eos : bool) Q s (g : Glob Env) :
  (phase_state (eos_tracker s) phase = Completed -> Q (Ok Completed) s g) ->
  (phase_state (eos_tracker s) phase = Active ->
   (phase = PRequestBody -> eos_request_headers (eos_tracker s) = Active) ->
   (phase = PResponseBody -> eos_response_headers (eos_tracker s) = Active) ->
   Q (Ok Active) (with_eos_tracker (if eos then mark_complete phase (eos_tracker s) else eos_tracker s) s) g) ->
  (forall m g', quiet g g' -> Q (Err (Status_invalid_argument m)) s g') ->
  wp (mark_phase phase eos) Q s g.
Proof.
  assert (Hs : with_eos_tracker (eos_tracker s) s = s) by by destruct s.
  intros H1 H2 H3. apply wp_zoom. eapply wp_mono; [apply check_and_mark_spec|]. cbv beta.
  intros r t' g' [(-> & -> & -> & ?)|[(-> & ? & -> & -> & ? & ?)|(m & -> & -> & ? & ->)]].
  - rewrite Hs. auto.
  - auto.
  - rewrite Hs. apply H3. auto with praxis.
Qed.

Lemma wp_duplicate {A} phase (Q : result Status A -> StreamState -> Glob Env -> Prop) s (g : Glob Env) :
  (forall m g', quiet g g' -> Q (Err (Status_invalid_argument m)) s g') ->
  wp (duplicate_after_eos phase) Q s g.
Proof. intros HQ. unfold duplicate_after_eos. repeat wp_step. apply HQ. auto with praxis. Qed.

(** A redelivered message is dropped or refused; an active one goes on. *)
Lemma wp_redelivery entry mode phase Q s (g : Glob Env) :
  (entry = Active -> Q (Ok None) s g) ->
  (entry = Completed -> Q (Ok (Some [])) s g) ->
  (forall m g', quiet g g' -> Q (Err (Status_invalid_argument m)) s g') ->
  wp (handle_body_redelivery entry mode phase) Q s g.
Proof.
  intros H1 H2 H3. unfold handle_body_redelivery. destruct entry; [by wp_step; apply H1|].
  wp_case; [by wp_step; apply H2|]. by apply wp_duplicate.
Qed.

(** ** Running the pipeline from a handler *)

Lemma request_pipeline_post phase eos ord s (g : Glob Env) :
  Core s g -> is_Some (request s) ->
  (phase = RqBody -> buffered_request_body_processed s = true \/ ~ request_open s) ->
  wp (run_request_pipeline_inner phase pipeline eos ord)
    (outcome_post (fun s' g' => keeps_request_side s s' g g')) s g.
Proof.
  intros Hc Hrq Hph. pose proof (core_bounded _ _ Hc) as Hbd. destruct Hc.
  eapply wp_mono; [by apply run_request_pipeline_inner_spec|]. cbv beta.
  intros r s' g' ([E1 E2 E3 E4 E5 E6 E7] & [R1 R2 R3] & Hg & Hr).
  assert (Hn : (calls CallRequest g' <= 1 /\ calls CallResponse g' = calls CallResponse g /\ missing g' = missing g)%nat).
  { destruct (request_filters_executed _); destruct Hg as (Ha & Hb & Hm); simpl in *; lia. }
  destruct Hbd; destruct Hn as (Hn1 & Hn2 & Hn3). split; [constructor; lia|].
  destruct r as [rs|e]; [|done]. destruct Hr as [Hb Hr]. split; [done|]. intros Hi.
  destruct (Hr Hi) as (C1 & C2 & C3).
  split; [|unfold keeps_request_side; rewrite E1, E3; by split_and!].
  constructor; unfold response_open, request_open in *; rewrite ?E3, ?E6, ?E2, ?E7, ?C2, ?R2, ?R3, ?Hn2; auto; [lia|].
  intros Hp Ho. destruct phase; [rewrite C3; auto|]. destruct (Hph eq_refl); [congruence|done].
Qed.

Lemma early_request_post d s (g : Glob Env) :
  Core s g -> is_Some (request s) -> calls CallRequest g = 0%nat ->
  wp (run_request_header_filters_early pipeline d)
    (outcome_post (fun s' g' => keeps_request_side s s' g g')) s g.
Proof.
  intros Hc Hrq H0c. pose proof (core_bounded _ _ Hc) as []. destruct Hc.
  eapply wp_mono; [by apply run_request_header_filters_early_spec|]. cbv beta.
  intros r s' g' ([E1 E2 E3 E4 E5 E6 E7] & [R1 R2 R3] & (Ha & Hb & Hm) & Hbuf & Hr). simpl in Ha, Hb.
  split; [constructor; lia|]. destruct r as [rs|e]; [|done]. destruct Hr as [Hgb Hr]. split; [done|].
  intros Hi. destruct (Hr Hi) as (C1 & C2).
  split; [|unfold keeps_request_side; rewrite E1, E3; split_and!; done || lia].
  constructor; unfold response_open, request_open in *;
    rewrite ?E3, ?E6, ?E2, ?E7, ?C2, ?R2, ?R3, ?Hbuf, ?Hb, ?Nat.add_0_r; auto; lia.
Qed.

Lemma response_pipeline_post phase eos s (g : Glob Env) :
  Core s g -> is_Some (request s) -> is_Some (response s) ->
  (calls CallResponse g = 0%nat \/
   phase = RsBody /\ response_filters_executed (header_state s) = true) ->
  (phase = RsHeaders -> eos_response_headers (eos_tracker s) = Completed) ->
  (phase = RsBody -> eos_response_body (eos_tracker s) = Completed) ->
  wp (run_response_pipeline phase pipeline eos)
    (outcome_post (fun s' g' => keeps_response_side s s')) s g.
Proof.
  intros Hc Hrq Hrs H0c Hh Hb. pose proof (core_bounded _ _ Hc) as [B1 B2 B3]. destruct Hc.
  eapply wp_mono; [by apply run_response_pipeline_spec|]. cbv beta.
  intros r s' g' ([E1 E2 E3 E4 E5 E6 E7] & [R1 R2] & R3 & Hg & Hr).
  assert (Hn : (calls CallRequest g' = calls CallRequest g /\ calls CallResponse g' <= 1 /\ missing g' = missing g)%nat).
  { destruct Hg as [((Ha & Hb' & Hm) & Hx)|((Ha & Hb' & Hm) & Hp & Hx)]; simpl in *; [|lia].
    destruct H0c as [|[-> Hx']]; [lia|]. by rewrite Hx in Hx'. }
  destruct Hn as (Hn1 & Hn2 & Hn3). split; [constructor; lia|].
  destruct r as [rs|e]; [|done]. destruct Hr as [Hgb Hr]. split; [done|]. intros Hi.
  destruct (Hr Hi) as (C1 & C2).
  assert (Hno : ~ response_open s) by (unfold response_open; destruct phase; intros [? ?];
    [specialize (Hh eq_refl)|specialize (Hb eq_refl)]; congruence).
  split; [|unfold keeps_response_side, response_open in *; rewrite E1, E3; split_and!; done].
  constructor; unfold response_open, request_open in *; rewrite ?E3, ?E6, ?E2, ?E7, ?R1, ?R2, ?Hn1; auto.
  - destruct (calls CallResponse g') as [|[|]]; [by left|by right|lia].
  - congruence.
  - intros Ha. destruct phase; [rewrite C2; auto|]. by rewrite (Hb eq_refl) in Ha.
Qed.

(** ** The request direction *)

Lemma wp_apply_override rs headers Q s (g : Glob Env) :
  (forall rs' c, (good_batch rs -> good_batch rs') -> existsb is_immediate rs' = existsb is_immediate rs ->
     Q (Ok rs') (with_protocol_config c s) g) ->
  wp (apply_response_mode_override pipeline rs headers) Q s g.
Proof.
  intros HQ. unfold apply_response_mode_override.
  assert (Hs : with_protocol_config (protocol_config s) s = s) by by destruct s.
  assert (H1 : Q (Ok rs) s g) by (rewrite <- Hs; by apply HQ).
  assert (Hmap : forall m, existsb is_immediate (map fst (map (fun r => set_response_mode_streamed r m) rs)) =
                           existsb is_immediate rs).
  { intros m. clear. induction rs as [|r rs IH]; simpl; [done|]. rewrite IH. f_equal.
    unfold set_response_mode_streamed, is_immediate. by destruct (prs_response r) as [[]|] eqn:E; simpl; rewrite ?E. }
  assert (Hgood : forall m, good_batch rs -> good_batch (map fst (map (fun r => set_response_mode_streamed r m) rs))).
  { intros m [(r & -> & Hr)|Hn]; [left|right; by rewrite Hmap]. eexists; split; [reflexivity|].
    specialize (Hmap m). simpl in Hmap. rewrite Hr, !orb_false_r in Hmap. done. }
  repeat wp_step. wp_case; [by wp_step|]. destruct (cap_response_body_mode (caps pipeline)); try by wp_step.
  - wp_case; [|by wp_step]. repeat wp_step. wp_case; repeat wp_step; [|rewrite <- Hs]; apply HQ; auto.
  - wp_case; [|by wp_step]. repeat wp_step. wp_case; repeat wp_step; [|rewrite <- Hs]; apply HQ; auto.
Qed.

Lemma post_override keeps rs headers s (g : Glob Env) :
  (forall c s' g', keeps s' g' -> keeps (with_protocol_config c s') g') ->
  outcome_post keeps (Ok rs) s g ->
  wp (apply_response_mode_override pipeline rs headers) (outcome_post keeps) s g.
Proof.
  intros Hk [Hb [Hg Hr]]. apply wp_apply_override. intros rs' c Hg' Hi.
  split; [done|]. split; [auto|]. intros Hn. rewrite Hi in Hn. destruct (Hr Hn) as [[] Hkeep].
  split; [by constructor|by apply Hk].
Qed.

(** From a handler's inner call to the handler. *)
Lemma post_mono (K K' : StreamState -> Glob Env -> Prop) (m : M Env StreamState (list ProcessingResponse)) s g :
  (forall s' g', K s' g' -> K' s' g') -> wp m (outcome_post K) s g -> wp m (outcome_post K') s g.
Proof.
  intros HK Hm. eapply wp_mono; [exact Hm|]. intros r s' g' [Hb Hr]. split; [done|].
  destruct r; [|done]. destruct Hr as [Hg Hr]. split; [done|]. intros Hi. destruct (Hr Hi). auto.
Qed.

(** A handler that answers at once. *)
Lemma post_return K rs s (g : Glob Env) :
  Bounded_calls g -> good_batch rs -> (existsb is_immediate rs = false -> Core s g /\ K s g) ->
  outcome_post K (Ok rs) s g.
Proof. done. Qed.

Lemma post_immediate K r s g : Bounded_calls g -> is_immediate r = true -> outcome_post K (Ok [r]) s g.
Proof. intros Hb Hr. split; [done|]. split; [left; by eexists|]. simpl. by rewrite Hr. Qed.

Lemma handle_request_headers_with_body_post s (g : Glob Env) :
  Core s g -> is_Some (request s) -> calls CallRequest g = 0%nat ->
  wp (handle_request_headers_with_body pipeline) (outcome_post (fun s' g' => keeps_request_side s s' g g')) s g.
Proof.
  intros Hc Hrq Hz. pose proof (core_bounded _ _ Hc) as Hbd.
  assert (Hsent : Core (set_request_headers_sent true s) g) by (by destruct Hc).
  unfold handle_request_headers_with_body. repeat wp_step. wp_case.
  { unfold handle_unsupported_selected_request_headers. wp_step.
    eapply wp_mono; [by apply (early_request_post DeferSilent)|]. intros r s' g' [Hb Hr].
    destruct r as [rs|e]; [|done]. destruct Hr as [Hg Hr].
    destruct rs as [|r rs]; [wp_step; by apply post_immediate|].
    destruct (is_immediate r) eqn:Hi; wp_step; [|by apply post_immediate].
    apply post_return; [done..|]. simpl. by rewrite Hi. }
  destruct (request_body_mode (protocol_config s)); repeat wp_step.
  all: try (eapply post_mono; [|apply (early_request_post Send (set_request_headers_sent true s)); done]; done).
  all: try (apply post_return; [done|by auto with praxis|]; by intros _).
  wp_case; [eapply post_mono; [|by apply early_request_post]; done|].
  wp_step. apply post_return; [done|by auto with praxis|]. by intros _.
Qed.

Lemma handle_request_headers_post headers s (g : Glob Env) :
  Core s g -> calls CallRequest g = 0%nat ->
  wp (handle_request_headers pipeline headers) (outcome_post (fun s' g' => keeps_request_side s s' g g')) s g.
Proof.
  intros Hc Hz. pose proof (core_bounded _ _ Hc) as Hbd. unfold handle_request_headers. wp_step.
  apply wp_mark_phase.
  - intros Hp. apply wp_duplicate. intros. by eapply post_invalid.
  - intros Hp _ _. cbn [is_complete].
    set (s1 := with_eos_tracker (if hh_end_of_stream headers then _ else _) s).
    assert (Hs1 : forall rq, Core (with_request rq s1) g /\ phase_order s1 = phase_order s /\
      response s1 = response s /\
      eos_response_headers (eos_tracker s1) = eos_response_headers (eos_tracker s) /\
      eos_response_body (eos_tracker s1) = eos_response_body (eos_tracker s) /\
      (hh_end_of_stream headers = true -> ~ request_open s1)).
    { intros rq. subst s1. destruct Hc.
      destruct (hh_end_of_stream headers); split_and!; try done; [|intros _ [? _]; done].
      constructor; try done. by intros _ [? _]. }
    destruct (reject_ambiguous_guardrail_selection _) as [rej|] eqn:Hrej.
    { wp_step. unfold reject_ambiguous_guardrail_selection in Hrej.
      destruct (ambiguous_selection _ _); [|done]. injection Hrej as <-.
      by apply post_immediate. }
    wp_step. wp_step. destruct (Hs1 (Some (envoy_headers_to_request (extract_header_list headers))))
      as (Hc1 & E1 & E2 & E3 & E4 & E5). wp_step. wp_step.
    set (s2 := with_request _ s1) in *.
    assert (Hk : forall s' g', keeps_request_side s2 s' g g' -> keeps_request_side s s' g g').
    { intros s' g' (K1 & K2 & K3 & K4 & K5 & K6). unfold keeps_request_side.
      change (phase_order s2) with (phase_order s1) in K1. change (response s2) with (response s1) in K3.
      change (eos_tracker s2) with (eos_tracker s1) in K4, K5. split_and!; congruence. }
    assert (Hgo : forall m, wp m (outcome_post (fun s' g' => keeps_request_side s2 s' g g')) s2 g ->
      wp (let? rs := m in apply_response_mode_override pipeline rs (extract_header_list headers))
         (outcome_post (fun s' g' => keeps_request_side s s' g g')) s2 g).
    { intros m Hm. wp_step. eapply wp_mono; [apply (post_mono _ _ _ _ _ Hk Hm)|]. cbv beta.
      intros [rs|e] s' g' Hr; [|done]. apply post_override; [done|done]. }
    wp_case; [wp_step; by apply post_immediate|].
    destruct (hh_end_of_stream headers) eqn:Heos.
    + apply Hgo. unfold handle_end_stream_request_headers. wp_case.
      * apply request_pipeline_post; [done|done|]. intros _. right. by apply E5.
      * by apply request_pipeline_post.
    + wp_case; [wp_step; by apply post_immediate|].
      apply Hgo. by apply handle_request_headers_with_body_post.
  - intros m g' Hq. by eapply post_invalid.
Qed.

Lemma check_body_limit_spec current incoming Q s (g : Glob Env) :
  (forall m g', quiet g g' -> Q (Err (Status_resource_exhausted m)) s g') ->
  ((forall m, max = Some m -> saturating_add current incoming <= m) -> Q (Ok tt) s g) ->
  wp (check_body_limit current incoming max) Q s g.
Proof.
  intros HE HQ. unfold check_body_limit. destruct max as [m|]; [|wp_step; by apply HQ].
  wp_case; repeat wp_step; [apply HE; auto with praxis|]. apply HQ. intros m' [= <-]. lia.
Qed.

(** Counting a streamed chunk: over the limit the stream is answered, else the count grows
    within it. *)
Lemma streamed_limit_spec n Q s (g : Glob Env) :
  max_body_accumulation s = max ->
  (forall r g', quiet g g' -> is_immediate r = true -> Q (Ok (Some r)) s g') ->
  (forall v, (forall m, max = Some m -> v <= m) -> Q (Ok None) (with_streamed_request_bytes v s) g) ->
  wp (reject_streamed_request_over_limit pipeline n) Q s g.
Proof.
  intros Hm HE HQ. unfold reject_streamed_request_over_limit. repeat wp_step. rewrite Hm.
  apply check_body_limit_spec; cbn [is_ok negb]; intros; repeat wp_step; auto.
Qed.

Lemma streamed_limit_post n (k : M Env StreamState (list ProcessingResponse)) s (g : Glob Env) :
  Core s g ->
  (forall s2, Core s2 g -> phase_order s2 = phase_order s -> response s2 = response s ->
     eos_tracker s2 = eos_tracker s -> request s2 = request s ->
     wp k (outcome_post (fun s' g' => keeps_request_side s2 s' g g')) s2 g) ->
  wp (let? rejection := reject_streamed_request_over_limit pipeline n in
      match rejection with Some r => ret [r] | None => k end)
    (outcome_post (fun s' g' => keeps_request_side s s' g g')) s g.
Proof.
  intros Hc Hk. pose proof (core_bounded _ _ Hc) as Hbd. wp_step.
  apply streamed_limit_spec; [by destruct Hc|..].
  - intros r g' Hq Hi. wp_step. apply post_immediate; [by eapply quiet_bounded|done].
  - intros v Hv. apply (Hk (with_streamed_request_bytes v s)); try done. by destruct Hc.
Qed.

Lemma passthrough_request_post body mode s (g : Glob Env) :
  Core s g -> is_Some (request s) ->
  wp (passthrough_chunk body mode true) (outcome_post (fun s' g' => keeps_request_side s s' g g')) s g.
Proof.
  intros Hc Hrq. pose proof (core_bounded _ _ Hc) as Hbd. destruct Hc.
  eapply wp_mono; [apply passthrough_chunk_spec|]. cbv beta.
  intros r s' g' ([F1 F2 F3 F4 F5 F6 F7] & [R1 R2 R3] & [Q1 Q2] & Hq & Hca & rs & -> & Hi).
  split; [by eapply quiet_bounded|]. destruct Hq as (Hq1 & Hq2 & Hq3). split; [by auto with praxis|]. intros _.
  split; [|unfold keeps_request_side; rewrite F3, F1; by split_and!].
  constructor; unfold response_open, request_open in *;
    rewrite ?F3, ?F6, ?F2, ?F7, ?R2, ?R3, ?Q1, ?Q2, ?Hq1, ?Hq2, ?Hca; auto; congruence.
Qed.

Lemma streamed_request_post body s (g : Glob Env) :
  Core s g -> is_Some (request s) ->
  wp (process_streamed_body_chunk pipeline body true)
    (outcome_post (fun s' g' => keeps_request_side s s' g g')) s g.
Proof.
  intros Hc Hrq. pose proof (core_bounded _ _ Hc) as Hbd. destruct Hc.
  eapply wp_mono; [by apply process_streamed_body_chunk_spec|]. cbv beta.
  intros r s' g' ([F1 F2 F3 F4 F5 F6 F7] & [Q1 Q2] & Hq & Hx & Hsr & Hr).
  destruct (Hsr eq_refl) as [R1 R2 R3].
  split; [by eapply quiet_bounded|]. destruct Hq as (Hq1 & Hq2 & Hq3).
  destruct r as [rs|e]; [|done]. destruct Hr as [Hgb Hr].
  split; [done|]. intros Hi. destruct (Hr Hi) as (C1 & C2 & C3).
  split; [|unfold keeps_request_side; rewrite F3, F1; by split_and!].
  constructor; unfold response_open, request_open in *;
    rewrite ?F3, ?F6, ?F2, ?F7, ?R2, ?R3, ?Q1, ?Q2, ?Hq1, ?Hq2; auto; congruence.
Qed.

(** The chunk is appended only when it fits; the filters run when the body is complete, or on
    every chunk in BUFFERED mode. *)
Lemma accumulate_request_post body s (g : Glob Env) :
  Core s g -> is_Some (request s) -> (hb_end_of_stream body = true -> ~ request_open s) ->
  wp (accumulate_request_body pipeline body) (outcome_post (fun s' g' => keeps_request_side s s' g g')) s g.
Proof.
  intros Hc Hrq Heos. pose proof (core_bounded _ _ Hc) as Hbd. unfold accumulate_request_body.
  repeat wp_step. rewrite (core_max _ _ Hc). apply check_body_limit_spec; cbn [is_ok negb].
  - intros m g' Hq. wp_step. apply post_immediate; [by eapply quiet_bounded|done].
  - intros Hfit. repeat wp_step.
    set (b := bool_decide (request_body_mode (protocol_config s) = Buffered)).
    set (s1 := with_request_body_buf (request_body_buf s ++ hb_body body) s).
    assert (Hc2 : Core s1 g) by (destruct Hc; constructor; try done; intros _ _; by apply within_app).
    destruct (negb (hb_end_of_stream body) && negb b) eqn:Hb.
    { wp_step. apply post_return; [done|by auto with praxis|]. intros _. split; [done|].
      unfold keeps_request_side. by split_and!. }
    assert (Hrun : b = true \/ ~ request_open s1).
    { destruct b; [by left|right]. rewrite andb_true_r in Hb. apply Heos.
      by destruct (hb_end_of_stream body). }
    repeat wp_step. apply (request_pipeline_post RqBody _ true (with_buffered_request_body_processed b s1)); try done.
    destruct Hc2. constructor; try done. intros Hp Ho. cbn in Hp. destruct Hrun; [congruence|done].
Qed.

Lemma handle_request_body_post body s (g : Glob Env) :
  Core s g -> is_Some (request s) ->
  wp (handle_request_body pipeline body) (outcome_post (fun s' g' => keeps_request_side s s' g g')) s g.
Proof.
  intros Hc Hrq. pose proof (core_bounded _ _ Hc) as Hbd. unfold handle_request_body. repeat wp_step.
  assert (Hc0 : Core (mark_body_chunk_seen true s) g) by by destruct Hc.
  apply wp_mark_phase; [..|by intros; eapply post_invalid].
  { intros Hp. wp_step. apply wp_redelivery; [done| |by intros; eapply post_invalid].
    intros _. wp_step. apply post_return; [done|by auto with praxis|]. intros _. by split. }
  intros Hp Hh _. wp_step. apply wp_redelivery; [|done|by intros; eapply post_invalid]. intros _.
  set (s1 := with_eos_tracker _ _).
  assert (Hs1 : Core s1 g /\ (hb_end_of_stream body = true -> ~ request_open s1) /\
     forall s' g', keeps_request_side s1 s' g g' -> keeps_request_side s s' g g').
  { subst s1. destruct Hc0. destruct (hb_end_of_stream body); split_and!; try done;
      [constructor; try done; by intros _ [_ ?]|by intros _ [_ ?]]. }
  destruct Hs1 as (Hc1 & Heos & Hk). assert (is_Some (request s1)) by done. clearbody s1.
  assert (Hacc : wp (accumulate_request_body pipeline body)
      (outcome_post (fun s' g' => keeps_request_side s s' g g')) s1 g)
    by (eapply post_mono; [by apply Hk|by apply accumulate_request_post]).
  destruct (request_body_mode (protocol_config s)), (needs_request_body (caps pipeline)); try exact Hacc.
  all: eapply post_mono; [by apply Hk|]; apply streamed_limit_post; [done|];
    intros s2 Hc2 A1 A2 A3 A4; (apply passthrough_request_post || apply streamed_request_post);
    [done|by rewrite A4].
Qed.

(** ** The response direction *)

Lemma early_response_post d s (g : Glob Env) :
  Core s g -> is_Some (request s) -> is_Some (response s) -> calls CallResponse g = 0%nat ->
  wp (run_response_header_filters_early pipeline d) (outcome_post (fun s' g' => keeps_response_side s s')) s g.
Proof.
  intros Hc Hrq Hrs H0c. pose proof (core_bounded _ _ Hc) as []. destruct Hc.
  eapply wp_mono; [by apply run_response_header_filters_early_spec|]. cbv beta.
  intros r s' g' ([E1 E2 E3 E4 E5 E6 E7] & [Q1 Q2] & (Ha & Hb & Hm) & Hbuf & Hr). simpl in Ha, Hb.
  split; [constructor; lia|]. destruct r as [rs|e]; [|done]. destruct Hr as [Hgb Hr]. split; [done|].
  intros Hi. destruct (Hr Hi) as (C1 & C2 & C3).
  split; [|unfold keeps_response_side; rewrite E1; by split_and!].
  constructor; unfold response_open, request_open in *;
    rewrite ?E3, ?E6, ?E2, ?E7, ?Q1, ?Q2, ?Hbuf, ?Ha, ?Nat.add_0_r; auto; try congruence; right; by rewrite Hb, H0c.
Qed.

Lemma passthrough_response_post body mode s (g : Glob Env) :
  Core s g -> (response_open s -> is_Some (response s)) ->
  wp (passthrough_chunk body mode false) (outcome_post (fun s' g' => keeps_response_side s s')) s g.
Proof.
  intros Hc Hrs. pose proof (core_bounded _ _ Hc) as Hbd. destruct Hc.
  eapply wp_mono; [apply passthrough_chunk_spec|]. cbv beta.
  intros r s' g' ([F1 F2 F3 F4 F5 F6 F7] & [R1 R2 R3] & [Q1 Q2] & Hq & Hca & rs & -> & Hi).
  split; [by eapply quiet_bounded|]. destruct Hq as (Hq1 & Hq2 & Hq3). split; [by auto with praxis|]. intros _.
  split; [|unfold keeps_response_side, response_open in *; rewrite F3, F1, R1; by split_and!].
  constructor; unfold response_open, request_open in *;
    rewrite ?F3, ?F6, ?F2, ?F7, ?R2, ?R3, ?Q1, ?Q2, ?Hq1, ?Hq2, ?Hca; auto; congruence.
Qed.

Lemma streamed_response_post body s (g : Glob Env) :
  Core s g -> is_Some (request s) -> is_Some (response s) ->
  wp (process_streamed_body_chunk pipeline body false)
    (outcome_post (fun s' g' => keeps_response_side s s')) s g.
Proof.
  intros Hc Hrq Hrs. pose proof (core_bounded _ _ Hc) as Hbd. destruct Hc.
  eapply wp_mono; [by apply process_streamed_body_chunk_spec|]. cbv beta.
  intros r s' g' ([F1 F2 F3 F4 F5 F6 F7] & [Q1 Q2] & Hq & Hx & Hsr & Hr).
  split; [by eapply quiet_bounded|]. destruct Hq as (Hq1 & Hq2 & Hq3).
  destruct r as [rs|e]; [|done]. destruct Hr as [Hgb Hr].
  split; [done|]. intros Hi. destruct (Hr Hi) as (C1 & C2 & C3).
  split; [|unfold keeps_response_side; rewrite F1; split_and!; auto].
  constructor; unfold response_open, request_open in *;
    rewrite ?F3, ?F6, ?F2, ?F7, ?Q1, ?Q2, ?Hx, ?Hq1, ?Hq2; auto; try congruence.
  rewrite core_max0 in C3. auto.
Qed.

Lemma handle_response_headers_post headers s (g : Glob Env) :
  Core s g -> is_Some (request s) -> calls CallResponse g = 0%nat ->
  wp (handle_response_headers pipeline headers) (outcome_post (fun s' g' => keeps_response_side s s')) s g.
Proof.
  intros Hc Hrq Hz. pose proof (core_bounded _ _ Hc) as Hbd. unfold handle_response_headers. wp_step.
  apply wp_mark_phase; [intros _; apply wp_duplicate; intros; by eapply post_invalid| |by intros; eapply post_invalid].
  intros Hp _ _. cbn [is_complete]. repeat wp_step. set (resp := envoy_headers_to_response _).
  set (s1 := with_response _ _).
  assert (Hs1 : Core s1 g /\ (hh_end_of_stream headers = true -> eos_response_headers (eos_tracker s1) = Completed) /\
      forall s' : StreamState, keeps_response_side s1 s' -> keeps_response_side s s').
  { subst s1. destruct Hc. destruct (hh_end_of_stream headers); split_and!; try done.
    constructor; try done. left. done. }
  destruct Hs1 as (Hc1 & Heos & Hk). assert (Hrs1 : is_Some (response s1)) by done.
  assert (Hrq1 : is_Some (request s1)) by done. clearbody s1.
  assert (Hlift : forall m, wp m (outcome_post (fun s' (_ : Glob Env) => keeps_response_side s1 s')) s1 g ->
     wp m (outcome_post (fun s' (_ : Glob Env) => keeps_response_side s s')) s1 g)
    by (intros m; apply post_mono; auto).
  assert (Hsent : Core (set_response_headers_sent true s1) g) by by destruct Hc1.
  assert (Hnow : forall rs, existsb is_immediate rs = false ->
     wp (ret rs) (outcome_post (fun s' (_ : Glob Env) => keeps_response_side s s')) s1 g).
  { intros rs Hi. apply Hlift. wp_step. apply post_return; auto with praxis. intros _. by split. }
  destruct (hh_end_of_stream headers); [apply Hlift, response_pipeline_post; auto; done|].
  repeat wp_step. destruct (response_body_mode (protocol_config s1)); repeat wp_step; try wp_case.
  all: try (by apply Hnow).
  all: try (by apply Hlift, early_response_post).
  all: eapply post_mono; [|by apply (early_response_post Send (set_response_headers_sent true s1))];
    intros s' g' HH; by apply Hk.
Qed.

Lemma accumulate_response_post body s (g : Glob Env) :
  Core s g -> is_Some (request s) -> is_Some (response s) ->
  (calls CallResponse g = 0%nat \/ response_filters_executed (header_state s) = true) ->
  (hb_end_of_stream body = true -> eos_response_body (eos_tracker s) = Completed) ->
  wp (accumulate_response_body pipeline body) (outcome_post (fun s' g' => keeps_response_side s s')) s g.
Proof.
  intros Hc Hrq Hrs Hcalls Heos. pose proof (core_bounded _ _ Hc) as Hbd. unfold accumulate_response_body.
  repeat wp_step. rewrite (core_max _ _ Hc). apply check_body_limit_spec.
  - intros m g' Hq. split; [by eapply quiet_bounded|apply exhausted_blameless].
  - intros Hfit. repeat wp_step.
    set (s1 := with_response_body_buf (response_body_buf s ++ hb_body body) s).
    assert (Hc1 : Core s1 g) by (destruct Hc; constructor; try done; intros _; by apply within_app).
    destruct (hb_end_of_stream body); cbn [negb].
    + apply (response_pipeline_post RsBody true s1); try done; [|by auto].
      destruct Hcalls; auto.
    + wp_step. apply post_return; auto with praxis. intros _. by split.
Qed.

Lemma core_calls_open s (g : Glob Env) :
  Core s g -> response_open s ->
  calls CallResponse g = 0%nat \/ response_filters_executed (header_state s) = true.
Proof. intros [] Ho. destruct core_response_calls0 as [|[_ Hx]]; auto. Qed.

Lemma handle_response_body_post body s (g : Glob Env) :
  Core s g -> is_Some (request s) -> (response_open s -> is_Some (response s)) ->
  wp (handle_response_body pipeline body) (outcome_post (fun s' g' => keeps_response_side s s')) s g.
Proof.
  intros Hc Hrq Hrs. pose proof (core_bounded _ _ Hc) as Hbd. unfold handle_response_body. repeat wp_step.
  assert (Hc0 : Core (mark_body_chunk_seen false s) g) by by destruct Hc.
  apply wp_mark_phase; [..|by intros; eapply post_invalid].
  { intros Hp. wp_step. apply wp_redelivery; [done| |by intros; eapply post_invalid].
    intros _. wp_step. apply post_return; [done|by auto with praxis|]. intros _. by split. }
  intros Hp _ Hh. specialize (Hh eq_refl). wp_step.
  apply wp_redelivery; [|done|by intros; eapply post_invalid]. intros _.
  assert (Hopen : response_open s) by done. specialize (Hrs Hopen).
  pose proof (core_calls_open _ _ Hc Hopen) as Hcalls.
  set (s1 := with_eos_tracker _ _).
  assert (Hs1 : Core s1 g /\ (hb_end_of_stream body = true -> eos_response_body (eos_tracker s1) = Completed) /\
     forall s' : StreamState, keeps_response_side s1 s' -> keeps_response_side s s').
  { subst s1. destruct Hc0. destruct (hb_end_of_stream body); split_and!; try done.
    constructor; try done. destruct core_response_calls0 as [|[? _]]; [by left|right].
    split; [done|]. by intros [_ ?]. }
  destruct Hs1 as (Hc1 & Heos & Hk). assert (is_Some (request s1)) by done.
  assert (is_Some (response s1)) by done.
  assert (Hcalls1 : calls CallResponse g = 0%nat \/ response_filters_executed (header_state s1) = true) by done.
  clearbody s1.
  assert (Hlift : forall m, wp m (outcome_post (fun s' (_ : Glob Env) => keeps_response_side s1 s')) s1 g ->
     wp m (outcome_post (fun s' (_ : Glob Env) => keeps_response_side s s')) s1 g)
    by (intros m; apply post_mono; auto).
  destruct (response_body_mode (protocol_config s)), (needs_response_body (caps pipeline)); apply Hlift.
  all: try (by apply accumulate_response_post).
  all: by (apply passthrough_response_post || apply streamed_response_post).
Qed.

(** ** Trailers *)

(** The side a direction's messages keep. *)
Definition keeps_side (is_request : bool) (s : StreamState) (g : Glob Env) (s' : StreamState) (g' : Glob Env) : Prop :=
  if is_request then keeps_request_side s s' g g' else keeps_response_side s s'.

(** Dropping responses that are no rejections keeps the outcome. *)
Lemma post_filter K f rs s g :
  (forall r, is_immediate r = true -> f r = true) ->
  outcome_post K (Ok rs) s g -> outcome_post K (Ok (List.filter f rs)) s g.
Proof.
  intros Hf [Hb [Hg Hr]].
  assert (Hsame : existsb is_immediate (List.filter f rs) = existsb is_immediate rs).
  { clear -Hf. induction rs as [|r rs IH]; simpl; [done|]. destruct (f r) eqn:E; simpl; rewrite IH; [done|].
    destruct (is_immediate r) eqn:Hi; [|done]. by rewrite (Hf r Hi) in E. }
  split; [done|]. split; [|by rewrite Hsame].
  destruct Hg as [(r & -> & Hi)|Hn]; [|right; by rewrite Hsame].
  left. exists r. simpl. by rewrite (Hf r Hi).
Qed.

Lemma wp_post_filter K f (m : M Env StreamState (list ProcessingResponse)) (h : list ProcessingResponse -> list ProcessingResponse) s g :
  (forall r, is_immediate r = true -> f r = true) -> (forall rs, h rs = List.filter f rs) ->
  wp m (outcome_post K) s g -> wp (let? rs := m in ret (h rs)) (outcome_post K) s g.
Proof.
  intros Hf Hh Hm. wp_step. eapply wp_mono; [exact Hm|]. cbv beta.
  intros [rs|e] s' g' Hr; [|done]. wp_step. rewrite Hh. by apply post_filter.
Qed.

Lemma immediate_not_body r : is_immediate r = true -> negb (is_body r) = true.
Proof. unfold is_immediate, is_body. by destruct (prs_response r) as [[]|]. Qed.

Lemma trailing_pipeline_post (is_request : bool) s (g : Glob Env) :
  Core s g -> is_Some (request s) ->
  (if is_request then ~ request_open s
   else is_Some (response s) /\ eos_response_body (eos_tracker s) = Completed /\
        (calls CallResponse g = 0%nat \/ response_filters_executed (header_state s) = true)) ->
  wp (run_trailing_body_pipeline pipeline is_request) (outcome_post (keeps_side is_request s g)) s g.
Proof.
  intros Hc Hrq Hx. unfold run_trailing_body_pipeline, keeps_side. destruct is_request.
  - apply request_pipeline_post; auto.
  - destruct Hx as (? & ? & Hcalls). apply response_pipeline_post; try done. destruct Hcalls; auto.
Qed.

Lemma flush_headers_post (is_request : bool) s (g : Glob Env) :
  Core s g -> is_Some (request s) -> (is_request = false -> response_open s -> is_Some (response s)) ->
  wp (flush_deferred_fds_headers is_request) (outcome_post (keeps_side is_request s g)) s g.
Proof.
  intros Hc Hrq Hrs. pose proof (core_bounded _ _ Hc) as Hbd. destruct Hc.
  unfold flush_deferred_fds_headers, take_first, take_first_chunk. repeat wp_step.
  destruct (headers_sent is_request (header_state s)); repeat wp_step.
  - apply post_return; auto with praxis. intros _. split; [by constructor|].
    destruct is_request; [unfold keeps_side, keeps_request_side; by split_and!|].
    unfold keeps_side, keeps_response_side. split_and!; auto.
  - unfold deferred_header_response. repeat wp_step.
    destruct is_request; repeat wp_step; (apply post_return; auto with praxis; intros _; split; [by constructor|]).
    + unfold keeps_side, keeps_request_side. by split_and!.
    + unfold keeps_side, keeps_response_side. split_and!; auto.
Qed.

Lemma flush_streamed_post (is_request : bool) s (g : Glob Env) :
  Core s g -> is_Some (request s) -> (is_request = false -> is_Some (response s)) ->
  (is_request = false -> eos_response_body (eos_tracker s) = Completed) ->
  wp (flush_streamed_body_filters pipeline is_request) (outcome_post (keeps_side is_request s g)) s g.
Proof.
  intros Hc Hrq Hrs Hcomp. pose proof (core_bounded _ _ Hc) as Hbd. destruct Hc.
  eapply wp_mono; [by apply flush_streamed_body_filters_spec|]. cbv beta.
  intros r s' g' ([E1 E2 E3 E4 E5 E6 E7] & [Q1 Q2] & Hq & Hh & Hsr & Hr).
  split; [by eapply quiet_bounded|]. destruct Hq as (Hq1 & Hq2 & Hq3).
  destruct r as [rs|e]; [|done]. destruct Hr as [Hgb Hr]. split; [done|]. intros Hi.
  split.
  - constructor; unfold response_open, request_open in *;
      rewrite ?E3, ?E6, ?E2, ?E7, ?Q1, ?Hh, ?Hq1, ?Hq2; auto; try congruence.
    intros Ha. destruct is_request; [|by rewrite Hcomp in Ha]. destruct (Hsr eq_refl) as [R1 R2 R3].
    rewrite R2. auto.
  - destruct is_request; unfold keeps_side.
    + destruct (Hsr eq_refl) as [R1 R2 R3]. unfold keeps_request_side. rewrite E1, E3. by split_and!.
    + unfold keeps_response_side, response_open. rewrite E3, Hcomp by done. split_and!; try done. by intros [? ?].
Qed.

Lemma body_open_spec is_request s :
  body_open is_request s = true ->
  if is_request then is_Some (request s) /\ request_open s else is_Some (response s) /\ response_open s.
Proof.
  unfold body_open, request_open, response_open.
  destruct is_request; intros [[Hp%bool_decide_eq_true Hh]%andb_prop Hb]%andb_prop; (split; [done|]);
    cbn in *; split; [destruct (eos_request_headers _)|destruct (eos_request_body _)|
      destruct (eos_response_headers _)|destruct (eos_response_body _)]; done.
Qed.

Lemma finalize_post (is_request : bool) s (g : Glob Env) :
  Core s g -> is_Some (request s) -> (is_request = false -> response_open s -> is_Some (response s)) ->
  wp (finalize_body_on_trailers pipeline is_request) (outcome_post (keeps_side is_request s g)) s g.
Proof.
  intros Hc Hrq Hrs. pose proof (core_bounded _ _ Hc) as Hbd. unfold finalize_body_on_trailers.
  assert (Hstay : forall s1, Core s1 g -> keeps_side is_request s g s1 g ->
     wp (ret []) (outcome_post (keeps_side is_request s g)) s1 g)
    by (intros s1 ? ?; wp_step; apply post_return; auto with praxis).
  repeat wp_step. destruct (body_open is_request s) eqn:Hopen; cbn [negb].
  2: { apply Hstay; [done|]. destruct is_request; unfold keeps_side, keeps_request_side, keeps_response_side;
       split_and!; auto. }
  apply body_open_spec in Hopen.
  destruct (trailing_body_phase pipeline s is_request) as [[phase mode] needs] eqn:Hph. repeat wp_step.
  set (s1 := with_eos_tracker _ s).
  assert (phase = if is_request then PRequestBody else PResponseBody) as ->
    by (unfold trailing_body_phase in Hph; destruct is_request; congruence).
  assert (Hs1 : Core s1 g /\ keeps_side is_request s g s1 g /\
     (forall s' g', keeps_side is_request s1 g s' g' -> keeps_side is_request s g s' g') /\
     (if is_request then ~ request_open s1
      else is_Some (response s1) /\ eos_response_body (eos_tracker s1) = Completed /\
        (calls CallResponse g = 0%nat \/ response_filters_executed (header_state s1) = true))).
  { pose proof (core_calls_open _ _ Hc) as Hcalls. subst s1. destruct Hc.
    destruct is_request, Hopen as [Hso Ho]; split_and!; try done; try by intros _ [_ ?].
    - constructor; try done. by intros _ [_ ?].
    - by intros [_ ?].
    - constructor; try done. destruct core_response_calls0 as [|[? _]]; [by left|right]. split; [done|]. by intros [_ ?].
    - auto. }
  destruct Hs1 as (Hc1 & Hk1 & Hk & Hx).
  assert (Hrq1 : is_Some (request s1)) by done. clearbody s1.
  assert (Hrun : wp (run_trailing_body_pipeline pipeline is_request)
       (outcome_post (keeps_side is_request s g)) s1 g)
    by (eapply post_mono; [exact Hk|by apply trailing_pipeline_post]).
  destruct mode; try by apply Hstay.
  - destruct needs; [|by apply Hstay]. eapply post_mono; [exact Hk|].
    apply flush_streamed_post; try done; destruct is_request; try done; by destruct Hx as (? & ? & ?).
  - destruct (is_request && _); [by apply Hstay|]. by apply (wp_post_filter _ is_immediate _ rejection_only).
  - destruct needs.
    + unfold run_trailing_fds_body. repeat wp_step. eapply wp_mono; [exact Hrun|]. cbv beta.
      intros [rs|e] s' g' Hr; [|done]. repeat wp_step. wp_case; wp_step; [done|].
      apply post_filter; [apply immediate_not_body|done].
    + eapply post_mono; [exact Hk|]. apply flush_headers_post; try done.
      intros -> [_ Ho]. destruct Hx as (_ & ? & _). congruence.
Qed.

Lemma handle_trailers_post (is_request : bool) s (g : Glob Env) :
  Core s g -> is_Some (request s) -> (is_request = false -> response_open s -> is_Some (response s)) ->
  wp (handle_trailers pipeline is_request) (outcome_post (keeps_side is_request s g)) s g.
Proof.
  intros Hc Hrq Hrs. unfold handle_trailers. wp_step.
  eapply wp_mono; [by apply finalize_post|]. cbv beta. intros [rs|e] s' g' Hr; [|done].
  wp_case; wp_step; [done|]. destruct Hr as [Hb [Hg Hr]].
  assert (Hn : existsb is_immediate rs = false).
  { destruct Hg as [(r & -> & Hi)|]; [|done]. simpl in Hc0. congruence. }
  assert (Happ : existsb is_immediate (rs ++ [if is_request then request_trailers else response_trailers]) = false).
  { rewrite existsb_app, Hn. by destruct is_request. }
  split; [done|]. split; [by auto with praxis|]. auto.
Qed.
End StreamInv.
