(* ===== verification/Stream.v ===== *)
(** * Streams: reachability and what holds along every stream

    A stream is the sequence of states [process_messages] goes through. [reachable] follows it
    one inbound message at a time; [Inv] holds in every reachable state, and the theorems are
    its consequences for single messages and for whole streams. *)

From S2P Require Import Prelude RustStd Proto Effect Extern Concrete Metrics Response Protocol Adapter ResponseMode State Pipeline Handlers Server Invariant StreamInv.

(** ** Calls into the filters *)

Section Calls.
Context {E : Type}.

Definition is_call (e : Event) : bool := match e with ECall _ => true | _ => false end.

(** Every call into the filter pipeline a stream made. *)
Definition filter_calls (g : Glob E) : list Event := List.filter is_call (g_log g).

Lemma filter_calls_log e (g : Glob E) : is_call e = false -> filter_calls (log_event e g) = filter_calls g.
Proof. intros He. unfold filter_calls. simpl. rewrite List.filter_app. simpl. by rewrite He, app_nil_r. Qed.

Lemma no_calls c (g : Glob E) : filter_calls g = [] -> calls c g = 0%nat.
Proof.
  unfold filter_calls, calls, count_event. intros Hn. apply count_occ_not_In. intros Hin.
  assert (ECall c ∈ List.filter is_call (g_log g)) as Hf by (apply list_elem_of_In, filter_In; by split).
  rewrite Hn in Hf. by apply elem_of_nil in Hf.
Qed.
End Calls.

(** The body a response replaces, if it replaces any. *)
Definition body_mutation_of (r : ProcessingResponse) : option BodyMutation :=
  match prs_response r with
  | Some (RespRequestBody (Some c)) | Some (RespResponseBody (Some c)) => cr_body_mutation c
  | _ => None
  end.

(** The responses to the messages of a local reply, in a response body mode: headers, body and
    trailers that Envoy is to continue with as they are; in full-duplex mode, where Envoy
    forwards what it is sent, chunks of the body with no header mutation. *)
Inductive transparent (mode : BodyMode) : ProcessingResponse -> Prop :=
| transparent_headers : transparent mode (response_headers None)
| transparent_body : mode <> FullDuplexStreamed -> transparent mode (wrap_body_response CommonResponse_default false)
| transparent_chunk chunk eos :
    mode = FullDuplexStreamed -> transparent mode (make_streamed_response chunk eos None false)
| transparent_trailers : transparent mode response_trailers.

Lemma transparent_goes_on mode rs : Forall (transparent mode) rs -> existsb is_immediate rs = false.
Proof. induction 1 as [|r rs Hr _ IH]; [done|]. cbn [existsb]. rewrite IH. by destruct Hr. Qed.

(** The responses to a body message send its bytes back unchanged, or leave the body to Envoy. *)
Definition same_body (body : bytes) (rs : list ProcessingResponse) : Prop :=
  streamed_bytes rs = body \/ Forall (fun r => body_mutation_of r = None) rs.

Section Transparent.
Context `{PraxisFilter}.

Lemma streamed_loop_transparent fuel : forall limit offset data eos,
  Forall (transparent FullDuplexStreamed) (streamed_loop fuel limit offset data None false eos).
Proof.
  induction fuel as [|f IH]; intros; simpl; [done|]. destruct (offset <? len data); [|done].
  assert (Hif : (if offset =? 0 then @None HeaderMutation else None) = None) by by destruct (offset =? 0).
  rewrite Hif. constructor; [by constructor|apply IH].
Qed.

(** A body is sent on in chunks in full-duplex mode, and left to Envoy in the others. *)
Lemma streamed_body_transparent body eos :
  Forall (transparent FullDuplexStreamed) (response_body body None FullDuplexStreamed eos).
Proof.
  unfold response_body. cbn [body_responses]. unfold body_responses_streamed.
  destruct body as [[|a l]|]; [by repeat constructor| |by repeat constructor]. apply streamed_loop_transparent.
Qed.

Lemma no_body_transparent mode eos :
  mode <> FullDuplexStreamed -> Forall (transparent mode) (response_body None None mode eos).
Proof. intros Hm. destruct mode; try done; (constructor; [by apply transparent_body|done]). Qed.

Lemma streamed_body_same data is_request eos :
  streamed_bytes (body_responses (body_data_if_present data) None is_request FullDuplexStreamed eos) = data.
Proof.
  unfold body_responses, body_data_if_present. destruct data as [|a l]; [by destruct is_request|].
  apply (streamed_loop_spec BODY_CHUNK_LIMIT (a :: l) is_request eos ltac:(done) (S (length (a :: l))) 0 None);
    unfold len; lia.
Qed.
End Transparent.

(** ** Local replies *)

Section LocalReply.
Context `{PraxisFilter}.

(** What a local-reply message may change: end-of-stream marks, the headers-sent flag, the
    log. *)
Record local_frame (s s' : StreamState) : Prop := {
  local_config : protocol_config s' = protocol_config s;
  local_carried : carried_context s' = carried_context s;
  local_request : request s' = request s;
  local_request_buf : request_body_buf s' = request_body_buf s;
  local_response_buf : response_body_buf s' = response_body_buf s;
  local_streamed : streamed_request_bytes s' = streamed_request_bytes s;
  local_order : phase_order s' = phase_order s;
  local_max : max_body_accumulation s' = max_body_accumulation s;
  local_processed : buffered_request_body_processed s' = buffered_request_body_processed s;
  local_request_flag : request_filters_executed (header_state s') = request_filters_executed (header_state s);
  local_response_flag : response_filters_executed (header_state s') = response_filters_executed (header_state s);
  local_request_eos : eos_request_headers (eos_tracker s') = eos_request_headers (eos_tracker s) /\
                      eos_request_body (eos_tracker s') = eos_request_body (eos_tracker s);
  local_body_eos : eos_response_body (eos_tracker s') = Active -> eos_response_body (eos_tracker s) = Active;
  local_deferred : deferred_response_header_mutation s = None -> deferred_response_header_mutation s' = None;
}.

Definition local_post (s : StreamState) (g : Glob Env) (req : ReqMsg)
  (r : result Status (list ProcessingResponse)) (s' : StreamState) (g' : Glob Env) : Prop :=
  local_frame s s' /\ quiet g g' /\ filter_calls g' = filter_calls g /\
  match r with
  | Ok rs => Forall (transparent (response_body_mode (protocol_config s))) rs /\ forall b, req = ResponseBody b -> same_body (hb_body b) rs
  | Err e => st_code e <> Internal
  end.

Lemma local_frame_refl s : local_frame s s.
Proof. by constructor. Qed.

#[local] Hint Resolve local_frame_refl : praxis.

Lemma local_error s (g g' : Glob Env) req e :
  quiet g g' -> filter_calls g' = filter_calls g -> st_code e <> Internal -> local_post s g req (Err e) s g'.
Proof. intros. split_and!; auto with praxis. Qed.

Lemma local_reply_headers_spec h s (g : Glob Env) :
  wp (local_reply_headers h) (local_post s g (ResponseHeaders h)) s g.
Proof.
  unfold local_reply_headers. wp_step. apply wp_zoom. eapply wp_mono; [apply check_and_mark_spec|]. cbv beta.
  assert (Hs : with_eos_tracker (eos_tracker s) s = s) by by destruct s.
  intros r t' g' [(-> & -> & -> & _)|[(-> & _ & -> & -> & _)|(m & -> & -> & _ & ->)]].
  - rewrite Hs. cbn [is_complete]. unfold duplicate_after_eos. repeat wp_step.
    apply local_error; [by auto with praxis|by apply filter_calls_log|done].
  - cbn [is_complete].
    assert (Hf : forall b, local_frame s (set_response_headers_sent b
        (with_eos_tracker (if hh_end_of_stream h then mark_complete PResponseHeaders (eos_tracker s) else eos_tracker s) s)) /\
      local_frame s (with_eos_tracker (if hh_end_of_stream h then mark_complete PResponseHeaders (eos_tracker s) else eos_tracker s) s))
      by (intros b; destruct (hh_end_of_stream h); split; by constructor).
    destruct (Hf true) as [F1 F2]. unfold record_local_reply. repeat wp_step. wp_case; repeat wp_step.
    + split_and!; try done; [by auto with praxis|by apply filter_calls_log].
    + split_and!; try done; [by auto with praxis|by apply filter_calls_log|by repeat constructor].
  - rewrite Hs. apply local_error; [by auto with praxis|by apply filter_calls_log|done].
Qed.

Lemma local_reply_body_spec b s (g : Glob Env) :
  deferred_response_header_mutation s = None ->
  wp (local_reply_body b) (local_post s g (ResponseBody b)) s g.
Proof.
  intros Hd. unfold local_reply_body. repeat wp_step. apply wp_zoom.
  eapply wp_mono; [apply check_and_mark_spec|]. cbv beta.
  assert (Hs : with_eos_tracker (eos_tracker s) s = s) by by destruct s.
  intros r t' g' [(-> & -> & -> & _)|[(-> & _ & -> & -> & _)|(m & -> & -> & _ & ->)]].
  - rewrite Hs. cbn [handle_body_redelivery]. wp_step. wp_case; repeat wp_step.
    + split_and!; auto with praxis. intros b' _. by right.
    + unfold duplicate_after_eos. repeat wp_step.
      apply local_error; [by auto with praxis|by apply filter_calls_log|done].
  - cbn [handle_body_redelivery]. repeat wp_step.
    set (s1 := with_eos_tracker _ s).
    assert (F1 : local_frame s s1 /\ deferred_response_header_mutation s1 = None)
      by (subst s1; destruct (hb_end_of_stream b); (split; [by constructor|done])).
    destruct F1 as [F1 D1]. wp_case.
    + apply bool_decide_eq_true in Hc as Hm. rewrite Hm. unfold passthrough_chunk, take_first, take_first_chunk.
      repeat wp_step. destruct (headers_sent false (header_state s1)); cbn [negb]; repeat wp_step.
      * unfold local_post. rewrite Hm. split_and!; [|by auto with praxis|done|apply streamed_body_transparent|].
        { destruct F1. by constructor. }
        intros b' [= <-]. left. apply streamed_body_same.
      * cbn [negb]. unfold deferred_header_response. repeat wp_step.
        cbn [deferred_response_header_mutation with_header_state]. rewrite D1.
        unfold local_post. rewrite Hm. split_and!; [|by auto with praxis|done|constructor; [by constructor|apply streamed_body_transparent]|].
        { destruct F1. by constructor. }
        intros b' [= <-]. left. apply (streamed_body_same (hb_body b) false).
    + apply bool_decide_eq_false in Hc.
      wp_step. split_and!; [done|by auto with praxis|done|by apply no_body_transparent|]. intros b' [= <-]. right.
      destruct (response_body_mode (protocol_config s)); try done; by constructor.
  - rewrite Hs. apply local_error; [by auto with praxis|by apply filter_calls_log|done].
Qed.

Lemma local_reply_spec req s (g : Glob Env) :
  deferred_response_header_mutation s = None -> fst (message_order req) = Response_ ->
  wp (local_reply_passthrough req) (local_post s g req) s g.
Proof.
  intros Hd Hside. destruct req; try done; simpl.
  - apply local_reply_headers_spec.
  - by apply local_reply_body_spec.
  - wp_step. split_and!; auto with praxis; [by repeat constructor|done].
Qed.
End LocalReply.

(** ** The invariant *)

Section Invariant.
Context `{PraxisFilter}.
Variable pipeline : FilterPipeline.
Variable max : option Z.

(** The part of the invariant that depends on the position of the exchange. *)
Record Ordered (s : StreamState) (g : Glob Env) : Prop := {
  ord_request : po_request (phase_order s) <> None -> is_Some (request s);
  ord_local : po_local_reply (phase_order s) = true -> po_request (phase_order s) = None;
  ord_open : po_response (phase_order s) <> None -> po_local_reply (phase_order s) = false ->
    po_request (phase_order s) <> None;
  ord_response : po_response (phase_order s) <> None -> po_local_reply (phase_order s) = false ->
    response_open s -> is_Some (response s);
  ord_virgin : po_request (phase_order s) = None ->
    filter_calls g = [] /\ deferred_response_header_mutation s = None;
  ord_no_response : po_response (phase_order s) = None -> calls CallResponse g = 0%nat;
}.

Definition Inv (s : StreamState) (g : Glob Env) : Prop := Core max s g /\ Ordered s g.

(** The outcome of dispatching [req] in [s]. A response message arriving before any request
    message belongs to a local reply. *)
Definition dispatch_post (s : StreamState) (req : ReqMsg) (r : result Status (list ProcessingResponse))
  (s' : StreamState) (g' : Glob Env) : Prop :=
  Bounded_calls g' /\
  (po_request (phase_order s) = None -> fst (message_order req) = Response_ -> filter_calls g' = []) /\
  match r with
  | Ok rs =>
      good_batch rs /\
      (existsb is_immediate rs = false -> Inv s' g') /\
      (po_request (phase_order s) = None -> fst (message_order req) = Response_ ->
       po_request (phase_order s') = None /\ po_local_reply (phase_order s') = true /\
       protocol_config s' = protocol_config s /\ Forall (transparent (response_body_mode (protocol_config s))) rs /\
       forall b, req = ResponseBody b -> same_body (hb_body b) rs)
  | Err e => blameless pipeline e
  end.

Lemma wp_validate_body_message req Q s (g : Glob Env) :
  Q (Ok tt) s g ->
  (forall m g', quiet g g' -> filter_calls g' = filter_calls g -> Q (Err (Status_invalid_argument m)) s g') ->
  wp (validate_body_message req (protocol_config s)) Q s g.
Proof.
  intros HQ HE. unfold validate_body_message. destruct req; try by wp_step.
  all: wp_case; repeat wp_step; [apply HE; [by auto with praxis|by apply filter_calls_log]|done].
Qed.

(** An accepted message advances the tracker from a position the order allows. *)
Lemma wp_check_and_advance req Q s (g : Glob Env) :
  (forall side step, message_order req = (side, step) ->
     (side = Request_ -> po_local_reply (phase_order s) = false) ->
     invalid_transition
       (match side with Request_ => po_request (phase_order s) | Response_ => po_response (phase_order s) end)
       step = false ->
     Q (Ok tt)
       (with_phase_order
          (order_advance side step
             (bool_decide (side = Response_) && bool_decide (po_request (phase_order s) = None)) (phase_order s)) s) g) ->
  (forall m g', quiet g g' -> filter_calls g' = filter_calls g -> Q (Err (Status_invalid_argument m)) s g') ->
  wp (zoom phase_order with_phase_order (check_and_advance req)) Q s g.
Proof.
  intros HQ HE. assert (Hs : with_phase_order (phase_order s) s = s) by by destruct s.
  apply wp_zoom. unfold check_and_advance. repeat wp_step. destruct (message_order req) as [side step] eqn:Hm.
  wp_case; [unfold record_invalid_argument; repeat wp_step; rewrite Hs; apply HE; [by auto with praxis|by apply filter_calls_log]|].
  wp_case; [unfold record_invalid_argument; repeat wp_step; rewrite Hs; apply HE; [by auto with praxis|by apply filter_calls_log]|].
  wp_step. apply HQ; [done| |done]. intros ->. by rewrite bool_decide_true in Hc by done.
Qed.

Lemma core_order o s g : Core max s g -> Core max (with_phase_order o s) g.
Proof. intros []. by constructor. Qed.

Lemma core_local s s' g g' :
  Core max s g -> local_frame s s' -> quiet g g' -> calls CallResponse g = 0%nat -> Core max s' g'.
Proof.
  intros [] [] (Q1 & Q2 & Q3) Hz. destruct local_request_eos0 as [Eh Eb].
  constructor; unfold request_open, response_open in *; rewrite ?local_max0, ?local_carried0, ?local_streamed0,
    ?local_processed0, ?local_request_buf0, ?local_response_buf0, ?local_request_flag0, ?local_response_flag0,
    ?Q1, ?Q2, ?Eh, ?Eb; auto; congruence.
Qed.

(** The handlers' outcomes, as outcomes of a dispatch. *)
Lemma dispatch_outcome s0 req K s g (m : M Env StreamState (list ProcessingResponse)) :
  (po_request (phase_order s0) = None -> fst (message_order req) = Response_ -> False) ->
  (forall s' g', Core max s' g' -> K s' g' -> Ordered s' g') ->
  wp m (outcome_post pipeline max K) s g -> wp m (dispatch_post s0 req) s g.
Proof.
  intros Hl HK Hm. eapply wp_mono; [exact Hm|]. intros r s' g' [Hb Hr]. split; [done|]. split; [intros; by destruct Hl|].
  destruct r as [rs|e]; [|done]. destruct Hr as [Hg Hr]. split_and!; [done| |intros; by destruct Hl].
  intros Hi. destruct (Hr Hi) as [Hc Hk]. split; [done|]. by apply HK.
Qed.

Lemma dispatch_error s0 req m s g g' :
  Inv s0 g -> quiet g g' -> filter_calls g' = filter_calls g ->
  dispatch_post s0 req (Err (Status_invalid_argument m)) s g'.
Proof.
  intros [Hc Ho] Hq Hf. split; [by eapply quiet_bounded, core_bounded|]. split; [|by intros _].
  intros Hn _. rewrite Hf. by apply (ord_virgin _ _ Ho).
Qed.

(** A request message keeps the exchange ordered. *)
Lemma ordered_request s s1 s' g g' step :
  Ordered s g -> po_local_reply (phase_order s) = false ->
  s1 = with_phase_order (order_advance Request_ step false (phase_order s)) s ->
  keeps_request_side s1 s' g g' -> Ordered s' g'.
Proof.
  intros [O1 O2 O3 O4 O5 O6] Hl -> (K1 & K2 & K3 & K4 & K5 & K6).
  constructor; unfold response_open; rewrite K1; cbn; rewrite ?Hl, ?K3, ?K4, ?K5, ?K6; cbn; try done.
  - intros Hr _ Ho. apply O4; done.
Qed.

(** So does a response message of an exchange with a request. *)
Lemma ordered_response s s1 s' g (g' : Glob Env) step :
  Ordered s g -> po_local_reply (phase_order s) = false -> po_request (phase_order s) <> None ->
  s1 = with_phase_order (order_advance Response_ step false (phase_order s)) s ->
  keeps_response_side s1 s' -> Ordered s' g'.
Proof.
  intros [O1 O2 O3 O4 O5 O6] Hl Hrq -> (K1 & K2 & K3).
  constructor; rewrite K1; cbn; rewrite ?Hl, ?K2; cbn; try done; auto.
Qed.

(** A local reply calls no filter and stays ordered. *)
Lemma dispatch_local s req step g :
  Inv s g -> po_request (phase_order s) = None -> message_order req = (Response_, step) ->
  wp (local_reply_passthrough req) (dispatch_post s req)
    (with_phase_order (order_advance Response_ step true (phase_order s)) s) g.
Proof.
  intros [Hc Ho] Hn Hm. destruct (ord_virgin _ _ Ho Hn) as [Hf Hd].
  eapply wp_mono; [apply local_reply_spec; [done|by rewrite Hm]|]. cbv beta.
  intros r s' g' (Hfr & Hq & Hfc & Hr).
  assert (Hz : calls CallResponse g = 0%nat) by by apply no_calls.
  assert (Hc' : Core max s' g')
    by (eapply core_local; [by apply (core_order (order_advance Response_ step true (phase_order s)))|done..]).
  split; [by eapply core_bounded|]. split; [intros _ _; by rewrite Hfc|].
  destruct r as [rs|e]; [|by intros _]. destruct Hr as [Ht Hb].
  assert (Hi : existsb is_immediate rs = false).
  { by eapply transparent_goes_on. }
  split; [by right|]. split.
  2: { intros _ _. destruct Hfr. rewrite local_order0. split_and!; try done. apply orb_true_r. }
  intros _. split; [done|].
  destruct Ho, Hfr. constructor; rewrite ?local_order0; cbn; rewrite ?orb_true_r; try done.
  intros _. rewrite Hfc. auto.
Qed.

Lemma dispatch_spec req s (g : Glob Env) :
  Inv s g -> wp (dispatch_request pipeline req) (dispatch_post s req) s g.
Proof.
  intros Hinv. unfold dispatch_request. repeat wp_step.
  apply wp_validate_body_message; [|by intros; eapply dispatch_error].
  wp_step. apply wp_check_and_advance; [|by intros; eapply dispatch_error].
  destruct Hinv as [Hc Ho].
  intros side step Hm Hside Htr. repeat wp_step. destruct side; cbn [bool_decide andb].
  - specialize (Hside eq_refl). rewrite bool_decide_false by done. cbn [andb].
    set (s1 := with_phase_order _ s).
    assert (Hloc : local_reply (phase_order s1) = false) by (unfold local_reply; cbn; by rewrite Hside).
    rewrite Hloc. assert (Hc1 : Core max s1 g) by by apply core_order.
    assert (Hreq : step <> Headers -> is_Some (request s1)).
    { intros Hs. destruct (po_request (phase_order s)) eqn:Hp; [apply (ord_request _ _ Ho); congruence|].
      cbn in Htr. by case_bool_decide. }
    assert (Hgo : forall m, wp m (outcome_post pipeline max (fun s' g' => keeps_request_side s1 s' g g')) s1 g ->
       wp m (dispatch_post s req) s1 g).
    { intros m. apply dispatch_outcome; [by rewrite Hm|]. intros s' g' _ Hk. by eapply ordered_request. }
    destruct req; simplify_eq/=; apply Hgo.
    + apply handle_request_headers_post; [done|]. apply no_calls.
      destruct (po_request (phase_order s)) as [[]|] eqn:Hp; try done. by apply (ord_virgin _ _ Ho).
    + apply handle_request_body_post; auto.
    + apply (handle_trailers_post _ _ true); auto. done.
  - rewrite bool_decide_true by done. cbn [andb].
    destruct (decide (po_request (phase_order s) = None)) as [Hn|Hn].
    + rewrite bool_decide_true by done.
      assert (Hloc : local_reply (order_advance Response_ step true (phase_order s)) = true)
        by (unfold local_reply; cbn; by rewrite orb_true_r).
      cbn [phase_order with_phase_order]. rewrite Hloc. by apply dispatch_local.
    + rewrite bool_decide_false by done.
      assert (Hl : po_local_reply (phase_order s) = false).
      { destruct (po_local_reply (phase_order s)) eqn:Hl; [|done]. by destruct Hn; apply (ord_local _ _ Ho). }
      set (s1 := with_phase_order _ s).
      assert (Hloc : local_reply (phase_order s1) = false) by (unfold local_reply; cbn; by rewrite Hl).
      rewrite Hloc. assert (Hc1 : Core max s1 g) by by apply core_order.
      assert (Hrq : is_Some (request s1)) by by apply (ord_request _ _ Ho).
      assert (Hrs : step <> Headers -> response_open s1 -> is_Some (response s1)).
      { intros Hs Hop. apply (ord_response _ _ Ho); try done. intros Hp. rewrite Hp in Htr. cbn in Htr. by case_bool_decide. }
      assert (Hgo : forall m, wp m (outcome_post pipeline max (fun s' g' => keeps_response_side s1 s')) s1 g ->
         wp m (dispatch_post s req) s1 g).
      { intros m. apply dispatch_outcome; [done|]. intros s' g' _ Hk. by eapply ordered_response. }
      destruct req; simplify_eq/=; apply Hgo.
      * apply handle_response_headers_post; [done|done|]. apply (ord_no_response _ _ Ho).
        destruct (po_response (phase_order s)) as [[]|] eqn:Hp; done.
      * apply handle_response_body_post; auto.
      * apply (handle_trailers_post _ _ false); auto.
Qed.
End Invariant.

(** ** Reachable states *)

Section Reachable.
Context `{PraxisFilter}.
Variable pipeline : FilterPipeline.

(** The world of a stream that has just opened. *)
Definition start_world (env : Env) (warned : bool) : Glob Env :=
  {| g_log := []; g_env := env; g_warned := warned |}.

Variable max : option Z.
Variable trust : bool.
Variable selector : ResponseModeSelector.

(** A configured maximum is a [usize]. *)
Definition max_valid : Prop := forall m, max = Some m -> 0 <= m.

Inductive reachable : bool -> StreamState -> Glob Env -> Prop :=
| reach_start env warned : reachable false (initial_state max trust selector) (start_world env warned)
| reach_config first s g msg s1 g1 :
    reachable first s g ->
    apply_protocol_config (pr_protocol_config msg) first s g = (Ok tt, s1, g1) ->
    pr_request msg = None ->
    reachable true s1 g1
| reach_message first s g msg req s1 g1 rs s2 g2 :
    reachable first s g ->
    apply_protocol_config (pr_protocol_config msg) first s g = (Ok tt, s1, g1) ->
    pr_request msg = Some req ->
    dispatch_request pipeline req s1 g1 = (Ok rs, s2, g2) ->
    existsb is_immediate rs = false ->
    reachable true s2 g2.

Lemma initial_inv env warned : max_valid -> Inv max (initial_state max trust selector) (start_world env warned).
Proof.
  intros Hm. split; constructor; cbn; try done; auto.
  - intros _ _ m Hmm _. by apply Hm.
  - intros _ m Hmm _. by apply Hm.
Qed.

(** Protocol configuration only changes the configuration. *)
Lemma wp_apply_config cfg first Q s (g : Glob Env) :
  (forall c, Q (Ok tt) (with_protocol_config c s) g) ->
  (forall m g', quiet g g' -> filter_calls g' = filter_calls g -> Q (Err (Status_invalid_argument m)) s g') ->
  wp (apply_protocol_config cfg first) Q s g.
Proof.
  intros HQ HE. assert (Hs : with_protocol_config (protocol_config s) s = s) by by destruct s.
  unfold apply_protocol_config. destruct cfg as [c|]; [|wp_step; rewrite <- Hs; apply HQ].
  destruct first.
  - repeat wp_step. apply HE; [by auto with praxis|by apply filter_calls_log].
  - unfold config_from_first_message. destruct (ProtocolConfig_try_from c); repeat wp_step; [apply HQ|].
    apply HE; [by auto with praxis|by apply filter_calls_log].
Qed.

Lemma inv_config c s g : Inv max s g -> Inv max (with_protocol_config c s) g.
Proof. intros [[] []]. split; by constructor. Qed.

Lemma config_ok cfg first s g s1 g1 :
  apply_protocol_config cfg first s g = (Ok tt, s1, g1) -> g1 = g /\ exists c, s1 = with_protocol_config c s.
Proof.
  intros Hrun. apply (wp_run _ (fun r s1 g1 => r = Ok tt -> g1 = g /\ exists c, s1 = with_protocol_config c s)
    _ _ _ _ _ ltac:(apply wp_apply_config; [eauto|done]) Hrun). done.
Qed.

Lemma reachable_inv first s g : max_valid -> reachable first s g -> Inv max s g.
Proof.
  intros Hm. induction 1 as [env warned|first s g msg s1 g1 _ IH Ha _|first s g msg req s1 g1 rs s2 g2 _ IH Ha _ Hd Hi].
  - by apply initial_inv.
  - apply config_ok in Ha as [-> [c ->]]. by apply inv_config.
  - apply config_ok in Ha as [-> [c ->]].
    destruct (wp_run _ _ _ _ _ _ _ (dispatch_spec pipeline max req _ _ (inv_config c _ _ IH)) Hd) as (_ & _ & _ & Hinv & _).
    auto.
Qed.
End Reachable.

(** ** The loop *)

Section Loop.
Context `{PraxisFilter}.
Variable pipeline : FilterPipeline.
Variable max : option Z.

(** What the channel accepts of a batch: all of it, or a strict prefix when it closes. *)
Lemma send_all_spec open rs : forall sent,
  exists k, (send_all open sent rs).1 = sent ++ take k rs /\
    ((send_all open sent rs).2 = true -> (send_all open sent rs).1 = sent ++ rs) /\
    ((send_all open sent rs).2 = false -> (k < length rs)%nat).
Proof.
  induction rs as [|r rs IH]; intros sent; simpl; [exists 0%nat; simpl; rewrite app_nil_r; by split_and!|].
  destruct (open (length sent)); simpl; [|exists 0%nat; simpl; rewrite app_nil_r; split_and!; [done..|lia]].
  destruct (IH (sent ++ [r])) as (k & E1 & E2 & E3). exists (S k). rewrite <- !app_assoc in *. simpl in *.
  split_and!; [done..|]. intros Hf. specialize (E3 Hf). lia.
Qed.

(** The buffers a stream keeps once an immediate response has ended it: none. *)
Definition released (s : StreamState) : Prop :=
  request_body_buf s = [] /\ response_body_buf s = [] /\ streamed_request_bytes s = 0.

(** An immediate response among the sent ones is the last of them, and ended the stream. *)
Definition immediate_last (sent : list ProcessingResponse) (r : result Status unit) (s : StreamState) : Prop :=
  forall i x, sent !! i = Some x -> is_immediate x = true -> S i = length sent /\ r = Ok tt /\ released s.

Lemma no_immediate_at sent i x :
  existsb is_immediate sent = false -> sent !! i = Some x -> is_immediate x = true -> False.
Proof.
  intros Hn Hx Hi. assert (existsb is_immediate sent = true) as Hc; [|congruence].
  apply existsb_exists. exists x. split; [|done]. apply list_elem_of_In. by eapply list_elem_of_lookup_2.
Qed.

Lemma no_immediate_last sent r s : existsb is_immediate sent = false -> immediate_last sent r s.
Proof. intros Hn i x Hx Hi. exfalso. by eapply no_immediate_at. Qed.

Definition inbound_ok (inbound : list (result string ProcessingRequest)) : Prop :=
  Forall (fun m => is_ok m = true) inbound.

Record Loop_post (inbound : list (result string ProcessingRequest)) (sent : list ProcessingResponse)
  (r : result Status unit) (s : StreamState) (g : Glob Env) : Prop := {
  loop_calls : Bounded_calls g;
  loop_immediate : immediate_last sent r s;
  loop_error : forall e, r = Err e -> inbound_ok inbound -> filters_total pipeline -> st_code e <> Internal;
}.

Lemma process_messages_spec open inbound : forall first sent s (g : Glob Env),
  Inv max s g -> existsb is_immediate sent = false ->
  wp (process_messages pipeline open first inbound sent)
    (fun o s' g' => exists sent' r, o = Ok (sent', r) /\ Loop_post inbound sent' r s' g') s g.
Proof.
  induction inbound as [|msg rest IH]; intros first sent s g Hinv Hn; simpl.
  { wp_step. eexists _, _. split; [done|]. split; [by eapply core_bounded, (proj1 Hinv)|by apply no_immediate_last|done]. }
  assert (Hstop : forall e g1 s1, Bounded_calls g1 -> (inbound_ok (msg :: rest) -> blameless pipeline e) ->
     exists sent' r, Ok (A := list ProcessingResponse * result Status unit) (E := Status) (sent, Err e) = Ok (sent', r) /\
       Loop_post (msg :: rest) sent' r s1 g1).
  { intros e g1 s1 Hb He. eexists _, _. split; [done|]. split; [done|by apply no_immediate_last|].
    intros ? [= <-] Hok. by apply He. }
  assert (Hgo : forall s1 g1 sent1, Inv max s1 g1 -> existsb is_immediate sent1 = false ->
     wp (process_messages pipeline open true rest sent1)
       (fun o s' g' => exists sent' r, o = Ok (sent', r) /\ Loop_post (msg :: rest) sent' r s' g') s1 g1).
  { intros s1 g1 sent1 Hi1 Hn1. eapply wp_mono; [by apply IH|]. cbv beta.
    intros o s' g' (sent' & r & -> & []). eexists _, _. split; [done|]. split; [done..|].
    intros e He Hok. apply (loop_error0 e He). by inversion Hok. }
  destruct msg as [msg|e]; [|wp_step; apply Hstop; [by eapply core_bounded, (proj1 Hinv)|by inversion 1]].
  repeat wp_step. apply wp_apply_config.
  2: { intros m g' Hq _. wp_step. apply Hstop; [by eapply quiet_bounded, core_bounded, (proj1 Hinv)|by intros _ _]. }
  intros c. apply (inv_config _ c) in Hinv. set (s1 := with_protocol_config c s) in *.
  destruct (pr_request msg) as [req|]; [|by apply Hgo]. repeat wp_step.
  eapply wp_mono; [by apply (dispatch_spec pipeline max)|]. cbv beta. intros r s2 g2 (Hb & _ & Hr).
  destruct r as [rs|e]; [|wp_step; apply Hstop; auto]. destruct Hr as (Hgb & Hi & _).
  destruct (send_all_spec open rs sent) as (k & E1 & E2 & E3).
  destruct (send_all open sent rs) as [sent' still]. simpl in *. destruct still; simpl.
  - rewrite (E2 eq_refl). destruct Hgb as [(x & -> & Hx)|Hni].
    + simpl. rewrite Hx. repeat wp_step. eexists _, _. split; [done|]. split; [done| |done].
      intros i y Hy Hyi. destruct (decide (i < length sent)%nat) as [Hlt|Hge].
      { rewrite lookup_app_l in Hy by done. exfalso. by eapply no_immediate_at. }
      split; [|split; [done|by split_and!]]. apply lookup_lt_Some in Hy. rewrite length_app in *. simpl in *. lia.
    + rewrite Hni. apply Hgo; [auto|]. by rewrite existsb_app, Hn, Hni.
  - wp_step. eexists _, _. split; [done|]. split; [done| |done]. rewrite E1.
    apply no_immediate_last. rewrite existsb_app, Hn. simpl. destruct Hgb as [(x & -> & Hx)|Hni].
    + specialize (E3 eq_refl). simpl in E3. by replace k with 0%nat by lia.
    + apply not_true_iff_false. intros (y & Hy & Hyi)%existsb_exists.
      apply not_true_iff_false in Hni. apply Hni, existsb_exists. exists y. split; [|done].
      apply list_elem_of_In in Hy. apply list_elem_of_In. by apply elem_of_take in Hy as (j & Hj & _); eapply list_elem_of_lookup_2.
Qed.
End Loop.
