(* ===== verification/Contracts.v ===== *)
(** * Contracts of the message handlers

    What one handler, or a run of body messages, does in any state: the size limits, the
    independence from how a body is cut into messages, bodies no filter reads, redelivery, and
    the refusals decided on request headers. [Stream] and [Guarantees] speak of whole streams. *)

From S2P Require Import Prelude RustStd Proto Effect Extern Concrete Metrics Response Protocol Adapter ResponseMode State Pipeline Handlers Server Invariant StreamInv Stream.

Section Contracts.
Context `{PraxisFilter}.
Variable pipeline : FilterPipeline.
Implicit Types (s : StreamState) (g : Glob Env).

Abbreviation Stream := (M Env StreamState).

(** ** Running a handler over several messages *)

(** The responses to a sequence of body messages, in order. *)
Fixpoint feed (handler : HttpBody -> Stream (list ProcessingResponse)) (cs : list HttpBody)
  : Stream (list ProcessingResponse) :=
  match cs with
  | [] => ret []
  | c :: cs => let? r := handler c in let? rs := feed handler cs in ret (r ++ rs)
  end.

(** A phase that may still receive messages. *)
Definition phase_open (phase : ProtocolPhase) s : Prop :=
  phase_state (eos_tracker s) phase = Active /\
  match phase with
  | PRequestBody => eos_request_headers (eos_tracker s) = Active
  | PResponseBody => eos_response_headers (eos_tracker s) = Active
  | _ => True
  end.

(** Marking an open phase. *)
Definition marked (phase : ProtocolPhase) (eos : bool) s : StreamState :=
  with_eos_tracker (if eos then mark_complete phase (eos_tracker s) else eos_tracker s) s.

Lemma mark_open phase eos s g : phase_open phase s -> mark_phase phase eos s g = (Ok Active, marked phase eos s, g).
Proof.
  intros [Ha Hh]. unfold mark_phase, zoom, check_and_mark, bind, get, ret, marked. rewrite Ha. simpl.
  destruct phase; rewrite ?Hh; by destruct eos.
Qed.

Lemma with_eos_same s : with_eos_tracker (eos_tracker s) s = s.
Proof. by destruct s. Qed.

(** ** Size limits *)

Lemma check_over current incoming max s g :
  max < saturating_add current incoming ->
  check_body_limit current incoming (Some max) s g =
  (Err (Status_resource_exhausted "body exceeds maximum size"), s, log_event (EMetric MBodySizeRejection) g).
Proof. intros Hlt. unfold check_body_limit. by rewrite (proj2 (Z.ltb_lt _ _)). Qed.

Lemma check_under current incoming limit s g :
  (forall max, limit = Some max -> saturating_add current incoming <= max) ->
  check_body_limit current incoming limit s g = (Ok tt, s, g).
Proof.
  intros Hle. unfold check_body_limit. destruct limit as [max|]; [|done].
  by rewrite (proj2 (Z.ltb_ge _ _)) by by apply Hle.
Qed.

(** The count a request body message is checked against: bytes streamed through, or bytes held. *)
Definition request_bytes_counted s : Z :=
  match request_body_mode (protocol_config s), needs_request_body (body_capabilities pipeline) with
  | Streamed, _ | FullDuplexStreamed, false => streamed_request_bytes s
  | _, _ => len (request_body_buf s)
  end.

(** C15. A request body that exceeds the limit is answered with one 413 immediate response and no
    filter sees the message: the held and counted bytes stay as they were, the rejection is counted
    once, and the stream does not end in a gRPC error, in every body mode. *)
Theorem over_limit_request_is_413 `{!PraxisFilterLaws} body s g max :
  phase_open PRequestBody s ->
  max_body_accumulation s = Some max ->
  max < saturating_add (request_bytes_counted s) (len (hb_body body)) ->
  exists s' r i,
    handle_request_body pipeline body s g = (Ok [r], s', log_event (EMetric MBodySizeRejection) g) /\
    prs_response r = Some (RespImmediateResponse i) /\ ir_status i = Some 413 /\
    request_body_buf s' = request_body_buf s /\ streamed_request_bytes s' = streamed_request_bytes s.
Proof.
  intros Ho Hm Hlt. exists (marked PRequestBody (hb_end_of_stream body) (mark_body_chunk_seen true s)),
    (request_body_limit_exceeded pipeline).
  assert (Hi : exists i, prs_response (request_body_limit_exceeded pipeline) = Some (RespImmediateResponse i) /\ ir_status i = Some 413).
  { unfold request_body_limit_exceeded, local_rejection, rejection_to_immediate.
    rewrite Rejection_with_body_spec, Rejection_status_spec. by destruct (needs_selected_upstream_request_body _); eexists. }
  destruct Hi as (i & Hi & H413). exists i. split_and!; try done.
  unfold handle_request_body. unfold bind at 1, get at 1. unfold bind at 1, modify at 1. unfold bind at 1.
  rewrite mark_open by done. cbn [handle_body_redelivery]. unfold bind at 1, ret at 1.
  set (s1 := marked PRequestBody (hb_end_of_stream body) (mark_body_chunk_seen true s)).
  assert (Hover : attempt (check_body_limit (request_bytes_counted s) (len (hb_body body)) (max_body_accumulation s1)) s1 g
    = (Ok (Err (Status_resource_exhausted "body exceeds maximum size")), s1, log_event (EMetric MBodySizeRejection) g)).
  { unfold attempt. change (max_body_accumulation s1) with (max_body_accumulation s). rewrite Hm. by rewrite check_over. }
  unfold request_bytes_counted in Hover. fold (caps pipeline) in *.
  change (body_capabilities pipeline) with (caps pipeline) in *.
  destruct (request_body_mode (protocol_config s)), (needs_request_body (caps pipeline));
    unfold reject_streamed_request_over_limit, accumulate_request_body, bind, get, ret;
    change (streamed_request_bytes s1) with (streamed_request_bytes s);
    change (request_body_buf s1) with (request_body_buf s); by rewrite Hover.
Qed.
(** A response body over the limit is a gRPC error instead, and nothing is held of it. *)
Lemma over_limit_response_fails body s g max :
  phase_open PResponseBody s ->
  max_body_accumulation s = Some max ->
  response_body_mode (protocol_config s) = Buffered ->
  max < saturating_add (len (response_body_buf s)) (len (hb_body body)) ->
  exists s',
    handle_response_body pipeline body s g =
      (Err (Status_resource_exhausted "body exceeds maximum size"), s', log_event (EMetric MBodySizeRejection) g) /\
    response_body_buf s' = response_body_buf s.
Proof.
  intros Ho Hm Hmode Hlt. exists (marked PResponseBody (hb_end_of_stream body) (mark_body_chunk_seen false s)).
  split; [|done]. unfold handle_response_body. unfold bind at 1, get at 1. unfold bind at 1, modify at 1. unfold bind at 1.
  rewrite mark_open by done. rewrite Hmode. cbn [handle_body_redelivery]. unfold bind at 1, ret at 1.
  unfold accumulate_response_body, bind, get.
  set (s1 := marked PResponseBody (hb_end_of_stream body) (mark_body_chunk_seen false s)).
  change (max_body_accumulation s1) with (max_body_accumulation s).
  change (response_body_buf s1) with (response_body_buf s). rewrite Hm. by rewrite check_over.
Qed.

(** ** How a body is cut into messages *)

(** The configurations in which a body is held until its end. *)
Definition holds_request s : Prop :=
  match request_body_mode (protocol_config s) with
  | BufferedPartial => True
  | FullDuplexStreamed => needs_request_body (body_capabilities pipeline) = true
  | _ => False
  end.
Definition holds_response s : Prop :=
  match response_body_mode (protocol_config s) with
  | Buffered | BufferedPartial => True
  | FullDuplexStreamed => needs_response_body (body_capabilities pipeline) = true
  | _ => False
  end.

(** One message that closes the body. *)
Definition whole (cs : list HttpBody) : HttpBody :=
  {| hb_body := concat (map hb_body cs); hb_end_of_stream := true |}.

Definition fits (held : bytes) (cs : list HttpBody) s : Prop :=
  forall max, max_body_accumulation s = Some max ->
    saturating_add (len held) (len (concat (map hb_body cs))) <= max.

Lemma handle_request_body_holding body s g :
  phase_open PRequestBody s -> holds_request s -> fits (request_body_buf s) [body] s ->
  handle_request_body pipeline body s g =
  (let s1 := with_request_body_buf (request_body_buf s ++ hb_body body)
               (marked PRequestBody (hb_end_of_stream body) (mark_body_chunk_seen true s)) in
   if hb_end_of_stream body
   then run_request_pipeline RqBody pipeline true (with_buffered_request_body_processed false s1) g
   else (Ok [], s1, g)).
Proof.
  intros Ho Hh Hf. unfold handle_request_body. unfold bind at 1, get at 1. unfold bind at 1, modify at 1. unfold bind at 1.
  rewrite mark_open by done. cbn [handle_body_redelivery]. unfold bind at 1, ret at 1.
  set (s1 := marked PRequestBody (hb_end_of_stream body) (mark_body_chunk_seen true s)).
  assert (Ha : accumulate_request_body pipeline body s1 g =
    (let s2 := with_request_body_buf (request_body_buf s ++ hb_body body) s1 in
     if hb_end_of_stream body
     then run_request_pipeline RqBody pipeline true (with_buffered_request_body_processed false s2) g
     else (Ok [], s2, g))).
  { unfold accumulate_request_body, bind, get, attempt. change (max_body_accumulation s1) with (max_body_accumulation s).
    change (request_body_buf s1) with (request_body_buf s). change (protocol_config s1) with (protocol_config s).
    rewrite check_under by (intros max Hm; specialize (Hf max Hm); simpl in Hf; by rewrite app_nil_r in Hf).
    unfold holds_request in Hh. cbn [is_ok negb].
    destruct (hb_end_of_stream body), (request_body_mode (protocol_config s)); done. }
  unfold holds_request in Hh. change (body_capabilities pipeline) with (caps pipeline) in *.
  by destruct (request_body_mode (protocol_config s)), (needs_request_body (caps pipeline)).
Qed.
(** The state after a held request chunk. *)
Definition held_request (body : HttpBody) s : StreamState :=
  with_request_body_buf (request_body_buf s ++ hb_body body)
    (marked PRequestBody false (mark_body_chunk_seen true s)).

Lemma held_request_marked c s :
  marked PRequestBody true (mark_body_chunk_seen true (held_request c s)) =
  with_request_body_buf (request_body_buf s ++ hb_body c) (marked PRequestBody true (mark_body_chunk_seen true s)).
Proof. by destruct s as [? ? ? ? ? ? []]. Qed.

Lemma with_request_body_buf_twice b b' s : with_request_body_buf b (with_request_body_buf b' s) = with_request_body_buf b s.
Proof. by destruct s. Qed.

Lemma held_request_whole c cs s :
  with_request_body_buf (request_body_buf (held_request c s) ++ concat (map hb_body cs))
    (marked PRequestBody true (mark_body_chunk_seen true (held_request c s))) =
  with_request_body_buf (request_body_buf s ++ concat (map hb_body (c :: cs)))
    (marked PRequestBody true (mark_body_chunk_seen true s)).
Proof.
  rewrite held_request_marked, with_request_body_buf_twice. cbn [map concat]. rewrite app_assoc. reflexivity.
Qed.

Lemma fits_head held c cs s : fits held (c :: cs) s -> fits held [c] s.
Proof.
  intros Hf max Hm. specialize (Hf max Hm). simpl in *. rewrite app_nil_r. rewrite len_app in Hf.
  unfold saturating_add in *. pose proof (len_nonneg (concat (map hb_body cs))). lia.
Qed.

Lemma fits_tail held c cs s s' :
  max_body_accumulation s' = max_body_accumulation s -> fits held (c :: cs) s -> fits (held ++ hb_body c) cs s'.
Proof.
  intros E Hf max Hm. rewrite E in Hm. specialize (Hf max Hm). simpl in *. rewrite !len_app in *.
  by rewrite Z.add_assoc in Hf || (unfold saturating_add in *; lia).
Qed.

Lemma handle_one_more_request c cs s g :
  phase_open PRequestBody s -> holds_request s -> fits (request_body_buf s) (c :: cs) s ->
  handle_request_body pipeline (whole cs) (held_request c s) g = handle_request_body pipeline (whole (c :: cs)) s g.
Proof.
  intros Ho Hh Hf.
  assert (Hw : forall held l s', fits held l s' -> fits held [whole l] s').
  { intros held l s' Hl max Hm. specialize (Hl max Hm). simpl. by rewrite app_nil_r. }
  rewrite (handle_request_body_holding (whole cs)), (handle_request_body_holding (whole (c :: cs))); try done.
  - cbn [hb_end_of_stream whole hb_body]. by rewrite (held_request_whole c cs s).
  - by apply Hw.
  - apply Hw. by apply (fits_tail _ _ _ s).
Qed.

(** C14. How the peer cuts a held request body into messages makes no difference: feeding the
    pieces one by one ends in the same responses, stream state, filter calls and environment as one
    message with all the bytes, so filters always see the whole body. *)
Theorem request_chunking_irrelevant cs c s g :
  phase_open PRequestBody s -> holds_request s -> fits (request_body_buf s) (cs ++ [c]) s ->
  Forall (fun b => hb_end_of_stream b = false) cs -> hb_end_of_stream c = true ->
  feed (handle_request_body pipeline) (cs ++ [c]) s g = handle_request_body pipeline (whole (cs ++ [c])) s g.
Proof.
  revert s g. induction cs as [|b cs IH]; intros s g Ho Hh Hf Hcs Hc.
  - cbn [app feed]. assert (whole [c] = c) as ->.
    { unfold whole. simpl. rewrite app_nil_r. destruct c as [? e]. simpl in *. by subst. }
    unfold bind, ret. destruct (handle_request_body pipeline c s g) as [[[r|e] s'] g']; [|done].
    by rewrite app_nil_r.
  - apply Forall_cons in Hcs as [Hb Hcs]. cbn [app feed]. unfold bind at 1.
    rewrite (handle_request_body_holding b) by (done || by eapply fits_head). rewrite Hb. cbn zeta.
    fold (held_request b s). unfold bind, ret. rewrite IH; try done.
    + rewrite <- (handle_one_more_request b (cs ++ [c]) s g) by done.
      by destruct (handle_request_body pipeline (whole (cs ++ [c])) (held_request b s) g) as [[[r|e] s'] g'].
    + by apply (fits_tail _ _ _ s).
Qed.
(** ** Bodies no filter reads *)

(** The headers response that goes before the first chunk: none once headers were sent. *)
Definition first_headers (is_request : bool) s : list ProcessingResponse :=
  if headers_sent is_request (header_state s) then []
  else [if is_request then request_headers (deferred_request_header_mutation s)
        else response_headers (deferred_response_header_mutation s)].

Definition echoed (is_request : bool) (c : HttpBody) : list ProcessingResponse :=
  body_responses (body_data_if_present (hb_body c)) None is_request FullDuplexStreamed (hb_end_of_stream c).

Lemma passthrough_runs body is_request s g :
  exists s', passthrough_chunk body FullDuplexStreamed is_request s g = (Ok (first_headers is_request s ++ echoed is_request body), s', g) /\
    headers_sent is_request (header_state s') = true /\ protocol_config s' = protocol_config s /\
    eos_tracker s' = eos_tracker s /\ max_body_accumulation s' = max_body_accumulation s /\
    streamed_request_bytes s' = streamed_request_bytes s.
Proof.
  unfold passthrough_chunk, take_first, take_first_chunk, first_headers, echoed, deferred_header_response, bind, get, modify, ret.
  destruct (headers_sent is_request (header_state s)) eqn:Hs; destruct is_request; simpl; eexists;
    (split; [reflexivity|]); by split_and!.
Qed.

Definition unread (is_request : bool) s : Prop :=
  if is_request then
    request_body_mode (protocol_config s) = FullDuplexStreamed /\ needs_request_body (body_capabilities pipeline) = false
  else
    response_body_mode (protocol_config s) = FullDuplexStreamed /\ needs_response_body (body_capabilities pipeline) = false.

Definition body_phase (is_request : bool) : ProtocolPhase := if is_request then PRequestBody else PResponseBody.
Definition handle_body (is_request : bool) : HttpBody -> Stream (list ProcessingResponse) :=
  if is_request then handle_request_body pipeline else handle_response_body pipeline.

(** The bytes let through so far and those to come stay within the limit; responses are not
    counted. *)
Definition passes_limit (is_request : bool) (cs : list HttpBody) s : Prop :=
  if is_request then
    0 <= streamed_request_bytes s /\
    forall max, max_body_accumulation s = Some max -> streamed_request_bytes s + len (concat (map hb_body cs)) <= max
  else True.

Lemma pass_step is_request c cs s g :
  phase_open (body_phase is_request) s -> unread is_request s -> passes_limit is_request (c :: cs) s ->
  exists s', handle_body is_request c s g = (Ok (first_headers is_request s ++ echoed is_request c), s', g) /\
    first_headers is_request s' = [] /\
    (hb_end_of_stream c = false ->
     phase_open (body_phase is_request) s' /\ unread is_request s' /\ passes_limit is_request cs s').
Proof.
  intros Ho Hu Hp. set (s1 := marked (body_phase is_request) (hb_end_of_stream c) (mark_body_chunk_seen is_request s)).
  set (s2 := if is_request then with_streamed_request_bytes (saturating_add (streamed_request_bytes s) (len (hb_body c))) s1 else s1).
  destruct (passthrough_runs c is_request s2 g) as (s3 & Hr & H1 & H2 & H3 & H4 & H5).
  assert (Hf : first_headers is_request s2 = first_headers is_request s) by (subst s2; by destruct is_request).
  rewrite Hf in Hr. exists s3. split_and!.
  - rewrite <- Hr. subst s2. destruct is_request; simpl in Ho, Hu, Hp.
    + unfold handle_body, handle_request_body. unfold bind at 1, get at 1. unfold bind at 1, modify at 1. unfold bind at 1.
      rewrite mark_open by done. cbn [handle_body_redelivery]. unfold bind at 1, ret at 1. destruct Hu as [-> Hn].
      change (needs_request_body (caps pipeline)) with (needs_request_body (body_capabilities pipeline)). rewrite Hn.
      unfold reject_streamed_request_over_limit, bind, get, attempt. fold s1.
      change (max_body_accumulation s1) with (max_body_accumulation s).
      change (streamed_request_bytes s1) with (streamed_request_bytes s).
      rewrite check_under; [done|]. intros max Hm. destruct Hp as [Hp0 Hp]. specialize (Hp max Hm). simpl in Hp.
      rewrite len_app in Hp. pose proof (len_nonneg (concat (map hb_body cs))).
      change (Z.min (streamed_request_bytes s + len (hb_body c)) usize_max <= max). lia.
    + unfold handle_body, handle_response_body. unfold bind at 1, get at 1. unfold bind at 1, modify at 1. unfold bind at 1.
      rewrite mark_open by done. cbn [handle_body_redelivery]. unfold bind at 1, ret at 1. destruct Hu as [-> Hn].
      change (needs_response_body (caps pipeline)) with (needs_response_body (body_capabilities pipeline)). by rewrite Hn.
  - unfold first_headers. by rewrite H1.
  - intros He. assert (E : eos_tracker s2 = eos_tracker s) by (subst s2 s1; unfold marked; rewrite He; by destruct is_request).
    unfold phase_open. rewrite H3, E. split; [done|]. split.
    + unfold unread in *. rewrite H2. subst s2. by destruct is_request.
    + destruct is_request; [|done]. subst s2. destruct Hp as [Hp0 Hp]. unfold passes_limit. rewrite H5, H4. simpl in *.
      assert (0 <= usize_max) by (vm_compute; discriminate). unfold saturating_add.
      split; [pose proof (len_nonneg (hb_body c)); lia|].
      intros max Hm. specialize (Hp max Hm). rewrite len_app in Hp. lia.
Qed.

(** In full-duplex mode a body no filter reads goes through unchanged: whatever the chunks,
    the answers are the deferred headers once, before anything else, then for each chunk its own
    bytes and flag; nothing is logged and no filter is called. *)
Theorem unread_body_passes_through is_request cs c s g :
  phase_open (body_phase is_request) s -> unread is_request s -> passes_limit is_request (cs ++ [c]) s ->
  Forall (fun b => hb_end_of_stream b = false) cs ->
  exists s', feed (handle_body is_request) (cs ++ [c]) s g =
      (Ok (first_headers is_request s ++ flat_map (echoed is_request) (cs ++ [c])), s', g) /\
    streamed_bytes (flat_map (echoed is_request) (cs ++ [c])) = concat (map hb_body (cs ++ [c])).
Proof.
  revert s g. induction cs as [|b cs IH]; intros s g Ho Hu Hp Hcs.
  - destruct (pass_step is_request c [] s g Ho Hu Hp) as (s' & Hr & _ & _). exists s'.
    cbn [app feed flat_map map concat]. unfold bind, ret. rewrite Hr, !app_nil_r.
    split; [done|]. apply streamed_body_same.
  - apply Forall_cons in Hcs as [Hb Hcs].
    destruct (pass_step is_request b (cs ++ [c]) s g Ho Hu Hp) as (s1 & Hr & Hf & Hn).
    destruct (Hn Hb) as (Ho1 & Hu1 & Hp1). destruct (IH s1 g Ho1 Hu1 Hp1 Hcs) as (s2 & Hr2 & Hs2).
    exists s2. cbn [app feed flat_map map concat]. unfold bind, ret. rewrite Hr, Hr2, Hf. split; [by rewrite <- app_assoc|].
    assert (Happ : forall a b', streamed_bytes (a ++ b') = streamed_bytes a ++ streamed_bytes b')
      by (intros; unfold streamed_bytes; by rewrite map_app, concat_app).
    rewrite Happ, Hs2. f_equal. apply streamed_body_same.
Qed.
(** ** Redelivery *)

(** A body message after its end of stream changes nothing: full-duplex mode answers it with
    no response, every other mode with [INVALID_ARGUMENT], counted once; no filter runs and the held
    body stays as it was. *)
Theorem redelivered_body_is_inert is_request body s g :
  phase_state (eos_tracker s) (body_phase is_request) = Completed ->
  let mode := if is_request then request_body_mode (protocol_config s) else response_body_mode (protocol_config s) in
  let s' := mark_body_chunk_seen is_request s in
  if bool_decide (mode = FullDuplexStreamed)
  then handle_body is_request body s g = (Ok [], s', g)
  else exists m, handle_body is_request body s g =
         (Err (Status_invalid_argument m), s', log_event (EMetric (MInvalidArgument "duplicate_eos" "redelivery")) g).
Proof.
  intros Hc. cbv zeta.
  assert (Hm : forall s1, phase_state (eos_tracker s1) (body_phase is_request) = Completed ->
            mark_phase (body_phase is_request) (hb_end_of_stream body) s1 g = (Ok Completed, s1, g)).
  { intros s1 H1. unfold mark_phase, zoom, check_and_mark, bind, get, ret. rewrite H1. simpl. by rewrite with_eos_same. }
  destruct is_request; cbn [handle_body body_phase] in *; case_bool_decide as Hmode; [|eexists| |eexists];
    unfold handle_request_body, handle_response_body; unfold bind at 1, get at 1; unfold bind at 1, modify at 1;
    unfold bind at 1; rewrite Hm by done; unfold handle_body_redelivery, bind;
    first [rewrite (bool_decide_true _ Hmode)|rewrite (bool_decide_false _ Hmode)]; reflexivity.
Qed.

(** ** Refusals decided on request headers *)

(** The lower-case names of the selection headers of a message, and their values. *)
Definition selections (headers : list HeaderValue) : list (string * bytes) :=
  List.filter (fun p => is_guardrail_selection_header (fst p))
    (map (fun h => (to_ascii_lowercase (hv_key h), selection_value h)) headers).

Definition boolean_text (v : bytes) : bool := bool_decide (v = as_bytes "true") || bool_decide (v = as_bytes "false").

Lemma ambiguous_selection_spec names headers :
  ambiguous_selection names headers = false <->
  NoDup (map fst (selections headers)) /\
  Forall (fun p => boolean_text (snd p) = true /\ fst p ∉ names) (selections headers).
Proof.
  revert names. induction headers as [|h hs IH]; intros names; [split; [intros _; split; constructor|done]|].
  cbn [ambiguous_selection]. unfold selections in *. cbn [map List.filter fst].
  destruct (is_guardrail_selection_header (to_ascii_lowercase (hv_key h))); cbn [negb]; [|apply IH].
  cbn [map fst]. rewrite NoDup_cons, Forall_cons. cbn [fst snd].
  set (name := to_ascii_lowercase (hv_key h)). set (l := List.filter _ _) in *.
  rewrite !orb_false_iff, negb_false_iff, bool_decide_eq_false, IH. fold (boolean_text (selection_value h)).
  rewrite !Forall_forall. split.
  - intros [[Hn Hb] [Hd Hf]]. split_and!; try done; [|intros p Hp; specialize (Hf p Hp); set_solver].
    intros (p & E & Hp)%list_elem_of_fmap. destruct (Hf p Hp) as [_ Hx]. rewrite <- E in Hx. set_solver.
  - intros ([Hx Hd] & (Hb & Hn) & Hf). split_and!; try done. intros p Hp. destruct (Hf p Hp) as [Hpb Hpn].
    split; [done|]. intros Hin. apply elem_of_union in Hin as [Hin%elem_of_singleton|]; [|done].
    apply Hx. rewrite <- Hin. apply list_elem_of_fmap. by exists p.
Qed.

(** C17. Guardrails fail closed on the request headers, before any filter: selection headers that are
    repeated or not a boolean are answered with a 400 immediate response, and, in full-duplex mode
    of either direction, a request that selects a guardrail streaming cannot honour with a 500; the
    request is accepted for filtering only when neither holds. *)
Theorem guardrail_refusals_precede_filters `{!PraxisFilterLaws} headers s g :
  phase_open PRequestHeaders s ->
  let hs := extract_header_list headers in
  let cfg := protocol_config s in
  let refused status := exists s' r i,
    handle_request_headers pipeline headers s g = (Ok [r], s', g) /\
    prs_response r = Some (RespImmediateResponse i) /\ ir_status i = Some status in
  (~ (NoDup (map fst (selections hs)) /\ Forall (fun p => boolean_text (snd p) = true) (selections hs)) -> refused 400) /\
  (NoDup (map fst (selections hs)) -> Forall (fun p => boolean_text (snd p) = true) (selections hs) ->
   request_body_mode cfg = FullDuplexStreamed \/ response_body_mode cfg = FullDuplexStreamed ->
   has_selected_guardrail (response_mode_selector s) hs = true -> refused 500).
Proof.
  intros Ho. cbv zeta.
  assert (Hrej : forall status body, exists i, prs_response (local_rejection status body) = Some (RespImmediateResponse i) /\
            ir_status i = Some status).
  { intros status body. unfold local_rejection, rejection_to_immediate. rewrite Rejection_with_body_spec, Rejection_status_spec.
    by eexists. }
  split; unfold handle_request_headers; unfold bind at 1; rewrite mark_open by done; cbn [is_complete];
    unfold reject_ambiguous_guardrail_selection.
  - intros Hbad. destruct (ambiguous_selection ∅ _) eqn:Ha.
    + destruct (Hrej 400 "guardrail selection headers must be unique boolean values"%string) as (i & ? & ?). by eexists _, _, i.
    + destruct Hbad. apply ambiguous_selection_spec in Ha as [Hd Hf]. split; [done|].
      eapply Forall_impl; [done|]. by intros p [? _].
  - intros Hd Hf Hmode Hsel.
    assert (ambiguous_selection ∅ (extract_header_list headers) = false) as ->.
    { apply ambiguous_selection_spec. split; [done|]. eapply Forall_impl; [done|]. intros p ?. split; [done|set_solver]. }
    unfold bind at 1, modify at 1. unfold bind at 1, get at 1.
    set (s1 := with_request (Some (envoy_headers_to_request (extract_header_list headers)))
                 (marked PRequestHeaders (hh_end_of_stream headers) s)). change (protocol_config s1) with (protocol_config s).
    change (response_mode_selector s1) with (response_mode_selector s).
    destruct (Hrej 500 "selected guardrails are not supported in FULL_DUPLEX_STREAMED mode"%string) as (i & ? & ?).
    exists s1. eexists _, i. split; [|done]. rewrite Hsel, andb_true_r.
    destruct Hmode as [-> | ->]; rewrite ?(bool_decide_true (FullDuplexStreamed = FullDuplexStreamed)), ?orb_true_r by done;
      reflexivity.
Qed.
End Contracts.

(** ** Concrete streams *)

(** A stream past its request headers, in the given body modes, with a limit of ten bytes. *)
Definition demo_in_body (rq rs : BodyMode) : StreamState (H0 := ConcretePraxis) :=
  with_request (H0 := ConcretePraxis) (Some (envoy_headers_to_request []))
    (with_protocol_config {| request_body_mode := rq; response_body_mode := rs;
                             send_body_without_waiting_for_header_response := false |}
       (with_max_body_accumulation (Some 10) (StreamState_new (H0 := ConcretePraxis)))).

Definition demo_chunk (b : string) (eos : bool) : HttpBody := {| hb_body := as_bytes b; hb_end_of_stream := eos |}.
Definition demo_reader : DemoPipeline := pass_pipeline (demo_caps true true false false).
Definition demo_blind : DemoPipeline := pass_pipeline (demo_caps false false false false).

Lemma over_limit_request_is_413_witness :
  exists s' r i,
    handle_request_body (H0 := ConcretePraxis) demo_reader (demo_chunk "hello world" true) (demo_in_body Streamed Streamed) demo_world =
      (Ok [r], s', log_event (EMetric MBodySizeRejection) demo_world) /\
    prs_response r = Some (RespImmediateResponse i) /\ ir_status i = Some 413 /\
    request_body_buf s' = [] /\ streamed_request_bytes s' = 0.
Proof.
  exact (over_limit_request_is_413 (H0 := ConcretePraxis) demo_reader (demo_chunk "hello world" true)
           (demo_in_body Streamed Streamed) demo_world 10 (conj eq_refl eq_refl) eq_refl eq_refl).
Defined.

Lemma request_chunking_irrelevant_witness :
  feed (H0 := ConcretePraxis) (handle_request_body demo_reader) [demo_chunk "hel" false; demo_chunk "lo" true]
    (demo_in_body FullDuplexStreamed Streamed) demo_world =
  handle_request_body (H0 := ConcretePraxis) demo_reader (whole [demo_chunk "hel" false; demo_chunk "lo" true])
    (demo_in_body FullDuplexStreamed Streamed) demo_world.
Proof.
  apply (request_chunking_irrelevant (H0 := ConcretePraxis) demo_reader [demo_chunk "hel" false] (demo_chunk "lo" true)
           (demo_in_body FullDuplexStreamed Streamed) demo_world).
  - exact (conj eq_refl eq_refl).
  - reflexivity.
  - intros max [= <-]. vm_compute. discriminate.
  - repeat constructor.
  - reflexivity.
Defined.

Lemma unread_body_passes_through_witness :
  exists s', feed (H0 := ConcretePraxis) (handle_body demo_blind true) [demo_chunk "hel" false; demo_chunk "lo" true]
      (demo_in_body FullDuplexStreamed Streamed) demo_world =
      (Ok (first_headers (H0 := ConcretePraxis) true (demo_in_body FullDuplexStreamed Streamed) ++
           flat_map (echoed true) [demo_chunk "hel" false; demo_chunk "lo" true]), s', demo_world) /\
    streamed_bytes (flat_map (echoed true) [demo_chunk "hel" false; demo_chunk "lo" true]) =
      concat (map hb_body [demo_chunk "hel" false; demo_chunk "lo" true]).
Proof.
  apply (unread_body_passes_through (H0 := ConcretePraxis) demo_blind true [demo_chunk "hel" false] (demo_chunk "lo" true)
           (demo_in_body FullDuplexStreamed Streamed) demo_world).
  - exact (conj eq_refl eq_refl).
  - exact (conj eq_refl eq_refl).
  - split; [discriminate|]. intros max [= <-]. vm_compute. discriminate.
  - repeat constructor.
Defined.

Lemma redelivered_body_is_inert_witness :
  phase_state (mark_complete PRequestBody EosTracker_default) PRequestBody = Completed /\
  handle_body (H0 := ConcretePraxis) demo_blind true (demo_chunk "again" true)
    (with_eos_tracker (mark_complete PRequestBody EosTracker_default) (demo_in_body FullDuplexStreamed Streamed)) demo_world =
  (Ok [], mark_body_chunk_seen true
            (with_eos_tracker (mark_complete PRequestBody EosTracker_default) (demo_in_body FullDuplexStreamed Streamed)),
   demo_world).
Proof.
  split; [reflexivity|].
  exact (redelivered_body_is_inert (H0 := ConcretePraxis) demo_blind true (demo_chunk "again" true)
           (with_eos_tracker (mark_complete PRequestBody EosTracker_default) (demo_in_body FullDuplexStreamed Streamed))
           demo_world eq_refl).
Defined.

(** A request that asks for the output guardrail of [demo_chain]. *)
Definition demo_guarded : HttpHeaders := {| hh_headers := Some (demo_selection "true"); hh_end_of_stream := true |}.
Definition demo_guarded_stream : StreamState (H0 := ConcretePraxis) :=
  with_response_mode_selector (H0 := ConcretePraxis) (from_config [demo_chain]) (demo_in_body FullDuplexStreamed Streamed).

Lemma guardrail_refusals_precede_filters_witness :
  exists s' r i,
    handle_request_headers (H0 := ConcretePraxis) demo_reader demo_guarded demo_guarded_stream demo_world = (Ok [r], s', demo_world) /\
    prs_response r = Some (RespImmediateResponse i) /\ ir_status i = Some 500.
Proof.
  apply (proj2 (guardrail_refusals_precede_filters (H0 := ConcretePraxis) demo_reader demo_guarded demo_guarded_stream demo_world
                  (conj eq_refl I))).
  - repeat constructor. by apply not_elem_of_nil.
  - repeat constructor.
  - left. reflexivity.
  - vm_compute. reflexivity.
Defined.
