(* ===== verification/Translation.v ===== *)
(** * What the translation preserves ([src/adapter.rs])

    Header lists become header maps without losing, reordering or altering a value; the client
    address cannot be spoofed through [x-forwarded-for]; rejections and content lengths reach
    Envoy intact. *)

From S2P Require Import Prelude RustStd Proto Effect IpAddr Extern Concrete Response Protocol Adapter ResponseMode State Pipeline.

Section Translation.
Context `{HttpLaws}.

(** ** Headers *)

(** The value a regular header carries, if the [http] crate accepts its name as [n] and its value. *)
Definition carried (n : HName) (hv : HeaderValue) : list bytes :=
  match hname_parse (hv_key hv),
        match hv_raw_value hv with [] => hvalue_from_str (hv_value hv) | _ => hvalue_from_bytes (hv_raw_value hv) end with
  | Some n', Some _ => if decide (n' = n) then [wire_value hv] else []
  | _, _ => []
  end.

Definition request_pseudo (hv : HeaderValue) : bool :=
  existsb (String.eqb (hv_key hv)) [":method"; ":path"; ":scheme"; ":authority"]%string.

(** The values of a name among the regular headers of a list, in order. *)
Definition regular_values (pseudo : HeaderValue -> bool) (n : HName) (headers : list HeaderValue) : list bytes :=
  flat_map (fun hv => if pseudo hv then [] else carried n hv) headers.

Lemma append_header_values m hv n :
  map hvalue_as_bytes (hmap_get_all (append_header m hv) n) =
  map hvalue_as_bytes (hmap_get_all m n) ++ carried n hv.
Proof.
  unfold append_header, carried, wire_value. destruct (hname_parse (hv_key hv)) as [n'|]; [|by rewrite app_nil_r].
  destruct (hv_raw_value hv) as [|a l].
  - destruct (hvalue_from_str (hv_value hv)) as [v|] eqn:Hv; [|by rewrite app_nil_r].
    rewrite hmap_get_all_append. case_decide; [|by rewrite app_nil_r]. rewrite map_app. simpl.
    by rewrite (hvalue_from_str_as_bytes _ _ Hv).
  - destruct (hvalue_from_bytes (a :: l)) as [v|] eqn:Hv; [|by rewrite app_nil_r].
    rewrite hmap_get_all_append. case_decide; [|by rewrite app_nil_r]. rewrite map_app. simpl.
    by rewrite (hvalue_from_bytes_as_bytes _ _ Hv).
Qed.

Lemma request_part_headers p hv n :
  map hvalue_as_bytes (hmap_get_all (part_headers (request_part p hv)) n) =
  map hvalue_as_bytes (hmap_get_all (part_headers p) n) ++ (if request_pseudo hv then [] else carried n hv).
Proof.
  destruct p. unfold request_part, request_pseudo. cbn [existsb].
  destruct (String.eqb (hv_key hv) ":method"); [by rewrite app_nil_r|].
  destruct (String.eqb (hv_key hv) ":path"); [by rewrite app_nil_r|].
  destruct (String.eqb (hv_key hv) ":scheme"); [by rewrite app_nil_r|].
  destruct (String.eqb (hv_key hv) ":authority"); [by rewrite app_nil_r|]. apply append_header_values.
Qed.

Lemma request_parts_headers headers : forall p n,
  map hvalue_as_bytes (hmap_get_all (part_headers (fold_left request_part headers p)) n) =
  map hvalue_as_bytes (hmap_get_all (part_headers p) n) ++ regular_values request_pseudo n headers.
Proof.
  induction headers as [|hv l IH]; intros p n; cbn [fold_left regular_values flat_map]; [by rewrite app_nil_r|].
  by rewrite IH, request_part_headers, <- app_assoc.
Qed.

(** The authority a list ends up with: that of its last [:authority]. *)
Definition authority_of (headers : list HeaderValue) : option string :=
  fold_left (fun a hv => if String.eqb (hv_key hv) ":authority" then Some (header_value_str hv) else a) headers None.

Lemma request_parts_authority headers : forall p,
  part_authority (fold_left request_part headers p) =
  fold_left (fun a hv => if String.eqb (hv_key hv) ":authority" then Some (header_value_str hv) else a)
    headers (part_authority p).
Proof.
  induction headers as [|hv l IH]; intros p; [done|]. cbn [fold_left]. rewrite IH. f_equal. destruct p. unfold request_part.
  destruct (String.eqb_spec (hv_key hv) ":method") as [->|]; [done|].
  destruct (String.eqb_spec (hv_key hv) ":path") as [->|]; [done|].
  destruct (String.eqb_spec (hv_key hv) ":scheme") as [->|]; [done|].
  by destruct (String.eqb (hv_key hv) ":authority").
Qed.

Lemma request_values headers n :
  map hvalue_as_bytes (hmap_get_all (rq_headers (envoy_headers_to_request headers)) n) =
  match regular_values request_pseudo n headers, decide (n = hname_host) with
  | [], left _ =>
      match (a ← authority_of headers; hvalue_from_str a) with Some v => [hvalue_as_bytes v] | None => [] end
  | values, _ => values
  end.
Proof.
  unfold envoy_headers_to_request. cbn [rq_headers]. set (p0 := {| part_method := method_get |}).
  pose proof (request_parts_headers headers p0) as Hp. pose proof (request_parts_authority headers p0) as Ha.
  cbn [part_headers part_authority p0] in Hp, Ha. fold (authority_of headers) in Ha.
  set (p := fold_left request_part headers p0) in *. rewrite Ha.
  assert (Hp' : forall n, map hvalue_as_bytes (hmap_get_all (part_headers p) n) = regular_values request_pseudo n headers).
  { intros n'. by rewrite Hp, hmap_get_all_new. }
  assert (Hc : hmap_contains_key (part_headers p) hname_host = negb (bool_decide (regular_values request_pseudo hname_host headers = []))).
  { apply eq_bool_prop_intro. rewrite negb_True, bool_decide_spec, Is_true_true, hmap_contains_key_spec, <- Hp'.
    by destruct (hmap_get_all (part_headers p) hname_host). }
  destruct (decide (n = hname_host)) as [->|Hn].
  - destruct (authority_of headers) as [a|]; simpl; [|by rewrite Hp'; destruct (regular_values _ _ _)].
    rewrite Hc. destruct (regular_values request_pseudo hname_host headers) eqn:E; simpl; [|by rewrite Hp', E].
    destruct (hvalue_from_str a); [|by rewrite Hp', E]. rewrite hmap_get_all_insert, decide_True by done. done.
  - assert (Hins : forall v, hmap_get_all (hmap_insert (part_headers p) hname_host v) n = hmap_get_all (part_headers p) n)
      by (intros v; by rewrite hmap_get_all_insert, decide_False by congruence).
    destruct (regular_values request_pseudo n headers) eqn:E;
      destruct (authority_of headers) as [a|]; try (by rewrite Hp', E);
      destruct (hmap_contains_key _ _), (hvalue_from_str a); by rewrite ?Hins, Hp', E.
Qed.

(** C21. A filter sees the request headers Envoy sent: under every name the values are those of the
    regular headers with that name, in order and byte for byte (opaque values included), and nothing
    else; [host] alone is supplied from [:authority] when no regular header gives it. *)
Theorem request_headers_are_preserved headers n :
  map hvalue_as_bytes (hmap_get_all (rq_headers (envoy_headers_to_request headers)) n) =
  match regular_values request_pseudo n headers, decide (n = hname_host) with
  | [], left _ =>
      match (a ← authority_of headers; hvalue_from_str a) with Some v => [hvalue_as_bytes v] | None => [] end
  | values, _ => values
  end.
Proof. apply request_values. Qed.
Definition response_pseudo (hv : HeaderValue) : bool := String.eqb (hv_key hv) ":status".

(** The response side: every value but the pseudo-header's. *)
Lemma response_headers_are_preserved headers n :
  map hvalue_as_bytes (hmap_get_all (rs_headers (envoy_headers_to_response headers)) n) =
  regular_values response_pseudo n headers.
Proof.
  unfold envoy_headers_to_response.
  assert (Hg : forall r, map hvalue_as_bytes (hmap_get_all (rs_headers (fold_left response_part headers r)) n) =
    map hvalue_as_bytes (hmap_get_all (rs_headers r) n) ++ regular_values response_pseudo n headers).
  { induction headers as [|hv l IH]; intros r; cbn [fold_left regular_values flat_map]; [by rewrite app_nil_r|].
    rewrite IH, app_assoc. f_equal. unfold response_part, response_pseudo.
    destruct (String.eqb (hv_key hv) ":status"); [by rewrite app_nil_r|apply append_header_values]. }
  rewrite Hg. cbn [rs_headers]. by rewrite hmap_get_all_new.
Qed.

(** ** The client address *)

Lemma regular_values_app pseudo n l k :
  regular_values pseudo n (l ++ k) = regular_values pseudo n l ++ regular_values pseudo n k.
Proof. unfold regular_values. by rewrite flat_map_app. Qed.

Lemma map_as_bytes_inj (l k : list HValue) : map hvalue_as_bytes l = map hvalue_as_bytes k -> l = k.
Proof.
  revert k. induction l as [|v l IH]; intros [|w k]; simpl; try done. intros [= Hv Hl].
  by rewrite (hvalue_as_bytes_inj _ _ Hv), (IH _ Hl).
Qed.

(** C22. Without the trust option a client cannot choose its address: adding or removing any
    [x-forwarded-for] header, under any spelling and with any value, anywhere in the request, leaves
    the derived client address as it was. *)
Theorem forwarded_for_cannot_spoof before hv after :
  to_ascii_lowercase (hv_key hv) = "x-forwarded-for"%string ->
  extract_client_addr (envoy_headers_to_request (before ++ hv :: after)) false =
  extract_client_addr (envoy_headers_to_request (before ++ after)) false.
Proof.
  intros Hk. unfold extract_client_addr, first_ip_in_header. rewrite !hmap_get_str_spec.
  destruct (hname_parse "x-envoy-external-address") as [n|] eqn:Hn; [|done].
  apply hname_parse_as_str in Hn.
  assert (Hhost : n <> hname_host) by (intros ->; rewrite hname_host_as_str in Hn; discriminate).
  assert (Hpseudo : request_pseudo hv = false).
  { unfold request_pseudo. apply not_true_iff_false. intros [k [Hin Hkey%String.eqb_eq]]%existsb_exists.
    rewrite Hkey in Hk. repeat (destruct Hin as [<-|Hin]; [discriminate|]). done. }
  assert (Hc : carried n hv = []).
  { unfold carried. destruct (hname_parse (hv_key hv)) as [n'|] eqn:Hn'; [|done]. apply hname_parse_as_str in Hn'.
    rewrite Hk in Hn'. destruct (match hv_raw_value hv with [] => _ | _ => _ end); [|done].
    rewrite decide_False; [done|]. intros ->. rewrite Hn' in Hn. discriminate. }
  assert (Hget : hmap_get_all (rq_headers (envoy_headers_to_request (before ++ hv :: after))) n =
                 hmap_get_all (rq_headers (envoy_headers_to_request (before ++ after))) n).
  { apply map_as_bytes_inj. rewrite !request_values, !decide_False by done.
    rewrite !regular_values_app. cbn [regular_values flat_map]. rewrite Hpseudo, Hc. done. }
  by rewrite Hget.
Qed.

(** ** Rejections *)

Lemma wire_value_option key v act : option_map wire_value (hvo_header (header_option key v act)) = Some v.
Proof. destruct (wire_value_header_option key v act) as (hv & -> & _ & E). simpl. by rewrite E. Qed.

(** A rejection reaches Envoy intact: its status, every header in order with its exact bytes
    (overwriting whatever a local reply would set), and its body byte for byte when it is UTF-8. *)
Theorem rejection_reaches_envoy_intact r :
  let i := rejection_to_immediate r in
  let pairs := map (fun p => (fst p, as_bytes (snd p))) (rej_headers r) ++
               match rej_header_map r with Some m => header_map_pairs m | None => [] end in
  ir_status i = Some (rej_status r) /\
  map (fun o => (hv_key <$> hvo_header o, option_map wire_value (hvo_header o), hvo_append_action o))
    (match ir_headers i with Some m => set_headers m | None => [] end) =
  map (fun p => (Some (fst p), Some (snd p), OverwriteIfExistsOrAdd)) pairs /\
  match rej_body r with
  | None => ir_body i = ""%string
  | Some b => utf8_valid b = true -> as_bytes (ir_body i) = b
  end.
Proof.
  cbv zeta. unfold rejection_to_immediate, immediate_response. cbn [ir_status ir_headers ir_body]. split_and!; [done| |].
  - assert (E : map (fun '(n, v) => (n, as_bytes v)) (rej_headers r) = map (fun p => (fst p, as_bytes (snd p))) (rej_headers r))
      by (apply map_ext; by intros []).
    rewrite E. set (pairs := _ ++ _).
    assert (Hs : (match (if bool_decide (map (fun '(n, v) => header_option n v OverwriteIfExistsOrAdd) pairs = []) then None
                   else Some {| set_headers := map (fun '(n, v) => header_option n v OverwriteIfExistsOrAdd) pairs;
                                remove_headers := [] |})
             with Some m => set_headers m | None => [] end) = map (fun '(n, v) => header_option n v OverwriteIfExistsOrAdd) pairs)
      by (by case_bool_decide as Hb; [rewrite Hb|]).
    rewrite Hs, map_map. apply map_ext. intros [k v]. simpl. by destruct v.
  - destruct (rej_body r) as [b|]; [|done]. intros Hv.
    rewrite (from_utf8_lossy_valid b (of_bytes b)) by (unfold from_utf8; by rewrite Hv). apply as_bytes_of_bytes.
Qed.
End Translation.

(** ** Content length *)

(** Whether an option sets [content-length], in any case. *)
Definition sets_content_length (o : HeaderValueOption) : bool :=
  match hvo_header o with Some hv => eq_ignore_ascii_case (hv_key hv) "content-length" | None => false end.

(** C38. The length declared is the length sent: when a body of another size replaces the original,
    the mutation sets [content-length] exactly once, to a value that reads back as the emitted size,
    and leaves every other entry alone; a body of the original size changes nothing. *)
Theorem declared_length_is_emitted mutation body original_len view :
  len body <= usize_max ->
  let m := with_content_length mutation (Some body) original_len in
  if len body =? original_len then m = mutation
  else exists m' v,
    m = Some m' /\
    length (List.filter sets_content_length (set_headers m')) = 1%nat /\
    apply_mutation view m' "content-length" = [v] /\
    parse_unsigned usize_max v = Some (len body) /\
    List.filter (fun o => negb (sets_content_length o)) (set_headers m') =
      List.filter (fun o => negb (sets_content_length o)) (set_headers (default HeaderMutation_default mutation)) /\
    remove_headers m' = remove_headers (default HeaderMutation_default mutation).
Proof.
  intros Hmax. cbv zeta. unfold with_content_length. destruct (len body =? original_len); [done|]. cbn [negb].
  eexists _, (display_unsigned (len body)). split; [done|]. unfold set_content_length. cbn [set_headers remove_headers].
  set (l := set_headers (default HeaderMutation_default mutation)).
  set (keep := fun h : HeaderValueOption => match hvo_header h with
                | None => true | Some hv => negb (eq_ignore_ascii_case (hv_key hv) "content-length") end).
  assert (Hk : forall o, keep o = negb (sets_content_length o)) by (intros o; unfold keep, sets_content_length; by destruct (hvo_header o)).
  assert (Hnone : List.filter sets_content_length (List.filter keep l) = [] /\
                  List.filter (fun o => negb (sets_content_length o)) (List.filter keep l) =
                  List.filter (fun o => negb (sets_content_length o)) l).
  { induction l as [|o l' [IH1 IH2]]; [done|]. cbn [List.filter]. rewrite (Hk o).
    destruct (sets_content_length o) eqn:E; cbn [negb List.filter]; rewrite ?E; cbn [negb]; [done|]. by rewrite IH2. }
  destruct Hnone as [H1 H2].
  assert (Hset : sets_content_length (header_value_option "content-length" (of_bytes (display_unsigned (len body)))) = true)
    by reflexivity.
  split_and!.
  - rewrite List.filter_app, H1. cbn [List.filter]. by rewrite Hset.
  - unfold apply_mutation. cbn [set_headers]. rewrite fold_left_app. cbn [fold_left].
    unfold header_value_option. rewrite apply_header_option, decide_True by done. by rewrite as_bytes_of_bytes.
  - apply parse_display. pose proof (len_nonneg body). lia.
  - rewrite List.filter_app, H2. cbn [List.filter]. rewrite Hset. by rewrite app_nil_r.
  - done.
Qed.

(** ** Concrete translations *)

Definition demo_field (k v : string) : HeaderValue := {| hv_key := k; hv_value := v; hv_raw_value := [] |}.

Lemma request_headers_are_preserved_witness :
  map hvalue_as_bytes (hmap_get_all (rq_headers (envoy_headers_to_request (H := ConcreteHttp)
    [demo_field ":authority" "a.example"; demo_field "X-Tag" "1"; demo_field "x-tag" "2"]%string)) "x-tag"%string) =
  [as_bytes "1"; as_bytes "2"].
Proof.
  etransitivity; [exact (request_headers_are_preserved (H := ConcreteHttp)
    [demo_field ":authority" "a.example"; demo_field "X-Tag" "1"; demo_field "x-tag" "2"]%string "x-tag"%string)|].
  vm_compute; reflexivity.
Defined.

Lemma forwarded_for_cannot_spoof_witness :
  to_ascii_lowercase "X-Forwarded-For" = "x-forwarded-for"%string /\
  extract_client_addr (envoy_headers_to_request (H := ConcreteHttp)
    [demo_field "x-envoy-external-address" "192.0.2.7"; demo_field "X-Forwarded-For" "203.0.113.9"]%string) false =
  extract_client_addr (envoy_headers_to_request (H := ConcreteHttp)
    [demo_field "x-envoy-external-address" "192.0.2.7"]%string) false.
Proof.
  split; [vm_compute; reflexivity|].
  exact (forwarded_for_cannot_spoof (H := ConcreteHttp) [demo_field "x-envoy-external-address" "192.0.2.7"]%string
           (demo_field "X-Forwarded-For" "203.0.113.9")%string [] eq_refl).
Defined.

Lemma rejection_reaches_envoy_intact_witness :
  as_bytes (ir_body (rejection_to_immediate (H := ConcreteHttp)
    (@Build_Rejection ConcreteHttp 403 [("x-reason", "policy")]%string None (Some (as_bytes "denied"))))) = as_bytes "denied".
Proof.
  exact (proj2 (proj2 (rejection_reaches_envoy_intact (H := ConcreteHttp)
    (@Build_Rejection ConcreteHttp 403 [("x-reason", "policy")]%string None (Some (as_bytes "denied"))))) eq_refl).
Defined.

Lemma declared_length_is_emitted_witness :
  exists m' v,
    with_content_length None (Some (as_bytes "hello")) 3 = Some m' /\
    apply_mutation (fun _ => []) m' "content-length" = [v] /\ parse_unsigned usize_max v = Some 5.
Proof.
  destruct (declared_length_is_emitted None (as_bytes "hello") 3 (fun _ => []) ltac:(vm_compute; discriminate))
    as (m' & v & Hm & _ & Ha & Hp & _).
  exists m', v. exact (conj Hm (conj Ha Hp)).
Defined.
