(* ===== verification/Guarantees.v ===== *)
(** * What every stream guarantees

    The consequences of the stream invariant, stated of [handle_stream] (a whole stream, any
    inbound sequence, any channel, any filters) and of the reachable states. *)

From S2P Require Import Prelude RustStd Proto Effect Extern Concrete Metrics Response Protocol Adapter ResponseMode State Pipeline Handlers Server Invariant StreamInv Stream.

Section Guarantees.
Context `{PraxisFilter}.
Variable pipeline : FilterPipeline.
Variable max : option Z.
Variable trust : bool.
Variable selector : ResponseModeSelector.

(** The run of a stream, and its parts. *)
Definition run (open : nat -> bool) (inbound : list (result string ProcessingRequest)) (env : Env) (warned : bool)
  : list ProcessingResponse * result Status unit * StreamState * Glob Env :=
  handle_stream pipeline open inbound max trust selector (start_world env warned).
Definition run_sent open inbound env warned := (run open inbound env warned).1.1.1.
Definition run_result open inbound env warned := (run open inbound env warned).1.1.2.
Definition run_state open inbound env warned := (run open inbound env warned).1.2.
Definition run_world open inbound env warned := (run open inbound env warned).2.

Lemma record_request_quiet (g : Glob Env) : quiet g (log_event (EMetric MRequest) g).
Proof. auto with praxis. Qed.

Lemma run_spec open inbound env warned :
  max_valid max ->
  Loop_post pipeline inbound (run_sent open inbound env warned) (run_result open inbound env warned)
    (run_state open inbound env warned) (run_world open inbound env warned).
Proof.
  intros Hm. unfold run_sent, run_result, run_state, run_world, run, handle_stream, bind.
  pose proof (process_messages_spec pipeline max open inbound false [] _ _
                (initial_inv max trust selector env warned Hm) eq_refl) as Hs.
  unfold wp in Hs. destruct (process_messages _ _ _ _ _ _ _) as [[o s] g]. destruct Hs as (sent & r & -> & [L1 L2 L3]).
  cbn. split; [|done..]. by apply (quiet_bounded g); [apply record_request_quiet|].
Qed.

(** C1. Each stream runs the request filters at most once and the response filters at most
    once, whatever Envoy sends, in whatever body modes, and whether the stream ends well or
    in an error. *)
Theorem filters_run_at_most_once open inbound env warned :
  max_valid max ->
  (calls CallRequest (run_world open inbound env warned) <= 1)%nat /\
  (calls CallResponse (run_world open inbound env warned) <= 1)%nat.
Proof. intros Hm. by destruct (run_spec open inbound env warned Hm) as [[]]. Qed.

(** C2. An immediate response is the last message of its stream: nothing is sent after it, the
    stream ends without error, and its body buffers have been released. *)
Theorem immediate_response_is_last open inbound env warned i r :
  max_valid max ->
  run_sent open inbound env warned !! i = Some r -> is_immediate r = true ->
  S i = length (run_sent open inbound env warned) /\
  run_result open inbound env warned = Ok tt /\
  released (run_state open inbound env warned).
Proof. intros Hm. exact (loop_immediate _ _ _ _ _ _ (run_spec open inbound env warned Hm) i r). Qed.

(** C10. The server never fails internally on its own account: when the transport and the
    filters deliver, every failing stream fails with a protocol or a size error. In particular
    the cross-phase context is always there to hydrate and its slot always free to refill. *)
Theorem only_filters_fail_internally open inbound env warned e :
  max_valid max -> inbound_ok inbound -> filters_total pipeline ->
  run_result open inbound env warned = Err e -> st_code e <> Internal.
Proof. intros Hm Hi Ht Hr. by apply (loop_error _ _ _ _ _ _ (run_spec open inbound env warned Hm) e). Qed.

(** A message the ordering rules accept never finds its headers missing: the
    [missing_headers] rejections of the pipeline are unreachable. *)
Theorem missing_headers_unreachable open inbound env warned :
  max_valid max -> missing (run_world open inbound env warned) = 0%nat.
Proof. intros Hm. by destruct (run_spec open inbound env warned Hm) as [[]]. Qed.

(** C13. Buffers stay within the configured maximum while bytes arrive: between any two messages
    the bytes counted for a streamed request are at most [max]; so is the buffered request body,
    as long as the request is open and no BUFFERED body of it has been given to the filters
    (from then on the buffer holds what they made of it, whose length the server leaves to
    them); and so is the buffered response body until its last message. *)
Theorem buffers_bounded first s g m :
  max = Some m -> 0 <= m < usize_max ->
  reachable pipeline max trust selector first s g ->
  streamed_request_bytes s <= m /\
  (buffered_request_body_processed s = false -> request_open s -> len (request_body_buf s) <= m) /\
  (eos_response_body (eos_tracker s) = Active -> len (response_body_buf s) <= m).
Proof.
  intros Hm [Hm0 Hm1] Hr. assert (Hv : max_valid max) by (intros m' Hm'; rewrite Hm in Hm'; by injection Hm' as <-).
  destruct (reachable_inv _ _ _ _ _ _ _ Hv Hr) as [[] _].
  split; [auto|]. split; [intros; by eapply core_request_buf|intros; by eapply core_response_buf].
Qed.

(** ** Local replies, message by message (whole streams: [LocalReply]) *)

(** A local reply's body is not altered: each body message of a stream without request
    is answered with exactly its bytes, or with responses that leave the body to Envoy. *)
Theorem local_reply_body_unchanged first s g b rs s' g' :
  max_valid max -> reachable pipeline max trust selector first s g ->
  po_request (phase_order s) = None ->
  dispatch_request pipeline (ResponseBody b) s g = (Ok rs, s', g') ->
  same_body (hb_body b) rs.
Proof.
  intros Hm Hr Hn Hd.
  destruct (wp_run _ _ _ _ _ _ _ (dispatch_spec pipeline max _ _ _ (reachable_inv _ _ _ _ _ _ _ Hm Hr)) Hd)
    as (_ & _ & _ & _ & Hloc).
  destruct (Hloc Hn eq_refl) as (_ & _ & _ & _ & Hb). by apply Hb.
Qed.
End Guarantees.

(** One message further, by computation: no error and no immediate response. *)
Definition goes_on {S G} (o : result Status (list ProcessingResponse) * S * G) : bool :=
  match o.1.1 with Ok rs => negb (existsb is_immediate rs) | Err _ => false end.

Definition after_message `{PraxisFilter} (pipeline : FilterPipeline) (first : bool) (msg : ProcessingRequest)
  (req : ReqMsg) (sg : StreamState * Glob Env) :=
  let c := apply_protocol_config (pr_protocol_config msg) first sg.1 sg.2 in
  dispatch_request pipeline req c.1.2 c.2.

Lemma reach_step `{PraxisFilter} pipeline max trust selector first msg req sg :
  reachable pipeline max trust selector first sg.1 sg.2 ->
  is_ok (apply_protocol_config (pr_protocol_config msg) first sg.1 sg.2).1.1 = true ->
  pr_request msg = Some req ->
  goes_on (after_message pipeline first msg req sg) = true ->
  reachable pipeline max trust selector true
    (after_message pipeline first msg req sg).1.2 (after_message pipeline first msg req sg).2.
Proof.
  intros Hr Ha Hm. unfold after_message, goes_on.
  destruct (apply_protocol_config _ _ _ _) as [[[[]|e] s1] g1] eqn:Hc; [|done]. cbn [fst snd].
  destruct (dispatch_request pipeline req s1 g1) as [[[rs|e] s2] g2] eqn:Hd; cbn [fst snd]; [|done].
  intros Hi%negb_true_iff. by eapply reach_message.
Qed.

(** ** Concrete streams *)

(** A header with its value in [raw_value], the way Envoy sends it. *)
Definition demo_header (k v : string) : HeaderValue :=
  {| hv_key := k; hv_value := ""; hv_raw_value := as_bytes v |}.
Definition demo_request_headers (eos : bool) : ReqMsg :=
  RequestHeaders {| hh_headers := Some [demo_header ":method" "POST"; demo_header ":path" "/a"];
                    hh_end_of_stream := eos |}.
Definition demo_response_headers (eos : bool) : ReqMsg :=
  ResponseHeaders {| hh_headers := Some [demo_header ":status" "200"]; hh_end_of_stream := eos |}.
Definition demo_body (b : string) (eos : bool) : HttpBody := {| hb_body := as_bytes b; hb_end_of_stream := eos |}.
Definition demo_message (req : ReqMsg) : ProcessingRequest := {| pr_request := Some req; pr_protocol_config := None |}.
Definition demo_first (rq rs : Z) (req : ReqMsg) : ProcessingRequest :=
  {| pr_request := Some req;
     pr_protocol_config := Some {| pc_request_body_mode := rq; pc_response_body_mode := rs;
                                   pc_send_body_without_waiting_for_header_response := false |} |}.

(** A whole exchange in BUFFERED mode. *)
Definition demo_exchange : list (result string ProcessingRequest) :=
  map Ok [demo_message (demo_request_headers false); demo_message (RequestBody (demo_body "hello" true));
          demo_message (demo_response_headers false); demo_message (ResponseBody (demo_body "world" true))].

(** A pipeline whose request filters turn every request away. *)
Definition reject_pipeline : DemoPipeline :=
  let p := pass_pipeline (demo_caps true true false false) in
  {| dp_caps := dp_caps p; dp_limit := dp_limit p;
     dp_request := fun ctx => (Ok (FilterReject (Rejection_status 403)), ctx);
     dp_response := dp_response p; dp_request_body := dp_request_body p;
     dp_upstream_body := dp_upstream_body p; dp_response_body := dp_response_body p |}.

Definition demo_pipeline : DemoPipeline := pass_pipeline (demo_caps true true false false).
Definition demo_run (p : DemoPipeline) (inbound : list (result string ProcessingRequest)) :=
  run p (Some 100) false ResponseModeSelector_default (fun _ => true) inbound 0%nat false.

Lemma demo_max_valid : max_valid (Some 100).
Proof. by intros m [= <-]. Defined.

Lemma filters_run_at_most_once_witness :
  max_valid (Some 100) /\ calls CallRequest (demo_run demo_pipeline demo_exchange).2 = 1%nat /\
  (calls CallRequest (demo_run demo_pipeline demo_exchange).2 <= 1)%nat.
Proof.
  split; [exact demo_max_valid|]. split; [vm_compute; reflexivity|].
  exact (proj1 (filters_run_at_most_once (H0 := ConcretePraxis) demo_pipeline (Some 100) false ResponseModeSelector_default
                  (fun _ => true) demo_exchange 0%nat false demo_max_valid)).
Defined.

Definition demo_rejection : ProcessingResponse := plain_rejection 403.

Lemma immediate_response_is_last_witness :
  run_sent reject_pipeline (Some 100) false ResponseModeSelector_default (fun _ => true) demo_exchange 0%nat false
    !! 1%nat = Some demo_rejection /\
  is_immediate demo_rejection = true /\
  run_result reject_pipeline (Some 100) false ResponseModeSelector_default (fun _ => true) demo_exchange 0%nat false
    = Ok tt.
Proof.
  assert (Hx : run_sent reject_pipeline (Some 100) false ResponseModeSelector_default (fun _ => true)
                 demo_exchange 0%nat false !! 1%nat = Some demo_rejection) by (vm_compute; reflexivity).
  split; [exact Hx|]. split; [reflexivity|].
  exact (proj1 (proj2 (immediate_response_is_last (H0 := ConcretePraxis) reject_pipeline (Some 100) false
           ResponseModeSelector_default (fun _ => true) demo_exchange 0%nat false 1 demo_rejection
           demo_max_valid Hx eq_refl))).
Defined.

Lemma pass_pipeline_total c : filters_total (pass_pipeline c).
Proof. by split_and!. Qed.

(** A body message with no headers before it. *)
Definition demo_misplaced : list (result string ProcessingRequest) :=
  [Ok (demo_message (RequestBody (demo_body "hello" true)))].

Lemma only_filters_fail_internally_witness :
  exists e,
    run_result demo_pipeline (Some 100) false ResponseModeSelector_default (fun _ => true) demo_misplaced 0%nat false
      = Err e /\ st_code e <> Internal.
Proof.
  assert (Hx : run_result demo_pipeline (Some 100) false ResponseModeSelector_default (fun _ => true)
      demo_misplaced 0%nat false =
      Err (Status_invalid_argument "out-of-order ExtProc message: invalid Request phase transition to request_body"))
    by (vm_compute; reflexivity).
  eexists. split; [exact Hx|].
  refine (only_filters_fail_internally (H0 := ConcretePraxis) demo_pipeline (Some 100) false
            ResponseModeSelector_default (fun _ => true) demo_misplaced 0%nat false _ demo_max_valid _ _ Hx).
  - repeat constructor.
  - apply pass_pipeline_total.
Defined.

Lemma missing_headers_unreachable_witness :
  max_valid (Some 100) /\ missing (demo_run demo_pipeline demo_misplaced).2 = 0%nat.
Proof.
  split; [exact demo_max_valid|].
  exact (missing_headers_unreachable (H0 := ConcretePraxis) demo_pipeline (Some 100) false ResponseModeSelector_default
           (fun _ => true) demo_misplaced 0%nat false demo_max_valid).
Defined.

(** Exchanges with a limit of five bytes: a full-duplex request whose body the filters hold, and
    a streamed request followed by a buffered response. *)
Definition small_start : StreamState * Glob nat :=
  (initial_state (Some 5) false ResponseModeSelector_default, start_world 0%nat false).
Definition small_step (first : bool) (msg : ProcessingRequest) (req : ReqMsg) (sg : StreamState * Glob nat) :=
  let o := after_message demo_pipeline first msg req sg in (o.1.2, o.2).
Definition small_next (req : ReqMsg) := small_step true (demo_message req) req.
Definition small_held : StreamState * Glob nat :=
  small_next (RequestBody (demo_body "hello" false))
    (small_step false (demo_first 4 4 (demo_request_headers false)) (demo_request_headers false) small_start).
Definition small_streamed : StreamState * Glob nat :=
  small_next (ResponseBody (demo_body "wor" false))
    (small_next (demo_response_headers false)
      (small_next (RequestBody (demo_body "hello" false))
        (small_step false (demo_first 1 2 (demo_request_headers false)) (demo_request_headers false) small_start))).

Lemma small_reach (first : bool) msg req sg :
  reachable demo_pipeline (Some 5) false ResponseModeSelector_default first sg.1 sg.2 ->
  is_ok (apply_protocol_config (pr_protocol_config msg) first sg.1 sg.2).1.1 = true ->
  pr_request msg = Some req -> goes_on (after_message demo_pipeline first msg req sg) = true ->
  reachable demo_pipeline (Some 5) false ResponseModeSelector_default true
    (small_step first msg req sg).1 (small_step first msg req sg).2.
Proof. intros. by apply reach_step. Defined.

Lemma small_held_reachable :
  reachable demo_pipeline (Some 5) false ResponseModeSelector_default true small_held.1 small_held.2.
Proof.
  do 2 (apply small_reach; [|vm_compute; reflexivity|reflexivity|vm_compute; reflexivity]).
  exact (reach_start (H0 := ConcretePraxis) _ _ _ _ 0%nat false).
Defined.

Lemma small_streamed_reachable :
  reachable demo_pipeline (Some 5) false ResponseModeSelector_default true small_streamed.1 small_streamed.2.
Proof.
  do 4 (apply small_reach; [|vm_compute; reflexivity|reflexivity|vm_compute; reflexivity]).
  exact (reach_start (H0 := ConcretePraxis) _ _ _ _ 0%nat false).
Defined.

Lemma buffers_bounded_witness :
  (len (request_body_buf small_held.1) = 5 /\ len (request_body_buf small_held.1) <= 5) /\
  (streamed_request_bytes small_streamed.1 = 5 /\ streamed_request_bytes small_streamed.1 <= 5) /\
  (len (response_body_buf small_streamed.1) = 3 /\ len (response_body_buf small_streamed.1) <= 5).
Proof.
  assert (Hv : 0 <= 5 < usize_max) by (vm_compute; split; [discriminate|reflexivity]).
  pose proof (buffers_bounded (H0 := ConcretePraxis) demo_pipeline (Some 5) false ResponseModeSelector_default
                true _ _ 5 eq_refl Hv small_held_reachable) as (_ & Hheld & _).
  pose proof (buffers_bounded (H0 := ConcretePraxis) demo_pipeline (Some 5) false ResponseModeSelector_default
                true _ _ 5 eq_refl Hv small_streamed_reachable) as (Hs & _ & Hr).
  split; [|split].
  - split; [vm_compute; reflexivity|]. apply Hheld; [vm_compute; reflexivity|split; vm_compute; reflexivity].
  - split; [vm_compute; reflexivity|exact Hs].
  - split; [vm_compute; reflexivity|]. apply Hr. vm_compute; reflexivity.
Defined.

(** The state after the request headers of a streamed exchange, and a local reply in
    full-duplex mode. *)
Definition demo_start : StreamState * Glob nat :=
  (initial_state (Some 100) false ResponseModeSelector_default, start_world 0%nat false).
Definition demo_after_headers :=
  after_message demo_pipeline false (demo_first 1 1 (demo_request_headers false)) (demo_request_headers false) demo_start.
Definition demo_local_reply : list (result string ProcessingRequest) :=
  map Ok [demo_first 4 4 (demo_response_headers false); demo_message (ResponseBody (demo_body "denied" true))].

Definition demo_local := demo_first 4 4 (demo_response_headers false).
Definition demo_after_local := after_message demo_pipeline false demo_local (demo_response_headers false) demo_start.
Abbreviation demo_local_body :=
  (dispatch_request (H0 := ConcretePraxis) demo_pipeline (ResponseBody (demo_body "denied" true))
     demo_after_local.1.2 demo_after_local.2).

Definition demo_local_answer : list ProcessingResponse :=
  response_headers None :: response_body (Some (as_bytes "denied")) None FullDuplexStreamed true.

Lemma demo_local_reachable :
  reachable demo_pipeline (Some 100) false ResponseModeSelector_default true
    demo_after_local.1.2 demo_after_local.2.
Proof.
  apply reach_step; [exact (reach_start (H0 := ConcretePraxis) _ _ _ _ 0%nat false)|vm_compute; reflexivity|
    reflexivity|vm_compute; reflexivity].
Qed.

Lemma demo_local_body_answer : demo_local_body.1.1 = Ok demo_local_answer.
Proof. vm_compute; reflexivity. Qed.

(** The parts of a run, put together again. *)
Lemma run_parts {A S G} (o : result Status A * S * G) r : o.1.1 = r -> o = (r, o.1.2, o.2).
Proof. by destruct o as [[? ?] ?]; intros <-. Qed.

Lemma local_reply_body_unchanged_witness :
  demo_local_body.1.1 = Ok demo_local_answer /\ same_body (as_bytes "denied") demo_local_answer.
Proof.
  split; [exact demo_local_body_answer|].
  assert (Hn : po_request (phase_order demo_after_local.1.2) = None) by (vm_compute; reflexivity).
  exact (local_reply_body_unchanged (H0 := ConcretePraxis) demo_pipeline (Some 100) false
           ResponseModeSelector_default true demo_after_local.1.2 demo_after_local.2
           (demo_body "denied" true) demo_local_answer demo_local_body.1.2 demo_local_body.2
           demo_max_valid demo_local_reachable Hn (run_parts demo_local_body _ demo_local_body_answer)).
Defined.
