(* ===== verification/StreamTask.v ===== *)
(** * The task of a stream ([src/server.rs], [process])

    [process] spawns one task per stream. It races [handle_stream] against [wait_force]; what
    [handle_stream] answers goes into a bounded channel, from which tonic takes what it sends
    to Envoy. [Server.process_messages] is the sequential reading of that task; here it is run
    step by step against a client that takes responses when it likes, hangs up when it likes,
    and a force latch that may flip at any moment. [task_fire] takes one step, named by a
    label. A handler runs between two steps: its own suspensions exchange nothing with the
    client, so a cancellation during one is a cancellation before it, as the state is dropped. *)

From S2P Require Import Prelude RustStd Proto Effect Extern Concrete Metrics Response Protocol Adapter ResponseMode State Pipeline Handlers Server Stream Guarantees.

(** [RESPONSE_CHANNEL_SIZE]. *)
Definition RESPONSE_CHANNEL_SIZE : nat := 16.

(** [wait_force]: over the values seen at each change of the latch, whether it resolves. When
    the values end the latch's sender is gone, and it stays pending. *)
Fixpoint wait_force (changes : list bool) : bool :=
  match changes with
  | [] => false
  | v :: rest => if v then true else wait_force rest
  end.

(** [Status::unavailable("server shutting down")]. *)
Definition server_shutting_down : Status := Status_unavailable "server shutting down".

Section Task.
Context `{PraxisFilter}.

(** ** The service *)

(** [PraxisExtProc]; its [force_shutdown] receiver is the [Force] label below. *)
Record PraxisExtProc := {
  svc_pipeline : FilterPipeline;
  svc_max_body_accumulation : option Z;
  svc_trust_forwarded_for : bool;
  svc_response_mode_selector : ResponseModeSelector;
}.

Definition PraxisExtProc_new (pipeline : FilterPipeline) : PraxisExtProc :=
  {| svc_pipeline := pipeline; svc_max_body_accumulation := Some DEFAULT_MAX_BODY_BYTES;
     svc_trust_forwarded_for := false; svc_response_mode_selector := ResponseModeSelector_default |}.

Definition with_svc_max_body_accumulation (v : option Z) (svc : PraxisExtProc) : PraxisExtProc :=
  {| svc_pipeline := svc_pipeline svc; svc_max_body_accumulation := v;
     svc_trust_forwarded_for := svc_trust_forwarded_for svc;
     svc_response_mode_selector := svc_response_mode_selector svc |}.
Definition with_svc_trust_forwarded_for (v : bool) (svc : PraxisExtProc) : PraxisExtProc :=
  {| svc_pipeline := svc_pipeline svc; svc_max_body_accumulation := svc_max_body_accumulation svc;
     svc_trust_forwarded_for := v; svc_response_mode_selector := svc_response_mode_selector svc |}.
Definition with_svc_response_mode_selector (v : ResponseModeSelector) (svc : PraxisExtProc) : PraxisExtProc :=
  {| svc_pipeline := svc_pipeline svc; svc_max_body_accumulation := svc_max_body_accumulation svc;
     svc_trust_forwarded_for := svc_trust_forwarded_for svc; svc_response_mode_selector := v |}.

(** ** States *)

(** Where the task is: awaiting the inbound stream; awaiting room for the head of a batch, of
    which [stop] tells whether it ends the stream; [handle_stream] has failed and its status
    awaits room; ended; ended by the latch. *)
Inductive TaskPoint :=
| Reading (first_message_processed : bool)
| Sending (todo : list ProcessingResponse) (stop : bool)
| Reporting (e : Status)
| Ended
| Forced.

(** [tk_queue]: the channel; [tk_taken]: what tonic took from it; [tk_open]: its receiver is
    still there. *)
Record Task := {
  tk_at : TaskPoint;
  tk_state : StreamState;
  tk_world : Glob Env;
  tk_queue : list (result Status ProcessingResponse);
  tk_taken : list (result Status ProcessingResponse);
  tk_open : bool;
}.

Inductive TaskLabel :=
| Inbound (item : option (result string ProcessingRequest))
| Accept
| Take
| HangUp
| Force (changes : list bool).

Definition room (t : Task) : bool := (length (tk_queue t) <? RESPONSE_CHANNEL_SIZE)%nat.

Definition at_point (p : TaskPoint) (t : Task) : Task :=
  {| tk_at := p; tk_state := tk_state t; tk_world := tk_world t; tk_queue := tk_queue t;
     tk_taken := tk_taken t; tk_open := tk_open t |}.
Definition in_state (s : StreamState) (g : Glob Env) (t : Task) : Task :=
  {| tk_at := tk_at t; tk_state := s; tk_world := g; tk_queue := tk_queue t;
     tk_taken := tk_taken t; tk_open := tk_open t |}.
Definition enqueue (x : result Status ProcessingResponse) (t : Task) : Task :=
  {| tk_at := tk_at t; tk_state := tk_state t; tk_world := tk_world t; tk_queue := tk_queue t ++ [x];
     tk_taken := tk_taken t; tk_open := tk_open t |}.

(** ** Steps *)

(** [handle_stream] returns: the request is counted, and the arm of the [select!] runs. *)
Definition returned (r : result Status unit) (t : Task) : Task :=
  let t := in_state (tk_state t) (log_event (EMetric MRequest) (tk_world t)) t in
  match r with
  | Ok _ => at_point Ended t
  | Err e => at_point (Reporting e) t
  end.

(** The loop after a batch has been sent. *)
Definition batch_sent (stop : bool) (t : Task) : Task :=
  if stop then returned (Ok tt) (in_state (release_buffers_after_immediate (tk_state t)) (tk_world t) t)
  else at_point (Reading true) t.

Definition sending (rs : list ProcessingResponse) (stop : bool) (t : Task) : Task :=
  match rs with
  | [] => batch_sent stop t
  | _ => at_point (Sending rs stop) t
  end.

(** One turn of the loop of [process_messages], up to its first send. *)
Definition on_message (pipeline : FilterPipeline) (first : bool) (msg : ProcessingRequest) (t : Task) : Task :=
  match apply_protocol_config (pr_protocol_config msg) first (tk_state t) (tk_world t) with
  | (Err e, s, g) => returned (Err e) (in_state s g t)
  | (Ok _, s, g) =>
      match pr_request msg with
      | None => at_point (Reading true) (in_state s g t)
      | Some req =>
          match dispatch_request pipeline req s g with
          | (Err e, s, g) => returned (Err e) (in_state s g t)
          | (Ok responses, s, g) => sending responses (existsb is_immediate responses) (in_state s g t)
          end
      end
  end.

Definition on_inbound (pipeline : FilterPipeline) (first : bool)
  (item : option (result string ProcessingRequest)) (t : Task) : Task :=
  match item with
  | None => returned (Ok tt) t
  | Some (Err e) => returned (Err (Status_internal e)) t
  | Some (Ok msg) => on_message pipeline first msg t
  end.

(** A pending [tx.send] completes: with room, or in an error once the receiver is gone. *)
Definition on_accept (t : Task) : option Task :=
  match tk_at t with
  | Sending (r :: rs) stop =>
      if negb (tk_open t) then Some (returned (Ok tt) t)
      else if room t then Some (sending rs stop (enqueue (Ok r) t)) else None
  | Reporting e =>
      if negb (tk_open t) then Some (at_point Ended t)
      else if room t then Some (at_point Ended (enqueue (Err e) t)) else None
  | _ => None
  end.

(** The latch wins the race: a status is tried, never awaited. *)
Definition on_force (t : Task) : option Task :=
  match tk_at t with
  | Reading _ | Sending _ _ =>
      Some (at_point Forced (if tk_open t && room t then enqueue (Err server_shutting_down) t else t))
  | _ => None
  end.

Definition task_fire (pipeline : FilterPipeline) (l : TaskLabel) (t : Task) : option Task :=
  match l with
  | Inbound item => match tk_at t with Reading first => Some (on_inbound pipeline first item t) | _ => None end
  | Accept => on_accept t
  | Take =>
      match tk_queue t with
      | x :: q =>
          if tk_open t then
            Some {| tk_at := tk_at t; tk_state := tk_state t; tk_world := tk_world t; tk_queue := q;
                    tk_taken := tk_taken t ++ [x]; tk_open := true |}
          else None
      | [] => None
      end
  | HangUp =>
      Some {| tk_at := tk_at t; tk_state := tk_state t; tk_world := tk_world t; tk_queue := [];
              tk_taken := tk_taken t; tk_open := false |}
  | Force changes => if wait_force changes then on_force t else None
  end.

Fixpoint task_run (pipeline : FilterPipeline) (ls : list TaskLabel) (t : Task) : option Task :=
  match ls with
  | [] => Some t
  | l :: rest => t' ← task_fire pipeline l t; task_run pipeline rest t'
  end.

(** [process]: the task as it is spawned. *)
Definition process (svc : PraxisExtProc) (g : Glob Env) : Task :=
  {| tk_at := Reading false;
     tk_state := initial_state (svc_max_body_accumulation svc) (svc_trust_forwarded_for svc)
                   (svc_response_mode_selector svc);
     tk_world := g; tk_queue := []; tk_taken := []; tk_open := true |}.
End Task.

(** ** The task against the sequential loop *)

Section Refinement.
Context `{PraxisFilter}.
Variable svc : PraxisExtProc.
Variable g0 : Glob Env.

Abbreviation pipeline := (svc_pipeline svc).

(** The inbound items a schedule has delivered, up to the end of the inbound stream. *)
Fixpoint inbound_of (ls : list TaskLabel) : list (result string ProcessingRequest) :=
  match ls with
  | [] => []
  | Inbound (Some item) :: rest => item :: inbound_of rest
  | _ :: rest => inbound_of rest
  end.

(** The sequential loop over those items, with a channel that always accepts. *)
Definition whole (inbound : list (result string ProcessingRequest)) :=
  process_messages pipeline (fun _ => true) false inbound [] (tk_state (process svc g0)) g0.

(** Everything that has entered the channel and was not dropped with it. *)
Definition accepted (t : Task) : list (result Status ProcessingResponse) := tk_taken t ++ tk_queue t.

(** What the channel holds of [l]: all of it, or a prefix once the receiver is gone. *)
Definition holds_of (t : Task) (l : list (result Status ProcessingResponse)) : Prop :=
  if tk_open t then accepted t = l else accepted t `prefix_of` l.

(** The sequential run the task is at: [sent] are the responses it has handed over. *)
Definition simulates (inbound : list (result string ProcessingRequest)) (t : Task) : Prop :=
  match tk_at t with
  | Reading first => exists sent, holds_of t (map Ok sent) /\
      forall rest, whole (inbound ++ rest) =
        process_messages pipeline (fun _ => true) first rest sent (tk_state t) (tk_world t)
  | Sending todo stop => todo <> [] /\ exists sent, holds_of t (map Ok sent) /\
      forall rest, whole (inbound ++ rest) =
        if stop then (Ok (sent ++ todo, Ok tt), release_buffers_after_immediate (tk_state t), tk_world t)
        else process_messages pipeline (fun _ => true) true rest (sent ++ todo) (tk_state t) (tk_world t)
  | Reporting e => exists sent g, holds_of t (map Ok sent) /\ tk_world t = log_event (EMetric MRequest) g /\
      whole inbound = (Ok (sent, Err e), tk_state t, g)
  | Ended => exists sent r s g, whole inbound = (Ok (sent, r), s, g) /\ holds_of t (process_output sent r) /\
      (tk_open t = true -> s = tk_state t /\ tk_world t = log_event (EMetric MRequest) g)
  | Forced => exists sent k r s g, whole inbound = (Ok (sent, r), s, g) /\
      accepted t `prefix_of` map Ok (take k sent) ++ [Err server_shutting_down]
  end.

Lemma holds_prefix t l : holds_of t l -> accepted t `prefix_of` l.
Proof. unfold holds_of. by destruct (tk_open t) eqn:?; [intros ->|]. Qed.

Lemma holds_extend t l x : tk_open t = false -> holds_of t l -> holds_of t (l ++ x).
Proof. unfold holds_of. intros -> Hp. by apply prefix_app_r. Qed.

(** Pushing onto an open channel. *)
Lemma holds_enqueue t l x : tk_open t = true -> holds_of t l -> holds_of (enqueue x t) (l ++ [x]).
Proof. unfold holds_of, accepted. cbn. intros ->. by rewrite app_assoc; intros ->. Qed.

Lemma process_output_ok sent : process_output sent (Ok tt) = map Ok sent.
Proof. unfold process_output. by rewrite app_nil_r. Qed.

(** The task returns where the sequential loop does. *)
Lemma simulates_returned inbound t sent r :
  holds_of t (map Ok sent) -> whole inbound = (Ok (sent, r), tk_state t, tk_world t) ->
  simulates inbound (returned r t).
Proof.
  intros Hh Hw. destruct r as [[]|e]; cbn.
  - exists sent, (Ok tt), (tk_state t), (tk_world t). rewrite process_output_ok. by split_and!.
  - by exists sent, (tk_world t).
Qed.

Lemma simulates_sending inbound t sent todo (stop : bool) :
  holds_of t (map Ok sent) ->
  (forall rest, whole (inbound ++ rest) =
     if stop then (Ok (sent ++ todo, Ok tt), release_buffers_after_immediate (tk_state t), tk_world t)
     else process_messages pipeline (fun _ => true) true rest (sent ++ todo) (tk_state t) (tk_world t)) ->
  simulates inbound (sending todo stop t).
Proof.
  intros Hh Hw. destruct todo as [|r todo]; [|by split; [done|exists sent]].
  rewrite app_nil_r in Hw. destruct stop; cbn [sending batch_sent].
  - specialize (Hw []). rewrite app_nil_r in Hw. by apply (simulates_returned _ _ sent).
  - by exists sent.
Qed.

Lemma send_all_open rs : forall sent, send_all (fun _ => true) sent rs = (sent ++ rs, true).
Proof. induction rs as [|r rs IH]; intros sent; simpl; [by rewrite app_nil_r|]. by rewrite IH, <- app_assoc. Qed.

Lemma simulates_inbound inbound first item t :
  tk_at t = Reading first -> simulates inbound t ->
  simulates (match item with Some i => inbound ++ [i] | None => inbound end) (on_inbound pipeline first item t).
Proof.
  unfold simulates at 1. intros -> (sent & Hh & Hw). destruct item as [[msg|e]|]; cbn [on_inbound].
  - assert (Hstep : forall rest, whole ((inbound ++ [Ok msg]) ++ rest) =
       process_messages pipeline (fun _ => true) first (Ok msg :: rest) sent (tk_state t) (tk_world t))
      by (intros rest; by rewrite <- app_assoc, <- Hw).
    clear Hw. unfold on_message. cbn [process_messages] in Hstep. unfold bind, attempt in Hstep.
    destruct (apply_protocol_config _ _ _ _) as [[[[]|e] s] g].
    2: { specialize (Hstep []). rewrite app_nil_r in Hstep. by apply (simulates_returned _ _ sent). }
    destruct (pr_request msg) as [req|]; [|by exists sent].
    destruct (dispatch_request _ _ _ _) as [[[rs|e] s2] g2].
    2: { specialize (Hstep []). rewrite app_nil_r in Hstep. by apply (simulates_returned _ _ sent). }
    apply (simulates_sending _ _ sent); [done|]. intros rest. rewrite Hstep, send_all_open. cbn [negb].
    by destruct (existsb is_immediate rs).
  - apply (simulates_returned _ _ sent); [done|]. exact (Hw [Err e]).
  - apply (simulates_returned _ _ sent); [done|]. specialize (Hw []). by rewrite app_nil_r in Hw.
Qed.

(** What the sequential loop has sent by now, whatever the task awaits. *)
Lemma simulates_now inbound t :
  simulates inbound t ->
  (exists first, tk_at t = Reading first) \/ (exists todo stop, tk_at t = Sending todo stop) ->
  exists sent todo s g, whole inbound = (Ok (sent ++ todo, Ok tt), s, g) /\ holds_of t (map Ok sent).
Proof.
  unfold simulates. intros Hs [[first E]|(todo & stop & E)]; rewrite E in Hs.
  - destruct Hs as (sent & Hh & Hw). specialize (Hw []). rewrite app_nil_r in Hw.
    exists sent, [], (tk_state t), (tk_world t). by rewrite app_nil_r.
  - destruct Hs as (_ & sent & Hh & Hw). specialize (Hw []). rewrite app_nil_r in Hw.
    destruct stop; by eexists sent, todo, _, _.
Qed.

Lemma simulates_accept inbound t t' :
  simulates inbound t -> on_accept t = Some t' -> simulates inbound t'.
Proof.
  intros Hs. pose proof (simulates_now _ _ Hs) as Hnow. unfold on_accept.
  destruct (tk_at t) as [first|[|r todo] stop|e| |] eqn:E; try done.
  - destruct (tk_open t) eqn:Ho; cbn [negb].
    + destruct (room t); [|done]. intros [= <-]. unfold simulates in Hs. rewrite E in Hs.
      destruct Hs as (_ & sent & Hh & Hw). apply (simulates_sending _ _ (sent ++ [r])).
      * rewrite map_app. by apply holds_enqueue.
      * intros rest. rewrite Hw, <- !app_assoc. done.
    + intros [= <-]. destruct Hnow as (sent & todo' & s & g & Hw & Hh); [by right; eauto|].
      exists (sent ++ todo'), (Ok tt), s, g. rewrite process_output_ok, map_app.
      split_and!; [done| |by cbn; rewrite Ho]. apply (holds_extend (returned (Ok tt) t)); [done|exact Hh].
  - unfold simulates in Hs. rewrite E in Hs. destruct Hs as (sent & g & Hh & Hg & Hw).
    destruct (tk_open t) eqn:Ho; cbn [negb].
    + destruct (room t); [|done]. intros [= <-]. exists sent, (Err e), (tk_state t), g.
      split_and!; [done| |done]. by apply (holds_enqueue t).
    + intros [= <-]. exists sent, (Err e), (tk_state t), g. split_and!; [done| |by cbn; rewrite Ho].
      by apply (holds_extend t).
Qed.

Lemma simulates_force inbound t t' :
  simulates inbound t -> on_force t = Some t' -> simulates inbound t'.
Proof.
  intros Hs Hf. assert (exists sent todo s g, whole inbound = (Ok (sent ++ todo, Ok tt), s, g) /\ holds_of t (map Ok sent))
    as (sent & todo & s & g & Hw & Hh).
  { apply (simulates_now _ _ Hs). unfold on_force in Hf. destruct (tk_at t); try done; eauto. }
  assert (t' = at_point Forced (if tk_open t && room t then enqueue (Err server_shutting_down) t else t)) as ->.
  { unfold on_force in Hf. destruct (tk_at t); congruence. }
  exists (sent ++ todo), (length sent), (Ok tt), s, g. split; [done|]. rewrite take_app_length.
  destruct (tk_open t && room t) eqn:Hc.
  - apply andb_prop in Hc as [Ho _]. pose proof (holds_enqueue t _ (Err server_shutting_down) Ho Hh) as He.
    by apply (holds_prefix (enqueue (Err server_shutting_down) t)).
  - apply prefix_app_r. by apply (holds_prefix t).
Qed.

(** What the client does leaves the task where it is: it takes from the queue, or drops it. *)
Lemma simulates_client inbound t t' :
  tk_at t' = tk_at t -> tk_state t' = tk_state t -> tk_world t' = tk_world t ->
  (tk_open t' = tk_open t /\ accepted t' = accepted t \/ tk_open t' = false /\ accepted t' `prefix_of` accepted t) ->
  simulates inbound t -> simulates inbound t'.
Proof.
  intros E1 E2 E3 Hc.
  assert (Hh : forall l, holds_of t l -> holds_of t' l).
  { intros l Hl. pose proof (holds_prefix _ _ Hl) as Hp. unfold holds_of in *.
    destruct Hc as [[-> ->]|[-> Hc]]; [done|by etrans]. }
  assert (Ho : tk_open t' = true -> tk_open t = true) by (destruct Hc as [[-> _]|[-> _]]; done).
  assert (Hp : accepted t' `prefix_of` accepted t) by (destruct Hc as [[_ ->]|[_ ?]]; done).
  unfold simulates. rewrite E1, E2, E3. destruct (tk_at t) as [first|todo stop|e| |].
  - intros (sent & ? & ?). eauto.
  - intros (? & sent & ? & ?). eauto.
  - intros (sent & g & ? & ? & ?). exists sent, g. split_and!; auto.
  - intros (sent & r & s & g & ? & ? & ?). exists sent, r, s, g. split_and!; auto.
  - intros (sent & k & r & s & g & ? & ?). exists sent, k, r, s, g. split; [done|by etrans].
Qed.

Lemma simulates_fire l inbound t t' :
  simulates inbound t -> task_fire pipeline l t = Some t' ->
  simulates (inbound ++ inbound_of [l]) t'.
Proof.
  intros Hs Hf. destruct l as [item| | | |changes]; cbn in Hf.
  - destruct (tk_at t) as [first| | | |] eqn:E; try done. injection Hf as <-.
    pose proof (simulates_inbound inbound first item t E Hs) as Hi.
    destruct item; [exact Hi|by rewrite app_nil_r].
  - rewrite app_nil_r. by eapply simulates_accept.
  - rewrite app_nil_r. destruct (tk_queue t) as [|x q] eqn:Eq; [done|]. destruct (tk_open t) eqn:Eo; [|done].
    injection Hf as <-. eapply (simulates_client _ t); try done. left. split; [by rewrite Eo|].
    unfold accepted. cbn. by rewrite Eq, <- app_assoc.
  - rewrite app_nil_r. injection Hf as <-. eapply (simulates_client _ t); try done. right. split; [done|].
    unfold accepted. cbn. rewrite app_nil_r. by apply prefix_app_r.
  - rewrite app_nil_r. destruct (wait_force changes); [|done]. by eapply simulates_force.
Qed.

Lemma inbound_of_cons l ls : inbound_of (l :: ls) = inbound_of [l] ++ inbound_of ls.
Proof. by destruct l as [[]| | | |]. Qed.

Lemma simulates_run ls : forall inbound t t',
  simulates inbound t -> task_run pipeline ls t = Some t' -> simulates (inbound ++ inbound_of ls) t'.
Proof.
  induction ls as [|l ls IH]; intros inbound t t' Hs Hr; simpl in Hr.
  - injection Hr as <-. by rewrite app_nil_r.
  - destruct (task_fire pipeline l t) as [t1|] eqn:Hf; [|done]. rewrite inbound_of_cons, app_assoc.
    eapply IH; [by eapply simulates_fire|done].
Qed.

Lemma simulates_start : simulates [] (process svc g0).
Proof. exists []. by split. Qed.

(** C12. The concurrent task refines the sequential stream: whatever the scheduler, the client
    and the latch do, what has entered the response channel is a prefix of what [handle_stream]
    returns for the inbound messages read so far (its responses, then its status if it fails);
    with UNAVAILABLE after such a prefix when the force latch ended the task. A task that ended
    by itself with the client still there has delivered all of it, in the same final state. *)
Theorem task_refines_stream ls t :
  task_run pipeline ls (process svc g0) = Some t ->
  let '(sent, r, s, g) :=
    handle_stream pipeline (fun _ => true) (inbound_of ls) (svc_max_body_accumulation svc)
      (svc_trust_forwarded_for svc) (svc_response_mode_selector svc) g0 in
  (tk_at t <> Forced -> accepted t `prefix_of` process_output sent r) /\
  (tk_at t = Forced -> exists k, accepted t `prefix_of` map Ok (take k sent) ++ [Err server_shutting_down]) /\
  (tk_at t = Ended -> tk_open t = true -> accepted t = process_output sent r /\ tk_state t = s /\ tk_world t = g).
Proof.
  intros Hr. pose proof (simulates_run _ _ _ _ simulates_start Hr) as Hs. cbn [app] in Hs.
  assert (Hdone : forall sent r s g, whole (inbound_of ls) = (Ok (sent, r), s, g) ->
     handle_stream pipeline (fun _ => true) (inbound_of ls) (svc_max_body_accumulation svc)
       (svc_trust_forwarded_for svc) (svc_response_mode_selector svc) g0 =
     (sent, r, s, log_event (EMetric MRequest) g)).
  { intros sent r s g Hw. unfold handle_stream, bind, whole in *. cbn [process tk_state] in Hw. by rewrite Hw. }
  assert (Hpre : forall sent todo r, holds_of t (map Ok sent) -> accepted t `prefix_of` process_output (sent ++ todo) r).
  { intros sent todo r Hh. unfold process_output. rewrite map_app, <- app_assoc. apply prefix_app_r.
    by apply holds_prefix. }
  pose proof (simulates_now _ _ Hs) as Hnow. unfold simulates in Hs. destruct (tk_at t) as [first|todo stop|e| |].
  - destruct Hnow as (sent & todo & s & g & Hw & Hh); [by left; eauto|]. rewrite (Hdone _ _ _ _ Hw). split_and!; auto; done.
  - destruct Hnow as (sent & todo' & s & g & Hw & Hh); [by right; eauto|]. rewrite (Hdone _ _ _ _ Hw). split_and!; auto; done.
  - destruct Hs as (sent & g & Hh & _ & Hw). rewrite (Hdone _ _ _ _ Hw). split_and!; [|done..].
    intros _. specialize (Hpre sent [] (Err e) Hh). by rewrite app_nil_r in Hpre.
  - destruct Hs as (sent & r & s & g & Hw & Hh & Ho). rewrite (Hdone _ _ _ _ Hw). split_and!; [|done|].
    + intros _. by apply holds_prefix.
    + intros _ Hop. destruct (Ho Hop) as [-> ->]. unfold holds_of in Hh. by rewrite Hop in Hh.
  - destruct Hs as (sent & k & r & s & g & Hw & Hp). rewrite (Hdone _ _ _ _ Hw). split_and!; [done|eauto|done].
Qed.

(** ** A client cannot hold a task *)

Lemma fire_queue l t t' :
  (length (tk_queue t) <= RESPONSE_CHANNEL_SIZE)%nat -> task_fire pipeline l t = Some t' ->
  (length (tk_queue t') <= RESPONSE_CHANNEL_SIZE)%nat.
Proof.
  intros Hq Hf.
  assert (Hret : forall r t, tk_queue (returned r t) = tk_queue t) by (by intros []).
  assert (Hsend : forall rs stop t, tk_queue (sending rs stop t) = tk_queue t) by (by intros [] []).
  assert (Henq : forall x t, room t = true -> (length (tk_queue (enqueue x t)) <= RESPONSE_CHANNEL_SIZE)%nat).
  { intros x t2 Hr. apply Nat.ltb_lt in Hr. cbn. rewrite length_app. cbn. lia. }
  destruct l as [item| | | |changes]; cbn in Hf.
  - destruct (tk_at t) as [first| | | |]; try done. injection Hf as <-.
    destruct item as [[msg|e]|]; cbn [on_inbound]; rewrite ?Hret; [|done..]. unfold on_message.
    destruct (apply_protocol_config _ _ _ _) as [[[?|?] ?] ?]; [|by rewrite Hret].
    destruct (pr_request msg); [|done]. destruct (dispatch_request _ _ _ _) as [[[?|?] ?] ?]; [by rewrite Hsend|by rewrite Hret].
  - unfold on_accept in Hf. destruct (tk_at t) as [|[|r todo] stop|e| |]; try done;
      (destruct (tk_open t); cbn [negb] in Hf; [destruct (room t) eqn:Hr; [|done]|]); injection Hf as <-;
      rewrite ?Hsend, ?Hret; auto; by apply Henq.
  - destruct (tk_queue t) as [|x q]; [done|]. destruct (tk_open t); [|done]. injection Hf as <-. cbn in *. lia.
  - injection Hf as <-. cbn. lia.
  - destruct (wait_force changes); [|done]. unfold on_force in Hf.
    destruct (tk_at t); try done; injection Hf as <-; destruct (tk_open t); cbn [andb]; try done;
      destruct (room t) eqn:Hr; try done; by apply (Henq (Err server_shutting_down)).
Qed.

Lemma run_queue ls : forall t t',
  (length (tk_queue t) <= RESPONSE_CHANNEL_SIZE)%nat -> task_run pipeline ls t = Some t' ->
  (length (tk_queue t') <= RESPONSE_CHANNEL_SIZE)%nat.
Proof.
  induction ls as [|l ls IH]; intros t t' Hq Hr; simpl in Hr; [by injection Hr as <-|].
  destruct (task_fire pipeline l t) as [t1|] eqn:Hf; [|done]. eapply IH; [by eapply fire_queue|done].
Qed.

(** C29. A client that stops taking responses cannot hold a task: at most sixteen responses wait
    in its channel; a task still in its stream ends at once when the force latch flips, however
    full the channel is; and a task blocked on a send ends by one step of its own once the client
    has hung up. *)
Theorem client_cannot_stall_task ls t :
  task_run pipeline ls (process svc g0) = Some t ->
  (length (tk_queue t) <= RESPONSE_CHANNEL_SIZE)%nat /\
  match tk_at t with
  | Reading _ | Sending _ _ => forall changes, wait_force changes = true ->
      exists t', task_fire pipeline (Force changes) t = Some t' /\ tk_at t' = Forced
  | _ => True
  end /\
  match tk_at t with
  | Sending _ _ | Reporting _ =>
      exists t1 t2, task_fire pipeline HangUp t = Some t1 /\ task_fire pipeline Accept t1 = Some t2 /\
        (tk_at t2 = Ended)
  | _ => True
  end.
Proof.
  intros Hr. split; [eapply run_queue; [|exact Hr]; cbn; lia|].
  pose proof (simulates_run _ _ _ _ simulates_start Hr) as Hs. unfold simulates in Hs.
  destruct (tk_at t) as [first|[|r todo] stop|e| |] eqn:E; try (by destruct Hs as [? _]); (split; try done).
  - intros changes Hc. cbn. rewrite Hc. unfold on_force. rewrite E. by eexists.
  - intros changes Hc. cbn. rewrite Hc. unfold on_force. rewrite E. by eexists.
  - eexists _, _. split; [reflexivity|]. cbn. unfold on_accept. cbn [tk_at tk_open]. rewrite E. cbn [negb]. by split.
  - eexists _, _. split; [reflexivity|]. cbn. unfold on_accept. cbn [tk_at tk_open]. rewrite E. cbn [negb]. by split.
Qed.
End Refinement.

(** ** Instances *)

Definition demo_svc : PraxisExtProc (H0 := ConcretePraxis) :=
  with_svc_max_body_accumulation (Some 100) (PraxisExtProc_new (H0 := ConcretePraxis) demo_pipeline).
Definition demo_world : Glob nat := start_world (H0 := ConcretePraxis) 0%nat false.

(** A local reply in full-duplex mode, read and sent to its end. *)
Definition demo_schedule : list TaskLabel :=
  [Inbound (Some (Ok (demo_first 4 4 (demo_response_headers false))));
   Inbound (Some (Ok (demo_message (ResponseBody (demo_body "denied" true)))));
   Accept; Accept; Take; Inbound None; Take].
Definition demo_end : Task (H0 := ConcretePraxis) :=
  default (process demo_svc demo_world) (task_run (svc_pipeline demo_svc) demo_schedule (process demo_svc demo_world)).

(** A schedule that runs ends in the state it computes. *)
Lemma run_default {A} (o : option A) (a : A) : match o with Some _ => true | None => false end = true -> o = Some (default a o).
Proof. by destruct o. Qed.

Lemma demo_runs :
  task_run (svc_pipeline demo_svc) demo_schedule (process demo_svc demo_world) = Some demo_end.
Proof. apply run_default. vm_compute. reflexivity. Qed.

Lemma task_refines_stream_witness :
  tk_at demo_end = Ended /\ tk_taken demo_end = map Ok demo_local_answer /\
  exists sent r s g,
    handle_stream (svc_pipeline demo_svc) (fun _ => true) (inbound_of demo_schedule) (svc_max_body_accumulation demo_svc)
      (svc_trust_forwarded_for demo_svc) (svc_response_mode_selector demo_svc) demo_world = (sent, r, s, g) /\
    accepted demo_end = process_output sent r.
Proof.
  assert (Ha : tk_at demo_end = Ended) by (vm_compute; reflexivity).
  assert (Ho : tk_open demo_end = true) by (vm_compute; reflexivity).
  split; [exact Ha|]. split; [vm_compute; reflexivity|].
  pose proof (task_refines_stream (H0 := ConcretePraxis) demo_svc demo_world demo_schedule demo_end demo_runs) as Hr.
  destruct (handle_stream _ _ _ _ _ _ _) as [[[sent r] s] g]. exists sent, r, s, g. split; [reflexivity|].
  destruct Hr as (_ & _ & Hr). exact (proj1 (Hr Ha Ho)).
Defined.

(** The same stream, stopped by the latch while its second batch waits to be sent. *)
Definition demo_stalled : Task (H0 := ConcretePraxis) :=
  default (process demo_svc demo_world)
    (task_run (svc_pipeline demo_svc) (take 2 demo_schedule) (process demo_svc demo_world)).

Lemma demo_stalled_runs :
  task_run (svc_pipeline demo_svc) (take 2 demo_schedule) (process demo_svc demo_world) = Some demo_stalled.
Proof. apply run_default. vm_compute. reflexivity. Qed.

Lemma client_cannot_stall_task_witness :
  tk_at demo_stalled = Sending demo_local_answer false /\
  exists t', task_fire (svc_pipeline demo_svc) (Force [false; true]) demo_stalled = Some t' /\ tk_at t' = Forced.
Proof.
  assert (Ha : tk_at demo_stalled = Sending demo_local_answer false) by (vm_compute; reflexivity).
  split; [exact Ha|].
  pose proof (proj1 (proj2 (client_cannot_stall_task (H0 := ConcretePraxis) demo_svc demo_world (take 2 demo_schedule)
                demo_stalled demo_stalled_runs))) as Hf.
  exact (Hf [false; true] eq_refl).
Defined.
