(* ===== verification/Answers.v ===== *)
(** * What each message is answered with

    Which kinds of response each handler can produce, and how many header responses: a batch
    answers its message on the message's own side of the exchange, with a step no later than
    its own, and the header responses of a side come out of a budget of one. [Budget] draws
    the consequences for dispatch and for whole streams. *)

From S2P Require Import Prelude RustStd Proto Effect Extern Metrics Response Protocol Adapter ResponseMode State Pipeline Handlers Server Invariant StreamInv.

(** ** Kinds of response *)

(** The side and step a response answers; an immediate response stands for any. *)
Definition answered (m : RespMsg) : option (PhaseSide * PhaseStep) :=
  match m with
  | RespRequestHeaders _ => Some (Request_, Headers)
  | RespRequestBody _ => Some (Request_, Body)
  | RespRequestTrailers _ => Some (Request_, Trailers)
  | RespResponseHeaders _ => Some (Response_, Headers)
  | RespResponseBody _ => Some (Response_, Body)
  | RespResponseTrailers _ => Some (Response_, Trailers)
  | RespImmediateResponse _ => None
  end.

(** [r] may answer a message of side [side] and step [step]. *)
Definition answers (side : PhaseSide) (step : PhaseStep) (r : ProcessingResponse) : bool :=
  match prs_response r with
  | None => false
  | Some m =>
      match answered m with
      | None => true
      | Some (side', step') => bool_decide (side' = side) && negb (step_ltb step step')
      end
  end.

(** How many responses of a batch answer exactly this side and step. *)
Definition is_kind (side : PhaseSide) (step : PhaseStep) (r : ProcessingResponse) : bool :=
  bool_decide ((m ← prs_response r; answered m) = Some (side, step)).
Definition times (side : PhaseSide) (step : PhaseStep) (rs : list ProcessingResponse) : nat :=
  length (List.filter (is_kind side step) rs).

Definition side_of (is_request : bool) : PhaseSide := if is_request then Request_ else Response_.

(** A batch of answers with [n] header responses; fewer only where an immediate response ends
    the stream. *)
Definition batch (is_request : bool) (step : PhaseStep) (n : nat) (rs : list ProcessingResponse) : Prop :=
  Forall (fun r => answers (side_of is_request) step r = true) rs /\
  (times (side_of is_request) Headers rs <= n)%nat /\
  (existsb is_immediate rs = false -> times (side_of is_request) Headers rs = n).

(** Leaving out the bodies leaves out no immediate response. *)
Lemma bodies_aside_immediate rs :
  existsb is_immediate (List.filter (fun r => negb (is_body r)) rs) = existsb is_immediate rs.
Proof.
  induction rs as [|r rs IH]; [done|]. cbn [List.filter existsb].
  unfold is_body, is_immediate in *. destruct (prs_response r) as [[]|] eqn:E; cbn [negb existsb]; rewrite ?E, ?IH; done.
Qed.

Lemma times_app side step rs rs' : times side step (rs ++ rs') = (times side step rs + times side step rs')%nat.
Proof. unfold times. by rewrite List.filter_app, length_app. Qed.

Lemma times_cons side step r rs :
  times side step (r :: rs) = ((if is_kind side step r then 1 else 0) + times side step rs)%nat.
Proof. unfold times. simpl. by destruct (is_kind side step r). Qed.

Lemma times_take side step k rs : (times side step (take k rs) <= times side step rs)%nat.
Proof. rewrite <- (take_drop k rs) at 2. rewrite times_app. lia. Qed.

Lemma times_filter side step f rs : (times side step (List.filter f rs) <= times side step rs)%nat.
Proof. induction rs as [|r rs IH]; simpl; [done|]. destruct (f r); rewrite ?times_cons; lia. Qed.

(** Answers of a step contain nothing of the other side, and nothing of a later step. *)
Lemma times_answers side step side' step' rs :
  Forall (fun r => answers side step r = true) rs ->
  side' <> side \/ step_ltb step step' = true -> times side' step' rs = 0%nat.
Proof.
  intros Hall Hne. induction Hall as [|r rs Hr _ IH]; [done|]. rewrite times_cons, IH.
  unfold is_kind, answers in *. destruct (prs_response r) as [m|]; [|done]. simpl.
  destruct (answered m) as [[sd st]|]; [|done]. apply andb_prop in Hr as [->%bool_decide_eq_true Hs].
  rewrite bool_decide_false; [done|]. intros [= -> ->]. by destruct Hne as [|Hx]; [|rewrite Hx in Hs].
Qed.

Lemma step_le_trans a b c : step_ltb b a = false -> step_ltb c b = false -> step_ltb c a = false.
Proof. by destruct a, b, c. Qed.

Lemma batch_mono b step step' n rs : batch b step n rs -> step_ltb step' step = false -> batch b step' n rs.
Proof.
  intros [Ha Ht] Hs. split; [|done]. eapply Forall_impl; [exact Ha|]. intros r. unfold answers.
  destruct (prs_response r) as [m|]; [|done]. destruct (answered m) as [[sd st]|]; [|done].
  intros [-> Hst]%andb_prop. apply negb_true_iff in Hst. simpl. by rewrite (step_le_trans _ _ _ Hst Hs).
Qed.

Lemma batch_app b step n n' rs rs' : batch b step n rs -> batch b step n' rs' -> batch b step (n + n') (rs ++ rs').
Proof.
  intros (? & ? & He) (? & ? & He'). split; [by apply Forall_app|]. rewrite times_app, existsb_app.
  split; [lia|]. intros [Hi Hi']%orb_false_iff. by rewrite He, He'.
Qed.

Lemma batch_cons b step n n' r rs : batch b step n [r] -> batch b step n' rs -> batch b step (n + n') (r :: rs).
Proof. apply (batch_app b step n n' [r]). Qed.

Lemma filter_answers side step f rs :
  Forall (fun r => answers side step r = true) rs -> Forall (fun r => answers side step r = true) (List.filter f rs).
Proof. intros Ha. induction Ha as [|r rs Hr _ IH]; simpl; [done|]. destruct (f r); auto. Qed.

(** Dropping the body responses drops no header response, and no immediate one. *)
Lemma batch_not_body b step n rs : batch b step n rs -> batch b step n (List.filter (fun r => negb (is_body r)) rs).
Proof.
  intros (Ha & Ht & He). split; [by apply filter_answers|].
  assert (times (side_of b) Headers (List.filter (fun r => negb (is_body r)) rs) = times (side_of b) Headers rs /\
              existsb is_immediate (List.filter (fun r => negb (is_body r)) rs) = existsb is_immediate rs) as [-> ->]; [|done].
  clear. induction rs as [|r rs [IH1 IH2]]; [done|]. rewrite times_cons. cbn [List.filter existsb].
  rewrite <- IH1, <- IH2. unfold is_body, is_immediate, is_kind.
  destruct (prs_response r) as [[]|] eqn:E; cbn [negb]; rewrite ?times_cons; unfold is_kind; cbn [existsb];
    unfold is_immediate; rewrite ?E; simpl; split; try done; by destruct b.
Qed.

(** Keeping the rejections of a batch without header responses. *)
Lemma batch_rejection_only b step rs : batch b step 0 rs -> batch b step 0 (List.filter is_immediate rs).
Proof.
  intros (Ha & Ht & _). split; [by apply filter_answers|].
  pose proof (times_filter (side_of b) Headers is_immediate rs). lia.
Qed.

(** Only what a response says counts, not its mode override. *)
Lemma batch_ext b step n rs rs' :
  map prs_response rs' = map prs_response rs -> batch b step n rs -> batch b step n rs'.
Proof.
  intros E (Ha & Ht & He).
  assert (Hr : forall rs rs', map prs_response rs' = map prs_response rs ->
     (Forall (fun r => answers (side_of b) step r = true) rs ->
      Forall (fun r => answers (side_of b) step r = true) rs') /\
     times (side_of b) Headers rs' = times (side_of b) Headers rs /\
     existsb is_immediate rs' = existsb is_immediate rs).
  { clear. induction rs as [|r rs IH]; intros [|r' rs'] E; try done. simpl in E. injection E as Er E.
    destruct (IH rs' E) as (H1 & H2 & H3). rewrite !times_cons, H2. cbn [existsb]. rewrite H3.
    unfold is_kind, is_immediate. rewrite Er. split; [|done].
    intros Ha%Forall_cons. constructor; [|by apply H1, Ha]. unfold answers. rewrite Er. apply Ha. }
  destruct (Hr rs rs' E) as (H1 & H2 & H3). rewrite <- H2, <- H3 in *. split_and!; auto.
Qed.

Lemma batch_nil b step : batch b step 0 [].
Proof. done. Qed.

Lemma batch_immediate b step n i : batch b step n [immediate i].
Proof. split; [by repeat constructor|]. unfold times. simpl. split; [lia|done]. Qed.

Lemma batch_request_headers m : batch true Headers 1 [request_headers m].
Proof. split; [by repeat constructor|done]. Qed.
Lemma batch_response_headers m : batch false Headers 1 [response_headers m].
Proof. split; [by repeat constructor|done]. Qed.

Lemma batch_headers_at_body b r : batch b Headers 1 [r] -> batch b Body 1 [r].
Proof. intros Hb. by eapply batch_mono. Qed.

(** Body responses are body responses. *)
Lemma body_response_one (b : bool) r c :
  prs_response r = Some (if b then RespRequestBody c else RespResponseBody c) -> batch b Body 0 [r].
Proof. intros Hr. split; [constructor; [|done]|]; unfold answers, times, is_kind; simpl; rewrite ?Hr; by destruct b. Qed.

Lemma streamed_loop_batch fuel : forall limit offset data mutation b eos,
  batch b Body 0 (streamed_loop fuel limit offset data mutation b eos).
Proof.
  induction fuel as [|f IH]; intros; simpl; [apply batch_nil|].
  destruct (offset <? len data); [|apply batch_nil]. apply (batch_cons _ _ 0 0); [|apply IH].
  by eapply (body_response_one b).
Qed.

Lemma body_responses_batch body m b mode eos : batch b Body 0 (body_responses body m b mode eos).
Proof.
  destruct mode; try by eapply (body_response_one b). simpl. unfold body_responses_streamed.
  destruct body as [[|a l]|]; [by eapply (body_response_one b)|apply streamed_loop_batch|by eapply (body_response_one b)].
Qed.

Lemma build_request_batch phase m body mode eos :
  batch true (match phase with RqHeaders => Headers | RqBody => Body end)
    (match phase with RqHeaders => 1 | RqBody => if decide (mode = FullDuplexStreamed) then 1 else 0 end)
    (build_request_for_phase phase m body mode eos).
Proof.
  destruct phase; [apply batch_request_headers|].
  unfold request_body. destruct mode; cbn [build_request_for_phase]; try apply (body_responses_batch _ _ true).
  apply (batch_cons _ _ 1 0); [apply batch_headers_at_body, batch_request_headers|apply (body_responses_batch _ _ true)].
Qed.

Lemma build_response_batch phase m body mode eos :
  batch false (match phase with RsHeaders => Headers | RsBody => Body end)
    (match phase with RsHeaders => 1 | RsBody => if decide (mode = FullDuplexStreamed) then 1 else 0 end)
    (build_response_for_phase phase m body mode eos).
Proof.
  destruct phase; [apply batch_response_headers|].
  unfold response_body. destruct mode; cbn [build_response_for_phase]; try apply (body_responses_batch _ _ false).
  apply (batch_cons _ _ 1 0); [apply batch_headers_at_body, batch_response_headers|apply (body_responses_batch _ _ false)].
Qed.

#[export] Hint Resolve batch_nil batch_immediate batch_request_headers batch_response_headers
  body_responses_batch : praxis.

(** ** What the pipeline functions answer *)

(** What processing one direction leaves alone, and what running the filters leaves alone. *)
Section Flow.
Context `{PraxisFilter}.

Definition headers_phase (is_request : bool) : ProtocolPhase :=
  if is_request then PRequestHeaders else PResponseHeaders.
Definition body_phase (is_request : bool) : ProtocolPhase :=
  if is_request then PRequestBody else PResponseBody.

Record leaves_other (b : bool) (s s' : StreamState) : Prop := {
  leaves_config : protocol_config s' = protocol_config s;
  leaves_order : phase_order s' = phase_order s;
  leaves_done : forall p, phase_state (eos_tracker s) p = Completed -> phase_state (eos_tracker s') p = Completed;
  leaves_headers :
    phase_state (eos_tracker s') (headers_phase (negb b)) = phase_state (eos_tracker s) (headers_phase (negb b));
  leaves_body : phase_state (eos_tracker s') (body_phase (negb b)) = phase_state (eos_tracker s) (body_phase (negb b));
  leaves_sent : headers_sent (negb b) (header_state s') = headers_sent (negb b) (header_state s);
  leaves_own : headers_sent b (header_state s) = true -> headers_sent b (header_state s') = true;
}.

Record flow (b : bool) (s s' : StreamState) : Prop := {
  flow_config : protocol_config s' = protocol_config s;
  flow_order : phase_order s' = phase_order s;
  flow_eos : eos_tracker s' = eos_tracker s;
  flow_sent : headers_sent (negb b) (header_state s') = headers_sent (negb b) (header_state s);
  flow_own : headers_sent b (header_state s) = true -> headers_sent b (header_state s') = true;
}.

Lemma flow_refl b s : flow b s s.
Proof. done. Qed.

Lemma flow_trans b s1 s2 s3 : flow b s1 s2 -> flow b s2 s3 -> flow b s1 s3.
Proof. intros [] []. constructor; try congruence. auto. Qed.

Lemma flow_leaves b s s' : flow b s s' -> leaves_other b s s'.
Proof. intros []. constructor; intros; try congruence. auto. Qed.

Lemma leaves_trans b s1 s2 s3 : leaves_other b s1 s2 -> leaves_other b s2 s3 -> leaves_other b s1 s3.
Proof. intros [] []. constructor; try congruence; auto. Qed.

(** A result whose responses satisfy [A], reached through [flow]. *)
Definition emits (b : bool) (s : StreamState) (A : list ProcessingResponse -> StreamState -> Prop)
  (r : result Status (list ProcessingResponse)) (s' : StreamState) (_ : Glob Env) : Prop :=
  match r with Ok rs => flow b s s' /\ A rs s' | Err _ => True end.

Lemma emits_mono b s A A' (m : M Env StreamState (list ProcessingResponse)) s0 g :
  (forall rs s', flow b s s' -> A rs s' -> A' rs s') -> wp m (emits b s A) s0 g -> wp m (emits b s A') s0 g.
Proof. intros HA Hm. eapply wp_mono; [exact Hm|]. intros [rs|e] s' g'; [|done]. intros [? ?]. split; auto. Qed.
End Flow.

Ltac solve_flow := solve [constructor; cbn; congruence || reflexivity || done].
#[export] Hint Extern 1 (flow _ _ _) => solve_flow : praxis.

Section PipelineAnswers.
Context `{PraxisFilter}.
Variable pipeline : FilterPipeline.

Lemma wp_hydrate_any ctx Q s (g : Glob Env) :
  (forall ctx', Q (Ok ctx') (with_carried_context None s) g) ->
  (forall e, Q (Err e) (with_carried_context None s) g) -> wp (hydrate_from_state ctx) Q s g.
Proof. intros H1 H2. unfold hydrate_from_state. repeat wp_step. by destruct (hydrate _ _). Qed.

Lemma wp_dehydrate_any ctx Q s (g : Glob Env) :
  (forall c, Q (Ok tt) (with_carried_context c s) g) -> (forall e, Q (Err e) s g) ->
  wp (dehydrate_to_state ctx) Q s g.
Proof. intros H1 H2. unfold dehydrate_to_state. repeat wp_step. destruct (dehydrate _ _); repeat wp_step; auto. Qed.

Lemma wp_missing_request {A} (Q : result Status A -> StreamState -> Glob Env -> Prop) s g :
  (forall e g', Q (Err e) s g') -> wp missing_request_headers Q s g.
Proof. intros HQ. unfold missing_request_headers, record_invalid_argument. repeat wp_step. apply HQ. Qed.

Lemma wp_missing_response {A} (Q : result Status A -> StreamState -> Glob Env -> Prop) s g :
  (forall e g', Q (Err e) s g') -> wp missing_response_headers Q s g.
Proof. intros HQ. unfold missing_response_headers, record_invalid_argument. repeat wp_step. apply HQ. Qed.

(** The header responses a request pipeline run can yield. *)
Definition request_step (phase : RequestPhase) (s : StreamState) : PhaseStep :=
  match phase with
  | RqHeaders => Headers
  | RqBody => if is_complete (eos_request_headers (eos_tracker s)) then Headers else Body
  end.
Definition request_headers_yield (phase : RequestPhase) (s : StreamState) : nat :=
  match phase with
  | RqHeaders => 1
  | RqBody =>
      if is_complete (eos_request_headers (eos_tracker s)) then 1
      else if decide (request_body_mode (protocol_config s) = FullDuplexStreamed) then 1 else 0
  end.

(** One response, outside full-duplex mode. *)
Definition one_unless_fds (mode : BodyMode) (rs : list ProcessingResponse) : Prop :=
  mode <> FullDuplexStreamed -> length rs = 1%nat.

Lemma body_responses_one body m b mode eos : one_unless_fds mode (body_responses body m b mode eos).
Proof. unfold one_unless_fds. by destruct mode. Qed.

Lemma build_request_shape phase m n eos s (g : Glob Env) :
  wp (build_request phase m n eos)
    (emits true s (fun rs _ => batch true (request_step phase s) (request_headers_yield phase s) rs /\
       one_unless_fds (request_body_mode (protocol_config s)) rs)) s g.
Proof.
  unfold build_request, request_step, request_headers_yield. repeat wp_step.
  destruct phase; [wp_step; split; [apply flow_refl|split; [apply batch_request_headers|by intros _]]|].
  destruct (is_complete _).
  - unfold build_bodyless_selected_request_response. repeat wp_step. wp_case; repeat wp_step.
    + split; [apply flow_refl|split; [apply batch_immediate|by intros _]].
    + split; [solve_flow|split; [apply batch_request_headers|by intros _]].
  - wp_step. split; [apply flow_refl|]. split; [apply (build_request_batch RqBody)|].
    unfold one_unless_fds. by destruct (request_body_mode (protocol_config s)).
Qed.

Lemma request_pipeline_shape phase eos ord s (g : Glob Env) :
  wp (run_request_pipeline_inner phase pipeline eos ord)
    (emits true s (fun rs _ => batch true (request_step phase s) (request_headers_yield phase s) rs /\
       one_unless_fds (request_body_mode (protocol_config s)) rs)) s g.
Proof.
  unfold run_request_pipeline_inner. repeat wp_step. destruct (request s) as [rq|]; [|by apply wp_missing_request].
  wp_step. apply wp_fresh_context. intros fresh. wp_step. apply wp_hydrate_any; [|done]. intros ctx.
  wp_step. apply execute_request_filters_if_needed_spec. intros o ctx1 s1 g1 _ Hs1.
  assert (Hf : flow true s s1).
  { destruct Hs1 as [(_ & _ & -> & _)|(_ & _ & ->)]; [solve_flow|destruct o as [[]|]; solve_flow]. }
  clear Hs1. cbv beta iota. repeat wp_step. destruct o as [[i|]|e]; [|clear fresh ctx|done].
  { wp_step. split; [done|split; [apply batch_immediate|by intros _]]. }
  repeat wp_step. wp_case.
  { unfold selected_input_limit_rejection, record_body_size_rejection. repeat wp_step.
    split; [done|split; [apply batch_immediate|by intros _]]. }
  wp_step. apply run_request_body_filters_at_eos_spec. intros o ctx2 body g2 _ _ _. cbv beta iota.
  assert (Hf2 : flow true s (with_request_body_buf body s1)) by (eapply flow_trans; [exact Hf|solve_flow]).
  repeat wp_step. destruct o as [[i|]|e]; [| |done].
  { wp_step. split; [done|split; [apply batch_immediate|by intros _]]. }
  wp_step. apply wp_dehydrate_any; [|done]. intros c.
  assert (Hf3 : flow true s (with_carried_context c (with_request_body_buf body s1)))
    by (eapply flow_trans; [exact Hf2|solve_flow]).
  eapply wp_mono; [apply build_request_shape|]. cbv beta. intros [rs|e] s' g' Hb; [|done].
  destruct Hb as [Hf' Hb]. split; [by eapply flow_trans|]. unfold request_step, request_headers_yield in *.
  by rewrite (flow_config _ _ _ Hf3), (flow_eos _ _ _ Hf3) in Hb.
Qed.

Lemma request_pipeline_answers phase eos ord s (g : Glob Env) :
  wp (run_request_pipeline_inner phase pipeline eos ord)
    (emits true s (fun rs _ => batch true (request_step phase s) (request_headers_yield phase s) rs)) s g.
Proof. eapply emits_mono, request_pipeline_shape. by intros rs s' _ [? _]. Qed.

Definition response_step (phase : ResponsePhase) : PhaseStep :=
  match phase with RsHeaders => Headers | RsBody => Body end.
Definition response_headers_yield (phase : ResponsePhase) (s : StreamState) : nat :=
  match phase with
  | RsHeaders => 1
  | RsBody => if decide (response_body_mode (protocol_config s) = FullDuplexStreamed) then 1 else 0
  end.

Lemma response_pipeline_shape phase eos s (g : Glob Env) :
  wp (run_response_pipeline phase pipeline eos)
    (emits false s (fun rs _ => batch false (response_step phase) (response_headers_yield phase s) rs /\
       one_unless_fds (response_body_mode (protocol_config s)) rs)) s g.
Proof.
  unfold run_response_pipeline. repeat wp_step. destruct (request s) as [rq|]; [|by apply wp_missing_request].
  repeat wp_step. destruct (response s) as [resp|]; [|by apply wp_missing_response].
  wp_step. apply wp_fresh_context. intros fresh. wp_step. apply wp_hydrate_any; [|done]. intros ctx.
  repeat wp_step. apply execute_response_pipeline_spec. intros o ctx1 body g1 _ _ _. cbv beta iota.
  repeat wp_step. destruct o as [[i|]|e]; [| |done].
  { wp_step. split; [solve_flow|split; [apply batch_immediate|by intros _]]. }
  wp_step. apply wp_dehydrate_any; [|done]. intros c. repeat wp_step.
  destruct phase; repeat wp_step; (split; [solve_flow|]); (split;
    [apply (build_response_batch RsHeaders)||apply (build_response_batch RsBody)|]).
  - by intros _.
  - unfold one_unless_fds. cbn [protocol_config with_deferred_response_header_mutation with_carried_context
      with_response_body_buf with_response]. by destruct (response_body_mode (protocol_config s)).
Qed.

Lemma response_pipeline_answers phase eos s (g : Glob Env) :
  wp (run_response_pipeline phase pipeline eos)
    (emits false s (fun rs _ => batch false (response_step phase) (response_headers_yield phase s) rs)) s g.
Proof. eapply emits_mono, response_pipeline_shape. by intros rs s' _ [? _]. Qed.

(** What [take_first_chunk] still allows. *)
Definition unsent (b : bool) (s : StreamState) : nat := if headers_sent b (header_state s) then 0 else 1.

Definition early_yield (d : MutationDelivery) : nat := match d with DeferSilent => 0 | _ => 1 end.

Lemma deliver_request_answers d m s (g : Glob Env) :
  wp (deliver_request d m)
    (emits true s (fun rs s' => unsent true s' = unsent true s /\ batch true Headers (early_yield d) rs)) s g.
Proof.
  destruct d; cbn [deliver_request]; repeat wp_step; (split; [solve_flow|]); (split; [done|]);
    auto with praxis.
Qed.

Lemma deliver_response_answers d m s (g : Glob Env) :
  wp (deliver_response d m)
    (emits false s (fun rs s' => unsent false s' = unsent false s /\ batch false Headers (early_yield d) rs)) s g.
Proof.
  destruct d; cbn [deliver_response]; repeat wp_step; (split; [solve_flow|]); (split; [done|]);
    auto with praxis.
Qed.

(** Continue with a specification from a state reached by [flow]. *)
Lemma emits_from b s s1 A (m : M Env StreamState (list ProcessingResponse)) g :
  flow b s s1 -> unsent b s1 = unsent b s ->
  wp m (emits b s1 (fun rs s' => unsent b s' = unsent b s1 /\ A rs)) s1 g ->
  wp m (emits b s (fun rs s' => unsent b s' = unsent b s /\ A rs)) s1 g.
Proof.
  intros Hf Hu Hm. eapply wp_mono; [exact Hm|]. intros [rs|e] s' g'; [|done]. intros (? & ? & ?).
  split; [by eapply flow_trans|]. split; [congruence|done].
Qed.

Lemma early_request_answers d s (g : Glob Env) :
  wp (run_request_header_filters_early pipeline d)
    (emits true s (fun rs s' => unsent true s' = unsent true s /\ batch true Headers (early_yield d) rs)) s g.
Proof.
  unfold run_request_header_filters_early. repeat wp_step.
  destruct (request s) as [rq|]; [|apply deliver_request_answers].
  wp_step. apply wp_fresh_context. intros fresh. wp_step. apply wp_hydrate_any; [|done]. intros ctx.
  wp_step. apply wp_execute_request. intros r ctx' g' _ _. wp_step. apply wp_action_outcome.
  intros o g'' _ _. destruct o as [[i|]|e]; [wp_step; split; [solve_flow|split; [done|apply batch_immediate]]| |done].
  repeat wp_step. apply wp_dehydrate_any; [|done]. intros c. eapply emits_from, deliver_request_answers; [solve_flow|done].
Qed.

Lemma early_response_answers d s (g : Glob Env) :
  wp (run_response_header_filters_early pipeline d)
    (emits false s (fun rs s' => unsent false s' = unsent false s /\ batch false Headers (early_yield d) rs)) s g.
Proof.
  unfold run_response_header_filters_early. repeat wp_step.
  destruct (request s) as [rq|]; [|apply deliver_response_answers].
  wp_step. apply wp_fresh_context. intros fresh.
  destruct (response s) as [resp|]; [|apply deliver_response_answers].
  wp_step. apply wp_hydrate_any; [|done]. intros ctx. wp_step.
  apply wp_execute_response. intros r ctx' g' _ _. wp_step.
  match goal with |- wp _ ?K _ _ => assert (Hk : forall s1, flow false s s1 -> unsent false s1 = unsent false s -> K (Ok tt) s1 g') end;
    [|apply wp_write_back; [|intros rs]; apply Hk; solve_flow || done].
  intros s1 Hf Hu. wp_step. apply wp_action_outcome. intros o g'' _ _.
  destruct o as [[i|]|e]; [wp_step; split; [done|split; [done|apply batch_immediate]]| |done].
  wp_case; [wp_step; split; [done|split; [done|apply batch_immediate]]|].
  repeat wp_step. apply wp_dehydrate_any; [|done]. intros c. eapply emits_from, deliver_response_answers; [|exact Hu].
  eapply flow_trans; [exact Hf|solve_flow].
Qed.

(** Streamed chunks are answered with the body only. *)
Definition side_mode (b : bool) (s : StreamState) : BodyMode :=
  if b then request_body_mode (protocol_config s) else response_body_mode (protocol_config s).

Lemma streamed_chunk_shape body b s (g : Glob Env) :
  wp (process_streamed_body_chunk pipeline body b)
    (emits b s (fun rs _ => batch b Body 0 rs /\ one_unless_fds (side_mode b s) rs)) s g.
Proof.
  unfold process_streamed_body_chunk. repeat wp_step.
  destruct (request s) as [rq|]; [|by apply wp_missing_request].
  wp_step. apply wp_fresh_context. intros fresh. wp_step.
  destruct b; cbn [negb].
  - repeat wp_step. apply wp_hydrate_any; [|done]. intros ctx. repeat wp_step.
    apply run_body_filters_spec. intros o ctx' chunk' g1 _ _. repeat wp_step.
    destruct o as [[i|]|e]; [wp_step; split; [solve_flow|split; [apply batch_immediate|by intros _]]| |done].
    repeat wp_step. apply wp_warn_unapplied. intros g2 _. wp_step. apply wp_dehydrate_any; [|done].
    intros c. repeat wp_step. split; [solve_flow|].
    split; [apply (body_responses_batch _ _ true)|apply (body_responses_one _ _ true)].
  - destruct (response s) as [resp|]; [|by apply wp_missing_response]. repeat wp_step.
    apply wp_hydrate_any; [|done]. intros ctx. repeat wp_step.
    match goal with |- wp _ ?K _ _ => assert (Hrest : forall c s1 g1, flow false s s1 -> K (Ok c) s1 g1) end.
    { intros c s1 g1 Hf. repeat wp_step. apply run_resp_body_filters_spec. intros o ctx' chunk' g2 _ _.
      repeat wp_step.
      match goal with |- wp _ ?K' _ _ => assert (Hk : forall s2, flow false s s2 -> K' (Ok tt) s2 g2) end;
        [|apply wp_write_back; [|intros rs]; apply Hk; [done|eapply flow_trans; [exact Hf|solve_flow]]].
      intros s2 Hf2. repeat wp_step.
      destruct o as [[i|]|e]; [wp_step; split; [done|split; [apply batch_immediate|by intros _]]| |done].
      repeat wp_step. apply wp_warn_unapplied. intros g3 _. wp_step. apply wp_dehydrate_any; [|done].
      intros c'. repeat wp_step. split; [eapply flow_trans; [exact Hf2|solve_flow]|].
      split; [apply (body_responses_batch _ _ false)|]. cbn [side_mode]. rewrite <- (flow_config _ _ _ Hf2).
      apply (body_responses_one _ _ false). }
    apply buffer_response_chunk_spec; [|intros c; apply Hrest; solve_flow].
    intros [c|e] b' g1 _ _ _; [|done]. apply Hrest. solve_flow.
Qed.

Lemma streamed_chunk_answers body b s (g : Glob Env) :
  wp (process_streamed_body_chunk pipeline body b) (emits b s (fun rs _ => batch b Body 0 rs)) s g.
Proof. eapply emits_mono, streamed_chunk_shape. by intros rs s' _ [? _]. Qed.

(** Flushing streamed filters yields nothing but a rejection. *)
Lemma flush_streamed_shape b s (g : Glob Env) :
  wp (flush_streamed_body_filters pipeline b)
    (emits b s (fun rs _ => batch b Body 0 rs /\ Forall (fun r => is_immediate r = true) rs)) s g.
Proof.
  unfold flush_streamed_body_filters. repeat wp_step. wp_case; [wp_step; split; [solve_flow|split; [apply batch_immediate|by repeat constructor]]|].
  destruct (request s) as [rq|]; [|by apply wp_missing_request].
  wp_step. apply wp_fresh_context. intros fresh. wp_step.
  match goal with |- wp _ ?K _ _ => assert (Hrest : forall c, K (Ok c) s g) end.
  2: { destruct b; [apply wp_ret, Hrest|]. destruct (response s); [apply wp_ret, Hrest|by apply wp_missing_response]. }
  intros c. wp_step. apply wp_hydrate_any; [|done]. intros ctx. wp_step.
  apply run_trailing_body_spec. intros r ctx' g1 _ _. wp_step.
  match goal with |- wp _ ?K _ _ => assert (Hk : forall s1, flow b s s1 -> K (Ok tt) s1 g1) end.
  2: { destruct b; [wp_step; apply Hk; solve_flow|]. apply wp_write_back; [|intros rs]; apply Hk; solve_flow. }
  intros s1 Hf. repeat wp_step. destruct r as [a|e]; [|done].
  repeat wp_step. apply wp_dehydrate_any; [|done]. intros c'. repeat wp_step.
  apply wp_immediate_from_action. intros o g2 _. wp_step.
  split; [eapply flow_trans; [exact Hf|solve_flow]|]. destruct o; split; auto with praxis.
Qed.

Lemma flush_streamed_answers b s (g : Glob Env) :
  wp (flush_streamed_body_filters pipeline b) (emits b s (fun rs _ => batch b Body 0 rs)) s g.
Proof. eapply emits_mono, flush_streamed_shape. by intros rs s' _ [? _]. Qed.

Lemma wp_take_first b Q s (g : Glob Env) :
  (unsent b s = 0%nat -> Q (Ok false) s g) ->
  (forall s', unsent b s = 1%nat -> flow b s s' -> unsent b s' = 0%nat -> Q (Ok true) s' g) ->
  wp (take_first b) Q s g.
Proof.
  intros H1 H2. unfold take_first, take_first_chunk, unsent in *. wp_step. wp_step.
  assert (Hs : with_header_state (header_state s) s = s) by by destruct s.
  destruct (headers_sent b (header_state s)) eqn:E; repeat wp_step; [rewrite Hs; auto|].
  apply H2; [done|destruct b; solve_flow|by destruct b].
Qed.

Lemma deferred_answers b Q s (g : Glob Env) :
  (forall h s', flow b s s' -> unsent b s' = unsent b s -> batch b Headers 1 [h] -> Q (Ok h) s' g) ->
  wp (deferred_header_response b) Q s g.
Proof.
  intros HQ. unfold deferred_header_response. repeat wp_step.
  destruct b; repeat wp_step; apply HQ; try solve_flow; auto with praxis.
Qed.

(** The deferred headers go out with the first chunk, once. *)
Lemma passthrough_answers body mode b s (g : Glob Env) :
  wp (passthrough_chunk body mode b)
    (emits b s (fun rs s' => unsent b s' = 0%nat /\ batch b Body (unsent b s) rs)) s g.
Proof.
  unfold passthrough_chunk. set (rs := if b then request_body _ _ _ _ else _).
  assert (Hrs : batch b Body 0 rs) by (subst rs; destruct b; apply body_responses_batch). clearbody rs.
  wp_step. apply wp_take_first; [intros Hu|intros s1 Hu Hf Hu1]; cbn [negb].
  - wp_step. split; [apply flow_refl|]. by rewrite Hu.
  - wp_step. apply deferred_answers. intros h s2 Hf2 Hu2 Hh. wp_step.
    split; [by eapply flow_trans|]. rewrite Hu, Hu2, Hu1. split; [done|].
    apply (batch_cons _ _ 1 0); [by apply batch_headers_at_body|done].
Qed.

Lemma flush_deferred_answers b s (g : Glob Env) :
  wp (flush_deferred_fds_headers b)
    (emits b s (fun rs s' => unsent b s' = 0%nat /\ batch b Body (unsent b s) rs)) s g.
Proof.
  unfold flush_deferred_fds_headers. wp_step. apply wp_take_first; [intros Hu|intros s1 Hu Hf Hu1].
  - wp_step. split; [apply flow_refl|]. split; [done|]. rewrite Hu. apply batch_nil.
  - wp_step. apply deferred_answers. intros h s2 Hf2 Hu2 Hh. wp_step.
    split; [by eapply flow_trans|]. rewrite Hu, Hu2, Hu1. split; [done|by apply batch_headers_at_body].
Qed.
End PipelineAnswers.
