(* ===== verification/Budget.v ===== *)
(** * The header budget of a stream

    Every handler answers its message on its own side with no later step, and the header
    responses of a side are spent from a budget of one: [pending] says whether a side whose
    header message has been processed may still send its header response. *)

From S2P Require Import Prelude RustStd Proto Effect Extern Metrics Response Protocol Adapter ResponseMode State Pipeline Handlers Server Invariant StreamInv Stream Answers.

Lemma batch_is_immediate b step n r : is_immediate r = true -> batch b step n [r].
Proof.
  unfold is_immediate. intros Hr. unfold batch, times, is_kind. simpl. unfold is_immediate.
  destruct (prs_response r) as [[]|] eqn:E; try done. simpl. split; [|split; [lia|done]]. constructor; [|done].
  unfold answers. by rewrite E.
Qed.

Section Budget.
Context `{PraxisFilter}.
Variable pipeline : FilterPipeline.

(** ** What a side may still send *)

Definition mode_of (b : bool) (s : StreamState) : BodyMode :=
  if b then request_body_mode (protocol_config s) else response_body_mode (protocol_config s).

(** The filters hold the body of this side until its end. *)
Definition holds (b : bool) (s : StreamState) : bool :=
  if b then needs_request_body (caps pipeline) || needs_selected_upstream_request_body (caps pipeline)
  else needs_response_body (caps pipeline) && negb (po_local_reply (phase_order s)).

Definition closed (b : bool) (s : StreamState) : Prop :=
  phase_state (eos_tracker s) (headers_phase b) = Completed \/
  phase_state (eos_tracker s) (body_phase b) = Completed.

#[export] Instance closed_dec b s : Decision (closed b s).
Proof. unfold closed. apply _. Defined.

(** The header responses a side can still send once its header message is processed. *)
Definition pending (b : bool) (s : StreamState) : nat :=
  if decide (closed b s) then 0
  else match mode_of b s with
       | FullDuplexStreamed => if holds b s then 1 else unsent b s
       | _ => 0
       end.

(** In streamed mode the headers went out with the header message. *)
Definition ready (b : bool) (s : StreamState) : Prop :=
  mode_of b s = Streamed -> closed b s \/ unsent b s = 0%nat.

(** Full-duplex mode never holds a selected-upstream body. *)
Definition sound (s : StreamState) : Prop :=
  request_body_mode (protocol_config s) = FullDuplexStreamed ->
  needs_selected_upstream_request_body (caps pipeline) = true ->
  phase_state (eos_tracker s) PRequestHeaders = Completed.

Lemma unsent_le b s : (unsent b s <= 1)%nat.
Proof. unfold unsent. destruct (headers_sent b _); lia. Qed.

Lemma pending_le b s : (pending b s <= 1)%nat.
Proof.
  unfold pending. pose proof (unsent_le b s). destruct (decide _); [lia|].
  destruct (mode_of b s), (holds b s); lia.
Qed.

Lemma pending_closed b s : closed b s -> pending b s = 0%nat.
Proof. intros Hc. unfold pending. by rewrite decide_True. Qed.

Lemma pending_other b s s' : leaves_other b s s' -> pending (negb b) s' = pending (negb b) s.
Proof.
  intros [E1 E2 E3 E4 E5 E6]. unfold pending, mode_of, holds, unsent. rewrite E1, E2, E6.
  assert (Hc : closed (negb b) s' <-> closed (negb b) s) by (unfold closed; rewrite E4, E5; tauto).
  by destruct (decide (closed (negb b) s')), (decide (closed (negb b) s)); try tauto.
Qed.

Lemma flow_closed b s s' : flow b s s' -> (closed b s' <-> closed b s).
Proof. intros [_ _ E _ _]. unfold closed. by rewrite E. Qed.

(** Running filters changes nothing pending, but for the headers of a body that passes through. *)
Lemma pending_flow b s s' :
  flow b s s' -> mode_of b s <> FullDuplexStreamed \/ closed b s \/ holds b s = true \/ unsent b s' = unsent b s ->
  pending b s' = pending b s.
Proof.
  intros Hf Hc. pose proof (flow_closed _ _ _ Hf) as Hcl. destruct Hf as [E1 E2 _ _ _].
  unfold pending, mode_of, holds in *. rewrite E1, E2.
  destruct (decide (closed b s')), (decide (closed b s)); try tauto.
  destruct Hc as [Hm|[?|[Hh|Hu]]]; [|done| |by rewrite Hu].
  - by destruct (if b then request_body_mode (protocol_config s) else response_body_mode (protocol_config s)).
  - by rewrite Hh.
Qed.

Lemma pending_mode b s : mode_of b s <> FullDuplexStreamed -> pending b s = 0%nat.
Proof. intros Hm. unfold pending. destruct (decide _); [done|]. by destruct (mode_of b s). Qed.

(** A side whose body passes through has nothing pending once its headers are sent. *)
Lemma pending_sent b s : unsent b s = 0%nat -> (mode_of b s = FullDuplexStreamed -> holds b s = false) -> pending b s = 0%nat.
Proof.
  intros Hu Hm. unfold pending. destruct (decide _); [done|].
  destruct (mode_of b s); try done. by rewrite Hm.
Qed.

Lemma pending_held b s : ~ closed b s -> mode_of b s = FullDuplexStreamed -> holds b s = true -> pending b s = 1%nat.
Proof. intros Hc Hm Hh. unfold pending. by rewrite decide_False, Hm, Hh. Qed.

Lemma pending_passed b s : ~ closed b s -> mode_of b s = FullDuplexStreamed -> holds b s = false -> pending b s = unsent b s.
Proof. intros Hc Hm Hh. unfold pending. by rewrite decide_False, Hm, Hh. Qed.

(** In full-duplex mode a side has its header response pending until it is sent. *)
Lemma pending_fresh b s : ~ closed b s -> mode_of b s = FullDuplexStreamed -> unsent b s = 1%nat -> pending b s = 1%nat.
Proof. intros Hc Hm Hu. unfold pending. rewrite decide_False, Hm by done. by destruct (holds b s). Qed.

(** ** The outcome of a handler *)

(** Its answers have side [b] and at most step [step]; provided [ok], the header responses
    it sends and leaves pending are [limit], or fewer if it ends the stream; and it keeps [R]. *)
Definition spent (b : bool) (step : PhaseStep) (limit : nat) (ok : Prop)
  (R : list ProcessingResponse -> StreamState -> Prop)
  (r : result Status (list ProcessingResponse)) (s' : StreamState) (_ : Glob Env) : Prop :=
  match r with
  | Err _ => True
  | Ok rs =>
      R rs s' /\ Forall (fun r => answers (side_of b) step r = true) rs /\
      (times (side_of b) Trailers rs <= if decide (step = Trailers) then 1 else 0)%nat /\
      (ok -> (times (side_of b) Headers rs <= limit)%nat /\
             (existsb is_immediate rs = false -> (times (side_of b) Headers rs + pending b s')%nat = limit))
  end.

Lemma spent_batch b step n limit ok (R : list ProcessingResponse -> StreamState -> Prop) rs s' g :
  step <> Trailers -> batch b step n rs -> R rs s' ->
  (ok -> (n <= limit)%nat /\ (existsb is_immediate rs = false -> (n + pending b s')%nat = limit)) ->
  spent b step limit ok R (Ok rs) s' g.
Proof.
  intros Hs (Ha & Ht & He) HR Hok. split_and!; [done|done| |].
  - rewrite (times_answers (side_of b) step); [lia|done|right; by destruct step].
  - intros Hx. destruct (Hok Hx) as [Hl Hq]. split; [lia|]. intros Hi. rewrite (He Hi). auto.
Qed.

Lemma spent_immediate b step limit ok (R : list ProcessingResponse -> StreamState -> Prop) r s' g :
  step <> Trailers -> is_immediate r = true -> R [r] s' -> spent b step limit ok R (Ok [r]) s' g.
Proof.
  intros Hs Hi HR. eapply spent_batch; [done|by apply (batch_is_immediate b step 0)|done|].
  intros _. split; [lia|]. simpl. by rewrite Hi.
Qed.

(** From what a pipeline function emits to what its handler spends. *)
Lemma spent_emits b step n limit ok (R : list ProcessingResponse -> StreamState -> Prop)
  (A : StreamState -> Prop) s1 (m : M Env StreamState (list ProcessingResponse)) s g :
  step <> Trailers ->
  wp m (emits b s1 (fun rs s' => A s' /\ batch b step n rs)) s g ->
  (forall rs s', flow b s1 s' -> A s' -> R rs s') ->
  (forall s', flow b s1 s' -> A s' -> ok -> (n + pending b s')%nat = limit) ->
  wp m (spent b step limit ok R) s g.
Proof.
  intros Hs Hm HR Hok. eapply wp_mono; [exact Hm|]. intros [rs|e] s' g'; [|done]. intros (Hf & HA & Hb).
  eapply spent_batch; [done|exact Hb|by eauto|]. intros Hx. specialize (Hok s' Hf HA Hx). split; [lia|done].
Qed.

Lemma emits_true b s step n (m : M Env StreamState (list ProcessingResponse)) s0 g :
  wp m (emits b s (fun rs _ => batch b step n rs)) s0 g ->
  wp m (emits b s (fun rs _ => True /\ batch b step n rs)) s0 g.
Proof. apply emits_mono. auto. Qed.

(** Marking a phase of a side leaves the other side alone. *)
Lemma mark_leaves b phase (eos : bool) s :
  phase = headers_phase b \/ phase = body_phase b ->
  leaves_other b s (with_eos_tracker (if eos then mark_complete phase (eos_tracker s) else eos_tracker s) s).
Proof.
  intros Hp. constructor; cbn; try done.
  - intros p Hd. destruct eos; [|done]. destruct p; cbn in *; by repeat case_decide.
  - destruct eos; [|done]. by destruct b, Hp as [-> | ->].
  - destruct eos; [|done]. by destruct b, Hp as [-> | ->].
Qed.

Lemma mark_closed b (eos : bool) s :
  eos = true -> closed b (with_eos_tracker (if eos then mark_complete (body_phase b) (eos_tracker s) else eos_tracker s) s).
Proof. intros ->. right. by destruct b. Qed.

Lemma closed_headers b s :
  phase_state (eos_tracker s) (headers_phase b) = Active -> phase_state (eos_tracker s) (body_phase b) = Active ->
  ~ closed b s.
Proof. intros H1 H2 [?|?]; congruence. Qed.
End Budget.

(** ** Bodies *)

Section Handlers.
Context `{PraxisFilter}.
Variable pipeline : FilterPipeline.

Abbreviation keeps b s := (fun _ s' => leaves_other b s s').
Abbreviation spends := (spent pipeline).

(** The state a body handler goes on from, once the message is marked. *)
Record entered (b eos : bool) (s s1 : StreamState) : Prop := {
  entered_leaves : leaves_other b s s1;
  entered_unsent : unsent b s1 = unsent b s;
  entered_open : ~ closed b s;
  entered_closed : if eos then closed b s1 else ~ closed b s1;
  entered_headers : phase_state (eos_tracker s1) (headers_phase b) = Active;
}.

Lemma entered_mode b eos s s1 : entered b eos s s1 -> mode_of b s1 = mode_of b s.
Proof. intros He. unfold mode_of. by rewrite (leaves_config _ _ _ (entered_leaves _ _ _ _ He)). Qed.

Lemma entered_holds b eos s s1 : entered b eos s s1 -> holds pipeline b s1 = holds pipeline b s.
Proof. intros He. unfold holds. by rewrite (leaves_order _ _ _ (entered_leaves _ _ _ _ He)). Qed.

Lemma mark_body_entered (b eos : bool) s :
  ~ closed b s -> phase_state (eos_tracker s) (headers_phase b) = Active ->
  entered b eos s (with_eos_tracker (if eos then mark_complete (body_phase b) (eos_tracker s) else eos_tracker s) s).
Proof.
  intros Hc Hh. constructor; [by apply mark_leaves; right|done|done| |].
  - destruct eos; [by apply (mark_closed b true)|done].
  - destruct eos; [|done]. by destruct b.
Qed.

Lemma entered_seen b eos s s1 : entered b eos (mark_body_chunk_seen b s) s1 -> entered b eos s s1.
Proof. intros [[] ? ? ? ?]. by constructor. Qed.

(** From the state a body handler has entered to its outcome. *)
Lemma spent_body b eos s s1 n ok (A : StreamState -> Prop) (m : M Env StreamState (list ProcessingResponse)) g :
  entered b eos s s1 ->
  wp m (emits b s1 (fun rs s' => A s' /\ batch b Body n rs)) s1 g ->
  (forall s', flow b s1 s' -> A s' -> ok -> (n + pending pipeline b s')%nat = pending pipeline b s) ->
  wp m (spends b Body (pending pipeline b s) ok (keeps b s)) s1 g.
Proof.
  intros He Hm Hok. eapply spent_emits; [done|exact Hm| |done].
  intros rs s' Hf _. eapply leaves_trans; [apply (entered_leaves _ _ _ _ He)|by apply flow_leaves].
Qed.

(** Without a header response: outside full-duplex mode, or while the body is held. *)
Lemma spent_nothing b eos s s1 ok m g :
  entered b eos s s1 -> mode_of b s <> FullDuplexStreamed \/ eos = false /\ holds pipeline b s = true ->
  wp m (emits b s1 (fun rs _ => batch b Body 0 rs)) s1 g ->
  wp m (spends b Body (pending pipeline b s) ok (keeps b s)) s1 g.
Proof.
  intros He Hc Hm. pose proof (entered_mode _ _ _ _ He) as Hmo. pose proof (entered_holds _ _ _ _ He) as Hho.
  eapply spent_body; [exact He|by apply emits_true|]. intros s' Hf _ _. cbn [Nat.add].
  destruct (decide (mode_of b s = FullDuplexStreamed)) as [Hd|Hd].
  - destruct Hc as [?|[-> Hh]]; [done|]. rewrite (pending_flow pipeline b s1 s' Hf) by (rewrite Hho; auto).
    rewrite !(pending_held pipeline b); try done; try congruence; destruct He; done.
  - rewrite (pending_flow pipeline b s1 s' Hf) by (left; congruence). rewrite !pending_mode; congruence.
Qed.

Lemma entered_immediate b eos s s1 ok r g :
  entered b eos s s1 -> is_immediate r = true ->
  wp (ret [r]) (spends b Body (pending pipeline b s) ok (keeps b s)) s1 g.
Proof. intros He Hi. wp_step. apply spent_immediate; [done|done|apply (entered_leaves _ _ _ _ He)]. Qed.

(** One header response goes out where a held body ends. *)
Lemma spent_held b s s1 ok m g :
  entered b true s s1 -> mode_of b s = FullDuplexStreamed -> (ok -> holds pipeline b s = true) ->
  wp m (emits b s1 (fun rs _ => batch b Body 1 rs)) s1 g ->
  wp m (spends b Body (pending pipeline b s) ok (keeps b s)) s1 g.
Proof.
  intros He Hm Hh Hw. eapply spent_body; [exact He|by apply emits_true|].
  intros s' Hf _ Hok. rewrite (pending_held pipeline b s), (pending_closed pipeline b s'); auto;
    destruct He; auto. by apply (flow_closed b s1).
Qed.

Lemma spent_passthrough b eos s s1 (ok : Prop) mode m g :
  entered b eos s s1 -> mode_of b s = mode -> mode = FullDuplexStreamed \/ mode = Streamed ->
  (ok -> mode = FullDuplexStreamed -> holds pipeline b s = false) -> (ok -> ready b s) ->
  wp m (emits b s1 (fun rs s' => unsent b s' = 0%nat /\ batch b Body (unsent b s1) rs)) s1 g ->
  wp m (spends b Body (pending pipeline b s) ok (keeps b s)) s1 g.
Proof.
  intros He <- Hm Hh Hrd Hw. pose proof (entered_mode _ _ _ _ He) as Hmo. pose proof (entered_holds _ _ _ _ He) as Hho.
  eapply spent_body; [exact He|exact Hw|].
  intros s' Hf Hu Hok. destruct He as [_ Hun Ho _ _].
  assert (Hmo' : mode_of b s' = mode_of b s1) by (unfold mode_of; by rewrite (flow_config _ _ _ Hf)).
  assert (Hho' : holds pipeline b s' = holds pipeline b s1)
    by (unfold holds; by rewrite (flow_order _ _ _ Hf)).
  rewrite Hun, (pending_sent pipeline b s' Hu) by (intros; rewrite Hho', Hho; apply Hh; congruence).
  destruct Hm as [Hm|Hm].
  - rewrite (pending_passed pipeline b s); auto; lia.
  - destruct (Hrd Hok Hm) as [|Hz]; [done|]. rewrite Hz, pending_mode; [lia|congruence].
Qed.

(** A re-delivered body message is answered with nothing. *)
Lemma spent_redelivered b s s1 ok g :
  s1 = mark_body_chunk_seen b s -> spends b Body (pending pipeline b s) ok (keeps b s) (Ok []) s1 g.
Proof.
  intros ->. eapply spent_batch; [done|apply (batch_nil b Body)|by constructor|]. intros _.
  split; [lia|]. intros _. reflexivity.
Qed.

Lemma accumulate_request_answers body s s1 ok (g : Glob Env) :
  entered true (hb_end_of_stream body) s s1 ->
  (request_body_mode (protocol_config s) = FullDuplexStreamed -> needs_request_body (caps pipeline) = true) ->
  wp (accumulate_request_body pipeline body) (spends true Body (pending pipeline true s) ok (keeps true s)) s1 g.
Proof.
  intros He Hn. unfold accumulate_request_body. repeat wp_step. apply check_body_limit_spec; cbn [is_ok negb].
  { intros. by eapply entered_immediate. }
  intros _. repeat wp_step. assert (E : protocol_config s1 = protocol_config s) by apply (leaves_config _ _ _ (entered_leaves _ _ _ _ He)).
  cbn [protocol_config with_request_body_buf].
  assert (He' : forall v buf, entered true (hb_end_of_stream body) s
            (with_buffered_request_body_processed v (with_request_body_buf buf s1)))
    by (intros; destruct He as [[] ? ? ? ?]; by constructor).
  assert (He2 : forall buf, entered true (hb_end_of_stream body) s (with_request_body_buf buf s1))
    by (intros; destruct He as [[] ? ? ? ?]; by constructor).
  assert (Hrun : forall s2, entered true (hb_end_of_stream body) s s2 ->
     wp (run_request_pipeline RqBody pipeline (hb_end_of_stream body))
       (emits true s2 (fun rs _ => batch true Body (if decide (mode_of true s = FullDuplexStreamed) then 1 else 0) rs)) s2 g).
  { intros s2 H2. pose proof (request_pipeline_answers pipeline RqBody (hb_end_of_stream body) true s2 g) as Hp.
    unfold request_step, request_headers_yield in Hp.
    assert (Hh : eos_request_headers (eos_tracker s2) = Active) by apply (entered_headers _ _ _ _ H2).
    rewrite Hh, (leaves_config _ _ _ (entered_leaves _ _ _ _ H2)) in Hp. exact Hp. }
  destruct (decide (mode_of true s = FullDuplexStreamed)) as [Hm|Hm].
  - assert (Hb : bool_decide (request_body_mode (protocol_config s1) = Buffered) = false)
      by (rewrite E; unfold mode_of in Hm; by rewrite Hm).
    rewrite Hb. cbn [negb]. rewrite andb_true_r. destruct (hb_end_of_stream body) eqn:Heos; cbn [negb].
    + repeat wp_step. eapply spent_held; [apply He'|done| |by apply Hrun].
      intros _. unfold holds. by rewrite Hn.
    + eapply (spent_nothing true false); [apply He2| |wp_step; split; [apply flow_refl|apply batch_nil]].
      right. split; [done|]. unfold holds. by rewrite Hn.
  - wp_case; [eapply (spent_nothing true); [apply He2|by left|wp_step; split; [apply flow_refl|apply batch_nil]]|].
    repeat wp_step. eapply spent_nothing; [apply He'|by left|by apply Hrun].
Qed.

Lemma streamed_limit_answers n eos s s1 ok (k : M Env StreamState (list ProcessingResponse)) g :
  entered true eos s s1 ->
  (forall v, let s2 := with_streamed_request_bytes v s1 in
     entered true eos s s2 -> wp k (spends true Body (pending pipeline true s) ok (keeps true s)) s2 g) ->
  wp (let? rejection := reject_streamed_request_over_limit pipeline n in
      match rejection with Some r => ret [r] | None => k end)
    (spends true Body (pending pipeline true s) ok (keeps true s)) s1 g.
Proof.
  intros He Hk. wp_step. apply (streamed_limit_spec pipeline (max_body_accumulation s1)); [done|..].
  - intros r g' _ Hi. by eapply entered_immediate.
  - intros v _. apply Hk. destruct He as [[] ? ? ? ?]. by constructor.
Qed.

Lemma handle_request_body_answers body s (g : Glob Env) :
  wp (handle_request_body pipeline body)
    (spends true Body (pending pipeline true s) (ready true s /\ sound pipeline s) (keeps true s)) s g.
Proof.
  unfold handle_request_body. repeat wp_step. apply wp_mark_phase; [|intros Ha Hh _|done].
  { intros _. wp_step. apply wp_redelivery; [done| |done]. intros _. wp_step. by apply spent_redelivered. }
  wp_step. apply wp_redelivery; [intros _|done|done]. specialize (Hh eq_refl).
  assert (He : entered true (hb_end_of_stream body) s
     (with_eos_tracker (if hb_end_of_stream body then mark_complete PRequestBody (eos_tracker (mark_body_chunk_seen true s))
                        else eos_tracker (mark_body_chunk_seen true s)) (mark_body_chunk_seen true s))).
  { apply entered_seen. apply (mark_body_entered true); [by apply (closed_headers true)|done]. }
  clear Ha. set (s1 := with_eos_tracker _ _) in *. clearbody s1.
  assert (Hs : sound pipeline s -> request_body_mode (protocol_config s) = FullDuplexStreamed ->
     needs_request_body (caps pipeline) = false -> holds pipeline true s = false).
  { intros Hs Hm Hn. unfold holds. rewrite Hn. destruct (needs_selected_upstream_request_body _) eqn:Hx; [|done].
    specialize (Hs Hm Hx). cbn in Hs. cbn in Hh. congruence. }
  destruct (request_body_mode (protocol_config s)) eqn:Hm; destruct (needs_request_body (caps pipeline)) eqn:Hn;
    try (apply accumulate_request_answers; [done|intros; congruence]);
    (apply (streamed_limit_answers _ (hb_end_of_stream body)); [done|]; intros v s2 He2).
  - eapply spent_nothing; [exact He2|left; unfold mode_of; congruence|apply streamed_chunk_answers].
  - eapply spent_passthrough; [exact He2|exact Hm|by right|done|by intros []|apply passthrough_answers].
  - eapply spent_passthrough; [exact He2|exact Hm|by left|by intros []; auto|by intros []|apply passthrough_answers].
Qed.

(** The response side, of an exchange that is not a local reply. *)
Lemma accumulate_response_answers body s s1 ok (g : Glob Env) :
  entered false (hb_end_of_stream body) s s1 ->
  (mode_of false s = FullDuplexStreamed -> holds pipeline false s = true) ->
  wp (accumulate_response_body pipeline body) (spends false Body (pending pipeline false s) ok (keeps false s)) s1 g.
Proof.
  intros He Hn. unfold accumulate_response_body. repeat wp_step. apply check_body_limit_spec; [done|].
  intros _. repeat wp_step.
  assert (He2 : forall buf, entered false (hb_end_of_stream body) s (with_response_body_buf buf s1))
    by (intros; destruct He as [[] ? ? ? ?]; by constructor).
  destruct (hb_end_of_stream body) eqn:Heos; cbn [negb].
  2: { eapply (spent_nothing false); [apply He2| |wp_step; split; [apply flow_refl|apply batch_nil]].
       destruct (decide (mode_of false s = FullDuplexStreamed)); [right|by left]. auto. }
  set (s2 := with_response_body_buf _ s1). specialize (He2 (response_body_buf s1 ++ hb_body body)). fold s2 in He2.
  pose proof (response_pipeline_answers pipeline RsBody true s2 g) as Hp. unfold response_headers_yield in Hp.
  rewrite (leaves_config _ _ _ (entered_leaves _ _ _ _ He2)) in Hp.
  destruct (decide (response_body_mode (protocol_config s) = FullDuplexStreamed)) as [Hm|Hm].
  - eapply spent_held; [exact He2|exact Hm|auto|exact Hp].
  - eapply spent_nothing; [exact He2|by left|exact Hp].
Qed.

Lemma handle_response_body_answers body s (g : Glob Env) :
  po_local_reply (phase_order s) = false ->
  wp (handle_response_body pipeline body)
    (spends false Body (pending pipeline false s) (ready false s) (keeps false s)) s g.
Proof.
  intros Hl. unfold handle_response_body. repeat wp_step. apply wp_mark_phase; [|intros Ha _ Hh|done].
  { intros _. wp_step. apply wp_redelivery; [done| |done]. intros _. wp_step. by apply spent_redelivered. }
  wp_step. apply wp_redelivery; [intros _|done|done]. specialize (Hh eq_refl).
  assert (He : entered false (hb_end_of_stream body) s
     (with_eos_tracker (if hb_end_of_stream body then mark_complete PResponseBody (eos_tracker (mark_body_chunk_seen false s))
                        else eos_tracker (mark_body_chunk_seen false s)) (mark_body_chunk_seen false s))).
  { apply entered_seen. apply (mark_body_entered false); [by apply (closed_headers false)|done]. }
  clear Ha. set (s1 := with_eos_tracker _ _) in *. clearbody s1.
  assert (Hs : holds pipeline false s = needs_response_body (caps pipeline)).
  { unfold holds. by rewrite Hl, andb_true_r. }
  destruct (response_body_mode (protocol_config s)) eqn:Hm; destruct (needs_response_body (caps pipeline)) eqn:Hn;
    try (apply accumulate_response_answers; [done|unfold mode_of; intros; congruence]).
  - eapply spent_nothing; [exact He|left; unfold mode_of; congruence|apply streamed_chunk_answers].
  - eapply spent_passthrough; [exact He|exact Hm|by right|done|done|apply passthrough_answers].
  - eapply spent_passthrough; [exact He|exact Hm|by left|auto|done|apply passthrough_answers].
Qed.

(** A local reply's body passes through. *)
Lemma local_reply_body_answers body s (g : Glob Env) :
  po_local_reply (phase_order s) = true ->
  wp (local_reply_body body) (spends false Body (pending pipeline false s) True (keeps false s)) s g.
Proof.
  intros Hl. unfold local_reply_body. repeat wp_step. apply wp_mark_phase; [|intros Ha _ Hh|done].
  { intros _. wp_step. apply wp_redelivery; [done| |done]. intros _. wp_step.
    eapply spent_batch; [done|apply (batch_nil false Body)|by constructor|]. intros _. split; [lia|done]. }
  wp_step. apply wp_redelivery; [intros _|done|done].
  assert (He := mark_body_entered false (hb_end_of_stream body) s (closed_headers false s (Hh eq_refl) Ha) (Hh eq_refl)).
  cbn in He. set (s1 := with_eos_tracker _ _) in *. clearbody s1.
  case_bool_decide as Hm.
  - eapply (spent_passthrough false _ _ _ True); [exact He|exact Hm|by left| |unfold ready, mode_of; intros; congruence|
      apply passthrough_answers].
    intros _ _. unfold holds. by rewrite Hl, andb_false_r.
  - eapply spent_nothing; [exact He|by left|]. wp_step. split; [apply flow_refl|apply (body_responses_batch _ _ false)].
Qed.

(** ** Trailers *)

(** The trailing pipeline run yields a header response in full-duplex mode only. *)
Lemma trailing_pipeline_answers b s1 (g : Glob Env) :
  phase_state (eos_tracker s1) (headers_phase b) = Active ->
  wp (run_trailing_body_pipeline pipeline b)
    (emits b s1 (fun rs _ => batch b Body (if decide (mode_of b s1 = FullDuplexStreamed) then 1 else 0) rs)) s1 g.
Proof.
  intros Hh. destruct b; cbn [run_trailing_body_pipeline].
  - pose proof (request_pipeline_answers pipeline RqBody false true s1 g) as Hp.
    unfold request_step, request_headers_yield in Hp. cbn in Hh. by rewrite Hh in Hp.
  - apply (response_pipeline_answers pipeline RsBody).
Qed.

Lemma finalize_answers b s (g : Glob Env) :
  (b = false -> po_local_reply (phase_order s) = false) ->
  wp (finalize_body_on_trailers pipeline b)
    (spends b Body (pending pipeline b s) True (keeps b s)) s g.
Proof.
  intros Hl. unfold finalize_body_on_trailers. repeat wp_step. destruct (body_open b s) eqn:Ho; cbn [negb].
  2: { wp_step. eapply spent_batch; [done|apply (batch_nil b Body)|by constructor|]. intros _. split; [lia|done]. }
  destruct (trailing_body_phase pipeline s b) as [[phase mode] needs] eqn:Hp.
  assert (Hph : phase = body_phase b /\ mode = mode_of b s /\ needs = holds pipeline b s).
  { unfold trailing_body_phase in Hp. destruct b; injection Hp as <- <- <-; [done|].
    unfold holds. by rewrite Hl, andb_true_r. }
  destruct Hph as (-> & -> & ->). clear Hp.
  assert (Hh : phase_state (eos_tracker s) (headers_phase b) = Active /\ phase_state (eos_tracker s) (body_phase b) = Active).
  { apply body_open_spec in Ho. destruct b, Ho as [_ [? ?]]; done. }
  destruct Hh as [Hh Hb]. repeat wp_step.
  assert (He := mark_body_entered b true s (closed_headers b s Hh Hb) Hh). cbn in He.
  set (s1 := with_eos_tracker _ _) in *.
  assert (Hmode : mode_of b s1 = mode_of b s) by done. clearbody s1.
  pose proof (trailing_pipeline_answers b s1 g (entered_headers _ _ _ _ He)) as Hrun. rewrite Hmode in Hrun.
  assert (Hnil : forall g, wp (ret []) (emits b s1 (fun rs _ => batch b Body 0 rs)) s1 g)
    by (intros; wp_step; split; [apply flow_refl|apply batch_nil]).
  destruct (mode_of b s) eqn:Hm; try (eapply spent_nothing; [exact He|left; congruence|apply Hnil]).
  - destruct (holds pipeline b s); (eapply spent_nothing; [exact He|left; congruence|]);
      [apply flush_streamed_answers|apply Hnil].
  - destruct (b && _); [eapply spent_nothing; [exact He|left; congruence|apply Hnil]|].
    eapply spent_nothing; [exact He|left; congruence|]. wp_step. eapply wp_mono; [exact Hrun|]. intros [rs|e] s' g'; [|done].
    intros [Hf Hr]. wp_step. split; [done|by apply batch_rejection_only].
  - destruct (holds pipeline b s) eqn:Hho.
    + eapply spent_held; [exact He|done|done|]. unfold run_trailing_fds_body. repeat wp_step.
      eapply wp_mono; [exact Hrun|]. intros [rs|e] s' g'; [|done]. intros [Hf Hr]. repeat wp_step.
      wp_case; wp_step; (split; [done|]); [done|by apply batch_not_body].
    + eapply (spent_passthrough b _ _ _ True);
        [exact He|exact Hm|by left|done|unfold ready; intros; congruence|apply flush_deferred_answers].
Qed.

Lemma handle_trailers_answers b s (g : Glob Env) :
  (b = false -> po_local_reply (phase_order s) = false) ->
  wp (handle_trailers pipeline b) (spends b Trailers (pending pipeline b s) True (keeps b s)) s g.
Proof.
  intros Hl. unfold handle_trailers. wp_step. eapply wp_mono; [by apply finalize_answers|]. cbv beta.
  intros [rs|e] s' g'; [|done]. intros (Hk & Ha & Ht & Hh). rewrite decide_False in Ht by done.
  assert (Ha' : Forall (fun r => answers (side_of b) Trailers r = true) rs).
  { eapply Forall_impl; [exact Ha|]. intros r. unfold answers. destruct (prs_response r) as [m|]; [|done].
    destruct (answered m) as [[sd st]|]; [|done]. intros [-> _]%andb_prop. by destruct st. }
  assert (Hone : forall step, times (side_of b) step [if b then request_trailers else response_trailers] =
            if decide (step = Trailers) then 1%nat else 0%nat) by (intros []; by destruct b).
  unfold spent. rewrite decide_True by done.
  wp_case; wp_step; (split_and!; [done| | |]); try done; try lia.
  - apply Forall_app. split; [done|]. by destruct b; repeat constructor.
  - rewrite times_app, Hone, decide_True by done. lia.
  - intros Hok. destruct (Hh Hok) as [Hl' He]. rewrite times_app, Hone, decide_False, existsb_app by done.
    split; [lia|]. intros [Hi _]%orb_false_iff. rewrite <- (He Hi). lia.
Qed.

(** ** Headers *)

(** What a header handler of side [b] leaves of the other side; the response mode may change. *)
Record spares (b : bool) (s s' : StreamState) : Prop := {
  spares_order : phase_order s' = phase_order s;
  spares_mode : mode_of b s' = mode_of b s;
  spares_headers :
    phase_state (eos_tracker s') (headers_phase (negb b)) = phase_state (eos_tracker s) (headers_phase (negb b));
  spares_body : phase_state (eos_tracker s') (body_phase (negb b)) = phase_state (eos_tracker s) (body_phase (negb b));
  spares_sent : headers_sent (negb b) (header_state s') = headers_sent (negb b) (header_state s);
}.

Lemma leaves_spares b s s' : leaves_other b s s' -> spares b s s'.
Proof. intros [E]. constructor; try done. unfold mode_of. by rewrite E. Qed.

Lemma spares_flow b s s1 s' : spares b s s1 -> flow b s1 s' -> spares b s s'.
Proof. intros [? Hm] [E]. constructor; try congruence. rewrite <- Hm. unfold mode_of. by rewrite E. Qed.

(** Nothing of a side has been answered or closed yet. *)
Definition opened (b : bool) (s : StreamState) : Prop :=
  unsent b s = 1%nat /\ phase_state (eos_tracker s) (body_phase b) = Active.

Lemma flow_sent b s s' : flow b s s' -> unsent b s = 0%nat -> unsent b s' = 0%nat.
Proof.
  intros [_ _ _ _ Ho]. unfold unsent. destruct (headers_sent b (header_state s)); [|done]. by rewrite Ho.
Qed.

Lemma ready_flow b s s' : flow b s s' -> ready b s -> ready b s'.
Proof.
  intros Hf Hr Hm. rewrite (flow_closed _ _ _ Hf). unfold mode_of in Hm. rewrite (flow_config _ _ _ Hf) in Hm.
  destruct (Hr Hm); [by left|right]. by eapply flow_sent.
Qed.

(** The headers are answered: nothing stays pending outside full-duplex mode, or where the
    side is closed. *)
Lemma spent_answered b ok (R : list ProcessingResponse -> StreamState -> Prop) s1 m g :
  mode_of b s1 <> FullDuplexStreamed \/ closed b s1 ->
  wp m (emits b s1 (fun rs _ => batch b Headers 1 rs)) s1 g ->
  (forall rs s', flow b s1 s' -> R rs s') ->
  wp m (spends b Headers 1 ok R) s1 g.
Proof.
  intros Hc Hm HR. eapply spent_emits; [done|by apply emits_true|by auto|]. intros s' Hf _ _.
  rewrite (pending_flow pipeline b s1 s' Hf) by tauto.
  destruct Hc; [by rewrite pending_mode|by rewrite pending_closed].
Qed.

(** They are kept for the first chunk, or for the end of the body. *)
Lemma spent_deferred b (ok : Prop) (R : list ProcessingResponse -> StreamState -> Prop) s1 m g :
  mode_of b s1 = FullDuplexStreamed -> (ok -> ~ closed b s1 /\ unsent b s1 = 1%nat) ->
  wp m (emits b s1 (fun rs s' => unsent b s' = unsent b s1 /\ batch b Headers 0 rs)) s1 g ->
  (forall rs s', flow b s1 s' -> R rs s') ->
  wp m (spends b Headers 1 ok R) s1 g.
Proof.
  intros Hmo Hok Hm HR. eapply spent_emits; [done|exact Hm|by auto|]. intros s' Hf Hu Hx.
  destruct (Hok Hx) as [Hc Hs]. cbn [Nat.add]. rewrite (pending_flow pipeline b s1 s' Hf) by tauto.
  by apply pending_fresh.
Qed.

(** From an early run of the header filters, whose flag is untouched. *)
Lemma emits_drop b s A (m : M Env StreamState (list ProcessingResponse)) g :
  wp m (emits b s (fun rs s' => unsent b s' = unsent b s /\ A rs)) s g -> wp m (emits b s (fun rs _ => A rs)) s g.
Proof. apply emits_mono. by intros rs s' _ [_ ?]. Qed.

Lemma emits_one b s step n r g : batch b step n [r] -> wp (ret [r]) (emits b s (fun rs _ => batch b step n rs)) s g.
Proof. intros Hb. wp_step. split; [apply flow_refl|done]. Qed.

Lemma emits_none b s step g :
  wp (ret []) (emits b s (fun rs s' => unsent b s' = unsent b s /\ batch b step 0 rs)) s g.
Proof. wp_step. split; [apply flow_refl|]. split; [done|apply batch_nil]. Qed.

Definition settled_response (s : StreamState) (rs : list ProcessingResponse) (s' : StreamState) : Prop :=
  leaves_other false s s' /\ (existsb is_immediate rs = false -> ready false s').

Lemma settled_response_flow s s1 : leaves_other false s s1 -> ready false s1 ->
  forall rs s', flow false s1 s' -> settled_response s rs s'.
Proof.
  intros Hl Hr rs s' Hf. split; [eapply leaves_trans; [exact Hl|by apply flow_leaves]|]. intros _. by eapply ready_flow.
Qed.

(** The state a header handler goes on from, once the message is marked. *)
Lemma mark_headers_entered (b eos : bool) s :
  phase_state (eos_tracker s) (headers_phase b) = Active ->
  let s1 := with_eos_tracker (if eos then mark_complete (headers_phase b) (eos_tracker s) else eos_tracker s) s in
  leaves_other b s s1 /\ (eos = true -> closed b s1) /\
  (eos = false -> opened b s -> ~ closed b s1 /\ unsent b s1 = 1%nat).
Proof.
  intros Ha s1. split_and!; [by apply mark_leaves; left| |].
  - intros E. unfold s1. rewrite E. left. by destruct b.
  - intros E [Hu Hb]. unfold s1. rewrite E. split; [|done]. by apply closed_headers.
Qed.

Lemma handle_response_headers_answers headers s (g : Glob Env) :
  wp (handle_response_headers pipeline headers) (spends false Headers 1 (opened false s) (settled_response s)) s g.
Proof.
  unfold handle_response_headers. wp_step. apply wp_mark_phase; [by intros _; apply wp_duplicate|intros Ha _ _|done].
  cbn [is_complete]. destruct (mark_headers_entered false (hh_end_of_stream headers) s Ha) as (Hl & Hc & Ho).
  cbn [headers_phase] in *. set (s1 := with_eos_tracker _ s) in *. clearbody s1. wp_step. wp_step.
  set (s2 := with_response _ s1).
  assert (Hl2 : leaves_other false s s2) by (by destruct Hl; constructor).
  assert (Hc2 : hh_end_of_stream headers = true -> closed false s2) by done.
  assert (Ho2 : hh_end_of_stream headers = false -> opened false s -> ~ closed false s2 /\ unsent false s2 = 1%nat) by done.
  clearbody s2. clear s1 Hl Hc Ho.
  pose proof (settled_response_flow _ _ Hl2) as Hk.
  destruct (hh_end_of_stream headers).
  { specialize (Hc2 eq_refl). eapply spent_answered; [by right|apply (response_pipeline_answers pipeline RsHeaders)|].
    apply Hk. intros _. by left. }
  repeat wp_step. destruct (response_body_mode (protocol_config s2)) eqn:Hm; repeat wp_step.
  1,2: eapply spent_answered; [left; unfold mode_of; cbn; congruence|
         apply emits_drop, (early_response_answers pipeline Send)|];
       apply settled_response_flow; [by destruct Hl2; constructor|]; intros _; by right.
  1,2: wp_case; (eapply spent_answered; [left; unfold mode_of; congruence| |apply Hk; unfold ready, mode_of; congruence]);
       [apply emits_one, batch_response_headers|apply emits_drop, (early_response_answers pipeline DeferWithResponse)].
  wp_case; (eapply spent_deferred; [exact Hm|auto| |apply Hk; unfold ready, mode_of; congruence]).
  - apply (early_response_answers pipeline DeferSilent).
  - apply emits_none.
Qed.

Lemma local_reply_headers_answers headers s (g : Glob Env) :
  po_local_reply (phase_order s) = true ->
  wp (local_reply_headers headers) (spends false Headers 1 (opened false s) (settled_response s)) s g.
Proof.
  intros Hlr. unfold local_reply_headers. wp_step. apply wp_mark_phase; [by intros _; apply wp_duplicate|intros Ha _ _|done].
  cbn [is_complete]. destruct (mark_headers_entered false (hh_end_of_stream headers) s Ha) as (Hl & Hc & Ho).
  cbn [headers_phase] in *. set (s1 := with_eos_tracker _ s) in *. clearbody s1.
  unfold record_local_reply. repeat wp_step. wp_case.
  - apply andb_prop in Hc0 as [He%negb_true_iff Hm%bool_decide_eq_true].
    eapply spent_deferred; [exact Hm|auto|apply emits_none|].
    apply settled_response_flow; [done|]. unfold ready, mode_of. congruence.
  - repeat wp_step. eapply spent_batch; [done|apply batch_response_headers| |].
    + split; [by destruct Hl; constructor|]. intros _ _. by right.
    + intros _. split; [lia|]. intros _. rewrite pending_sent; [lia|done|]. intros _. unfold holds. cbn.
      by rewrite (leaves_order _ _ _ Hl), Hlr, andb_false_r.
Qed.

(** A request handler spares the response side, and leaves a sound and ready state unless it
    ends the stream. *)
Definition settles (s : StreamState) (rs : list ProcessingResponse) (s' : StreamState) : Prop :=
  spares true s s' /\ (existsb is_immediate rs = false -> sound pipeline s' /\ ready true s').

Lemma sound_flow s s' : flow true s s' -> sound pipeline s -> sound pipeline s'.
Proof. intros [E _ Ee _ _] Hs. unfold sound. by rewrite E, Ee. Qed.

Lemma settles_flow s s1 : spares true s s1 -> sound pipeline s1 -> ready true s1 ->
  forall rs s', flow true s1 s' -> settles s rs s'.
Proof.
  intros Ho Hs Hr rs s' Hf. split; [by eapply spares_flow|]. intros _.
  split; [by eapply sound_flow|by eapply ready_flow].
Qed.

Lemma spent_rejected s s1 i ok (g : Glob Env) :
  spares true s s1 -> spends true Headers 1 ok (settles s) (Ok [immediate i]) s1 g.
Proof. intros Ho. apply spent_immediate; [done|done|]. by split. Qed.

(** The override touches the response mode and the mode overrides only. *)
Lemma wp_override rs headers Q s (g : Glob Env) :
  (forall rs' c, map prs_response rs' = map prs_response rs ->
     request_body_mode c = request_body_mode (protocol_config s) ->
     Q (Ok rs') (with_protocol_config c s) g) ->
  wp (apply_response_mode_override pipeline rs headers) Q s g.
Proof.
  intros HQ. unfold apply_response_mode_override.
  assert (Hs : with_protocol_config (protocol_config s) s = s) by by destruct s.
  assert (H1 : Q (Ok rs) s g) by (rewrite <- Hs; by apply HQ).
  assert (Hmap : forall m, map prs_response (map fst (map (fun r => set_response_mode_streamed r m) rs)) = map prs_response rs).
  { intros m. rewrite !map_map. apply map_ext. intros r. unfold set_response_mode_streamed.
    by destruct (prs_response r) as [[]|] eqn:E; simpl; rewrite ?E. }
  repeat wp_step. wp_case; [by wp_step|].
  assert (Hgo : wp (if should_stream (response_mode_selector s) headers then
      (if existsb snd (map (fun r => set_response_mode_streamed r (request_body_mode (protocol_config s))) rs)
       then modify (with_protocol_config (with_response_body_mode Streamed (protocol_config s))) else ret tt) ;;;
      ret (map fst (map (fun r => set_response_mode_streamed r (request_body_mode (protocol_config s))) rs))
    else ret rs) Q s g).
  { wp_case; [|by wp_step]. wp_step. wp_case; repeat wp_step; [|rewrite <- Hs]; by apply HQ. }
  destruct (cap_response_body_mode _); try exact Hgo. by wp_step.
Qed.

Lemma pending_override c s :
  request_body_mode c = request_body_mode (protocol_config s) ->
  pending pipeline true (with_protocol_config c s) = pending pipeline true s.
Proof.
  intros Hc. unfold pending, mode_of, holds. cbn. rewrite Hc.
  by destruct (decide (closed true (with_protocol_config c s))), (decide (closed true s)).
Qed.

(** Responses that say the same have the same kinds. *)
Lemma same_kinds rs' rs : map prs_response rs' = map prs_response rs ->
  existsb is_immediate rs' = existsb is_immediate rs /\
  forall side step, times side step rs' = times side step rs /\
    (Forall (fun r => answers side step r = true) rs -> Forall (fun r => answers side step r = true) rs').
Proof.
  revert rs. induction rs' as [|r' rs' IH]; intros [|r rs] E; try done. simpl in E. injection E as Er E.
  destruct (IH rs E) as [Hi Hk]. split; [cbn [existsb]; unfold is_immediate at 1 3; by rewrite Er, Hi|].
  intros side step. destruct (Hk side step) as [Ht Ha]. rewrite !times_cons, Ht. unfold is_kind. rewrite Er.
  split; [done|]. intros Hf%Forall_cons. constructor; [|apply Ha, Hf]. unfold answers. rewrite Er. apply Hf.
Qed.

Lemma spent_override rs headers ok s s1 (g : Glob Env) :
  spends true Headers 1 ok (settles s) (Ok rs) s1 g ->
  wp (apply_response_mode_override pipeline rs headers) (spends true Headers 1 ok (settles s)) s1 g.
Proof.
  intros ([Ho Hs] & Ha & Ht & Hh). apply wp_override. intros rs' c Hmap Hc.
  destruct (same_kinds _ _ Hmap) as [Hi Hk].
  split_and!.
  - split; [destruct Ho; constructor; [|unfold mode_of in *; cbn; congruence|..]; done|].
    rewrite Hi. intros Hn. destruct (Hs Hn) as [Hso Hr].
    unfold sound, ready, mode_of in *. cbn. by rewrite Hc.
  - by apply Hk.
  - by rewrite (proj1 (Hk _ _)).
  - intros Hx. destruct (Hh Hx) as [Hl He]. by rewrite (proj1 (Hk _ _)), Hi, pending_override.
Qed.

Lemma handle_request_headers_with_body_answers s s1 ok (g : Glob Env) :
  spares true s s1 -> sound pipeline s1 -> (ok -> ~ closed true s1 /\ unsent true s1 = 1%nat) ->
  wp (handle_request_headers_with_body pipeline) (spends true Headers 1 ok (settles s)) s1 g.
Proof.
  intros Ho Hs Hok. unfold handle_request_headers_with_body. repeat wp_step.
  wp_case.
  { unfold handle_unsupported_selected_request_headers. wp_step.
    eapply wp_mono; [apply (early_request_answers pipeline DeferSilent)|]. cbv beta. intros [rs|e] s' g'; [|done].
    intros (Hf & _ & Hb). pose proof (spares_flow _ _ _ _ Ho Hf) as Hsp.
    destruct rs as [|r rs]; [wp_step; by apply spent_rejected|]. wp_case; wp_step; [|by apply spent_rejected].
    eapply spent_batch; [done|exact Hb| |].
    - split; [done|]. cbn [existsb]. by rewrite Hc0.
    - intros _. split; [cbn; lia|]. cbn [existsb]. by rewrite Hc0. }
  assert (Hk : request_body_mode (protocol_config s1) <> Streamed ->
     forall rs s', flow true s1 s' -> settles s rs s').
  { intros Hm. apply settles_flow; [done..|]. intros Hm'. by destruct Hm. }
  assert (Hk' : forall rs s', flow true (set_request_headers_sent true s1) s' -> settles s rs s').
  { apply settles_flow; [by destruct Ho|exact Hs|]. intros _. by right. }
  destruct (request_body_mode (protocol_config s1)) eqn:Hm; repeat wp_step.
  1,2: eapply spent_answered; [left; unfold mode_of; cbn; congruence|
         apply emits_drop, (early_request_answers pipeline Send)|exact Hk'].
  1,2: eapply spent_batch; [done|apply batch_request_headers|by apply Hk', flow_refl|]; intros _; (split; [lia|]);
    intros _; rewrite pending_mode; [lia|]; unfold mode_of; cbn; congruence.
  wp_case; (eapply spent_deferred; [exact Hm|exact Hok| |by apply Hk]).
  - apply (early_request_answers pipeline DeferSilent).
  - apply emits_none.
Qed.

Lemma handle_request_headers_answers headers s (g : Glob Env) :
  wp (handle_request_headers pipeline headers) (spends true Headers 1 (opened true s) (settles s)) s g.
Proof.
  unfold handle_request_headers. wp_step. apply wp_mark_phase; [by intros _; apply wp_duplicate|intros Ha _ _|done].
  cbn [is_complete]. destruct (mark_headers_entered true (hh_end_of_stream headers) s Ha) as (Hl & Hc1 & Ho1).
  assert (He1 : hh_end_of_stream headers = true ->
     eos_request_headers (eos_tracker (with_eos_tracker (if hh_end_of_stream headers
       then mark_complete PRequestHeaders (eos_tracker s) else eos_tracker s) s)) = Completed)
    by (intros E; by rewrite E).
  cbn [headers_phase] in *. set (s1 := with_eos_tracker _ s) in *. clearbody s1.
  apply leaves_spares in Hl. destruct (reject_ambiguous_guardrail_selection _) as [rej|] eqn:Hrej.
  { wp_step. unfold reject_ambiguous_guardrail_selection in Hrej. destruct (ambiguous_selection _ _); [|done].
    injection Hrej as <-. by apply spent_rejected. }
  wp_step. wp_step. set (s2 := with_request _ s1).
  assert (Hl2 : spares true s s2) by (by destruct Hl).
  assert (Hc2 : hh_end_of_stream headers = true -> eos_request_headers (eos_tracker s2) = Completed) by done.
  assert (Ho2 : hh_end_of_stream headers = false -> opened true s -> ~ closed true s2 /\ unsent true s2 = 1%nat) by done.
  clearbody s2. clear s1 Hl Hc1 He1 Ho1. repeat wp_step.
  wp_case; [wp_step; by apply spent_rejected|].
  assert (Hcont : forall m : M Env StreamState (list ProcessingResponse),
     wp m (spends true Headers 1 (opened true s) (settles s)) s2 g ->
     wp (let? responses := m in apply_response_mode_override pipeline responses (extract_header_list headers))
       (spends true Headers 1 (opened true s) (settles s)) s2 g).
  { intros m Hm. wp_step. eapply wp_mono; [exact Hm|]. cbv beta. intros [rs|e] s' g' Hr; [|done].
    by apply spent_override. }
  destruct (hh_end_of_stream headers).
  - apply Hcont. specialize (Hc2 eq_refl).
    assert (Hs : sound pipeline s2) by (intros _ _; exact Hc2).
    assert (Hrun : forall phase eos ord, wp (run_request_pipeline_inner phase pipeline eos ord)
              (spends true Headers 1 (opened true s) (settles s)) s2 g).
    { intros phase eos ord. eapply spent_answered; [by right; left| |].
      - pose proof (request_pipeline_answers pipeline phase eos ord s2 g) as Hp.
        unfold request_step, request_headers_yield in Hp. rewrite Hc2 in Hp. by destruct phase.
      - apply settles_flow; [done..|]. intros _. left. by left. }
    unfold handle_end_stream_request_headers. destruct (needs_selected_upstream_request_body _); apply Hrun.
  - wp_case; [wp_step; by apply spent_rejected|]. apply Hcont.
    apply handle_request_headers_with_body_answers; [done| |auto]. intros Hm Hn. exfalso.
    rewrite Hm, bool_decide_true in Hc0 by done. by rewrite Hn in Hc0.
Qed.
End Handlers.
