(* ===== verification/Replies.v ===== *)
(** * What a stream replies

    Dispatch answers every message on its own side, with no later step; and over a whole
    stream the headers and the trailers of each side are answered at most once. *)

From S2P Require Import Prelude RustStd Proto Effect Extern Concrete Metrics Response Protocol Adapter ResponseMode State Pipeline Handlers Server Invariant StreamInv Stream Guarantees Answers Budget.

Section Replies.
Context `{PraxisFilter}.
Variable pipeline : FilterPipeline.

(** ** Dispatch *)

Definition position (b : bool) (t : PhaseOrderTracker) : option PhaseStep :=
  if b then po_request t else po_response t.

(** The header responses a side may still send: one before its header message is processed. *)
Definition budget (b : bool) (s : StreamState) : nat :=
  match position b (phase_order s) with None => 1 | Some _ => pending pipeline b s end.
Definition trailers_budget (b : bool) (s : StreamState) : nat :=
  if decide (position b (phase_order s) = Some Trailers) then 0 else 1.

(** What dispatch hands to the handler of a message of side [b]. *)
Definition is_request_side (side : PhaseSide) : bool := match side with Request_ => true | Response_ => false end.

Definition kept (req : ReqMsg) (s1 : StreamState) (rs : list ProcessingResponse) (s' : StreamState) : Prop :=
  match req with
  | RequestHeaders _ => settles pipeline s1 rs s'
  | ResponseHeaders _ => settled_response s1 rs s'
  | _ => leaves_other (is_request_side (message_order req).1) s1 s'
  end.

Definition limit_of (req : ReqMsg) (s1 : StreamState) : nat :=
  match (message_order req).2 with
  | Headers => 1
  | _ => pending pipeline (is_request_side (message_order req).1) s1
  end.

(** What the counting assumes of the side a message is of. *)
Definition needed (req : ReqMsg) (s : StreamState) : Prop :=
  match req with
  | RequestHeaders _ => opened true s
  | ResponseHeaders _ => opened false s
  | RequestBody _ => ready true s /\ sound pipeline s
  | ResponseBody _ => ready false s
  | RequestTrailers _ | ResponseTrailers _ => True
  end.

(** The handler of a message, from the state whose order it has advanced. *)
Definition handle (s1 : StreamState) (req : ReqMsg) : M Env StreamState (list ProcessingResponse) :=
  if local_reply (phase_order s1) then local_reply_passthrough req
  else
    match req with
    | RequestHeaders h => handle_request_headers pipeline h
    | RequestBody b => handle_request_body pipeline b
    | ResponseHeaders h => handle_response_headers pipeline h
    | ResponseBody b => handle_response_body pipeline b
    | RequestTrailers _ => handle_trailers pipeline true
    | ResponseTrailers _ => handle_trailers pipeline false
    end.

Lemma spent_weaken b step limit (ok ok' : Prop) R (m : M Env StreamState (list ProcessingResponse)) s g :
  (ok' -> ok) -> wp m (spent pipeline b step limit ok R) s g -> wp m (spent pipeline b step limit ok' R) s g.
Proof.
  intros Hok Hm. eapply wp_mono; [exact Hm|]. intros [rs|e] s' g'; [|done]. intros (? & ? & ? & ?). split_and!; auto.
Qed.

Lemma local_reply_answers req s (g : Glob Env) :
  po_local_reply (phase_order s) = true ->
  wp (local_reply_passthrough req)
    (spent pipeline (is_request_side (message_order req).1) (message_order req).2 (limit_of req s) (needed req s)
       (kept req s)) s g.
Proof.
  intros Hl. destruct req; cbn [local_reply_passthrough]; try by wp_step.
  - by apply local_reply_headers_answers.
  - eapply spent_weaken, local_reply_body_answers; done.
  - wp_step. split_and!; [by constructor|by repeat constructor|done|]. intros _. split; [|by intros _].
    exact (Nat.le_0_l (pending pipeline false s)).
Qed.

Lemma handle_answers req s (g : Glob Env) :
  wp (handle s req)
    (spent pipeline (is_request_side (message_order req).1) (message_order req).2 (limit_of req s) (needed req s)
       (kept req s)) s g.
Proof.
  unfold handle, local_reply. destruct (po_local_reply (phase_order s)) eqn:Hl; [by apply local_reply_answers|].
  destruct req.
  - apply handle_request_headers_answers.
  - apply handle_response_headers_answers.
  - apply handle_request_body_answers.
  - by apply handle_response_body_answers.
  - eapply spent_weaken, (handle_trailers_answers pipeline true); done.
  - eapply spent_weaken, (handle_trailers_answers pipeline false); done.
Qed.

(** Dispatch, up to the handler. *)
Lemma dispatch_handles req Q s (g : Glob Env) :
  (forall e s' g', Q (Err e) s' g') ->
  (forall side step, message_order req = (side, step) ->
     (side = Request_ -> po_local_reply (phase_order s) = false) ->
     invalid_transition (position (is_request_side side) (phase_order s)) step = false ->
     let s1 := with_phase_order (order_advance side step
       (bool_decide (side = Response_) && bool_decide (po_request (phase_order s) = None)) (phase_order s)) s in
     wp (handle s1 req) Q s1 g) ->
  wp (dispatch_request pipeline req) Q s g.
Proof.
  intros HE HQ. unfold dispatch_request. repeat wp_step. apply wp_validate_body_message; [|done].
  wp_step. apply wp_check_and_advance; [|done]. intros side step Hm Hside Htr. repeat wp_step.
  apply (HQ side step Hm Hside). by destruct side.
Qed.

(** C11. Every message is answered in kind: in any state, what dispatch returns for a message is
    immediate responses or responses of the message's own side of the exchange, whose step
    (headers, body, trailers) is not later than the message's own. *)
Theorem answers_are_in_kind req s g rs s' g' :
  dispatch_request pipeline req s g = (Ok rs, s', g') ->
  Forall (fun r => answers (message_order req).1 (message_order req).2 r = true) rs.
Proof.
  intros Hd. refine (wp_run _ (fun r _ _ => match r with Ok rs => Forall _ rs | Err _ => True end) _ _ _ _ _ _ Hd).
  apply dispatch_handles; [done|]. intros side step Hm _ _ s1. eapply wp_mono; [apply handle_answers|].
  intros [rs'|e] s2 g2; [|done]. intros (_ & Ha & _). rewrite Hm in *. by destruct side.
Qed.

(** ** Whole streams *)

(** Between two messages: a side whose header message is still to come is untouched; after it,
    exactly one header response has been sent or is pending. *)
Record Budget (sent : list ProcessingResponse) (s : StreamState) : Prop := {
  budget_headers : forall b, (times (side_of b) Headers sent + budget b s)%nat = 1%nat;
  budget_trailers : forall b, (times (side_of b) Trailers sent + trailers_budget b s <= 1)%nat;
  budget_opened : forall b, position b (phase_order s) = None -> opened b s;
  budget_ready : forall b, position b (phase_order s) <> None -> ready b s;
  budget_sound : po_request (phase_order s) <> None -> sound pipeline s;
  budget_local : po_response (phase_order s) <> None -> po_request (phase_order s) = None ->
    po_local_reply (phase_order s) = true;
}.

Definition at_most_once (rs : list ProcessingResponse) : Prop :=
  forall b, (times (side_of b) Headers rs <= 1)%nat /\ (times (side_of b) Trailers rs <= 1)%nat.

Lemma budget_once sent s : Budget sent s -> at_most_once sent.
Proof. intros [Hh Ht _ _ _ _] b. specialize (Hh b). specialize (Ht b). lia. Qed.

Lemma once_take k rs : at_most_once rs -> at_most_once (take k rs).
Proof.
  intros Ho b. destruct (Ho b). pose proof (times_take (side_of b) Headers k rs).
  pose proof (times_take (side_of b) Trailers k rs). lia.
Qed.

(** Responses of one side are none of the other. *)
Lemma times_other b b' step step' rs :
  Forall (fun r => answers (side_of b) step r = true) rs -> b' <> b -> times (side_of b') step' rs = 0%nat.
Proof. intros Ha Hb. eapply times_answers; [exact Ha|left]. by destruct b, b'. Qed.

(** Advancing the order opens a local reply only where no request has been seen. *)
Lemma pending_order b o s : po_local_reply o = po_local_reply (phase_order s) ->
  pending pipeline b (with_phase_order o s) = pending pipeline b s.
Proof. intros Ho. unfold pending, holds. cbn [phase_order with_phase_order]. rewrite Ho. reflexivity. Qed.

(** The order after a message: its own side has moved to [step]. *)
Definition opens (b : bool) (t : PhaseOrderTracker) : bool :=
  bool_decide (side_of b = Response_) && bool_decide (po_request t = None).
Definition advanced (b : bool) (step : PhaseStep) (t : PhaseOrderTracker) : PhaseOrderTracker :=
  order_advance (side_of b) step (opens b t) t.

Lemma advanced_own b step t : position b (advanced b step t) = Some step.
Proof. by destruct b. Qed.
Lemma advanced_other b b' step t : b' <> b -> position b' (advanced b step t) = position b' t.
Proof. by destruct b, b'. Qed.

Lemma advanced_local b step sent s :
  Budget sent s -> po_local_reply (phase_order s) = true \/ po_request (phase_order s) <> None \/ b = true \/
    position b (phase_order s) <> None ->
  po_local_reply (advanced b step (phase_order s)) = po_local_reply (phase_order s).
Proof.
  intros HB Hc. unfold advanced, opens. cbn. destruct (po_local_reply (phase_order s)) eqn:Hl; [done|].
  destruct b; [done|]. cbn. rewrite (bool_decide_false (po_request (phase_order s) = None)); [done|]. intros Hn.
  destruct Hc as [?|[?|[?|Hp]]]; try congruence. by rewrite (budget_local _ _ HB Hp Hn) in Hl.
Qed.

Lemma headers_first b step t :
  invalid_transition (position b t) step = false ->
  step = Headers /\ position b t = None \/ step <> Headers /\ exists prev, position b t = Some prev.
Proof.
  destruct (position b t) as [prev|]; intros Ht; [right|left; by destruct step].
  split; [by destruct step, prev|eauto].
Qed.

(** The budget after a message of side [b], handled within its limit. *)
Lemma budget_spent (b : bool) step s s' rs sent req :
  Budget sent s -> message_order req = (side_of b, step) ->
  (b = true -> po_local_reply (phase_order s) = false) ->
  invalid_transition (position b (phase_order s)) step = false ->
  let s1 := with_phase_order (advanced b step (phase_order s)) s in
  phase_order s' = phase_order s1 ->
  (step <> Headers \/ b = false -> leaves_other b s1 s') ->
  Forall (fun r => answers (side_of b) step r = true) rs ->
  (times (side_of b) Headers rs <= limit_of req s1)%nat /\
    (existsb is_immediate rs = false -> (times (side_of b) Headers rs + pending pipeline b s')%nat = limit_of req s1) ->
  forall b', (times (side_of b') Headers rs <= budget b' s)%nat /\
    (existsb is_immediate rs = false -> (times (side_of b') Headers rs + budget b' s')%nat = budget b' s).
Proof.
  intros HB Hm Hl Htr s1 Ho Hk Ha Hn b'. unfold budget. rewrite Ho. cbn [s1 phase_order with_phase_order].
  unfold limit_of in Hn. rewrite Hm in Hn. cbn [fst snd] in Hn.
  assert (is_request_side (side_of b) = b) as Hb by by destruct b. rewrite Hb in Hn.
  destruct (decide (b' = b)) as [->|Hne].
  - rewrite advanced_own. destruct (headers_first _ _ _ Htr) as [[-> ->]|[Hs [prev Hp]]]; [exact Hn|].
    rewrite Hp. assert (Hpe : pending pipeline b s1 = pending pipeline b s).
    { unfold s1. apply pending_order. eapply advanced_local; [exact HB|]. rewrite Hp. by right; right; right. }
    destruct step; [done|..]; by rewrite Hpe in Hn.
  - rewrite (times_other b b' step Headers rs Ha Hne), advanced_other by done. cbn [Nat.add].
    split; [lia|]. intros _. destruct (position b' (phase_order s)) as [prev|] eqn:Hp; [|done].
    assert (b' = negb b) as -> by (by destruct b, b').
    assert (Hlo : leaves_other b s1 s' /\ po_local_reply (advanced b step (phase_order s)) = po_local_reply (phase_order s)).
    { destruct b.
      - destruct (headers_first _ _ _ Htr) as [[-> Hn']|[Hs _]].
        + cbn in Hp, Hn'. rewrite (budget_local _ _ HB) in Hl by congruence. by specialize (Hl eq_refl).
        + split; [auto|]. eapply advanced_local; [exact HB|]. by right; right; left.
      - split; [auto|]. eapply advanced_local; [exact HB|]. right; left. cbn in Hp. congruence. }
    destruct Hlo as [Hlo Hloc]. rewrite (pending_other pipeline _ _ _ Hlo). unfold s1. by rewrite pending_order.
Qed.

(** A side stays ready, and an untouched one stays so. *)
Lemma ready_leaves b b' s s' : leaves_other b s s' -> ready b' s -> ready b' s'.
Proof.
  intros [E1 E2 Hd Eh Eb Es Ho] Hr Hm. unfold mode_of in Hm. rewrite E1 in Hm. destruct (decide (b' = b)) as [->|Hne].
  - destruct (Hr Hm) as [[Hc|Hc]|Hu]; [left; left; auto|left; right; auto|right].
    unfold unsent in *. destruct (headers_sent b (header_state s)); [|done]. by rewrite Ho.
  - assert (b' = negb b) as -> by (by destruct b, b'). unfold closed, unsent. rewrite Eh, Eb, Es. exact (Hr Hm).
Qed.

Lemma opened_spares b s s' : spares b s s' -> opened (negb b) s -> opened (negb b) s'.
Proof. intros [_ _ _ Eb Es]. unfold opened, unsent. by rewrite Eb, Es. Qed.

Lemma trailers_spent (b : bool) step s s' rs :
  invalid_transition (position b (phase_order s)) step = false ->
  phase_order s' = advanced b step (phase_order s) ->
  Forall (fun r => answers (side_of b) step r = true) rs ->
  (times (side_of b) Trailers rs <= if decide (step = Trailers) then 1 else 0)%nat ->
  forall b', (times (side_of b') Trailers rs + trailers_budget b' s' <= trailers_budget b' s)%nat.
Proof.
  intros Htr Ho Ha Ht b'. unfold trailers_budget. rewrite Ho. destruct (decide (b' = b)) as [->|Hne].
  - rewrite advanced_own.
    assert (Hp : position b (phase_order s) <> Some Trailers) by (intros Hp; rewrite Hp in Htr; by destruct step).
    rewrite (decide_False (P := position b _ = _)) by done. repeat case_decide; try lia; congruence.
  - rewrite (times_other b b' step Trailers rs Ha Hne), advanced_other by done. done.
Qed.

Lemma sound_leaves b s s' : leaves_other b s s' -> sound pipeline s -> sound pipeline s'.
Proof. intros [E1 _ Hd _ _ _] Hs. unfold sound. rewrite E1. auto. Qed.

(** What a handler of side [b] keeps, whichever it is. *)
Lemma kept_facts (b : bool) step req s1 rs s' :
  message_order req = (side_of b, step) -> kept req s1 rs s' ->
  spares b s1 s' /\ (step <> Headers \/ b = false -> leaves_other b s1 s') /\
  (step = Headers -> existsb is_immediate rs = false -> ready b s') /\
  (b = true -> step = Headers -> existsb is_immediate rs = false -> sound pipeline s').
Proof.
  intros Hm Hk. assert (is_request_side (side_of b) = b) as Hb by by destruct b.
  destruct req; cbn in Hm, Hk; injection Hm as Hm1 <-; destruct b; try done.
  - destruct Hk as [Hs Hi]. split_and!; [done|by intros [|]|by intros _ ?; apply Hi|by intros _ _ ?; apply Hi].
  - destruct Hk as [Hs Hi]. split_and!; auto using leaves_spares; done.
  - split_and!; auto using leaves_spares; done.
  - split_and!; auto using leaves_spares; done.
  - split_and!; auto using leaves_spares; done.
  - split_and!; auto using leaves_spares; done.
Qed.

Lemma needed_holds (b : bool) step req sent s o :
  Budget sent s -> message_order req = (side_of b, step) ->
  invalid_transition (position b (phase_order s)) step = false -> needed req (with_phase_order o s).
Proof.
  intros HB Hm Htr. destruct (headers_first _ _ _ Htr) as [[-> Hp]|[Hs [prev Hp]]].
  - pose proof (budget_opened _ _ HB b Hp) as Hop. destruct req; cbn in Hm; destruct b; simplify_eq; exact Hop.
  - assert (Hr : ready b s) by (apply (budget_ready _ _ HB); congruence).
    destruct req; cbn in Hm; destruct b; simplify_eq; try done. split; [exact Hr|].
    apply (budget_sound _ _ HB). cbn in Hp. congruence.
Qed.

Lemma dispatch_budget req sent s (g : Glob Env) :
  Budget sent s ->
  wp (dispatch_request pipeline req) (fun r s' _ =>
    match r with
    | Ok rs => at_most_once (sent ++ rs) /\ (existsb is_immediate rs = false -> Budget (sent ++ rs) s')
    | Err _ => True
    end) s g.
Proof.
  intros HB. apply dispatch_handles; [done|]. intros side step Hm Hl Htr s1.
  assert (exists b, side = side_of b /\ is_request_side side = b) as (b & -> & Hb)
    by (destruct side; [by exists true|by exists false]).
  rewrite Hb in Htr. eapply wp_mono; [apply handle_answers|]. cbv beta. intros [rs|e] s' g'; [|done].
  rewrite Hm. cbn [fst snd]. rewrite Hb. intros (Hk & Ha & Ht & Hn).
  change s1 with (with_phase_order (advanced b step (phase_order s)) s) in *. clear s1.
  set (s1 := with_phase_order _ s) in *.
  destruct (kept_facts b step req s1 rs s' Hm Hk) as (Hsp & Hlv & Hrd & Hso).
  pose proof (spares_order _ _ _ Hsp) as Hord.
  assert (Hl' : b = true -> po_local_reply (phase_order s) = false) by (intros ->; by apply Hl).
  pose proof (budget_spent b step s s' rs sent req HB Hm Hl' Htr Hord Hlv Ha
                (Hn (needed_holds b step req sent s _ HB Hm Htr))) as Hh.
  pose proof (trailers_spent b step s s' rs Htr Hord Ha Ht) as Htt.
  assert (Hbt : forall b', (times (side_of b') Trailers (sent ++ rs) + trailers_budget b' s' <= 1)%nat).
  { intros b'. specialize (Htt b'). pose proof (budget_trailers _ _ HB b'). rewrite times_app. lia. }
  split.
  { intros b'. specialize (Hbt b'). destruct (Hh b') as [Hh' _]. pose proof (budget_headers _ _ HB b').
    rewrite times_app. lia. }
  intros Hi.
  assert (Hpos : forall b', position b' (phase_order s') = if decide (b' = b) then Some step else position b' (phase_order s)).
  { intros b'. rewrite Hord. unfold s1. cbn [phase_order with_phase_order]. 
    destruct (decide (b' = b)) as [->|]; [apply advanced_own|by apply advanced_other]. }
  constructor; [|done|..].
  - intros b'. destruct (Hh b') as [_ Hh']. specialize (Hh' Hi). pose proof (budget_headers _ _ HB b'). rewrite times_app. lia.
  - intros b'. rewrite Hpos. destruct (decide (b' = b)) as [|Hd]; [done|]. intros Hp.
    assert (b' = negb b) as -> by (by destruct b, b'). apply (opened_spares b s1); [done|]. by apply (budget_opened _ _ HB).
  - intros b'. rewrite Hpos. destruct (decide (b' = b)) as [Hd|Hd].
    + subst b'. intros _. destruct (headers_first _ _ _ Htr) as [[-> _]|[Hs [prev Hp]]]; [auto|].
      eapply ready_leaves; [by apply Hlv; left|]. apply (budget_ready _ _ HB). congruence.
    + intros Hp. assert (Hor : step <> Headers \/ b = false).
      { destruct b; [|by right]. left. intros ->. destruct (headers_first _ _ _ Htr) as [[_ Hnone]|[? _]]; [|done].
        destruct b'; [done|]. cbn in Hp, Hnone. specialize (Hl' eq_refl). by rewrite (budget_local _ _ HB) in Hl'. }
      eapply ready_leaves; [by apply Hlv|]. by apply (budget_ready _ _ HB).
  - rewrite Hord. intros Hrq. destruct (decide (b = true /\ step = Headers)) as [[-> ->]|Hne]; [auto|].
    assert (step <> Headers \/ b = false) as Hor by (destruct b, (decide (step = Headers)); auto; tauto).
    eapply sound_leaves; [by apply Hlv|]. apply (budget_sound _ _ HB). destruct b; [|done].
    destruct (headers_first _ _ _ Htr) as [[-> _]|[_ [prev Hp]]]; [tauto|]. cbn in Hp. congruence.
  - rewrite Hord. cbn. destruct b; [done|]. intros _ Hnone. unfold opens. cbn.
    rewrite (bool_decide_true (po_request (phase_order s) = None)) by done. by rewrite orb_true_r.
Qed.

Lemma config_first cfg first Q s (g : Glob Env) :
  (forall c, first = false \/ c = protocol_config s -> Q (Ok tt) (with_protocol_config c s) g) ->
  (forall e s' g', Q (Err e) s' g') ->
  wp (apply_protocol_config cfg first) Q s g.
Proof.
  intros HQ HE. assert (Hs : with_protocol_config (protocol_config s) s = s) by by destruct s.
  unfold apply_protocol_config. destruct cfg as [c|]; [|wp_step; rewrite <- Hs; apply HQ; by right].
  destruct first; [unfold record_invalid_argument; repeat wp_step; apply HE|].
  unfold config_from_first_message. destruct (ProtocolConfig_try_from c); repeat wp_step; [apply HQ; by left|].
  unfold record_invalid_argument. repeat wp_step. apply HE.
Qed.

(** Nothing has been dispatched yet. *)
Definition fresh (s : StreamState) : Prop :=
  po_request (phase_order s) = None /\ po_response (phase_order s) = None.

Lemma budget_config sent c s : Budget sent s -> fresh s \/ c = protocol_config s -> Budget sent (with_protocol_config c s).
Proof.
  intros HB [[Hq Hp]| ->]; [|by destruct s].
  destruct HB as [Hh Ht Ho _ _ Hl]. constructor; [|done|exact Ho| | |done].
  - intros b. specialize (Hh b). unfold budget, position in *. cbn. destruct b; rewrite ?Hq, ?Hp in *; done.
  - intros []; cbn; congruence.
  - cbn. congruence.
Qed.

Lemma send_all_all open rs : (forall n, open n = true) -> forall sent, send_all open sent rs = (sent ++ rs, true).
Proof.
  intros Hop. induction rs as [|r rs IH]; intros sent; simpl; [by rewrite app_nil_r|].
  by rewrite Hop, IH, <- app_assoc.
Qed.

Lemma replies_loop open inbound : forall first sent s (g : Glob Env),
  Budget sent s -> (first = false -> fresh s) ->
  wp (process_messages pipeline open first inbound sent)
    (fun o _ _ => exists sent' r, o = Ok (sent', r) /\ at_most_once sent') s g.
Proof.
  induction inbound as [|msg rest IH]; intros first sent s g HB Hf; simpl;
    pose proof (budget_once _ _ HB) as Hone; [wp_step; by eauto|].
  destruct msg as [msg|e]; [|wp_step; by eauto]. repeat wp_step. apply config_first.
  2: { intros. wp_step. by eauto. }
  intros c Hc. apply (budget_config _ c) in HB; [|destruct Hc as [->|]; auto].
  destruct (pr_request msg) as [req|]; [|by apply IH]. repeat wp_step.
  eapply wp_mono; [by apply dispatch_budget|]. cbv beta. intros [rs|e] s2 g2;
    [|intros _; wp_step; by eauto].
  intros [Ho HB']. destruct (send_all_spec open rs sent) as (k & E1 & E2 & _).
  destruct (send_all open sent rs) as [sent' still] eqn:Es. simpl in *. destruct still; simpl.
  - rewrite (E2 eq_refl). destruct (existsb is_immediate rs) eqn:Hi; [|apply IH; [auto|done]].
    repeat wp_step. by eauto.
  - wp_step. eexists _, _. split; [done|]. rewrite E1.
    assert (Ht : sent ++ take k rs = take (length sent + k) (sent ++ rs)) by (by rewrite take_app_add).
    rewrite Ht. by apply once_take.
Qed.

Variable max : option Z.
Variable trust : bool.
Variable selector : ResponseModeSelector.

(** C3. In every stream, whatever Envoy sends, whichever body modes it announced and whatever
    the filters do, the server answers the headers of each side of the exchange at most once,
    and its trailers at most once: deferred headers released by a body chunk, by the end of a
    held body or by trailers are never sent again. *)
Theorem headers_answered_at_most_once open inbound env warned :
  at_most_once (run_sent pipeline max trust selector open inbound env warned).
Proof.
  unfold run_sent, run, handle_stream, bind.
  assert (HB : Budget [] (initial_state max trust selector)) by (constructor; try done; by intros []).
  pose proof (replies_loop open inbound false [] _ (start_world env warned) HB ltac:(done)) as Hs.
  unfold wp in Hs. destruct (process_messages _ _ _ _ _ _ _) as [[o s] g]. by destruct Hs as (sent & r & -> & Hs).
Qed.
End Replies.

(** ** Instances *)

Lemma answers_are_in_kind_witness :
  demo_local_body.1.1 = Ok demo_local_answer /\
  Forall (fun r => answers Response_ Body r = true) demo_local_answer.
Proof.
  split; [exact demo_local_body_answer|].
  exact (answers_are_in_kind (H0 := ConcretePraxis) demo_pipeline (ResponseBody (demo_body "denied" true))
           demo_after_local.1.2 demo_after_local.2 demo_local_answer demo_local_body.1.2 demo_local_body.2
           (run_parts demo_local_body _ demo_local_body_answer)).
Defined.
