(* ===== verification/Runs.v ===== *)
(** * A rule for whole streams

    What every message keeps holds at the end of a stream: the loop, the protocol configuration
    and the response channel are dealt with once, here, for the properties that follow a stream
    message by message ([Delivery], [Streaming]). *)

From S2P Require Import Prelude RustStd Proto Effect Extern Metrics Response Protocol Adapter ResponseMode State Pipeline Handlers Server Invariant StreamInv Stream Guarantees Answers Budget Replies.

(** The requests among what a client sends. *)
Definition requests (inbound : list (result string ProcessingRequest)) : list ReqMsg :=
  omap (fun m => match m with Ok msg => pr_request msg | Err _ => None end) inbound.

(** The configuration a message announces, where the current one is [d], and that of a stream:
    only the first message has one. *)
Definition announced_by (cfg : option ProtocolConfiguration) (d : ProtocolConfig) : ProtocolConfig :=
  match cfg with
  | Some c => match ProtocolConfig_try_from c with Ok c => c | Err _ => d end
  | None => d
  end.
Definition announced (inbound : list (result string ProcessingRequest)) : ProtocolConfig :=
  match inbound with
  | Ok msg :: _ => announced_by (pr_protocol_config msg) ProtocolConfig_default
  | _ => ProtocolConfig_default
  end.

Section Runs.
Context `{PraxisFilter}.
Variable pipeline : FilterPipeline.

(** Unless it ends the stream, a batch, the state and the world after it satisfy [P]. *)
Definition when_ok_in (P : list ProcessingResponse -> StreamState -> Glob Env -> Prop)
  (r : result Status (list ProcessingResponse)) (s' : StreamState) (g' : Glob Env) : Prop :=
  match r with Ok rs => existsb is_immediate rs = false -> P rs s' g' | Err _ => True end.
Definition when_ok (P : list ProcessingResponse -> StreamState -> Prop) (r : result Status (list ProcessingResponse))
  (s' : StreamState) (_ : Glob Env) : Prop :=
  match r with Ok rs => existsb is_immediate rs = false -> P rs s' | Err _ => True end.

(** What holds with the body modes the first message announces, and is kept by every message
    that does not end the stream, holds at the end of every stream that ends without error and
    without an immediate response. *)
Section World.
Variable P : list ReqMsg -> list ProcessingResponse -> StreamState -> Glob Env -> Prop.
Hypothesis P_dispatch : forall past sent req s (g : Glob Env),
  Budget pipeline sent s -> P past sent s g ->
  wp (dispatch_request pipeline req) (when_ok_in (fun rs s' g' => P (past ++ [req]) (sent ++ rs) s' g')) s g.

(** Applying the configuration of a message. *)
Lemma config_announced cfg (first : bool) Q s (g : Glob Env) :
  Q (Ok tt) (with_protocol_config (if first then protocol_config s else announced_by cfg (protocol_config s)) s) g ->
  (forall e s' g', Q (Err e) s' g') ->
  wp (apply_protocol_config cfg first) Q s g.
Proof.
  intros HQ HE. assert (Hs : with_protocol_config (protocol_config s) s = s) by by destruct s.
  unfold apply_protocol_config. destruct cfg as [c|].
  2: { wp_step. destruct first; cbn [announced_by] in HQ; by rewrite Hs in HQ. }
  destruct first; [unfold record_invalid_argument; repeat wp_step; apply HE|].
  unfold config_from_first_message. cbn [announced_by] in HQ.
  destruct (ProtocolConfig_try_from c); repeat wp_step; [exact HQ|]. unfold record_invalid_argument. repeat wp_step. apply HE.
Qed.

Definition kept_after (past : list ReqMsg) (inbound : list (result string ProcessingRequest))
  (o : result Status (list ProcessingResponse * result Status unit)) (s' : StreamState) (g' : Glob Env) : Prop :=
  exists sent' r, o = Ok (sent', r) /\
    (r = Ok tt -> existsb is_immediate sent' = false -> P (past ++ requests inbound) sent' s' g').

Lemma run_loop inbound : forall (first : bool) past sent s (g : Glob Env),
  Budget pipeline sent s -> (first = false -> fresh s) ->
  P past sent (with_protocol_config (if first then protocol_config s else
    match inbound with Ok msg :: _ => announced_by (pr_protocol_config msg) (protocol_config s) | _ => protocol_config s end) s) g ->
  wp (process_messages pipeline (fun _ => true) first inbound sent) (kept_after past inbound) s g.
Proof.
  assert (Hsame : forall s, with_protocol_config (protocol_config s) s = s) by by intros [].
  induction inbound as [|msg rest IH]; intros first past sent s g HB Hf HP; simpl.
  { wp_step. eexists _, _. split; [done|]. intros _ _. rewrite app_nil_r. destruct first; by rewrite Hsame in HP. }
  destruct msg as [msg|er]; [|wp_step; by eexists _, _]. repeat wp_step. apply config_announced.
  2: { intros. wp_step. by eexists _, _. }
  set (c := if first then _ else _) in *.
  assert (Hc : first = false \/ c = protocol_config s) by (subst c; destruct first; auto).
  apply (budget_config pipeline _ c) in HB; [|destruct Hc as [Hc|Hc]; auto].
  clearbody c. set (s1 := with_protocol_config c s) in *. clearbody s1.
  assert (Hnext : forall past sent s2 g2, Budget pipeline sent s2 -> P past sent s2 g2 ->
     wp (process_messages pipeline (fun _ => true) true rest sent) (kept_after past rest) s2 g2).
  { intros past2 sent2 s2 g2 HB2 HP2. apply IH; [done|done|]. by rewrite Hsame. }
  unfold kept_after, requests. cbn [omap list_omap]. destruct (pr_request msg) as [req|]; [|by apply Hnext].
  repeat wp_step.
  eapply wp_mono; [exact (wp_and _ _ _ _ _ (dispatch_budget pipeline req sent s1 g HB) (P_dispatch past sent req s1 g HB HP))|].
  cbv beta. intros [rs|er] s2 g2 [HB2 Hd]; [|wp_step; by eexists _, _].
  rewrite (send_all_all (fun _ => true) rs (fun _ => eq_refl)). cbn [negb].
  destruct (existsb is_immediate rs) eqn:Hi.
  { repeat wp_step. eexists _, _. split; [done|]. intros _ Hx. by rewrite existsb_app, Hi, orb_true_r in Hx. }
  eapply wp_mono; [apply Hnext; [by apply HB2|by apply Hd]|]. intros o s' g' (sent' & r & -> & Hr).
  eexists _, _. split; [done|]. intros Hok Hn. specialize (Hr Hok Hn). by rewrite <- app_assoc in Hr.
Qed.

Variable max : option Z.
Variable trust : bool.
Variable selector : ResponseModeSelector.

(** The loop ends in a world to which only the request counter is added. *)
Lemma run_holds_in inbound env warned :
  P [] [] (with_protocol_config (announced inbound) (initial_state max trust selector)) (start_world env warned) ->
  run_result pipeline max trust selector (fun _ => true) inbound env warned = Ok tt ->
  existsb is_immediate (run_sent pipeline max trust selector (fun _ => true) inbound env warned) = false ->
  exists g, run_world pipeline max trust selector (fun _ => true) inbound env warned = log_event (EMetric MRequest) g /\
    P (requests inbound) (run_sent pipeline max trust selector (fun _ => true) inbound env warned)
      (run_state pipeline max trust selector (fun _ => true) inbound env warned) g.
Proof.
  intros HP. unfold run_sent, run_result, run_state, run_world, run, handle_stream, bind.
  assert (HB : Budget pipeline [] (initial_state max trust selector)) by (constructor; try done; by intros []).
  pose proof (run_loop inbound false [] [] _ (start_world env warned) HB ltac:(done) HP) as Hs.
  unfold wp in Hs. destruct (process_messages _ _ _ _ _ _ _) as [[o s] g].
  destruct Hs as (sent & r & -> & Hs). cbn. intros -> Hi. exists g. split; [done|]. by apply Hs.
Qed.
End World.

(** The same for what depends on the state alone. *)
Variable max : option Z.
Variable trust : bool.
Variable selector : ResponseModeSelector.

Lemma run_holds (P : list ReqMsg -> list ProcessingResponse -> StreamState -> Prop) inbound env warned :
  (forall past sent req s (g : Glob Env), Budget pipeline sent s -> P past sent s ->
     wp (dispatch_request pipeline req) (when_ok (fun rs s' => P (past ++ [req]) (sent ++ rs) s')) s g) ->
  (forall c, P [] [] (with_protocol_config c (initial_state max trust selector))) ->
  run_result pipeline max trust selector (fun _ => true) inbound env warned = Ok tt ->
  existsb is_immediate (run_sent pipeline max trust selector (fun _ => true) inbound env warned) = false ->
  P (requests inbound) (run_sent pipeline max trust selector (fun _ => true) inbound env warned)
    (run_state pipeline max trust selector (fun _ => true) inbound env warned).
Proof.
  intros Hd Hs Hr Hi. by destruct (run_holds_in (fun past sent s _ => P past sent s) Hd max trust selector inbound env warned (Hs _) Hr Hi)
    as (_ & _ & HP).
Qed.
End Runs.
