(* ===== verification/Lockstep.v ===== *)
(** * One reply per message

    Outside full-duplex mode Envoy waits for one reply to every message it sends. Here: which
    messages get it, from every reachable state, and that it is a reply of their own kind. *)

From S2P Require Import Prelude RustStd Proto Effect Extern Concrete Metrics Response Protocol Adapter ResponseMode State Pipeline Handlers Server Invariant StreamInv Stream Guarantees Answers Budget Replies Runs.

(** Header answers without an immediate response are all header responses. *)
Lemma only_headers side rs :
  Forall (fun r => answers side Headers r = true) rs -> existsb is_immediate rs = false ->
  times side Headers rs = length rs.
Proof.
  intros Ha. induction Ha as [|r rs Hr _ IH]; [done|]. cbn [existsb]. intros [Hi Hn]%orb_false_iff.
  rewrite times_cons, IH by done. unfold answers, is_immediate, is_kind in *.
  destruct (prs_response r) as [m|]; [|done]. simpl. destruct m, side; cbn in *; done.
Qed.

(** A single body answer that is no header response is a body response. *)
Lemma single_answer side step r rs :
  rs = [r] -> step <> Trailers -> existsb is_immediate rs = false ->
  Forall (fun r => answers side step r = true) rs -> (step = Body -> times side Headers rs = 0%nat) ->
  exists m, prs_response r = Some m /\ answered m = Some (side, step).
Proof.
  intros -> Hs Hi [Hr _]%Forall_cons Ht. unfold answers, times, is_kind, is_immediate in *. cbn in *.
  destruct (prs_response r) as [m|]; [|done]. exists m. split; [done|].
  destruct step; [|specialize (Ht eq_refl)|done]; destruct m, side; cbn in *; done.
Qed.

Section Lockstep.
Context `{PraxisFilter}.
Variable pipeline : FilterPipeline.

(** ** One response, unless the stream ends *)

Definition one_reply (r : result Status (list ProcessingResponse)) (_ : StreamState) (_ : Glob Env) : Prop :=
  match r with Ok rs => existsb is_immediate rs = false -> length rs = 1%nat | Err _ => True end.

Lemma one_reply_emits b s A mode m s0 (g : Glob Env) :
  mode <> FullDuplexStreamed ->
  wp m (emits b s (fun rs _ => A rs /\ one_unless_fds mode rs)) s0 g -> wp m one_reply s0 g.
Proof. intros Hm Hw. eapply wp_mono; [exact Hw|]. intros [rs|e] s' g'; [|done]. intros (_ & _ & Ho) _. by apply Ho. Qed.

Lemma one_reply_immediate r s (g : Glob Env) : wp (ret [r]) one_reply s g.
Proof. by wp_step. Qed.

(** A redelivered body message is refused outside full-duplex mode. *)
Lemma wp_not_redelivered entry mode phase Q s (g : Glob Env) :
  mode <> FullDuplexStreamed -> (entry = Active -> Q (Ok None) s g) -> (forall e g', Q (Err e) s g') ->
  wp (handle_body_redelivery entry mode phase) Q s g.
Proof.
  intros Hm HQ HE. unfold handle_body_redelivery. destruct entry; [wp_step; by apply HQ|].
  rewrite bool_decide_false by done. by apply wp_duplicate.
Qed.

Lemma passthrough_one body mode b s (g : Glob Env) :
  unsent b s = 0%nat -> mode <> FullDuplexStreamed -> wp (passthrough_chunk body mode b) one_reply s g.
Proof.
  intros Hu Hm. unfold passthrough_chunk. wp_step. apply wp_take_first; [intros _|intros s' Hu'; congruence].
  cbn [negb]. wp_step. intros _. destruct b; by apply body_responses_one.
Qed.

Lemma accumulate_request_one body s (g : Glob Env) :
  request_body_mode (protocol_config s) <> FullDuplexStreamed ->
  request_body_mode (protocol_config s) = Buffered \/ hb_end_of_stream body = true ->
  wp (accumulate_request_body pipeline body) one_reply s g.
Proof.
  intros Hm Hd. unfold accumulate_request_body. repeat wp_step. apply check_body_limit_spec; cbn [is_ok negb].
  { intros. apply one_reply_immediate. }
  intros _. repeat wp_step. wp_case.
  { apply andb_prop in Hc as [He%negb_true_iff Hb%negb_true_iff%bool_decide_eq_false]. destruct Hd; congruence. }
  repeat wp_step. eapply one_reply_emits; [|apply (request_pipeline_shape pipeline RqBody)]. done.
Qed.

Lemma streamed_limit_one n (k : M Env StreamState (list ProcessingResponse)) s (g : Glob Env) :
  (forall v, wp k one_reply (with_streamed_request_bytes v s) g) ->
  wp (let? rejection := reject_streamed_request_over_limit pipeline n in
      match rejection with Some r => ret [r] | None => k end) one_reply s g.
Proof.
  intros Hk. wp_step. apply (streamed_limit_spec pipeline (max_body_accumulation s)); [done|..].
  - intros. apply one_reply_immediate.
  - intros v _. apply Hk.
Qed.

(** The messages of a side outside full-duplex mode that are answered at once. A request body
    is, chunk by chunk, in streamed and in buffered mode; a response body in streamed mode and
    in a local reply; otherwise the last chunk is. *)
Definition replies_now (req : ReqMsg) (s : StreamState) : bool :=
  match req, mode_of (is_request_side (message_order req).1) s with
  | _, FullDuplexStreamed => false
  | RequestBody b, (None_ | BufferedPartial) => hb_end_of_stream b
  | ResponseBody b, (None_ | BufferedPartial | Buffered) => hb_end_of_stream b || po_local_reply (phase_order s)
  | _, _ => true
  end.

Lemma replies_mode req s : replies_now req s = true -> mode_of (is_request_side (message_order req).1) s <> FullDuplexStreamed.
Proof. unfold replies_now. by destruct req, (mode_of _ s). Qed.

Lemma open_request_ready (s : StreamState) :
  ready true s -> mode_of true s = Streamed -> eos_request_headers (eos_tracker s) = Active ->
  eos_request_body (eos_tracker s) = Active -> unsent true s = 0%nat.
Proof. intros Hr Hm H1 H2. destruct (Hr Hm) as [[Hc|Hc]|]; [cbn in Hc; congruence..|done]. Qed.

Lemma open_response_ready (s : StreamState) :
  ready false s -> mode_of false s = Streamed -> eos_response_headers (eos_tracker s) = Active ->
  eos_response_body (eos_tracker s) = Active -> unsent false s = 0%nat.
Proof. intros Hr Hm H1 H2. destruct (Hr Hm) as [[Hc|Hc]|]; [cbn in Hc; congruence..|done]. Qed.

Lemma handle_request_body_one body s (g : Glob Env) :
  ready true s -> replies_now (RequestBody body) s = true -> wp (handle_request_body pipeline body) one_reply s g.
Proof.
  intros Hr Hn. pose proof (replies_mode _ _ Hn) as Hfds. unfold replies_now in Hn. cbn in Hn, Hfds.
  unfold handle_request_body. repeat wp_step. apply wp_mark_phase; [|intros Ha Hh _|done].
  { intros _. wp_step. by apply wp_not_redelivered. }
  wp_step. apply wp_not_redelivered; [done|intros _|done]. specialize (Hh eq_refl). cbn in Ha, Hh.
  pose proof (open_request_ready s Hr) as Hu.
  set (s1 := with_eos_tracker _ _).
  assert (Hc1 : protocol_config s1 = protocol_config s) by done.
  assert (Hu1 : unsent true s1 = unsent true s) by done. clearbody s1.
  destruct (request_body_mode (protocol_config s)) eqn:Hm; destruct (needs_request_body (caps pipeline)); try done;
    try (apply accumulate_request_one; rewrite Hc1, Hm; auto).
  - apply streamed_limit_one. intros v. eapply one_reply_emits; [|apply streamed_chunk_shape]. cbn. congruence.
  - apply streamed_limit_one. intros v. apply passthrough_one; [|done]. change (unsent true s1 = 0%nat).
    rewrite Hu1. by apply Hu.
Qed.

Lemma accumulate_response_one body s (g : Glob Env) :
  response_body_mode (protocol_config s) <> FullDuplexStreamed -> hb_end_of_stream body = true ->
  wp (accumulate_response_body pipeline body) one_reply s g.
Proof.
  intros Hm He. unfold accumulate_response_body. repeat wp_step. apply check_body_limit_spec; [done|].
  intros _. repeat wp_step. rewrite He. cbn [negb].
  eapply one_reply_emits; [|apply (response_pipeline_shape pipeline RsBody)]. done.
Qed.

Lemma handle_response_body_one body s (g : Glob Env) :
  ready false s -> po_local_reply (phase_order s) = false -> replies_now (ResponseBody body) s = true ->
  wp (handle_response_body pipeline body) one_reply s g.
Proof.
  intros Hr Hl Hn. pose proof (replies_mode _ _ Hn) as Hfds. unfold replies_now in Hn. rewrite Hl, orb_false_r in Hn.
  cbn in Hn, Hfds.
  unfold handle_response_body. repeat wp_step. apply wp_mark_phase; [|intros Ha _ Hh|done].
  { intros _. wp_step. by apply wp_not_redelivered. }
  wp_step. apply wp_not_redelivered; [done|intros _|done]. specialize (Hh eq_refl). cbn in Ha, Hh.
  pose proof (open_response_ready s Hr) as Hu.
  set (s1 := with_eos_tracker _ _).
  assert (Hc1 : protocol_config s1 = protocol_config s) by done.
  assert (Hu1 : unsent false s1 = unsent false s) by done. clearbody s1.
  destruct (response_body_mode (protocol_config s)) eqn:Hm; destruct (needs_response_body (caps pipeline)); try done;
    try (apply accumulate_response_one; [by rewrite Hc1, Hm|done]).
  - eapply one_reply_emits; [|apply streamed_chunk_shape]. cbn. congruence.
  - apply passthrough_one; [|done]. rewrite Hu1. by apply Hu.
Qed.

Lemma local_reply_body_one body s (g : Glob Env) :
  response_body_mode (protocol_config s) <> FullDuplexStreamed -> wp (local_reply_body body) one_reply s g.
Proof.
  intros Hm. unfold local_reply_body. repeat wp_step. apply wp_mark_phase; [|intros _ _ _|done].
  { intros _. wp_step. by apply wp_not_redelivered. }
  wp_step. apply wp_not_redelivered; [done|intros _|done]. rewrite bool_decide_false by done. wp_step. intros _.
  by apply (body_responses_one _ _ false).
Qed.

(** Outside full-duplex mode, what the trailers close is answered by nothing but a rejection. *)
Lemma finalize_rejects b s (g : Glob Env) :
  mode_of b s <> FullDuplexStreamed ->
  wp (finalize_body_on_trailers pipeline b)
    (fun r _ _ => match r with Ok rs => Forall (fun r => is_immediate r = true) rs | Err _ => True end) s g.
Proof.
  intros Hm. unfold finalize_body_on_trailers. repeat wp_step. destruct (body_open b s); cbn [negb];
    [|by wp_step]. destruct (trailing_body_phase pipeline s b) as [[phase mode] needs] eqn:Hp.
  assert (mode = mode_of b s) as -> by (unfold trailing_body_phase in Hp; by destruct b; injection Hp as <- <- <-).
  repeat wp_step. set (s1 := with_eos_tracker _ s). clearbody s1.
  destruct (mode_of b s); try done; try by wp_step.
  - destruct needs; [|by wp_step]. eapply wp_mono; [apply flush_streamed_shape|]. intros [rs|e] s' g'; [|done].
    by intros (_ & _ & ?).
  - wp_case; [by wp_step|]. wp_step. unfold wp. destruct (run_trailing_body_pipeline _ _ _ _) as [[[rs|e] s'] g']; [|done]. apply Forall_forall. intros r. unfold rejection_only. by rewrite list_elem_of_In, filter_In; intros [_ ?].
Qed.

Lemma handle_trailers_one b s (g : Glob Env) :
  mode_of b s <> FullDuplexStreamed ->
  wp (handle_trailers pipeline b) (fun r _ _ => match r with
    | Ok rs => existsb is_immediate rs = false -> rs = [if b then request_trailers else response_trailers]
    | Err _ => True end) s g.
Proof.
  intros Hm. unfold handle_trailers. wp_step. eapply wp_mono; [by apply finalize_rejects|]. cbv beta.
  intros [rs|e] s' g'; [|done]. intros Hi.
  assert (Hone : forall rs', existsb is_immediate (rs ++ rs') = false -> rs = []).
  { intros rs' Hn. destruct Hi as [|r rs Hr _]; [done|]. cbn [existsb app] in Hn. by rewrite Hr in Hn. }
  wp_case; wp_step; intros Hn.
  - specialize (Hone []). rewrite app_nil_r in Hone. by rewrite (Hone Hn) in Hc.
  - by rewrite (Hone _ Hn).
Qed.

Definition in_step (req : ReqMsg) (rs : list ProcessingResponse) : Prop :=
  exists r m, rs = [r] /\ prs_response r = Some m /\ answered m = Some (message_order req).

(** Trailers are answered by trailers alone, body messages by one response. *)
Lemma handle_one req s (g : Glob Env) :
  (message_order req).2 <> Headers -> needed pipeline req s -> replies_now req s = true ->
  wp (handle pipeline s req) (fun r _ _ => match r with
    | Ok rs => existsb is_immediate rs = false ->
        length rs = 1%nat /\ ((message_order req).2 = Trailers -> in_step req rs)
    | Err _ => True end) s g.
Proof.
  intros Hs Hn Hr. pose proof (replies_mode _ _ Hr) as Hm.
  assert (Hbody : forall m, (message_order req).2 <> Trailers -> wp m one_reply s g -> wp m (fun r _ _ => match r with
    | Ok rs => existsb is_immediate rs = false ->
        length rs = 1%nat /\ ((message_order req).2 = Trailers -> in_step req rs)
    | Err _ => True end) s g).
  { intros m Ht Hw. eapply wp_mono; [exact Hw|]. intros [rs|e] s' g'; [|done]. by intros Ho Hi; split; [apply Ho|]. }
  unfold handle, local_reply. destruct (po_local_reply (phase_order s)) eqn:Hl.
  - destruct req; cbn [local_reply_passthrough]; try done; try by wp_step.
    + apply Hbody; [done|]. by apply local_reply_body_one.
    + wp_step. intros _. split; [done|]. intros _. by eexists _, _.
  - destruct req; cbn in Hs, Hn, Hm; try done.
    + apply Hbody; [done|]. apply handle_request_body_one; [by apply Hn|done].
    + apply Hbody; [done|]. by apply handle_response_body_one.
    + eapply wp_mono; [by apply handle_trailers_one|]. intros [rs|e] s' g'; [|done]. intros Ho Hi. rewrite (Ho Hi).
      split; [done|]. intros _. by eexists _, _.
    + eapply wp_mono; [by apply handle_trailers_one|]. intros [rs|e] s' g'; [|done]. intros Ho Hi. rewrite (Ho Hi).
      split; [done|]. intros _. by eexists _, _.
Qed.

(** ** Dispatch *)

Lemma handle_in_step req s (g : Glob Env) :
  needed pipeline req s -> replies_now req s = true ->
  wp (handle pipeline s req) (fun r _ _ =>
    match r with Ok rs => existsb is_immediate rs = false -> in_step req rs | Err _ => True end) s g.
Proof.
  intros Hn Hr. pose proof (replies_mode _ _ Hr) as Hm.
  destruct (message_order req) as [side step] eqn:Ho. cbn [fst] in Hm.
  set (b := is_request_side side) in *.
  assert (Hside : side_of b = side) by by destruct side.
  assert (Hlen : wp (handle pipeline s req) (fun r _ _ => match r with
     | Ok rs => step <> Headers -> existsb is_immediate rs = false ->
         length rs = 1%nat /\ (step = Trailers -> in_step req rs)
     | Err _ => True end) s g).
  { destruct (decide (step = Headers)) as [Hs|Hs].
    - unfold wp. by destruct (handle _ _ _ _ _) as [[[rs|e] s'] g'].
    - eapply wp_mono; [apply handle_one; [by rewrite Ho|done..]|]. rewrite Ho. intros [rs|e]; auto. }
  eapply wp_mono; [exact (wp_and _ _ _ _ _ Hlen (handle_answers pipeline req s g))|]. cbv beta.
  intros [rs|e] s' g' [Hl Hsp]; [|done]. rewrite Ho in Hsp. cbn [fst snd] in Hsp. fold b in Hsp.
  destruct Hsp as (Hk & Ha & _ & Hh). destruct (Hh Hn) as [Hle He]. clear Hh. intros Hi. specialize (He Hi).
  rewrite Hside in *.
  assert (Hone : length rs = 1%nat /\ (step = Body -> times side Headers rs = 0%nat)).
  { unfold limit_of in *. rewrite Ho in *. cbn [fst snd] in *. fold b in Hle, He.
    rewrite (pending_mode pipeline b s) in * by done.
    destruct (decide (step = Headers)) as [->|Hs]; [|split; [by apply Hl|intros ->; lia]].
    split; [|done]. rewrite <- (only_headers side rs Ha Hi).
    assert (Hm' : mode_of b s' = mode_of b s).
    { destruct req; cbn in Ho; injection Ho as <-; try done; cbn in Hk.
      - by destruct Hk as [[] _].
      - destruct Hk as [Hk _]. unfold mode_of. by rewrite (leaves_config _ _ _ Hk). }
    rewrite (pending_mode pipeline b s') in He by congruence. lia. }
  destruct Hone as [Hone Hz]. destruct rs as [|r [|]]; try done.
  destruct (decide (step = Trailers)) as [->|Hs].
  - by apply Hl.
  - exists r. rewrite Ho. destruct (single_answer side step r [r]) as (m & ? & ?); auto. by exists m.
Qed.

Lemma dispatch_in_step req sent s (g : Glob Env) :
  Budget pipeline sent s -> replies_now req s = true ->
  wp (dispatch_request pipeline req) (fun r _ _ => match r with
    | Ok rs => existsb is_immediate rs = false -> in_step req rs | Err _ => True end) s g.
Proof.
  intros HB Hr. apply dispatch_handles; [done|]. intros side step Hm _ Htr s1.
  assert (Hside : side_of (is_request_side side) = side) by by destruct side.
  apply handle_in_step.
  - eapply (needed_holds pipeline (is_request_side side)); [exact HB|by rewrite Hside|exact Htr].
  - destruct req as [| | |body| |]; try exact Hr. unfold replies_now in *. change (mode_of _ s1) with (mode_of false s).
    cbn [message_order fst is_request_side] in Hr. destruct (mode_of false s); try exact Hr.
    all: apply orb_true_iff in Hr as [->| Hl]; [done|]. all: apply orb_true_iff; right. all: subst s1; cbn.
    all: destruct side; cbn; by rewrite Hl.
Qed.

(** ** Every reachable state *)

Variable max : option Z.
Variable trust : bool.
Variable selector : ResponseModeSelector.

Lemma config_budget cfg first sent s (g : Glob Env) s1 g1 :
  Budget pipeline sent s -> (first = false -> fresh s) ->
  apply_protocol_config cfg first s g = (Ok tt, s1, g1) -> Budget pipeline sent s1.
Proof.
  intros HB Hf Ha.
  refine (wp_run _ (fun r s' _ => r = Ok tt -> Budget pipeline sent s') _ _ _ _ _ _ Ha eq_refl).
  apply config_first; [|done]. intros c Hc _. apply budget_config; [done|]. destruct Hc as [Hc|Hc]; auto.
Qed.

Lemma reachable_budget first s g :
  reachable pipeline max trust selector first s g ->
  exists sent, Budget pipeline sent s /\ (first = false -> fresh s).
Proof.
  induction 1 as [env warned|first s g msg s1 g1 _ (sent & HB & Hf) Ha _|
                  first s g msg req s1 g1 rs s2 g2 _ (sent & HB & Hf) Ha _ Hd Hi].
  - exists []. split; [|done]. constructor; try done; by intros [].
  - exists sent. split; [by eapply config_budget|done].
  - exists (sent ++ rs). split; [|done].
    apply (wp_run _ _ _ _ _ _ _ (dispatch_budget pipeline req sent s1 g1 (config_budget _ _ _ _ _ _ _ HB Hf Ha)) Hd).
    done.
Qed.

(** Envoy is never left waiting outside full-duplex mode: whatever came before, a message
    that [replies_now] allows and that does not end the stream is answered by exactly one
    response, of the message's own side and step. A header message, trailers, and each chunk
    of a streamed body get theirs at once; so does each chunk of a buffered request body, and
    the last chunk in any mode. *)
Theorem messages_answered_in_step first s g msg req s1 g1 rs s2 g2 :
  reachable pipeline max trust selector first s g ->
  apply_protocol_config (pr_protocol_config msg) first s g = (Ok tt, s1, g1) ->
  dispatch_request pipeline req s1 g1 = (Ok rs, s2, g2) ->
  existsb is_immediate rs = false -> replies_now req s1 = true ->
  exists r m, rs = [r] /\ prs_response r = Some m /\ answered m = Some (message_order req).
Proof.
  intros Hr Ha Hd Hi Hn. destruct (reachable_budget _ _ _ Hr) as (sent & HB & Hf).
  apply (config_budget _ _ _ _ _ _ _ HB Hf) in Ha. by apply (wp_run _ _ _ _ _ _ _ (dispatch_in_step _ _ _ _ Ha Hn) Hd).
Qed.

(** ** Whole streams *)

(** The other messages outside full-duplex mode, chunks of a held body, are answered by nothing. *)
Definition silent (r : result Status (list ProcessingResponse)) (_ : StreamState) (_ : Glob Env) : Prop :=
  match r with Ok rs => existsb is_immediate rs = false -> rs = [] | Err _ => True end.

Lemma handle_silent req s (g : Glob Env) :
  mode_of (is_request_side (message_order req).1) s <> FullDuplexStreamed -> replies_now req s = false ->
  wp (handle pipeline s req) silent s g.
Proof.
  intros Hm Hr. unfold handle, local_reply. unfold replies_now in Hr.
  destruct req as [| |body|body| |]; cbn [message_order fst is_request_side] in *; try by destruct (mode_of _ s).
  - destruct (po_local_reply _); cbn [local_reply_passthrough]; [by wp_step|].
    assert (Heos : hb_end_of_stream body = false) by by destruct (mode_of true s).
    unfold handle_request_body. repeat wp_step. apply wp_mark_phase; [intros _|intros _ _ _|done]; wp_step;
      (apply wp_not_redelivered; [done|intros [=]|done]).
    set (s1 := with_eos_tracker _ _). assert (Hc1 : protocol_config s1 = protocol_config s) by done. clearbody s1.
    cbn in Hr. destruct (request_body_mode (protocol_config s)) eqn:Hx; try done; destruct (needs_request_body (caps pipeline)); try done.
    all: unfold accumulate_request_body; repeat wp_step; apply check_body_limit_spec; cbn [is_ok negb]; [by intros; wp_step|].
    all: intros _; repeat wp_step; cbn [protocol_config with_request_body_buf]; rewrite Hc1, Hx, Heos.
    all: rewrite bool_decide_false by done; cbn [negb andb]; by wp_step.
  - assert (Hl : po_local_reply (phase_order s) = false /\ hb_end_of_stream body = false).
    { by destruct (mode_of false s), (po_local_reply (phase_order s)), (hb_end_of_stream body). }
    destruct Hl as [Hl Heos]. rewrite Hl. unfold handle_response_body. repeat wp_step.
    apply wp_mark_phase; [intros _|intros _ _ _|done]; wp_step; (apply wp_not_redelivered; [done|intros [=]|done]).
    set (s1 := with_eos_tracker _ _). clearbody s1.
    cbn in Hr. destruct (response_body_mode (protocol_config s)) eqn:Hx; try done; destruct (needs_response_body (caps pipeline)); try done.
    all: unfold accumulate_response_body; repeat wp_step; apply check_body_limit_spec; [done|].
    all: intros _; repeat wp_step; rewrite Heos; cbn [negb]; by wp_step.
Qed.

(** A response is the answer of a message. *)
Definition answers_message (req : ReqMsg) (r : ProcessingResponse) : Prop :=
  exists m, prs_response r = Some m /\ answered m = Some (message_order req).

(** A response of a side that is not in full-duplex mode. *)
Definition in_lockstep (s : StreamState) (r : ProcessingResponse) : bool :=
  match (m ← prs_response r; answered m) with
  | Some (side, _) => negb (bool_decide (mode_of (is_request_side side) s = FullDuplexStreamed))
  | None => false
  end.

(** The responses outside full-duplex mode are the answers of the messages that get one. *)
Definition matched (reqs : list ReqMsg) (rs : list ProcessingResponse) (s : StreamState) : Prop :=
  Forall2 answers_message (List.filter (fun req => replies_now req s) reqs) (List.filter (in_lockstep s) rs).

Lemma matched_app reqs reqs' rs rs' s :
  matched reqs rs s -> matched reqs' rs' s -> matched (reqs ++ reqs') (rs ++ rs') s.
Proof. unfold matched. rewrite !List.filter_app. apply Forall2_app. Qed.

Lemma matched_same reqs rs s s' :
  (forall b, mode_of b s' = mode_of b s) -> po_local_reply (phase_order s') = po_local_reply (phase_order s) ->
  matched reqs rs s -> matched reqs rs s'.
Proof.
  intros Hm Hl. unfold matched.
  rewrite (List.filter_ext (fun req => replies_now req s') (fun req => replies_now req s)).
  2: { intros req. unfold replies_now. by destruct req; rewrite Hm, ?Hl. }
  rewrite (List.filter_ext (in_lockstep s') (in_lockstep s)); [done|].
  intros r. unfold in_lockstep. destruct (prs_response r ≫= answered) as [[side step]|]; [by rewrite Hm|done].
Qed.

(** Responses of a full-duplex side are not compared. *)
Lemma duplex_filtered side step rs s :
  mode_of (is_request_side side) s = FullDuplexStreamed -> Forall (fun r => answers side step r = true) rs ->
  List.filter (in_lockstep s) rs = [].
Proof.
  intros Hm Ha. induction Ha as [|r rs Hr _ IH]; [done|]. cbn. rewrite IH. unfold answers, in_lockstep in *.
  destruct (prs_response r) as [m|]; [|done]. cbn. destruct (answered m) as [[side' step']|]; [|done].
  apply andb_prop in Hr as [->%bool_decide_eq_true _]. by rewrite bool_decide_true.
Qed.

Lemma handle_matched req s (g : Glob Env) :
  needed pipeline req s -> wp (handle pipeline s req) (when_ok (matched [req])) s g.
Proof.
  intros Hn. set (b := is_request_side (message_order req).1).
  assert (Hone : wp (handle pipeline s req) (fun r _ _ => match r with
    | Ok rs => existsb is_immediate rs = false -> mode_of b s <> FullDuplexStreamed ->
        if replies_now req s then in_step req rs else rs = []
    | Err _ => True end) s g).
  { destruct (decide (mode_of b s = FullDuplexStreamed)) as [Hm|Hm].
    { unfold wp. by destruct (handle _ _ _ _ _) as [[[]]]. }
    destruct (replies_now req s) eqn:Hr; (eapply wp_mono; [first [by apply handle_in_step|by apply handle_silent]|]);
      intros [rs|e] s' g'; unfold silent; auto. }
  eapply wp_mono; [exact (wp_and _ _ _ _ _ Hone (handle_answers pipeline req s g))|]. cbv beta.
  intros [rs|e] s' g' [Hx Hans]; [|done]. destruct Hans as (Hk & Ha & _). intros Hi. specialize (Hx Hi).
  assert (Hside : message_order req = (side_of b, (message_order req).2)) by by destruct req.
  assert (Hb : side_of b = (message_order req).1) by by rewrite Hside.
  destruct (kept_facts pipeline b _ req s rs s' Hside Hk) as ([So Smode _ _ _] & _).
  fold b in Ha. rewrite Hb in Ha. unfold matched. cbn [List.filter].
  assert (Hr : replies_now req s' = replies_now req s).
  { unfold replies_now. fold b. subst b. destruct req; cbn [message_order fst is_request_side] in *; by rewrite Smode, ?So. }
  rewrite Hr. destruct (decide (mode_of b s = FullDuplexStreamed)) as [Hm|Hm].
  - rewrite (duplex_filtered _ _ rs s' (eq_trans Smode Hm) Ha).
    destruct (replies_now req s) eqn:Hrn; [|done]. by destruct (replies_mode _ _ Hrn).
  - specialize (Hx Hm). destruct (replies_now req s); [|by subst rs].
    destruct Hx as (r & m & -> & H1 & H2). cbn [List.filter]. unfold in_lockstep. rewrite H1. cbn. rewrite H2, Hside.
    assert (is_request_side (side_of b) = b) as -> by by destruct b. rewrite bool_decide_false by congruence. cbn.
    constructor; [by exists m|done].
Qed.

(** What a message changes of the modes and of the local reply: nothing, unless it is the first. *)
Lemma dispatch_modes req sent s (g : Glob Env) :
  Budget pipeline sent s ->
  wp (dispatch_request pipeline req) (when_ok (fun rs s' =>
    (fresh s \/ (forall b, mode_of b s' = mode_of b s) /\
       po_local_reply (phase_order s') = po_local_reply (phase_order s)) /\ ~ fresh s' /\ matched [req] rs s')) s g.
Proof.
  intros HB. apply dispatch_handles; [done|]. intros side step Hm Hside Htr s1.
  assert (Hs1 : s1 = with_phase_order (advanced (is_request_side side) step (phase_order s)) s) by (by destruct side).
  assert (Hm2 : message_order req = (side_of (is_request_side side), step)) by (by destruct side).
  clearbody s1. set (b := is_request_side side) in *.
  assert (Hn : needed pipeline req s1) by (rewrite Hs1; by eapply (needed_holds pipeline b)).
  eapply wp_mono; [exact (wp_and _ _ _ _ _ (handle_matched req s1 g Hn) (handle_answers pipeline req s1 g))|]. cbv beta.
  intros [rs|e] s' g' [Hx Hans]; [|done]. destruct Hans as [Hk _]. intros Hi. specialize (Hx Hi).
  destruct (kept_facts pipeline _ step req s1 rs s' Hm2 Hk) as ([So Smode _ _ _] & Hlv & _).
  split_and!; [|intros [F1 F2]; rewrite So, Hs1 in F1, F2; by destruct b|done].
  destruct (decide (po_request (phase_order s) = None)) as [Hq|Hq];
    [destruct (decide (po_response (phase_order s) = None)) as [Hp|Hp]; [by left|]|]; right.
  all: assert (Hor : step <> Headers \/ b = false).
  1, 3: destruct b eqn:Eb; [|by right]; left; intros ->; destruct (headers_first _ _ _ Htr) as [[_ Hnone]|[? _]]; try done.
  1: { rewrite (budget_local _ _ _ HB Hp Hq) in Hside. by destruct side; [specialize (Hside eq_refl)|]. }
  all: split; [intros b'; unfold mode_of; by rewrite (leaves_config _ _ _ (Hlv Hor)), Hs1|].
  all: rewrite So, Hs1; eapply advanced_local; [exact HB|].
  - left. by apply (budget_local _ _ _ HB).
  - by right; left.
Qed.

Definition InStep (past : list ReqMsg) (sent : list ProcessingResponse) (s : StreamState) : Prop :=
  (fresh s -> past = [] /\ sent = []) /\ matched past sent s.

Lemma dispatch_stays_in_step past sent req s (g : Glob Env) :
  Budget pipeline sent s -> InStep past sent s ->
  wp (dispatch_request pipeline req) (when_ok (fun rs s' => InStep (past ++ [req]) (sent ++ rs) s')) s g.
Proof.
  intros HB [Hf HI]. eapply wp_mono; [by eapply dispatch_modes|]. intros [rs|e] s' g'; [|done]. intros Hx Hi.
  destruct (Hx Hi) as (Hsame & Hnf & Hone). split; [done|]. apply matched_app; [|done].
  destruct Hsame as [Hfr|[Hm Hl]]; [by destruct (Hf Hfr) as [-> ->]; constructor|by eapply matched_same].
Qed.

(** C5. Outside full-duplex mode a stream keeps step with Envoy: if it ends without error and
    without an immediate response, then the responses of the sides that are not in full-duplex
    mode are the answers, one for one and in order, each of the message's own side and step, of
    exactly the messages [replies_now] names: headers, trailers, the chunks of a streamed body,
    of a buffered request body and of a local reply, and the last chunk of any other body. The
    earlier chunks of a held body get no response. *)
Theorem streams_stay_in_step inbound env warned :
  let sent := run_sent pipeline max trust selector (fun _ => true) inbound env warned in
  let s := run_state pipeline max trust selector (fun _ => true) inbound env warned in
  run_result pipeline max trust selector (fun _ => true) inbound env warned = Ok tt ->
  existsb is_immediate sent = false ->
  Forall2 answers_message (List.filter (fun req => replies_now req s) (requests inbound))
    (List.filter (in_lockstep s) sent).
Proof.
  intros sent s Hr Hi. apply (run_holds pipeline _ _ _ InStep); [by intros; apply dispatch_stays_in_step| |done|done].
  intros c. split; [done|constructor].
Qed.
End Lockstep.

(** ** Instance: a chunk of a streamed request body, left open *)

Definition demo_chunk : ReqMsg := RequestBody (demo_body "hello" false).
Definition demo_chunk_answer : list ProcessingResponse := request_body (Some (as_bytes "hello")) None Buffered false.
Abbreviation demo_chunk_run :=
  (dispatch_request (H0 := ConcretePraxis) demo_pipeline demo_chunk demo_after_headers.1.2 demo_after_headers.2).

Lemma messages_answered_in_step_witness :
  demo_chunk_run.1.1 = Ok demo_chunk_answer /\
  exists r m, demo_chunk_answer = [r] /\ prs_response r = Some m /\ answered m = Some (message_order demo_chunk).
Proof.
  assert (Hx : demo_chunk_run.1.1 = Ok demo_chunk_answer) by (vm_compute; reflexivity).
  assert (Hn : replies_now demo_chunk demo_after_headers.1.2 = true) by (vm_compute; reflexivity).
  assert (Hr : reachable demo_pipeline (Some 100) false ResponseModeSelector_default true
                 demo_after_headers.1.2 demo_after_headers.2).
  { apply reach_step; [exact (reach_start (H0 := ConcretePraxis) _ _ _ _ 0%nat false)|vm_compute; reflexivity|
      reflexivity|vm_compute; reflexivity]. }
  assert (Hi : existsb is_immediate demo_chunk_answer = false) by (vm_compute; reflexivity).
  split; [exact Hx|].
  exact (messages_answered_in_step (H0 := ConcretePraxis) demo_pipeline (Some 100) false ResponseModeSelector_default
           true demo_after_headers.1.2 demo_after_headers.2 (demo_message demo_chunk) demo_chunk
           demo_after_headers.1.2 demo_after_headers.2 demo_chunk_answer demo_chunk_run.1.2 demo_chunk_run.2
           Hr eq_refl (run_parts demo_chunk_run _ Hx) Hi Hn).
Defined.

(** A streamed request with trailers, and a buffered response in two chunks. *)
Definition in_step_stream : list (result string ProcessingRequest) :=
  map Ok [demo_first 1 2 (demo_request_headers false); demo_message demo_chunk; demo_message (RequestBody (demo_body "" false));
          demo_message (RequestTrailers {| ht_trailers := None |}); demo_message (demo_response_headers false);
          demo_message (ResponseBody (demo_body "good" false)); demo_message (ResponseBody (demo_body "bye" true))].
#[local] Abbreviation in_step_run f :=
  (f demo_pipeline (Some 100) false ResponseModeSelector_default (fun _ : nat => true) in_step_stream 0%nat false).

Lemma streams_stay_in_step_witness :
  length (requests in_step_stream) = 7%nat /\
  length (List.filter (in_lockstep (in_step_run (run_state (H0 := ConcretePraxis))))
    (in_step_run (run_sent (H0 := ConcretePraxis)))) = 6%nat /\
  Forall2 answers_message
    (List.filter (fun req => replies_now req (in_step_run (run_state (H0 := ConcretePraxis)))) (requests in_step_stream))
    (List.filter (in_lockstep (in_step_run (run_state (H0 := ConcretePraxis)))) (in_step_run (run_sent (H0 := ConcretePraxis)))).
Proof.
  assert (H1 : in_step_run (run_result (H0 := ConcretePraxis)) = Ok tt) by (vm_compute; reflexivity).
  assert (H2 : existsb is_immediate (in_step_run (run_sent (H0 := ConcretePraxis))) = false) by (vm_compute; reflexivity).
  split; [vm_compute; reflexivity|split; [vm_compute; reflexivity|]].
  exact (streams_stay_in_step (H0 := ConcretePraxis) demo_pipeline (Some 100) false ResponseModeSelector_default
           in_step_stream 0%nat false H1 H2).
Defined.
