(* ===== verification/Accounting.v ===== *)
(** * What a stream records in the metrics

    A discipline of rules, one per construct of the monad, that follows every function a
    message goes through and says what it adds to the counters: a stream is counted once; a
    refusal with [INVALID_ARGUMENT] is counted once, under labels of a fixed table, and nothing
    else is counted there; a [RESOURCE_EXHAUSTED] leaves its trace; local replies are counted
    exactly where they are. *)

From S2P Require Import Prelude RustStd Proto Effect Extern Concrete Metrics Response Protocol Adapter ResponseMode State Pipeline Handlers Server Invariant StreamInv Stream Guarantees Answers Budget Replies.

(** ** The books *)

Section Books.
Context {E : Type}.

Definition refusal_of (e : Event) : option (string * string) :=
  match e with EMetric (MInvalidArgument reason detail) => Some (reason, detail) | _ => None end.
Definition local_reply_of (e : Event) : option string :=
  match e with EMetric (MLocalReply c) => Some c | _ => None end.

(** The labels of the refusals counted, in order. *)
Definition refusals (g : Glob E) : list (string * string) := omap refusal_of (g_log g).
Definition local_replies (g : Glob E) : nat := length (omap local_reply_of (g_log g)).
Definition streams (g : Glob E) : nat := count_event (EMetric MRequest) (g_log g).
Definition oversized (g : Glob E) : nat := count_event (EMetric MBodySizeRejection) (g_log g).

(** The reasons and details the code refuses with. *)
Definition refusal_labels : list (string * string) :=
  [("protocol_config", "after_first_message"); ("protocol_config", "unsupported_mode");
   ("message_order", "request_after_local_reply"); ("message_order", "invalid_phase_transition");
   ("message_order", "body_after_headers_eos"); ("body_mode", "body_message_in_none_mode");
   ("duplicate_eos", "redelivery"); ("missing_headers", "request"); ("missing_headers", "response")]%string.

(** What is added to the books by something that ends with the error [err], if any, and is to
    record [k] local replies if it succeeds. *)
Record booked (k : nat) (err : option Code) (g g' : Glob E) : Prop := {
  booked_streams : streams g' = streams g;
  booked_locals : (local_replies g <= local_replies g' <= local_replies g + k)%nat;
  booked_all : err = None -> local_replies g' = (local_replies g + k)%nat;
  booked_oversized : (oversized g <= oversized g')%nat;
  booked_exhausted : err = Some ResourceExhausted -> (oversized g < oversized g')%nat;
  booked_refusals :
    match err with
    | Some InvalidArgument => exists l, l ∈ refusal_labels /\ refusals g' = refusals g ++ [l]
    | _ => refusals g' = refusals g
    end;
}.

Lemma refusals_log e (g : Glob E) : refusals (log_event e g) = refusals g ++ option_list (refusal_of e).
Proof. unfold refusals. simpl. rewrite omap_app. simpl. by destruct (refusal_of e). Qed.

Lemma local_replies_log e (g : Glob E) :
  local_replies (log_event e g) = (local_replies g + length (option_list (local_reply_of e)))%nat.
Proof. unfold local_replies. simpl. rewrite omap_app, length_app. simpl. by destruct (local_reply_of e). Qed.

Lemma streams_log e (g : Glob E) :
  streams (log_event e g) = (streams g + if decide (e = EMetric MRequest) then 1 else 0)%nat.
Proof. apply count_log. Qed.

Lemma oversized_log e (g : Glob E) :
  oversized (log_event e g) = (oversized g + if decide (e = EMetric MBodySizeRejection) then 1 else 0)%nat.
Proof. apply count_log. Qed.

Lemma booked_refl (g : Glob E) : booked 0 None g g.
Proof. by constructor; intros; try done; lia. Qed.

Lemma booked_trans k k' err g1 g2 g3 : booked k None g1 g2 -> booked k' err g2 g3 -> booked (k + k') err g1 g3.
Proof.
  intros [] []. specialize (booked_all0 eq_refl). constructor; try congruence; try lia.
  - intros He. specialize (booked_all1 He). lia.
  - intros He. specialize (booked_exhausted1 He). lia.
  - destruct err as [[]|]; try congruence. by destruct booked_refusals1 as (l & ? & ->); exists l; rewrite booked_refusals0.
Qed.

(** An event of no consequence to the books. *)
Definition unbooked (e : Event) : bool :=
  match e with EMetric (MImmediateResponse | MBodySizeRejection) | ECall _ | EWarnUnapplied _ _ _ => true | _ => false end.

Lemma booked_log e (g : Glob E) : unbooked e = true -> booked 0 None g (log_event e g).
Proof.
  intros He. constructor; rewrite ?streams_log, ?local_replies_log, ?oversized_log, ?refusals_log.
  - rewrite decide_False; [lia|by intros ->].
  - destruct e as [[]| |]; simpl; try done; lia.
  - intros _. destruct e as [[]| |]; simpl; try done; lia.
  - lia.
  - done.
  - destruct e as [[]| |]; simpl; try done; by rewrite app_nil_r.
Qed.

Lemma booked_silent (g g' : Glob E) : g_log g' = g_log g -> booked 0 None g g'.
Proof.
  intros Hg. assert (streams g' = streams g /\ local_replies g' = local_replies g /\ oversized g' = oversized g /\
    refusals g' = refusals g) as (? & ? & ? & ?)
    by (unfold streams, local_replies, oversized, refusals; by rewrite Hg).
  constructor; intros; try done; lia.
Qed.
End Books.

(** ** The rules *)

Section Rules.
Context {E S : Type}.

(** A status that refuses nothing and exceeds nothing: a filter's error, or our own. *)
Definition benign (e : Status) : Prop := st_code e <> InvalidArgument /\ st_code e <> ResourceExhausted.
Definition benign_result {A} (P : A -> Prop) (r : result Status A) : Prop :=
  match r with Ok a => P a | Err e => benign e end.

Definition error_of {A} (r : result Status A) : option Code :=
  match r with Ok _ => None | Err e => Some (st_code e) end.

(** [m] books what it does, and [k] local replies if it succeeds. *)
Definition accounted {A} (k : nat) (m : M E S A) : Prop :=
  forall s g, wp m (fun r _ g' => booked k (error_of r) g g') s g.

(** [m] fails with benign errors only, and returns values that satisfy [P]. *)
Definition calm {A} (P : A -> Prop) (m : M E S A) : Prop :=
  forall s g, wp m (fun r _ g' => benign_result P r /\ booked 0 (error_of r) g g') s g.

Lemma booked_benign e (g g' : Glob E) : benign e -> booked 0 None g g' -> booked 0 (Some (st_code e)) g g'.
Proof. intros [H1 H2] []. constructor; try done; [congruence|]. by destruct (st_code e). Qed.

Lemma calm_accounted {A} P (m : M E S A) : calm P m -> accounted 0 m.
Proof. intros Hm s g. eapply wp_mono; [apply Hm|]. by intros r s' g' [_ ?]. Qed.

Lemma calm_mono {A} (P Q : A -> Prop) (m : M E S A) : calm P m -> (forall a, P a -> Q a) -> calm Q m.
Proof. intros Hm HP s g. eapply wp_mono; [apply Hm|]. intros [a|e] s' g' [? ?]; split; simpl in *; auto. Qed.

Lemma calm_ret {A} (P : A -> Prop) (a : A) : P a -> calm P (ret a : M E S A).
Proof. intros HP s g. wp_step. split; [done|apply booked_refl]. Qed.

Lemma calm_lift {A} (P : A -> Prop) (r : result Status A) : benign_result P r -> calm P (lift r : M E S A).
Proof.
  intros Hr s g. wp_step. split; [done|]. destruct r as [a|e]; [apply booked_refl|].
  apply booked_benign; [exact Hr|apply booked_refl].
Qed.

Lemma calm_fail {A} (P : A -> Prop) e : benign e -> calm P (fail e : M E S A).
Proof. apply (calm_lift P (Err e)). Qed.

Lemma calm_get : calm (fun _ => True) (get : M E S S).
Proof. intros s g. wp_step. split; [done|apply booked_refl]. Qed.

Lemma calm_modify f : calm (fun _ => True) (modify f : M E S unit).
Proof. intros s g. wp_step. split; [done|apply booked_refl]. Qed.

Lemma calm_emit e : unbooked e = true -> calm (fun _ => True) (emit e : M E S unit).
Proof. intros He s g. wp_step. split; [done|by apply booked_log]. Qed.

Lemma calm_get_env : calm (fun _ => True) (get_env : M E S E).
Proof. intros s g. wp_step. split; [done|apply booked_refl]. Qed.
Lemma calm_put_env v : calm (fun _ => True) (put_env v : M E S unit).
Proof. intros s g. wp_step. split; [done|by apply booked_silent]. Qed.
Lemma calm_get_warned : calm (fun _ => True) (get_warned : M E S bool).
Proof. intros s g. wp_step. split; [done|apply booked_refl]. Qed.
Lemma calm_put_warned b : calm (fun _ => True) (put_warned b : M E S unit).
Proof. intros s g. wp_step. split; [done|by apply booked_silent]. Qed.

Lemma calm_bind {A B} P Q (m : M E S A) (f : A -> M E S B) :
  calm P m -> (forall a, P a -> calm Q (f a)) -> calm Q (bind m f).
Proof.
  intros Hm Hf s g. wp_step. eapply wp_mono; [apply Hm|]. intros [a|e] s' g' [Ha Hb]; [|done].
  eapply wp_mono; [by apply Hf|]. intros r s2 g2 [Hr Hb2]. split; [done|]. by eapply (booked_trans 0 0).
Qed.

Lemma accounted_bind {A B} P k (m : M E S A) (f : A -> M E S B) :
  calm P m -> (forall a, P a -> accounted k (f a)) -> accounted k (bind m f).
Proof.
  intros Hm Hf s g. wp_step. eapply wp_mono; [apply Hm|]. intros [a|e] s' g' [Ha Hb].
  - eapply wp_mono; [by apply Hf|]. intros r s2 g2 Hb2. by eapply (booked_trans 0 k).
  - simpl in *. destruct Hb; constructor; try done; lia.
Qed.

(** Where the first part may refuse, too. *)
Lemma accounted_seq {A B} k (m : M E S A) (f : A -> M E S B) :
  accounted 0 m -> (forall a, accounted k (f a)) -> accounted k (bind m f).
Proof.
  intros Hm Hf s g. wp_step. eapply wp_mono; [apply Hm|]. intros [a|e] s' g' Hb.
  - eapply wp_mono; [apply Hf|]. intros r s2 g2 Hb2. by eapply (booked_trans 0 k).
  - simpl in *. destruct Hb; constructor; try done; lia.
Qed.

(** Reifying the outcome of something calm. *)
Lemma calm_attempt {A} P (m : M E S A) : calm P m -> calm (benign_result P) (attempt m).
Proof.
  intros Hm s g. wp_step. eapply wp_mono; [apply Hm|]. intros r s' g' [Hr Hb]. split; [done|].
  destruct Hb as [? ? Hall ? ? Hrf]. constructor; try done; [intros _; lia|].
  destruct r as [a|e]; [done|]. destruct Hr as [H1 H2]. simpl in Hrf. by destruct (st_code e).
Qed.

(** A refusal: counted, then raised. It never succeeds, so it may promise any local reply. *)
Lemma accounted_refuse {A} k reason detail message :
  (reason, detail) ∈ refusal_labels ->
  accounted k (record_invalid_argument reason detail ;;; fail (Status_invalid_argument message) : M E S A).
Proof.
  intros Hl s g. unfold record_invalid_argument. repeat wp_step. simpl.
  constructor; rewrite ?streams_log, ?local_replies_log, ?oversized_log, ?refusals_log; simpl.
  - simpl. lia.
  - lia.
  - done.
  - lia.
  - done.
  - by eexists.
Qed.
End Rules.

Lemma accounted_zoom {E S T A} k (gf : S -> T) (sf : T -> S -> S) (m : M E T A) :
  accounted k m -> accounted k (zoom gf sf m).
Proof. intros Hm s g. wp_step. apply Hm. Qed.

Create HintDb books discriminated.
#[export] Hint Resolve calm_get calm_modify calm_get_env calm_put_env calm_get_warned calm_put_warned : books.
#[export] Hint Extern 1 (calm _ (emit _)) => (apply calm_emit; reflexivity) : books.

(** One rule, chosen by the shape of the program. *)
Ltac book_step :=
  match goal with
  | |- forall _, _ => intro
  | |- calm _ (match ?x with _ => _ end) => destruct x
  | |- calm _ (ret _) => apply calm_ret
  | |- calm _ (bind _ _) => eapply calm_bind; [solve [eauto with books]|cbv beta; intros]
  | |- calm _ _ => solve [eauto with books]
  | |- accounted _ (match ?x with _ => _ end) => destruct x
  | |- accounted _ (bind (record_invalid_argument _ _) _) => apply accounted_refuse; set_solver
  | |- accounted _ (bind _ _) => eapply accounted_bind; [solve [eauto with books]|cbv beta; intros]
  | |- accounted _ (bind _ _) => eapply accounted_seq; [solve [eauto with books]|cbv beta; intros]
  | |- accounted _ (ret _) => apply (calm_accounted (fun _ => True)), calm_ret
  | |- accounted _ _ => solve [eauto with books]
  end.
#[export] Hint Extern 2 (accounted _ _) => (eapply calm_accounted; solve [eauto with books]) : books.

(** The whole program, nested parts included. *)
Ltac book :=
  repeat (cbn [fst snd] in *;
    first [book_step
          |match goal with
           | |- calm _ (bind _ _) => eapply (calm_bind (fun _ => True)); [solve [book]|]
           | |- accounted _ (bind _ _) => eapply (accounted_bind (fun _ => True)); [solve [book]|]
           | |- accounted _ (bind _ _) => eapply accounted_seq; [solve [book]|]
           end]);
  try done.

Section Pipeline.
Context `{PraxisFilter}.
Variable pipeline : FilterPipeline.

Abbreviation calmly := (calm (E := Env) (S := StreamState)).
Abbreviation fine := (fun _ => True).

Lemma calm_run_call {A} c (f : Env -> result string FilterAction * A * Env) :
  calmly (fun p => benign_result fine p.1) (run_call c f).
Proof.
  unfold run_call. do 2 book_step. destruct (f _) as [[r x] env']. book. by destruct r.
Qed.

Lemma calm_immediate_from_action action : calmly fine (immediate_from_action action).
Proof.
  unfold immediate_from_action, record_immediate_response. book.
Qed.

Lemma calm_action_outcome r : benign_result fine r -> calmly fine (action_outcome r).
Proof.
  intros Hr. unfold action_outcome. eapply calm_bind; [by apply calm_lift|intros a _]. apply calm_immediate_from_action.
Qed.

Lemma calm_attempt_outcome r : benign_result fine r -> calmly (benign_result fine) (attempt (action_outcome r)).
Proof. intros Hr. by apply calm_attempt, calm_action_outcome. Qed.

Lemma calm_lift_fine {A} (r : result Status A) : benign_result fine r -> calmly fine (lift r).
Proof. apply calm_lift. Qed.
End Pipeline.
#[export] Hint Resolve calm_run_call calm_immediate_from_action calm_action_outcome calm_attempt_outcome
  calm_lift_fine : books.

Section Functions.
Context `{PraxisFilter}.
Variable pipeline : FilterPipeline.

Abbreviation calmly := (calm (E := Env) (S := StreamState)).
Abbreviation fine := (fun _ => True).
Abbreviation good := (benign_result fine).

Lemma calm_run_body_filters ctx buf eos : calmly (fun p => good p.1.1) (run_body_filters pipeline ctx buf eos).
Proof. unfold run_body_filters, execute_request_body. book. Qed.

Lemma calm_run_resp_body_filters ctx buf eos : calmly (fun p => good p.1.1) (run_resp_body_filters pipeline ctx buf eos).
Proof. unfold run_resp_body_filters, execute_response_body. book. Qed.

Lemma calm_run_selected ctx buf max : calmly (fun p => good p.1.1) (run_selected_upstream_body_filters pipeline ctx buf max).
Proof. unfold run_selected_upstream_body_filters, execute_selected_upstream, record_body_size_rejection. book. Qed.
#[local] Hint Resolve calm_run_body_filters calm_run_resp_body_filters calm_run_selected : books.

Lemma calm_body_filters_at_eos phase ctx body ord max :
  calmly (fun p => good p.1.1) (run_request_body_filters_at_eos phase pipeline ctx body ord max).
Proof.
  unfold run_request_body_filters_at_eos. destruct phase; [by book|].
  eapply (calm_bind (fun p => good p.1.1)); [destruct ord; book|]. intros [[first ctx1] body1] Hf. destruct first as [[]|]; book.
Qed.

Lemma calm_execute_request_filters ctx : calmly (fun p => good p.1) (execute_request_filters_if_needed pipeline ctx).
Proof. unfold execute_request_filters_if_needed, execute_request. book. Qed.

Lemma calm_execute_response_pipeline phase ctx body done_ :
  calmly (fun p => good p.1.1) (execute_response_pipeline_and_body_filters phase pipeline ctx body done_).
Proof.
  unfold execute_response_pipeline_and_body_filters, execute_response.
  eapply (calm_bind (fun p => good p.1)); [book|]. intros [first ctx1] Hf. destruct first as [[]|]; book.
Qed.

Lemma calm_run_trailing_body ctx b : calmly (fun p => good p.1) (run_trailing_body pipeline ctx b).
Proof.
  unfold run_trailing_body, execute_request_body, execute_response_body.
  eapply (calm_bind (fun p => good p.1)); [destruct b; book|]. book.
Qed.

Lemma calm_fresh_context rq : calmly fine (fresh_context pipeline rq).
Proof. unfold fresh_context. book. Qed.

Lemma calm_hydrate ctx : calmly fine (hydrate_from_state ctx).
Proof. unfold hydrate_from_state. do 2 book_step. apply calm_lift. unfold hydrate. by case_match. Qed.

Lemma calm_dehydrate ctx : calmly fine (dehydrate_to_state ctx).
Proof.
  unfold dehydrate_to_state. book_step. eapply (calm_bind fine); [|book]. apply calm_lift. unfold dehydrate. by case_match.
Qed.
#[local] Hint Resolve calm_body_filters_at_eos calm_execute_request_filters calm_execute_response_pipeline
  calm_run_trailing_body calm_fresh_context calm_hydrate calm_dehydrate : books.

Lemma accounted_missing_request {A} : accounted 0 (missing_request_headers : M Env StreamState A).
Proof. unfold missing_request_headers. book. Qed.
Lemma accounted_missing_response {A} : accounted 0 (missing_response_headers : M Env StreamState A).
Proof. unfold missing_response_headers. book. Qed.
#[local] Hint Resolve accounted_missing_request accounted_missing_response : books.

Lemma calm_build_request phase m n eos : calmly fine (build_request phase m n eos).
Proof. unfold build_request, build_bodyless_selected_request_response. book. Qed.
#[local] Hint Resolve calm_build_request : books.

Lemma accounted_request_pipeline phase eos ord : accounted 0 (run_request_pipeline_inner phase pipeline eos ord).
Proof.
  unfold run_request_pipeline_inner, selected_input_limit_rejection, record_body_size_rejection. book.
Qed.

Lemma accounted_response_pipeline phase eos : accounted 0 (run_response_pipeline phase pipeline eos).
Proof. unfold run_response_pipeline. book. Qed.

(** The one check that exceeds. *)
Lemma accounted_exceeded {A} m : accounted 0 (record_body_size_rejection ;;; fail (Status_resource_exhausted m) : M Env StreamState A).
Proof.
  intros s g. unfold record_body_size_rejection. repeat wp_step. simpl.
  constructor; rewrite ?streams_log, ?local_replies_log, ?oversized_log, ?refusals_log; simpl; try done; try lia.
  by rewrite app_nil_r.
Qed.
#[local] Hint Resolve accounted_exceeded : books.

Lemma accounted_check_body_limit current incoming limit :
  accounted (E := Env) (S := StreamState) 0 (check_body_limit current incoming limit).
Proof. unfold check_body_limit. book. Qed.

(** Reified, the check exceeds nothing: its caller answers. *)
Lemma calm_attempt_limit current incoming limit : calmly fine (attempt (check_body_limit current incoming limit)).
Proof.
  intros s g. unfold check_body_limit, record_body_size_rejection. wp_step. destruct limit as [max|].
  - wp_case; repeat wp_step; (split; [done|]); [by apply booked_log|apply booked_refl].
  - wp_step. split; [done|apply booked_refl].
Qed.
#[local] Hint Resolve accounted_check_body_limit calm_attempt_limit : books.

Lemma accounted_buffer_response_chunk ctx chunk eos : accounted 0 (buffer_response_chunk ctx chunk eos).
Proof. unfold buffer_response_chunk. book. Qed.

Lemma calm_warn is_request m : calmly fine (warn_unapplied_header_mutations is_request m).
Proof. unfold warn_unapplied_header_mutations. book. Qed.

Lemma calm_write_back ctx : calmly fine (write_back_response ctx).
Proof. unfold write_back_response. book. Qed.
#[local] Hint Resolve accounted_buffer_response_chunk calm_warn calm_write_back : books.

Lemma accounted_streamed_chunk body b : accounted 0 (process_streamed_body_chunk pipeline body b).
Proof. unfold process_streamed_body_chunk. destruct b; book. Qed.

Lemma calm_take_first b : calmly fine (take_first b).
Proof. unfold take_first. book. Qed.

Lemma calm_deferred b : calmly fine (deferred_header_response b).
Proof. unfold deferred_header_response. book. Qed.
#[local] Hint Resolve calm_take_first calm_deferred accounted_streamed_chunk : books.

Lemma calm_passthrough body mode b : calmly fine (passthrough_chunk body mode b).
Proof. unfold passthrough_chunk. book. Qed.

Lemma calm_deliver_request d m : calmly fine (deliver_request d m).
Proof. unfold deliver_request. book. Qed.
Lemma calm_deliver_response d m : calmly fine (deliver_response d m).
Proof. unfold deliver_response. book. Qed.
#[local] Hint Resolve calm_passthrough calm_deliver_request calm_deliver_response : books.

Lemma calm_early_request d : calmly fine (run_request_header_filters_early pipeline d).
Proof. unfold run_request_header_filters_early, execute_request. book. Qed.

Lemma calm_early_response d : calmly fine (run_response_header_filters_early pipeline d).
Proof. unfold run_response_header_filters_early, execute_response. book. Qed.

Lemma accounted_flush_streamed b : accounted 0 (flush_streamed_body_filters pipeline b).
Proof. unfold flush_streamed_body_filters. destruct b; book. Qed.
End Functions.
#[export] Hint Resolve calm_early_request calm_early_response accounted_flush_streamed calm_passthrough
  accounted_streamed_chunk calm_take_first calm_deferred accounted_check_body_limit calm_attempt_limit
  accounted_request_pipeline accounted_response_pipeline : books.

Section Handlers.
Context `{PraxisFilter}.
Variable pipeline : FilterPipeline.

Abbreviation calmly := (calm (E := Env) (S := StreamState)).
Abbreviation fine := (fun _ => True).

Lemma accounted_mark_phase phase eos : accounted (E := Env) (S := StreamState) 0 (mark_phase phase eos).
Proof. unfold mark_phase. apply accounted_zoom. unfold check_and_mark. book. Qed.

Lemma accounted_duplicate {A} k phase : accounted k (duplicate_after_eos phase : M Env StreamState A).
Proof. unfold duplicate_after_eos. book. Qed.
#[local] Hint Resolve accounted_mark_phase accounted_duplicate : books.

Lemma accounted_redelivery entry mode phase :
  accounted (E := Env) (S := StreamState) 0 (handle_body_redelivery entry mode phase).
Proof. unfold handle_body_redelivery. book. Qed.
#[local] Hint Resolve accounted_redelivery : books.

Lemma accounted_local_reply_headers headers : accounted (E := Env) (S := StreamState) 1 (local_reply_headers headers).
Proof.
  unfold local_reply_headers. apply accounted_seq; [auto with books|intros entry]. destruct entry; cbn [is_complete]; [|by book].
  assert (Hrest : accounted (E := Env) (S := StreamState) 0 (let? s := get in
    if negb (hh_end_of_stream headers) && bool_decide (response_body_mode (protocol_config s) = FullDuplexStreamed)
    then ret [] else modify (set_response_headers_sent true) ;;; ret [response_headers None])) by book.
  intros s g. unfold record_local_reply. do 2 wp_step. eapply wp_mono; [apply Hrest|]. cbv beta.
  intros r s' g' [B1 B2 B3 B4 B5 B6]. rewrite streams_log in B1. rewrite local_replies_log in B2, B3.
  rewrite oversized_log in B4, B5. rewrite refusals_log in B6. rewrite decide_False in B1 by done.
  rewrite decide_False in B4, B5 by done.
  cbn in B2, B3, B6. rewrite app_nil_r in B6.
  constructor; try done; try lia; intros He; first [specialize (B3 He); lia|specialize (B5 He); lia].
Qed.

Lemma accounted_local_reply_body body : accounted (E := Env) (S := StreamState) 0 (local_reply_body body).
Proof. unfold local_reply_body. book. Qed.

Lemma calm_override rs headers : calmly fine (apply_response_mode_override pipeline rs headers).
Proof. unfold apply_response_mode_override. book. Qed.
#[local] Hint Resolve calm_override : books.

Lemma accounted_request_headers headers : accounted 0 (handle_request_headers pipeline headers).
Proof.
  unfold handle_request_headers, handle_end_stream_request_headers, handle_request_headers_with_body,
    handle_unsupported_selected_request_headers, request_headers_without_body_filter,
    run_bodyless_selected_upstream_pipeline, run_request_pipeline. book.
Qed.

Lemma calm_streamed_limit n : calmly fine (reject_streamed_request_over_limit pipeline n).
Proof. unfold reject_streamed_request_over_limit. book. Qed.
#[local] Hint Resolve calm_streamed_limit : books.

Lemma accounted_request_body body : accounted 0 (handle_request_body pipeline body).
Proof. unfold handle_request_body, accumulate_request_body, run_request_pipeline. book. Qed.

Lemma accounted_response_headers headers : accounted 0 (handle_response_headers pipeline headers).
Proof. unfold handle_response_headers. book. Qed.

Lemma accounted_response_body body : accounted 0 (handle_response_body pipeline body).
Proof. unfold handle_response_body, accumulate_response_body. book. Qed.

Lemma accounted_trailers b : accounted 0 (handle_trailers pipeline b).
Proof.
  unfold handle_trailers, finalize_body_on_trailers, trailing_body_phase, run_trailing_fds_body,
    run_trailing_body_pipeline, run_request_pipeline, flush_deferred_fds_headers. destruct b; book.
Qed.

(** ** Dispatch *)

Definition opens_reply (req : ReqMsg) : bool := match req with ResponseHeaders _ => true | _ => false end.

Lemma accounted_handle req s :
  accounted (if po_local_reply (phase_order s) && opens_reply req then 1 else 0) (handle pipeline s req).
Proof.
  unfold handle, local_reply. destruct (po_local_reply (phase_order s)); cbn [andb].
  - destruct req; cbn [local_reply_passthrough opens_reply].
    2: apply accounted_local_reply_headers.
    3: apply accounted_local_reply_body.
    all: apply (calm_accounted fine); first [by apply calm_fail|by apply calm_ret].
  - destruct req; auto using accounted_request_headers, accounted_response_headers, accounted_request_body,
      accounted_response_body, accounted_trailers.
Qed.

Lemma accounted_validate req cfg : accounted (E := Env) (S := StreamState) 0 (validate_body_message req cfg).
Proof. unfold validate_body_message. book. Qed.

Lemma accounted_advance req :
  accounted (E := Env) (S := StreamState) 0 (zoom phase_order with_phase_order (check_and_advance req)).
Proof. apply accounted_zoom. unfold check_and_advance. book_step. destruct (message_order req). book. Qed.

(** Between two messages: one local reply is counted exactly in a local reply. *)
Record Ledger (s : StreamState) (g : Glob Env) : Prop := {
  ledger_count : local_replies g = if po_local_reply (phase_order s) then 1%nat else 0%nat;
  ledger_open : po_response (phase_order s) <> None -> po_request (phase_order s) = None ->
    po_local_reply (phase_order s) = true;
  ledger_seen : po_local_reply (phase_order s) = true -> po_response (phase_order s) <> None;
}.

Definition booked_message {A} (g : Glob Env) (r : result Status A) (s' : StreamState) (g' : Glob Env) : Prop :=
  (exists k, booked k (error_of r) g g') /\
  match r with Ok _ => Ledger s' g' | Err _ => (local_replies g' <= 1)%nat end.

Lemma handle_order req s (g : Glob Env) :
  wp (handle pipeline s req) (fun r s' _ => match r with Ok _ => phase_order s' = phase_order s | Err _ => True end) s g.
Proof.
  eapply wp_mono; [apply handle_answers|]. intros [rs|e] s' g'; [|done]. intros [Hk _].
  destruct (message_order req) as [side step] eqn:Hm.
  destruct side.
  - destruct (kept_facts pipeline true step req s rs s' Hm Hk) as [Hsp _]. apply (spares_order _ _ _ Hsp).
  - destruct (kept_facts pipeline false step req s rs s' Hm Hk) as [Hsp _]. apply (spares_order _ _ _ Hsp).
Qed.

Lemma advanced_ledger side step req s (g : Glob Env) :
  message_order req = (side, step) -> Ledger s g ->
  (side = Request_ -> po_local_reply (phase_order s) = false) ->
  invalid_transition (position (is_request_side side) (phase_order s)) step = false ->
  let o := order_advance side step (bool_decide (side = Response_) && bool_decide (po_request (phase_order s) = None))
             (phase_order s) in
  (local_replies g + if po_local_reply o && opens_reply req then 1 else 0)%nat = (if po_local_reply o then 1 else 0)%nat /\
  (po_response o <> None -> po_request o = None -> po_local_reply o = true) /\
  (po_local_reply o = true -> po_response o <> None).
Proof.
  intros Hm [Hc Ho Hs] Hside Htr o. subst o. rewrite Hc. cbn.
  destruct (po_local_reply (phase_order s)) eqn:Hl; cbn.
  - destruct side; [by specialize (Hside eq_refl)|]. specialize (Hs eq_refl). cbn in Htr.
    assert (opens_reply req = false) as ->; [|done]. destruct req; cbn in Hm; simplify_eq; try done.
    by destruct (po_response (phase_order s)) as [[]|].
  - destruct side; cbn.
    + destruct req; cbn in Hm; simplify_eq; done.
    + cbn in Htr. destruct (decide (po_request (phase_order s) = None)) as [Hq|Hq];
        [rewrite (bool_decide_true _ Hq)|by rewrite (bool_decide_false _ Hq)].
      split; [|done]. destruct (po_response (phase_order s)) as [p|] eqn:Hp; [by specialize (Ho ltac:(done) Hq)|].
      destruct req; cbn in Hm; simplify_eq; done.
Qed.

Lemma dispatch_books req s (g : Glob Env) :
  Ledger s g -> wp (dispatch_request pipeline req) (booked_message g) s g.
Proof.
  intros HL.
  assert (Herr : forall e g', booked 0 (Some (st_code e)) g g' -> forall s', booked_message (A := list ProcessingResponse) g (Err e) s' g').
  { intros e g' Hb s'. split; [by exists 0%nat|]. destruct Hb as [_ Hb _ _ _ _]. rewrite (ledger_count _ _ HL) in Hb.
    by destruct (po_local_reply _); lia. }
  unfold dispatch_request. do 2 wp_step. wp_step.
  eapply wp_mono; [apply wp_and; [apply accounted_validate|
    apply (wp_validate_body_message req (fun r s' g' => r = Ok tt -> s' = s /\ g' = g)); done]|].
  cbv beta. intros [[]|e] s0 g0 [Hb Hsame]; [|by apply Herr]. destruct (Hsame eq_refl) as [-> ->]. clear Hb Hsame.
  wp_step. eapply wp_mono; [apply wp_and; [apply accounted_advance|
    apply (wp_check_and_advance req (fun r s' g' => r = Ok tt -> g' = g /\ exists side step,
      message_order req = (side, step) /\ (side = Request_ -> po_local_reply (phase_order s) = false) /\
      invalid_transition (position (is_request_side side) (phase_order s)) step = false /\
      s' = with_phase_order (order_advance side step
             (bool_decide (side = Response_) && bool_decide (po_request (phase_order s) = None)) (phase_order s)) s)); [|done]]|].
  { intros side step Hm Hs Htr _. split; [done|]. exists side, step. split_and!; try done. by destruct side. }
  cbv beta. intros [[]|e] s0 g0 [Hb Hadv]; [|by apply Herr].
  destruct (Hadv eq_refl) as [-> (side & step & Hm & Hs & Htr & ->)]. clear Hb Hadv.
  destruct (advanced_ledger side step req s g Hm HL Hs Htr) as (Hk & Ho & Hseen).
  do 2 wp_step. set (s1 := with_phase_order _ s).
  assert (Hrun := wp_and _ _ _ _ _ (accounted_handle req s1 s1 g) (handle_order req s1 g)).
  unfold handle in Hrun. eapply wp_mono; [exact Hrun|]. clear Hrun. cbv beta. intros r s' g' [Hb Hord].
  set (k := if po_local_reply (phase_order s1) && opens_reply req then 1%nat else 0%nat) in *.
  assert (Hle : (local_replies g + k <= 1)%nat) by (unfold k, s1; cbn [phase_order with_phase_order]; rewrite Hk; clear; destruct (po_local_reply _); lia).
  split; [by exists k|]. destruct r as [rs|e]; [|destruct Hb; lia].
  constructor; rewrite Hord; [|exact Ho|exact Hseen]. rewrite (booked_all _ _ _ _ Hb eq_refl). exact Hk.
Qed.

(** ** Whole streams *)

Lemma booked_message_trans {A} k g g1 (r : result Status A) s' g' :
  booked k None g g1 -> booked_message g1 r s' g' -> booked_message g r s' g'.
Proof. intros Hb [[k' Hb'] Hr]. split; [|done]. exists (k + k')%nat. by eapply booked_trans. Qed.

Lemma booked_message_cast {A B} g (e : Status) s' g' :
  booked_message (A := A) g (Err e) s' g' -> booked_message (A := B) g (Err e) s' g'.
Proof. done. Qed.

Lemma accounted_config cfg first : accounted (E := Env) (S := StreamState) 0 (apply_protocol_config cfg first).
Proof. unfold apply_protocol_config, config_from_first_message. book. Qed.

Lemma loop_books open inbound : forall first sent s (g : Glob Env),
  Ledger s g ->
  wp (process_messages pipeline open first inbound sent)
    (fun o s' g' => exists sent' r, o = Ok (sent', r) /\ booked_message g r s' g') s g.
Proof.
  induction inbound as [|msg rest IH]; intros first sent s g HL; simpl.
  { wp_step. eexists _, _. split; [done|]. split; [exists 0%nat; apply booked_refl|exact HL]. }
  assert (Hle : (local_replies g <= 1)%nat) by (rewrite (ledger_count _ _ HL); by destruct (po_local_reply _); lia).
  destruct msg as [msg|e].
  2: { wp_step. eexists _, _. split; [done|]. split; [|done]. exists 0%nat. by apply booked_benign, booked_refl. }
  repeat wp_step. eapply wp_mono; [apply wp_and; [apply accounted_config|
    apply (wp_apply_config _ _ (fun r s' g' => r = Ok tt -> g' = g /\ phase_order s' = phase_order s)); done]|].
  cbv beta. intros [[]|e] s1 g1 [Hb Hsame].
  2: { wp_step. eexists _, _. split; [done|]. split; [by eexists|]. destruct Hb; lia. }
  destruct (Hsame eq_refl) as [-> Ho]. assert (HL1 : Ledger s1 g) by (by destruct HL; constructor; rewrite Ho).
  clear Hb Hsame. destruct (pr_request msg) as [req|]; [|by apply IH]. repeat wp_step.
  eapply wp_mono; [by apply dispatch_books|]. cbv beta. intros [rs|e] s2 g2 Hd; [|wp_step; by eexists _, _].
  pose proof Hd as [[k Hb] HL2]. cbn [error_of] in Hb. destruct (send_all open sent rs) as [sent' still].
  destruct still; cbn [negb]; [|wp_step; eexists _, _; split; [done|]; split; [by exists k|done]].
  destruct (existsb is_immediate rs).
  - repeat wp_step. eexists _, _. split; [done|]. split; [by exists k|]. by destruct HL2; constructor.
  - eapply wp_mono; [by apply IH|]. cbv beta. intros o s' g' (sent2 & r & -> & Hr).
    eexists _, _. split; [done|]. by eapply booked_message_trans.
Qed.

Variable max : option Z.
Variable trust : bool.
Variable selector : ResponseModeSelector.

(** C8. Every stream is counted once, and every refusal once: a stream that ends with
    [INVALID_ARGUMENT] has recorded exactly one refusal, under a reason and a detail of
    [refusal_labels], and any other stream none; a [RESOURCE_EXHAUSTED] end has recorded a body
    size rejection; and a stream that ends well has recorded one local reply if it was one, and
    none otherwise. *)
Theorem streams_are_accounted open inbound env warned :
  let g := run_world pipeline max trust selector open inbound env warned in
  let s := run_state pipeline max trust selector open inbound env warned in
  streams g = 1%nat /\ (local_replies g <= 1)%nat /\
  match run_result pipeline max trust selector open inbound env warned with
  | Ok _ => refusals g = [] /\ local_replies g = if po_local_reply (phase_order s) then 1%nat else 0%nat
  | Err e =>
      match st_code e with
      | InvalidArgument => exists l, l ∈ refusal_labels /\ refusals g = [l]
      | ResourceExhausted => refusals g = [] /\ (0 < oversized g)%nat
      | _ => refusals g = []
      end
  end.
Proof.
  unfold run_world, run_state, run_result, run, handle_stream, bind.
  assert (HL : Ledger (initial_state max trust selector) (start_world env warned)) by by constructor.
  pose proof (loop_books open inbound false [] _ _ HL) as Hs. unfold wp in Hs.
  destruct (process_messages _ _ _ _ _ _ _) as [[o s] g]. destruct Hs as (sent & r & -> & [[k Hb] Hr]).
  destruct Hb as [Bs Bl Ba Bo Be Br]. cbn [fst snd ret record_request emit].
  rewrite streams_log, local_replies_log, refusals_log, oversized_log, Bs.
  rewrite (decide_False (P := _ = EMetric MBodySizeRejection)) by done. simpl. rewrite app_nil_r, Nat.add_0_r.
  split; [done|]. destruct r as [[]|e]; cbn [error_of] in *.
  - destruct Hr as [Hc _ _]. split; [rewrite Hc; by destruct (po_local_reply _); lia|]. by split.
  - split; [done|]. destruct (st_code e); auto. split; [done|]. specialize (Be eq_refl). simpl in Be. lia.
Qed.
End Handlers.
