(* ===== verification/Frames.v ===== *)
(** * What the handlers of one side leave alone

    A frame discipline in the style of [Accounting]: one rule per construct, so that a function
    keeps a part of the state as soon as each of its updates does. Used for the buffers and the
    end-of-stream marks of the other side, and for the announced modes. *)

From S2P Require Import Prelude RustStd Proto Effect Extern Metrics Response Protocol Adapter ResponseMode State Pipeline Handlers Server Invariant StreamInv Stream Answers.

Section Rules.
Context {E S T : Type}.
Variable f : S -> T.

(** [m] keeps what [f] sees, whatever its outcome. *)
Definition frames {A} (m : M E S A) : Prop := forall s g, wp m (fun _ s' _ => f s' = f s) s g.

Lemma frames_ret {A} (a : A) : frames (ret a).
Proof. by intros s g; wp_step. Qed.
Lemma frames_fail {A} e : frames (fail e : M E S A).
Proof. by intros s g; wp_step. Qed.
Lemma frames_lift {A} (r : result Status A) : frames (lift r).
Proof. by intros s g; wp_step. Qed.
Lemma frames_get : frames get.
Proof. by intros s g; wp_step. Qed.
Lemma frames_modify u : (forall s, f (u s) = f s) -> frames (modify u).
Proof. by intros Hu s g; wp_step. Qed.
Lemma frames_emit e : frames (emit e).
Proof. by intros s g; wp_step. Qed.
Lemma frames_get_env : frames get_env.
Proof. by intros s g; wp_step. Qed.
Lemma frames_put_env v : frames (put_env v).
Proof. by intros s g; wp_step. Qed.
Lemma frames_get_warned : frames get_warned.
Proof. by intros s g; wp_step. Qed.
Lemma frames_put_warned b : frames (put_warned b).
Proof. by intros s g; wp_step. Qed.
Lemma frames_attempt {A} (m : M E S A) : frames m -> frames (attempt m).
Proof. intros Hm s g. wp_step. apply Hm. Qed.

Lemma frames_bind {A B} (m : M E S A) (k : A -> M E S B) :
  frames m -> (forall a, frames (k a)) -> frames (bind m k).
Proof.
  intros Hm Hk s g. wp_step. eapply wp_mono; [apply Hm|]. intros [a|e] s' g' Hf; [|done].
  eapply wp_mono; [apply Hk|]. intros r s2 g2 Hf2. by rewrite Hf2.
Qed.

Lemma frames_zoom {T' A} (gf : S -> T') (sf : T' -> S -> S) (m : M E T' A) :
  (forall t s, f (sf t s) = f s) -> frames (zoom gf sf m).
Proof. intros Hs s g. wp_step. unfold wp. destruct (m (gf s) g) as [[r t] g']. apply Hs. Qed.

(** A state that differs where [f] does not look. *)
Lemma frames_state {A} (m : M E S A) s g r s' g' : frames m -> m s g = (r, s', g') -> f s' = f s.
Proof. intros Hm Hr. exact (wp_run m _ s g r s' g' (Hm s g) Hr). Qed.
End Rules.

Create HintDb frames discriminated.
#[export] Hint Resolve frames_ret frames_fail frames_lift frames_get frames_emit frames_get_env frames_put_env
  frames_get_warned frames_put_warned : frames.

(** One rule per construct; updates by computation, calls by the lemmas of the database. *)
Ltac frame_step :=
  match goal with
  | |- forall _, _ => intro
  | |- frames _ (match ?x with _ => _ end) => destruct x
  | |- frames _ (bind _ _) => apply frames_bind
  | |- frames _ (attempt _) => apply frames_attempt
  | |- frames _ (modify _) => apply frames_modify; intros; reflexivity
  | |- frames _ (zoom _ _ _) => apply frames_zoom; intros; reflexivity
  | |- frames _ _ => solve [auto with frames nocore]
  end.
Ltac frame := repeat frame_step.

(** ** The pipeline functions *)

Section Pipeline.
Context `{PraxisFilter}.
Variable pipeline : FilterPipeline.

Abbreviation keeps f m := (frames (E := Env) (S := StreamState) f m).

(** What every pipeline function keeps, and what those of side [b] keep of the other's buffer. *)
Definition still (s : StreamState) : ProtocolConfig * EosTracker * bytes * bytes :=
  (protocol_config s, eos_tracker s, request_body_buf s, response_body_buf s).
Definition view (b : bool) (s : StreamState) : ProtocolConfig * EosTracker * bytes :=
  (protocol_config s, eos_tracker s, if b then response_body_buf s else request_body_buf s).

Lemma view_still {A} b (m : M Env StreamState A) : keeps still m -> keeps (view b) m.
Proof.
  intros Hm s g. eapply wp_mono; [apply Hm|]. cbv beta. unfold still, view. intros r s' g' E.
  injection E as -> -> E1 E2. destruct b; congruence.
Qed.

Ltac frames_unfold :=
  unfold execute_request, execute_response, execute_request_body, execute_selected_upstream, execute_response_body,
    action_outcome, immediate_from_action, missing_request_headers, missing_response_headers,
    record_immediate_response, record_body_size_rejection, record_invalid_argument.

Lemma frames_run_call {A T} (f : StreamState -> T) c (k : Env -> result string FilterAction * A * Env) :
  keeps f (run_call c k).
Proof. unfold run_call. frame. Qed.
#[local] Hint Resolve frames_run_call : frames.

Lemma frames_outcome {T} (f : StreamState -> T) r : keeps f (action_outcome r).
Proof. frames_unfold. frame. Qed.
Lemma frames_immediate {T} (f : StreamState -> T) a : keeps f (immediate_from_action a).
Proof. frames_unfold. frame. Qed.
Lemma frames_body_filters {T} (f : StreamState -> T) ctx buf eos : keeps f (run_body_filters pipeline ctx buf eos).
Proof. unfold run_body_filters. frames_unfold. frame. Qed.
Lemma frames_resp_body_filters {T} (f : StreamState -> T) ctx buf eos : keeps f (run_resp_body_filters pipeline ctx buf eos).
Proof. unfold run_resp_body_filters. frames_unfold. frame. Qed.
Lemma frames_selected {T} (f : StreamState -> T) ctx buf m :
  keeps f (run_selected_upstream_body_filters pipeline ctx buf m).
Proof. unfold run_selected_upstream_body_filters. frames_unfold. frame. Qed.
#[local] Hint Resolve frames_outcome frames_immediate frames_body_filters frames_resp_body_filters frames_selected : frames.

Lemma frames_at_eos {T} (f : StreamState -> T) phase ctx body ord m :
  keeps f (run_request_body_filters_at_eos phase pipeline ctx body ord m).
Proof. unfold run_request_body_filters_at_eos. frame. Qed.
Lemma frames_response_filters {T} (f : StreamState -> T) phase ctx body x :
  keeps f (execute_response_pipeline_and_body_filters phase pipeline ctx body x).
Proof. unfold execute_response_pipeline_and_body_filters. frames_unfold. frame. Qed.
Lemma frames_trailing {T} (f : StreamState -> T) ctx b : keeps f (run_trailing_body pipeline ctx b).
Proof. unfold run_trailing_body. frames_unfold. frame. Qed.
Lemma frames_fresh {T} (f : StreamState -> T) rq : keeps f (fresh_context pipeline rq).
Proof. unfold fresh_context. frame. Qed.
#[local] Hint Resolve frames_at_eos frames_response_filters frames_trailing frames_fresh : frames.

Lemma frames_hydrate ctx : keeps still (hydrate_from_state ctx).
Proof. unfold hydrate_from_state. frame. Qed.
Lemma frames_dehydrate ctx : keeps still (dehydrate_to_state ctx).
Proof. unfold dehydrate_to_state. frame. Qed.
Lemma frames_request_filters ctx : keeps still (execute_request_filters_if_needed pipeline ctx).
Proof. unfold execute_request_filters_if_needed. frames_unfold. frame. Qed.
Lemma frames_write_back ctx : keeps still (write_back_response ctx).
Proof. unfold write_back_response. frame. Qed.
Lemma frames_warn {T} (f : StreamState -> T) b m : keeps f (warn_unapplied_header_mutations b m).
Proof. unfold warn_unapplied_header_mutations. frame. Qed.
Lemma frames_take_first b : keeps still (take_first b).
Proof. unfold take_first. frame. Qed.
Lemma frames_deferred b : keeps still (deferred_header_response b).
Proof. unfold deferred_header_response. frame. Qed.
Lemma frames_build_request phase m n eos : keeps still (build_request phase m n eos).
Proof. unfold build_request, build_bodyless_selected_request_response. frame. Qed.
#[local] Hint Resolve frames_hydrate frames_dehydrate frames_request_filters frames_write_back frames_warn
  frames_take_first frames_deferred frames_build_request : frames.
#[local] Hint Resolve view_still : frames.

Lemma frames_passthrough body mode b : keeps still (passthrough_chunk body mode b).
Proof. unfold passthrough_chunk. frame. Qed.
Lemma frames_flush_deferred b : keeps still (flush_deferred_fds_headers b).
Proof. unfold flush_deferred_fds_headers. frame. Qed.

Lemma frames_request_pipeline phase eos ord : keeps (view true) (run_request_pipeline_inner phase pipeline eos ord).
Proof. unfold run_request_pipeline_inner, selected_input_limit_rejection. frames_unfold. frame. Qed.
Lemma frames_response_pipeline phase eos : keeps (view false) (run_response_pipeline phase pipeline eos).
Proof. unfold run_response_pipeline. frames_unfold. frame. Qed.
Lemma frames_streamed_chunk body b : keeps (view b) (process_streamed_body_chunk pipeline body b).
Proof. unfold process_streamed_body_chunk, buffer_response_chunk. frames_unfold. destruct b; frame. Qed.
Lemma frames_flush_streamed b : keeps still (flush_streamed_body_filters pipeline b).
Proof. unfold flush_streamed_body_filters. frames_unfold. destruct b; frame. Qed.

Lemma frames_early_request d : keeps still (run_request_header_filters_early pipeline d).
Proof. unfold run_request_header_filters_early, deliver_request. frames_unfold. frame. Qed.
Lemma frames_early_response d : keeps still (run_response_header_filters_early pipeline d).
Proof. unfold run_response_header_filters_early, deliver_response. frames_unfold. frame. Qed.

(** ** The handlers *)

(** The buffer of a side, and whether its body has ended. *)
Definition buffer (b : bool) (s : StreamState) : bytes := if b then request_body_buf s else response_body_buf s.
Definition body_mark (b : bool) (s : StreamState) : PhaseState := phase_state (eos_tracker s) (body_phase b).

Lemma buffer_view {A} b (m : M Env StreamState A) : keeps (view (negb b)) m -> keeps (buffer b) m.
Proof.
  intros Hm s g. eapply wp_mono; [apply Hm|]. cbv beta. unfold view, buffer. intros r s' g' E. by destruct b; injection E.
Qed.
Lemma buffer_still {A} b (m : M Env StreamState A) : keeps still m -> keeps (buffer b) m.
Proof. intros Hm. by apply buffer_view, view_still. Qed.
Lemma mark_view {A} b b' (m : M Env StreamState A) : keeps (view b') m -> keeps (body_mark b) m.
Proof.
  intros Hm s g. eapply wp_mono; [apply Hm|]. cbv beta. unfold view, body_mark. intros r s' g' E. by injection E as _ -> _.
Qed.
Lemma mark_still {A} b (m : M Env StreamState A) : keeps still m -> keeps (body_mark b) m.
Proof. intros Hm. by eapply (mark_view b true), view_still. Qed.

Lemma buffer_mark_phase b phase eos : keeps (buffer b) (mark_phase phase eos).
Proof. unfold mark_phase. apply frames_zoom. by destruct b. Qed.

Lemma body_mark_headers b b' eos : keeps (body_mark b) (mark_phase (headers_phase b') eos).
Proof.
  intros s g. apply wp_mark_phase; [done| |done]. intros _ _ _. unfold body_mark. cbn.
  by destruct eos; [destruct b, b'|].
Qed.

Lemma frames_redelivery {T} (f : StreamState -> T) entry mode phase : keeps f (handle_body_redelivery entry mode phase).
Proof. unfold handle_body_redelivery, duplicate_after_eos. frames_unfold. frame. Qed.
Lemma frames_duplicate {A T} (f : StreamState -> T) phase : keeps f (duplicate_after_eos (A := A) phase).
Proof. unfold duplicate_after_eos. frames_unfold. frame. Qed.
Lemma frames_limit {T} (f : StreamState -> T) x y z : keeps f (check_body_limit x y z).
Proof. unfold check_body_limit. frames_unfold. frame. Qed.
#[local] Hint Resolve buffer_mark_phase frames_redelivery frames_duplicate frames_limit : frames.

Lemma frames_streamed_limit n : keeps still (reject_streamed_request_over_limit pipeline n).
Proof. unfold reject_streamed_request_over_limit. frame. Qed.
#[local] Hint Resolve frames_streamed_limit frames_passthrough frames_flush_deferred frames_request_pipeline
  frames_response_pipeline frames_streamed_chunk frames_flush_streamed frames_early_request frames_early_response : frames.
#[local] Hint Extern 3 (frames (buffer true) _) => (apply (buffer_view true); cbn [negb]; solve [auto with frames nocore]) : frames.
#[local] Hint Extern 3 (frames (buffer false) _) => (apply (buffer_view false); cbn [negb]; solve [auto with frames nocore]) : frames.
#[local] Hint Extern 3 (frames (buffer _) _) => (apply buffer_still; solve [auto with frames nocore]) : frames.
#[local] Hint Extern 3 (frames (body_mark _) _) => (apply mark_still; solve [auto with frames nocore]) : frames.
#[local] Hint Extern 4 (frames (body_mark _) _) => (eapply (mark_view _ true); solve [auto with frames nocore]) : frames.
#[local] Hint Extern 4 (frames (body_mark _) _) => (eapply (mark_view _ false); solve [auto with frames nocore]) : frames.
#[local] Hint Extern 2 (frames (body_mark _) (mark_phase PRequestHeaders _)) => apply (body_mark_headers _ true) : frames.
#[local] Hint Extern 2 (frames (body_mark _) (mark_phase PResponseHeaders _)) => apply (body_mark_headers _ false) : frames.

(** Request messages keep the response buffer, response messages the request buffer. *)
Lemma response_buffer_kept :
  (forall h, keeps (buffer false) (handle_request_headers pipeline h)) /\
  (forall body, keeps (buffer false) (handle_request_body pipeline body)) /\
  keeps (buffer false) (handle_trailers pipeline true).
Proof.
  split_and!; intros;
    unfold handle_request_headers, handle_end_stream_request_headers, handle_request_headers_with_body,
      handle_unsupported_selected_request_headers, request_headers_without_body_filter,
      run_bodyless_selected_upstream_pipeline, apply_response_mode_override,
      handle_request_body, accumulate_request_body, handle_trailers, finalize_body_on_trailers, trailing_body_phase,
      run_trailing_fds_body, run_trailing_body_pipeline, run_request_pipeline; frame.
Qed.

Lemma request_buffer_kept :
  (forall h, keeps (buffer true) (handle_response_headers pipeline h)) /\
  (forall body, keeps (buffer true) (handle_response_body pipeline body)) /\
  keeps (buffer true) (handle_trailers pipeline false) /\
  (forall req, keeps (buffer true) (local_reply_passthrough req)).
Proof.
  split_and!; intros;
    unfold handle_response_headers, handle_response_body, accumulate_response_body, handle_trailers,
      finalize_body_on_trailers, trailing_body_phase, run_trailing_fds_body, run_trailing_body_pipeline,
      local_reply_passthrough, local_reply_headers, local_reply_body, record_local_reply; frame.
Qed.

(** A header message keeps its side's body mark. *)
Lemma body_mark_kept :
  (forall h, keeps (body_mark true) (handle_request_headers pipeline h)) /\
  (forall h, keeps (body_mark false) (handle_response_headers pipeline h)) /\
  (forall h, keeps (body_mark false) (local_reply_headers h)).
Proof.
  split_and!; intros;
    unfold handle_request_headers, handle_end_stream_request_headers, handle_request_headers_with_body,
      handle_unsupported_selected_request_headers, request_headers_without_body_filter,
      run_bodyless_selected_upstream_pipeline, apply_response_mode_override, run_request_pipeline,
      handle_response_headers, local_reply_headers, record_local_reply; frame.
Qed.

(** Unless it ends the stream of the side, a header message keeps the side's buffer, too. *)
Lemma headers_keep_buffer h :
  hh_end_of_stream h = false ->
  keeps (buffer true) (handle_request_headers pipeline h) /\
  keeps (buffer false) (handle_response_headers pipeline h) /\
  keeps (buffer false) (local_reply_headers h).
Proof.
  intros He. split_and!;
    unfold handle_request_headers, handle_request_headers_with_body,
      handle_unsupported_selected_request_headers, request_headers_without_body_filter, apply_response_mode_override,
      handle_response_headers, local_reply_headers, record_local_reply; rewrite He; frame.
Qed.

(** Whether the response side is full-duplex: not even the mode override changes that. *)
Definition full_duplex_response (s : StreamState) : bool :=
  bool_decide (response_body_mode (protocol_config s) = FullDuplexStreamed).

Lemma duplex_still {A} (m : M Env StreamState A) : keeps still m -> keeps full_duplex_response m.
Proof.
  intros Hm s g. eapply wp_mono; [apply Hm|]. cbv beta. unfold still, full_duplex_response. intros r s' g' E.
  by injection E as -> _ _ _.
Qed.
Lemma duplex_view {A} (m : M Env StreamState A) : keeps (view true) m -> keeps full_duplex_response m.
Proof.
  intros Hm s g. eapply wp_mono; [apply Hm|]. cbv beta. unfold view, full_duplex_response. intros r s' g' E.
  by injection E as -> _ _.
Qed.

Lemma duplex_override rs headers : keeps full_duplex_response (apply_response_mode_override pipeline rs headers).
Proof.
  intros s g. unfold apply_response_mode_override. repeat wp_step. wp_case; [by wp_step|].
  apply orb_false_iff in Hc as [[[_ Hfds]%orb_false_iff _]%orb_false_iff _].
  assert (Hgo : forall changed : list (ProcessingResponse * bool), wp ((if existsb snd changed
       then modify (with_protocol_config (with_response_body_mode Streamed (protocol_config s))) else ret tt) ;;;
      ret (map fst changed)) (fun _ s' _ => full_duplex_response s' = full_duplex_response s) s g).
  { intros changed. wp_step. wp_case; repeat wp_step; [|done]. unfold full_duplex_response. rewrite Hfds. done. }
  destruct (cap_response_body_mode _); try by wp_step.
  all: wp_case; [apply Hgo|by wp_step].
Qed.
#[local] Hint Resolve duplex_override : frames.
#[local] Hint Extern 3 (frames full_duplex_response _) => (apply duplex_still; solve [auto with frames nocore]) : frames.
#[local] Hint Extern 4 (frames full_duplex_response _) => (apply duplex_view; solve [auto with frames nocore]) : frames.

Lemma duplex_kept h : keeps full_duplex_response (handle_request_headers pipeline h).
Proof.
  unfold handle_request_headers, handle_end_stream_request_headers, handle_request_headers_with_body,
    handle_unsupported_selected_request_headers, request_headers_without_body_filter,
    run_bodyless_selected_upstream_pipeline, run_request_pipeline, mark_phase. frame.
Qed.

(** The end-of-stream marks are the handlers' own business. *)
Lemma eos_still {A} (m : M Env StreamState A) : keeps still m -> keeps eos_tracker m.
Proof. intros Hm s g. eapply wp_mono; [apply Hm|]. cbv beta. unfold still. intros r s' g' E. by injection E. Qed.
Lemma eos_view {A} b (m : M Env StreamState A) : keeps (view b) m -> keeps eos_tracker m.
Proof. intros Hm s g. eapply wp_mono; [apply Hm|]. cbv beta. unfold view. intros r s' g' E. by injection E. Qed.
#[local] Hint Extern 3 (frames eos_tracker _) => (apply eos_still; solve [auto with frames nocore]) : frames.
#[local] Hint Extern 4 (frames eos_tracker _) => (apply (eos_view true); solve [auto with frames nocore]) : frames.
#[local] Hint Extern 4 (frames eos_tracker _) => (apply (eos_view false); solve [auto with frames nocore]) : frames.

(** A header message with end of stream closes its side. *)
Definition closes (phase : ProtocolPhase) (r : result Status (list ProcessingResponse)) (s' : StreamState) (_ : Glob Env) : Prop :=
  match r with Ok _ => phase_state (eos_tracker s') phase = Completed | Err _ => True end.

Lemma closing phase (k : PhaseState -> M Env StreamState (list ProcessingResponse)) s (g : Glob Env) :
  (forall Q (s : StreamState) (g : Glob Env), (forall e s' g', Q (Err e) s' g') -> wp (k Completed) Q s g) -> keeps eos_tracker (k Active) ->
  wp (let? entry := mark_phase phase true in k entry) (closes phase) s g.
Proof.
  intros Hdup Hk. wp_step. apply wp_mark_phase; [intros _; by apply Hdup| |done]. intros _ _ _.
  eapply wp_mono; [apply Hk|]. cbv beta. intros [rs|e] s' g' E; [|done]. unfold closes. rewrite E. by destruct phase.
Qed.

Lemma wp_duplicate_any phase Q (s : StreamState) (g : Glob Env) :
  (forall e s' g', Q (Err e) s' g') -> wp (duplicate_after_eos (A := list ProcessingResponse) phase) Q s g.
Proof. intros HQ. apply wp_duplicate. intros. apply HQ. Qed.

Lemma headers_close h s (g : Glob Env) :
  hh_end_of_stream h = true ->
  wp (handle_request_headers pipeline h) (closes PRequestHeaders) s g /\
  wp (handle_response_headers pipeline h) (closes PResponseHeaders) s g /\
  wp (local_reply_headers h) (closes PResponseHeaders) s g.
Proof.
  intros He. unfold handle_request_headers, handle_response_headers, local_reply_headers. rewrite !He.
  split_and!; apply closing; cbn [is_complete]; try (intros; by apply wp_duplicate_any);
    unfold handle_end_stream_request_headers, handle_request_headers_with_body,
      handle_unsupported_selected_request_headers, request_headers_without_body_filter, apply_response_mode_override,
      run_bodyless_selected_upstream_pipeline, run_request_pipeline, record_local_reply; frame.
Qed.
End Pipeline.

(** For the frames of later files. *)
#[export] Hint Resolve frames_redelivery frames_duplicate frames_limit frames_streamed_limit frames_take_first
  frames_deferred frames_passthrough frames_flush_deferred frames_request_pipeline frames_response_pipeline
  frames_streamed_chunk frames_flush_streamed frames_early_request frames_early_response : frames.
