(* ===== verification/Marks.v ===== *)
(** * What the messages of a stream say

    The messages received so far determine the position of each side, whether the exchange is a
    local reply, and the end-of-stream marks of the tracker: what the theorems about whole
    streams say of the state between two messages they can say of the messages instead. *)

From S2P Require Import Prelude RustStd Proto Effect Extern Metrics Response Protocol Adapter ResponseMode State Pipeline Handlers Server Invariant StreamInv Stream Guarantees Answers Budget Replies Runs Frames.

(** ** Readings of the messages *)

(** A message of a side, and the one that opens it with its end of stream. *)
Definition of_side (b : bool) (req : ReqMsg) : bool := bool_decide ((message_order req).1 = side_of b).
Definition head_ends (b : bool) (req : ReqMsg) : bool :=
  match req, b with
  | RequestHeaders h, true | ResponseHeaders h, false => hh_end_of_stream h
  | _, _ => false
  end.

(** The body bytes a message brings a side, and whether they are announced the last. *)
Definition message_chunk (b : bool) (req : ReqMsg) : bytes * bool :=
  match req, b with
  | RequestBody body, true | ResponseBody body, false => (hb_body body, hb_end_of_stream body)
  | _, _ => ([], false)
  end.

(** The messages that end a side's body. *)
Definition trailers_of (b : bool) (req : ReqMsg) : bool :=
  match req, b with RequestTrailers _, true | ResponseTrailers _, false => true | _, _ => false end.
Definition message_ends (b : bool) (req : ReqMsg) : bool := (message_chunk b req).2 || trailers_of b req.

(** The body of a side among the messages so far, up to its end. *)
Fixpoint received (b : bool) (reqs : list ReqMsg) : bytes * bool :=
  match reqs with
  | [] => ([], false)
  | req :: rest =>
      if message_ends b req then message_chunk b req
      else ((message_chunk b req).1 ++ (received b rest).1, (received b rest).2)
  end.

(** The side was opened; with its headers it was closed; its body was ended. *)
Definition came (b : bool) (reqs : list ReqMsg) : bool := existsb (of_side b) reqs.
Definition heads_ended (b : bool) (reqs : list ReqMsg) : bool := existsb (head_ends b) reqs.
Definition ended (b : bool) (reqs : list ReqMsg) : bool := existsb (message_ends b) reqs.

(** The exchange opens with the response: a local reply. *)
Definition local_exchange (reqs : list ReqMsg) : bool :=
  match reqs with req :: _ => of_side false req | [] => false end.

(** The body of the side was closed: by its last chunk, or by trailers, unless the headers had
    ended the stream already or the exchange is a local reply, whose trailers close nothing. *)
Definition body_closed (b : bool) (reqs : list ReqMsg) : bool :=
  existsb (fun req => (message_chunk b req).2) reqs ||
  (existsb (trailers_of b) reqs && negb (heads_ended b reqs) && (b || negb (local_exchange reqs))).

Lemma message_flag b req : message_ends b req = false -> (message_chunk b req).2 = false.
Proof. unfold message_ends. by intros [? _]%orb_false_iff. Qed.

Lemma received_snoc b past req :
  received b (past ++ [req]) =
  if ended b past then received b past
  else ((received b past).1 ++ (message_chunk b req).1, (received b past).2 || (message_chunk b req).2).
Proof.
  induction past as [|r past IH]; cbn.
  - destruct (message_ends b req) eqn:He; [by destruct (message_chunk b req)|]. by rewrite app_nil_r, (message_flag b req He).
  - destruct (message_ends b r); cbn [orb]; [done|]. unfold ended in IH. rewrite IH. destruct (existsb _ past); [done|].
    cbn. by rewrite app_assoc.
Qed.

Lemma no_message b req step : message_order req = (side_of (negb b), step) ->
  message_chunk b req = ([], false) /\ message_ends b req = false.
Proof. by destruct req, b; cbn; intros ?; simplify_eq. Qed.

Lemma no_header_message b req : message_order req = (side_of b, Headers) ->
  message_chunk b req = ([], false) /\ message_ends b req = false.
Proof. by destruct req, b; cbn; intros ?; simplify_eq. Qed.

Lemma of_side_order b req step : message_order req = (side_of b, step) -> of_side b req = true /\ of_side (negb b) req = false.
Proof. by destruct req, b; cbn; intros ?; simplify_eq. Qed.

(** What is no message of the side says nothing of it. *)
Lemma not_of_side b req : of_side b req = false ->
  head_ends b req = false /\ message_chunk b req = ([], false) /\ trailers_of b req = false.
Proof. by destruct req, b. Qed.

(** Before its first message nothing has been said of a side. *)
Lemma not_came b past : came b past = false ->
  heads_ended b past = false /\ existsb (trailers_of b) past = false /\
  existsb (fun req => (message_chunk b req).2) past = false.
Proof.
  unfold came, heads_ended. induction past as [|r past IH]; [done|]. cbn. intros [Hr Hp]%orb_false_iff.
  destruct (IH Hp) as (-> & -> & ->). by destruct (not_of_side b r Hr) as (-> & -> & ->).
Qed.

(** ** One message *)

Section Marks.
Context `{PraxisFilter}.
Variable pipeline : FilterPipeline.

Definition head_mark (b : bool) (s : StreamState) : PhaseState := phase_state (eos_tracker s) (headers_phase b).

(** What a message marks. *)
Definition marked (req : ReqMsg) (s : StreamState) : EosTracker :=
  let mark phase (eos : bool) := if eos then mark_complete phase (eos_tracker s) else eos_tracker s in
  match req with
  | RequestHeaders h => mark PRequestHeaders (hh_end_of_stream h)
  | ResponseHeaders h => mark PResponseHeaders (hh_end_of_stream h)
  | RequestBody body => mark PRequestBody (hb_end_of_stream body)
  | ResponseBody body => mark PResponseBody (hb_end_of_stream body)
  | RequestTrailers _ => mark PRequestBody (body_open true s)
  | ResponseTrailers _ => mark PResponseBody (negb (po_local_reply (phase_order s)) && body_open false s)
  end.
Definition marks_it (req : ReqMsg) (s : StreamState) (r : result Status (list ProcessingResponse)) (s' : StreamState)
  (_ : Glob Env) : Prop :=
  match r with Ok _ => eos_tracker s' = marked req s | Err _ => True end.

#[local] Hint Extern 3 (frames eos_tracker _) => (apply eos_still; solve [auto with frames nocore]) : frames.
#[local] Hint Extern 4 (frames eos_tracker _) => (apply (eos_view true); solve [auto with frames nocore]) : frames.
#[local] Hint Extern 4 (frames eos_tracker _) => (apply (eos_view false); solve [auto with frames nocore]) : frames.

(** Marking twice is marking once. *)
Lemma mark_again phase (eos : bool) (t : EosTracker) :
  phase_state t phase = Completed -> (if eos then mark_complete phase t else t) = t.
Proof. destruct eos; [|done]. destruct t, phase; cbn; by intros ->. Qed.

Lemma marking phase eos (k : PhaseState -> M Env StreamState (list ProcessingResponse)) t s (g : Glob Env) :
  t = (if eos : bool then mark_complete phase (eos_tracker s) else eos_tracker s) ->
  frames eos_tracker (k Completed) -> frames eos_tracker (k Active) ->
  wp (let? entry := mark_phase phase eos in k entry)
    (fun r s' _ => match r with Ok _ => eos_tracker s' = t | Err _ => True end) s g.
Proof.
  intros -> Hc Ha. wp_step. apply wp_mark_phase; [intros Hd| |done].
  - eapply wp_mono; [apply Hc|]. cbv beta. intros [rs|e] s' g' E; [|done]. rewrite E. symmetry. by apply mark_again.
  - intros _ _ _. eapply wp_mono; [apply Ha|]. cbv beta. by intros [rs|e] s' g' E.
Qed.

Ltac unfold_handlers :=
  unfold handle_end_stream_request_headers, handle_request_headers_with_body,
      handle_unsupported_selected_request_headers, request_headers_without_body_filter, apply_response_mode_override,
      run_bodyless_selected_upstream_pipeline, record_local_reply, accumulate_request_body,
      accumulate_response_body, run_trailing_fds_body, run_trailing_body_pipeline, run_request_pipeline.

Lemma trailers_mark b s (g : Glob Env) :
  wp (handle_trailers pipeline b) (fun r s' _ => match r with
    | Ok _ => eos_tracker s' = if body_open b s then mark_complete (body_phase b) (eos_tracker s) else eos_tracker s
    | Err _ => True end) s g.
Proof.
  unfold handle_trailers, finalize_body_on_trailers. repeat wp_step. destruct (body_open b s); cbn [negb].
  2: { repeat wp_step. by wp_case; wp_step. }
  assert (Hp : (trailing_body_phase pipeline s b).1.1 = body_phase b) by by destruct b.
  destruct (trailing_body_phase pipeline s b) as [[phase mode] needs]. cbn in Hp. subst phase. repeat wp_step.
  set (s1 := with_eos_tracker _ s). change (mark_complete (body_phase b) (eos_tracker s)) with (eos_tracker s1). clearbody s1.
  assert (Hk : frames (E := Env) eos_tracker (match mode with
    | Streamed => if needs then flush_streamed_body_filters pipeline b else ret []
    | FullDuplexStreamed => if needs then run_trailing_fds_body pipeline b else flush_deferred_fds_headers b
    | Buffered => if b && buffered_request_body_processed s then ret []
        else let? responses := run_trailing_body_pipeline pipeline b in ret (rejection_only responses)
    | None_ | BufferedPartial => ret []
    end)) by (unfold_handlers; frame).
  eapply wp_mono; [apply Hk|]. cbv beta. intros [rs|e] s' g' E; [|done]. wp_case; by wp_step.
Qed.

Lemma handle_marks req s (g : Glob Env) : wp (handle pipeline s req) (marks_it req s) s g.
Proof.
  unfold handle, local_reply. destruct (po_local_reply (phase_order s)) eqn:Hl; destruct req; cbn [local_reply_passthrough].
  all: try by wp_step.
  - apply marking; [done|..]; cbn [is_complete]; unfold_handlers; frame.
  - unfold local_reply_body. do 2 wp_step. apply marking; [done|..]; unfold_handlers; frame.
  - wp_step. unfold marks_it, marked. by rewrite Hl.
  - apply marking; [done|..]; cbn [is_complete]; unfold_handlers; frame.
  - apply marking; [done|..]; cbn [is_complete]; unfold_handlers; frame.
  - unfold handle_request_body. do 4 wp_step. apply marking; [done|..]; unfold_handlers; frame.
  - unfold handle_response_body. do 4 wp_step. apply marking; [done|..]; unfold_handlers; frame.
  - apply trailers_mark.
  - eapply wp_mono; [apply trailers_mark|]. unfold marks_it, marked. by rewrite Hl.
Qed.

(** ** Whole streams *)

(** The filters hold the body of the side until its end; not that of a local reply. *)
Definition held (b : bool) (reqs : list ReqMsg) : bool :=
  if b then needs_request_body (caps pipeline) || needs_selected_upstream_request_body (caps pipeline)
  else needs_response_body (caps pipeline) && negb (local_exchange reqs).

Definition mark_if (b : bool) : PhaseState := if b then Completed else Active.

(** Between two messages, what those so far have said. *)
Record Said (past : list ReqMsg) (s : StreamState) : Prop := {
  said_came : forall b, bool_decide (position b (phase_order s) = None) = negb (came b past);
  said_local : po_local_reply (phase_order s) = local_exchange past;
  said_head : forall b, head_mark b s = mark_if (heads_ended b past);
  said_body : forall b, body_mark b s = mark_if (body_closed b past);
}.

Lemma said_some past s b : Said past s -> position b (phase_order s) <> None <-> came b past = true.
Proof.
  intros HS. pose proof (said_came _ _ HS b) as Hc. case_bool_decide; destruct (came b past); cbn in Hc; naive_solver.
Qed.

Lemma said_holds past s b : Said past s -> holds pipeline b s = held b past.
Proof. intros HS. unfold holds, held. by rewrite (said_local _ _ HS). Qed.

Lemma came_snoc b past req : came b (past ++ [req]) = came b past || of_side b req.
Proof. unfold came. rewrite existsb_app. cbn. by rewrite orb_false_r. Qed.
Lemma heads_snoc b past req : heads_ended b (past ++ [req]) = heads_ended b past || head_ends b req.
Proof. unfold heads_ended. rewrite existsb_app. cbn. by rewrite orb_false_r. Qed.
Lemma local_snoc past req : local_exchange (past ++ [req]) = match past with [] => of_side false req | _ => local_exchange past end.
Proof. by destruct past. Qed.

(** A message says nothing of the other side. *)
Lemma head_other b s req : of_side b req = false -> phase_state (marked req s) (headers_phase b) = head_mark b s.
Proof. unfold head_mark. destruct req, b; cbn; try done; intros _; repeat case_match; done. Qed.
Lemma body_other b s req : of_side b req = false -> phase_state (marked req s) (body_phase b) = body_mark b s.
Proof. unfold body_mark. destruct req, b; cbn; try done; intros _; repeat case_match; done. Qed.

Lemma body_closed_other b past req :
  of_side b req = false -> (came b past = true -> local_exchange (past ++ [req]) = local_exchange past) ->
  body_closed b (past ++ [req]) = body_closed b past.
Proof.
  intros Hr Hl. unfold body_closed. rewrite heads_snoc, !existsb_app. cbn.
  destruct (not_of_side b req Hr) as (-> & -> & ->). rewrite !orb_false_r. destruct (came b past) eqn:Hc; [by rewrite Hl|].
  by destruct (not_came b past Hc) as (_ & -> & _).
Qed.

(** The first message decides whether the exchange is a local reply. *)
Lemma said_first past s b req step :
  Said past s -> message_order req = (side_of b, step) ->
  po_local_reply (advanced b step (phase_order s)) = local_exchange (past ++ [req]).
Proof.
  intros HS Hm. rewrite local_snoc. unfold advanced, opens. cbn [po_local_reply order_advance]. rewrite (said_local _ _ HS).
  destruct (of_side_order b req step Hm) as [Ho Hn]. pose proof (said_came _ _ HS true) as Hc. cbn [position] in Hc.
  destruct past as [|r past]; cbn [local_exchange] in *.
  - cbn in Hc. rewrite Hc. destruct b; cbn [negb side_of] in *; [by rewrite Hn|by rewrite Ho].
  - destruct b; [by rewrite orb_false_r|]. rewrite Hc. cbn [came existsb].
    assert (Hr : of_side true r = negb (of_side false r)) by by destruct r.
    rewrite Hr. by destruct (of_side false r), (existsb (of_side true) past).
Qed.

Lemma local_kept past s b req :
  Said past s -> came b past = true -> local_exchange (past ++ [req]) = local_exchange past.
Proof. intros _ Hc. rewrite local_snoc. by destruct past. Qed.

(** What a message of the side itself says, by its step. *)
Lemma own_opening b past s req :
  Said past s -> message_order req = (side_of b, Headers) -> came b past = false ->
  phase_state (marked req s) (headers_phase b) = mark_if (heads_ended b (past ++ [req])) /\
  phase_state (marked req s) (body_phase b) = mark_if (body_closed b (past ++ [req])).
Proof.
  intros HS Hm Hc. destruct (not_came b past Hc) as (E1 & E2 & E3).
  pose proof (said_head _ _ HS b) as Hh. pose proof (said_body _ _ HS b) as Hb. rewrite E1 in Hh.
  assert (Hb' : body_mark b s = Active) by (rewrite Hb; unfold body_closed; by rewrite E2, E3).
  assert (body_closed b (past ++ [req]) = false) as ->.
  { unfold body_closed. rewrite !existsb_app, E2, E3. by destruct req, b; cbn in Hm; simplify_eq. }
  rewrite heads_snoc, E1. unfold head_mark, body_mark in *.
  destruct req, b; cbn in Hm; simplify_eq; cbn in *; destruct (hh_end_of_stream _); cbn; by rewrite ?Hh, ?Hb'.
Qed.

Lemma own_chunk (b : bool) past s (body : HttpBody) :
  let req := if b then RequestBody body else ResponseBody body in
  Said past s -> came b past = true ->
  phase_state (marked req s) (headers_phase b) = mark_if (heads_ended b (past ++ [req])) /\
  phase_state (marked req s) (body_phase b) = mark_if (body_closed b (past ++ [req])).
Proof.
  intros req HS Hc. pose proof (said_head _ _ HS b) as Hh. pose proof (said_body _ _ HS b) as Hb.
  assert (head_ends b req = false /\ trailers_of b req = false /\ (message_chunk b req).2 = hb_end_of_stream body)
    as (E1 & E2 & E3) by by destruct b.
  assert (body_closed b (past ++ [req]) = body_closed b past || hb_end_of_stream body) as ->.
  { unfold body_closed. rewrite !existsb_app, heads_snoc, (local_kept past s b) by done. cbn. rewrite E1, E2, E3, !orb_false_r.
    by destruct (existsb _ past), (hb_end_of_stream body), (existsb (trailers_of b) past && _ && _). }
  rewrite heads_snoc, E1, orb_false_r. unfold head_mark, body_mark in *.
  split; [|destruct (body_closed b past)]; destruct b; cbn in *; destruct (hb_end_of_stream body); cbn; by rewrite ?Hh, ?Hb.
Qed.

Lemma own_trailers (b : bool) past s (t : HttpTrailers) :
  let req := if b then RequestTrailers t else ResponseTrailers t in
  Said past s -> came b past = true -> po_local_reply (phase_order s) = local_exchange past ->
  (if b then is_Some (request s) else local_exchange past = false -> response_open s -> is_Some (response s)) ->
  phase_state (marked req s) (headers_phase b) = mark_if (heads_ended b (past ++ [req])) /\
  phase_state (marked req s) (body_phase b) = mark_if (body_closed b (past ++ [req])).
Proof.
  intros req HS Hc Hl Hp. pose proof (said_head _ _ HS b) as Hh. pose proof (said_body _ _ HS b) as Hb.
  assert (head_ends b req = false /\ trailers_of b req = true /\ (message_chunk b req).2 = false)
    as (E1 & E2 & E3) by by destruct b.
  assert (body_closed b (past ++ [req]) =
          body_closed b past || (negb (heads_ended b past) && (b || negb (local_exchange past)))) as ->.
  { unfold body_closed. rewrite !existsb_app, heads_snoc, (local_kept past s b) by done. cbn. rewrite E1, E2, E3, !orb_false_r, orb_true_r.
    destruct (existsb (fun req => (message_chunk b req).2) past); [done|]. cbn [orb andb].
    by destruct (existsb (trailers_of b) past), (negb (heads_ended b past)), (b || negb (local_exchange past)). }
  rewrite heads_snoc, E1, orb_false_r. unfold head_mark, body_mark in Hh, Hb.
  assert (Hopen : (b || negb (po_local_reply (phase_order s))) && body_open b s =
                  negb (body_closed b past) && (negb (heads_ended b past) && (b || negb (local_exchange past)))).
  { unfold body_open. destruct b; cbn [orb andb headers_phase body_phase] in *; rewrite Hh, Hb.
    - rewrite bool_decide_true by done. by destruct (heads_ended true past), (body_closed true past).
    - rewrite Hl. destruct (local_exchange past); cbn [negb andb]; [by rewrite !andb_false_r|].
      unfold response_open in Hp. rewrite andb_true_r.
      destruct (heads_ended false past), (body_closed false past); cbn [mark_if is_complete negb andb]; rewrite ?andb_false_r; try done.
      rewrite bool_decide_true; [done|]. apply Hp; [done|]. split; [exact Hh|exact Hb]. }
  split; [by destruct b; cbn in *; repeat case_match|].
  assert (Hm : phase_state (marked req s) (body_phase b) =
    if (b || negb (po_local_reply (phase_order s))) && body_open b s then Completed else phase_state (eos_tracker s) (body_phase b)).
  { destruct b; cbn [marked req orb andb]; by destruct (body_open _ s), (po_local_reply (phase_order s)). }
  rewrite Hm, Hopen, Hb. by destruct (body_closed b past), (heads_ended b past), b, (local_exchange past).
Qed.

Variable max : option Z.

(** A message of the side itself, whichever its step. *)
Lemma said_own past b step req s (g : Glob Env) :
  Said past s -> Inv max s g -> message_order req = (side_of b, step) ->
  invalid_transition (position b (phase_order s)) step = false ->
  let s1 := with_phase_order (advanced b step (phase_order s)) s in
  phase_state (marked req s1) (headers_phase b) = mark_if (heads_ended b (past ++ [req])) /\
  phase_state (marked req s1) (body_phase b) = mark_if (body_closed b (past ++ [req])).
Proof.
  intros HS [_ HO] Hm Htr s1. destruct (headers_first _ _ _ Htr) as [[-> Hp]|[Hst [prev Hp]]].
  - assert (Hc : came b past = false).
    { pose proof (said_came _ _ HS b) as Hc. rewrite Hp, bool_decide_true in Hc by done. by destruct (came b past). }
    assert (marked req s1 = marked req s) as -> by (destruct req, b; cbn in Hm; by simplify_eq). by apply own_opening.
  - assert (Hc : came b past = true) by (apply (said_some past s b HS); congruence).
    assert (HS1 : Said past s1).
    { constructor; [|by rewrite <- (local_kept past s b req HS Hc), <- (said_first past s b req step HS Hm)|
        exact (said_head _ _ HS)|exact (said_body _ _ HS)].
      intros b'. rewrite <- (said_came _ _ HS b'). cbn [s1 phase_order with_phase_order]. destruct (decide (b' = b)) as [->|Hne].
      - by rewrite advanced_own, Hp.
      - by rewrite advanced_other. }
    destruct step; [done| |].
    + assert (exists body, req = if b then RequestBody body else ResponseBody body) as [body ->]
        by (destruct req, b; cbn in Hm; simplify_eq; by eexists). by apply own_chunk.
    + assert (exists t, req = if b then RequestTrailers t else ResponseTrailers t) as [t ->]
        by (destruct req, b; cbn in Hm; simplify_eq; by eexists). apply own_trailers; [done|done|exact (said_local _ _ HS1)|].
      destruct b; cbn in Hp; [apply (ord_request _ _ HO); congruence|]. intros Hl Hop.
      apply (ord_response _ _ HO); [congruence| |exact Hop]. by rewrite (said_local _ _ HS).
Qed.

(** Whatever the message, what it says is what the next state shows. *)
Lemma said_handled past b step req s s1 s' (g : Glob Env) :
  Said past s -> Inv max s g -> message_order req = (side_of b, step) ->
  invalid_transition (position b (phase_order s)) step = false ->
  s1 = with_phase_order (advanced b step (phase_order s)) s ->
  eos_tracker s' = marked req s1 -> phase_order s' = phase_order s1 -> Said (past ++ [req]) s'.
Proof.
  intros HS HI Hm Htr -> Ht Ho. pose proof (said_own past b step req s g HS HI Hm Htr) as Hboth. cbv zeta in Hboth.
  set (s1 := with_phase_order _ s) in *.
  destruct (of_side_order b req step Hm) as [Hown Hoth]. pose proof (said_first past s b req step HS Hm) as Hlo.
  assert (Hother : forall b', b' <> b -> of_side b' req = false) by (intros b' Hne; by assert (b' = negb b) as -> by by destruct b, b').
  assert (Hl' : forall b', b' <> b -> came b' past = true -> local_exchange (past ++ [req]) = local_exchange past)
    by (intros b' _ Hc; by apply (local_kept past s b')).
  constructor.
  - intros b'. rewrite Ho, came_snoc. cbn [s1 phase_order with_phase_order]. destruct (decide (b' = b)) as [->|Hne].
    + rewrite advanced_own, Hown, orb_true_r. done.
    + rewrite advanced_other, (Hother b' Hne), orb_false_r by done. apply (said_came _ _ HS).
  - by rewrite Ho.
  - intros b'. unfold head_mark. rewrite Ht. destruct (decide (b' = b)) as [->|Hne]; [apply Hboth|].
    rewrite head_other, heads_snoc by auto. destruct (not_of_side b' req (Hother b' Hne)) as (-> & _). rewrite orb_false_r.
    exact (said_head _ _ HS b').
  - intros b'. unfold body_mark. rewrite Ht. destruct (decide (b' = b)) as [->|Hne]; [apply Hboth|].
    rewrite body_other, body_closed_other by eauto. exact (said_body _ _ HS b').
Qed.

Lemma dispatch_said past req s (g : Glob Env) :
  Said past s -> Inv max s g ->
  wp (dispatch_request pipeline req) (when_ok_in (fun _ s' g' => Said (past ++ [req]) s' /\ Inv max s' g')) s g.
Proof.
  intros HS HI.
  assert (Hsaid : wp (dispatch_request pipeline req) (when_ok_in (fun _ s' g' => Said (past ++ [req]) s')) s g).
  { apply dispatch_handles; [done|]. intros side step Hm Hside Htr s1.
    assert (Hs1 : s1 = with_phase_order (advanced (is_request_side side) step (phase_order s)) s) by (by destruct side).
    clearbody s1. assert (Hm2 : message_order req = (side_of (is_request_side side), step)) by (by destruct side).
    eapply wp_mono; [exact (wp_and _ _ _ _ _ (handle_marks req s1 g) (handle_answers pipeline req s1 g))|].
    cbv beta. intros [rs|e] s' g' [Ht Hans]; [|done]. intros Hi. destruct Hans as [Hk _].
    destruct (kept_facts pipeline _ step req s1 rs s' Hm2 Hk) as ([So _ _ _ _] & _). by eapply said_handled. }
  eapply wp_mono; [exact (wp_and _ _ _ _ _ Hsaid (dispatch_spec pipeline max req s g HI))|]. cbv beta.
  intros [rs|e] s' g' [HS' Hd]; [|done]. intros Hi. split; [by apply HS'|]. by apply Hd.
Qed.

Variable trust : bool.
Variable selector : ResponseModeSelector.

(** A stream invariant that may read what the messages have said. *)
Lemma run_said (P : list ReqMsg -> list ProcessingResponse -> StreamState -> Prop) inbound env warned :
  max_valid max ->
  (forall past sent req s (g : Glob Env), Budget pipeline sent s -> Said past s -> P past sent s ->
     wp (dispatch_request pipeline req) (when_ok (fun rs s' => Budget pipeline (sent ++ rs) s' -> Said (past ++ [req]) s' ->
       P (past ++ [req]) (sent ++ rs) s')) s g) ->
  P [] [] (with_protocol_config (announced inbound) (initial_state max trust selector)) ->
  let sent := run_sent pipeline max trust selector (fun _ => true) inbound env warned in
  let s := run_state pipeline max trust selector (fun _ => true) inbound env warned in
  run_result pipeline max trust selector (fun _ => true) inbound env warned = Ok tt ->
  existsb is_immediate sent = false ->
  Budget pipeline sent s /\ Said (requests inbound) s /\ P (requests inbound) sent s.
Proof.
  intros Hv Hd H0' sent s Hr Hi.
  destruct (run_holds_in pipeline (fun past sent s g => (Said past s /\ Inv max s g) /\ Budget pipeline sent s /\ P past sent s))
    with (max := max) (trust := trust) (selector := selector) (inbound := inbound) (env := env) (warned := warned)
    as (g & _ & (HS & _) & HB & HP); try done.
  - intros past sent' req s0 g HB ((HS & HI) & _ & HP).
    eapply wp_mono; [exact (wp_and _ _ _ _ _ (Hd past sent' req s0 g HB HS HP) (wp_and _ _ _ _ _ (dispatch_budget pipeline req sent' s0 g HB)
      (dispatch_said past req s0 g HS HI)))|].
    cbv beta. intros [rs|e] s' g' (Hx & Hb & Hs); [|done]. intros Hn. destruct (Hs Hn) as [HS' HI'], Hb as [_ Hb].
    specialize (Hb Hn). split_and!; auto; by apply Hx.
  - split_and!.
    + constructor; try done; by intros [].
    + apply inv_config. by apply initial_inv.
    + apply budget_config; [|by left]. constructor; try done; by intros [].
    + apply H0'.
Qed.
End Marks.
