(* ===== verification/Continuity.v ===== *)
(** * The filters resume where they left off

    Between two messages the server keeps what the filters carry (their state, metadata, branch
    counters, the cluster, the body mode they chose) in one slot of the stream's state. Here: the
    filter calls of a stream form a chain. Each call starts with exactly what the call before it
    left, in the environment it left, however many messages, handlers and phases lie between. *)

From S2P Require Import Prelude RustStd Proto Effect Extern Concrete Metrics Response Protocol Adapter ResponseMode State Pipeline Handlers Server Invariant StreamInv Stream Guarantees Answers Budget Replies Runs Frames.

(** The filter calls of a trace. *)
Definition call_of (e : Event) : option FilterCall := match e with ECall c => Some c | _ => None end.
Definition calls_of (log : list Event) : list FilterCall := omap call_of log.

Lemma calls_log e log : calls_of (log ++ [e]) = calls_of log ++ option_list (call_of e).
Proof. unfold calls_of. rewrite omap_app. cbn. by destruct (call_of e). Qed.

Section Continuity.
Context `{PraxisFilter}.
Variable pipeline : FilterPipeline.

Abbreviation Stream := (M Env StreamState).

(** What a slot resumes to: a mode no filter has chosen yet is that of a fresh context. *)
Definition resumes (c : CarriedContext) : CarriedContext :=
  {| cc_cluster := cc_cluster c;
     cc_branch_iterations := cc_branch_iterations c;
     cc_executed_filter_indices := cc_executed_filter_indices c;
     cc_filter_metadata := cc_filter_metadata c;
     cc_filter_state := cc_filter_state c;
     cc_response_body_mode := Some (default FilterStream (cc_response_body_mode c));
     cc_request_body_bytes := cc_request_body_bytes c;
     cc_response_body_bytes := cc_response_body_bytes c |}.

(** A successful call of the filters, from what they carried in to what they carried out. *)
Inductive filter_call : FilterCall -> CarriedContext * Env -> CarriedContext * Env -> Prop :=
| called_request ctx env a ctx' env' :
    execute_http_request pipeline ctx env = (Ok a, ctx', env') ->
    filter_call CallRequest (capture ctx, env) (capture ctx', env')
| called_response ctx env a ctx' env' :
    execute_http_response pipeline ctx env = (Ok a, ctx', env') ->
    filter_call CallResponse (capture ctx, env) (capture ctx', env')
| called_request_body ctx body eos env a ctx' body' env' :
    execute_http_request_body pipeline ctx body eos env = (Ok a, ctx', body', env') ->
    filter_call CallRequestBody (capture ctx, env) (capture ctx', env')
| called_upstream_body ctx body env a ctx' body' env' :
    execute_http_selected_upstream_request_body pipeline ctx body env = (Ok a, ctx', body', env') ->
    filter_call CallSelectedUpstreamRequestBody (capture ctx, env) (capture ctx', env')
| called_response_body ctx body eos env a ctx' body' env' :
    execute_http_response_body pipeline ctx body eos env = (Ok a, ctx', body', env') ->
    filter_call CallResponseBody (capture ctx, env) (capture ctx', env').

(** Calls, each from where the one before it ended. *)
Inductive chain (x : CarriedContext * Env) : list FilterCall -> CarriedContext * Env -> Prop :=
| chain_start : chain x [] x
| chain_next cs y c z : chain x cs y -> filter_call c y z -> chain x (cs ++ [c]) z.

(** ** Bystanders *)

(** [m] touches neither what [f] sees of its state, nor the environment, and calls no filter. *)
Definition aside {S A} (f : S -> option CarriedContext) (m : M Env S A) : Prop :=
  forall s g, wp m (fun _ s' g' =>
    f s' = f s /\ g_env g' = g_env g /\ calls_of (g_log g') = calls_of (g_log g)) s g.

Section Rules.
Context {S : Type}.
Variable f : S -> option CarriedContext.

Lemma aside_ret {A} (a : A) : aside f (ret a).
Proof. by intros s g; wp_step. Qed.
Lemma aside_fail {A} e : aside f (fail e : M Env S A).
Proof. by intros s g; wp_step. Qed.
Lemma aside_lift {A} (r : result Status A) : aside f (lift r).
Proof. by intros s g; wp_step. Qed.
Lemma aside_get : aside f get.
Proof. by intros s g; wp_step. Qed.
Lemma aside_modify u : (forall s, f (u s) = f s) -> aside f (modify u).
Proof. by intros Hu s g; wp_step. Qed.
Lemma aside_emit e : call_of e = None -> aside f (emit e).
Proof. intros He s g; wp_step. cbn. by rewrite calls_log, He, app_nil_r. Qed.
Lemma aside_get_env : aside f get_env.
Proof. by intros s g; wp_step. Qed.
Lemma aside_get_warned : aside f get_warned.
Proof. by intros s g; wp_step. Qed.
Lemma aside_put_warned b : aside f (put_warned b).
Proof. by intros s g; wp_step. Qed.
Lemma aside_attempt {A} (m : M Env S A) : aside f m -> aside f (attempt m).
Proof. intros Hm s g. wp_step. apply Hm. Qed.
Lemma aside_bind {A B} (m : M Env S A) (k : A -> M Env S B) :
  aside f m -> (forall a, aside f (k a)) -> aside f (bind m k).
Proof.
  intros Hm Hk s g. wp_step. eapply wp_mono; [apply Hm|]. intros [a|e] s' g' (E1 & E2 & E3); [|done].
  eapply wp_mono; [apply Hk|]. intros r s2 g2 (F1 & F2 & F3). split_and!; congruence.
Qed.
Lemma aside_zoom {T A} (gf : S -> T) sf (m : M Env T A) :
  (forall t s, f (sf t s) = f s) -> aside (fun _ => None) m -> aside f (zoom gf sf m).
Proof.
  intros Hs Hm s g. wp_step. eapply wp_mono; [apply Hm|]. intros r t g' (_ & E2 & E3). by rewrite Hs.
Qed.
End Rules.
End Continuity.

Create HintDb aside discriminated.
#[export] Hint Resolve aside_ret aside_fail aside_lift aside_get aside_get_env aside_get_warned aside_put_warned : aside.

(** One rule per construct; updates and events by computation, calls by the database. *)
Ltac aside_step :=
  match goal with
  | |- forall _, _ => intro
  | |- aside _ (match ?x with _ => _ end) => destruct x
  | |- aside _ (bind _ _) => apply aside_bind
  | |- aside _ (attempt _) => apply aside_attempt
  | |- aside _ (modify _) => apply aside_modify; intros; reflexivity
  | |- aside _ (emit _) => apply aside_emit; reflexivity
  | |- aside _ (zoom _ _ _) => apply aside_zoom; [intros; reflexivity|]
  | |- aside _ _ => solve [auto with aside nocore]
  end.
Ltac step_aside := repeat aside_step.

Section Handlers.
Context `{PraxisFilter}.
Variable pipeline : FilterPipeline.

Abbreviation bystander m := (aside (S := StreamState) carried_context m).

Lemma aside_mark phase eos : bystander (mark_phase phase eos).
Proof. unfold mark_phase, check_and_mark, record_invalid_argument. step_aside. Qed.
Lemma aside_redelivery e m p : bystander (handle_body_redelivery e m p).
Proof. unfold handle_body_redelivery, duplicate_after_eos, record_invalid_argument. step_aside. Qed.
Lemma aside_duplicate {A} p : bystander (duplicate_after_eos (A := A) p).
Proof. unfold duplicate_after_eos, record_invalid_argument. step_aside. Qed.
Lemma aside_limit x y z : bystander (check_body_limit x y z).
Proof. unfold check_body_limit, record_body_size_rejection. step_aside. Qed.
#[local] Hint Resolve aside_mark aside_redelivery aside_duplicate aside_limit : aside.
Lemma aside_streamed_limit n : bystander (reject_streamed_request_over_limit pipeline n).
Proof. unfold reject_streamed_request_over_limit. step_aside. Qed.
Lemma aside_outcome r : bystander (action_outcome r).
Proof. unfold action_outcome, immediate_from_action, record_immediate_response. step_aside. Qed.
Lemma aside_immediate a : bystander (immediate_from_action a).
Proof. unfold immediate_from_action, record_immediate_response. step_aside. Qed.
Lemma aside_missing {A} : bystander (missing_request_headers (A := A)) /\ bystander (missing_response_headers (A := A)).
Proof. split; unfold missing_request_headers, missing_response_headers, record_invalid_argument; step_aside. Qed.
Lemma aside_warn b m : bystander (warn_unapplied_header_mutations b m).
Proof. unfold warn_unapplied_header_mutations. step_aside. Qed.
Lemma aside_write_back ctx : bystander (write_back_response ctx).
Proof. unfold write_back_response. step_aside. Qed.
Lemma aside_take_first b : bystander (take_first b).
Proof. unfold take_first. step_aside. Qed.
Lemma aside_deferred b : bystander (deferred_header_response b).
Proof. unfold deferred_header_response. step_aside. Qed.
#[local] Hint Resolve aside_streamed_limit aside_outcome aside_immediate aside_warn aside_write_back aside_take_first
  aside_deferred : aside.
Lemma aside_passthrough body mode b : bystander (passthrough_chunk body mode b).
Proof. unfold passthrough_chunk. step_aside. Qed.
Lemma aside_flush_deferred b : bystander (flush_deferred_fds_headers b).
Proof. unfold flush_deferred_fds_headers. step_aside. Qed.
Lemma aside_buffer_chunk ctx p eos : bystander (buffer_response_chunk ctx p eos).
Proof. unfold buffer_response_chunk, record_body_size_rejection. step_aside. Qed.
Lemma aside_build_request phase m n eos : bystander (build_request phase m n eos).
Proof. unfold build_request, build_bodyless_selected_request_response. step_aside. Qed.
Lemma aside_deliver d m : bystander (deliver_request d m) /\ bystander (deliver_response d m).
Proof. split; unfold deliver_request, deliver_response; step_aside. Qed.
Lemma aside_local req : bystander (local_reply_passthrough req).
Proof.
  unfold local_reply_passthrough, local_reply_headers, local_reply_body, record_local_reply.
  pose proof aside_passthrough. step_aside.
Qed.
Lemma aside_override rs h : bystander (apply_response_mode_override pipeline rs h).
Proof. unfold apply_response_mode_override. step_aside. Qed.

(** ** Triples over the slot, the environment and the calls *)

Section Triples.
Variable start : CarriedContext * Env.

(** What is known of them: an assertion. *)
Definition assertion : Type := option CarriedContext -> Env -> list FilterCall -> Prop.
Definition holds_at (P : assertion) (s : StreamState) (g : Glob Env) : Prop :=
  P (carried_context s) (g_env g) (calls_of (g_log g)).

(** The slot holds what the chain of calls has led to, or a phase has taken it out. *)
Definition parked : assertion :=
  fun slot env cs => exists c, slot = Some c /\ chain pipeline start cs (resumes c, env).
Definition held (ctx : Ctx) : assertion :=
  fun slot env cs => slot = None /\ chain pipeline start cs (capture ctx, env).

(** An outcome that is an error ends the run. *)
Definition if_ok {T} (r : result Status T) (P : assertion) : assertion :=
  fun slot env cs => is_ok r = true -> P slot env cs.

(** If [m] succeeds from [P], then in [Q] of its result. *)
Definition triple {A} (P : assertion) (m : M Env StreamState A) (Q : A -> assertion) : Prop :=
  forall s g, holds_at P s g -> wp m (fun r s' g' => match r with Ok a => holds_at (Q a) s' g' | Err _ => True end) s g.

Lemma triple_bind {A B} P (m : M Env StreamState A) Q (k : A -> M Env StreamState B) R :
  triple P m Q -> (forall a, triple (Q a) (k a) R) -> triple P (bind m k) R.
Proof.
  intros Hm Hk s g HP. wp_step. eapply wp_mono; [by apply Hm|]. intros [a|e] s' g' HQ; [|done]. by apply Hk.
Qed.

Lemma triple_post {A} P (m : M Env StreamState A) (Q R : A -> assertion) :
  triple P m Q -> (forall a slot env cs, Q a slot env cs -> R a slot env cs) -> triple P m R.
Proof.
  intros Hm HR s g HP. eapply wp_mono; [by apply Hm|]. intros [a|e] s' g' HQ; [|done]. by apply HR.
Qed.

Lemma triple_pre {A} (P P' : assertion) (m : M Env StreamState A) Q :
  (forall slot env cs, P slot env cs -> P' slot env cs) -> triple P' m Q -> triple P m Q.
Proof. intros HP Hm s g HPs. by apply Hm, HP. Qed.

(** A successful outcome. *)
Lemma triple_known {A T} (a : T) P (m : M Env StreamState A) Q : triple P m Q -> triple (if_ok (Ok a) P) m Q.
Proof. apply triple_pre. intros slot env cs HP. by apply HP. Qed.

Lemma triple_aside {A} P (m : M Env StreamState A) : bystander m -> triple P m (fun _ => P).
Proof.
  intros Hm s g HP. eapply wp_mono; [apply Hm|]. unfold holds_at in *. intros [a|e] s' g' (E1 & E2 & E3); [by rewrite E1, E2, E3|done].
Qed.

Lemma triple_skip {A B} P (m : M Env StreamState A) (k : A -> M Env StreamState B) R :
  bystander m -> (forall a, triple P (k a) R) -> triple P (bind m k) R.
Proof. intros Hm Hk. eapply triple_bind; [by apply triple_aside|exact Hk]. Qed.

Lemma triple_ret {A} P (a : A) (R : A -> assertion) :
  (forall slot env cs, P slot env cs -> R a slot env cs) -> triple P (ret a) R.
Proof. intros HR s g HP. wp_step. by apply HR. Qed.

Lemma triple_lift {A} (r : result Status A) P : triple (if_ok r P) (lift r) (fun _ => P).
Proof. intros s g HP. wp_step. destruct r; [by apply HP|done]. Qed.

Lemma triple_outcome r P : triple (if_ok r P) (action_outcome r) (fun _ => P).
Proof.
  unfold action_outcome. eapply triple_bind; [apply triple_lift|]. intros a. apply triple_aside, aside_immediate.
Qed.

Lemma triple_attempt {A} P (m : M Env StreamState A) Q :
  triple P m (fun _ => Q) -> triple P (attempt m) (fun o => if_ok o Q).
Proof. intros Hm s g HP. wp_step. eapply wp_mono; [by apply Hm|]. by intros [a|e] s' g' HQ ?. Qed.

(** ** The calls *)

Lemma triple_run_call {A} c (f : Env -> result string FilterAction * A * Env) ctx (to : A -> Ctx) :
  (forall env a x env', f env = (Ok a, x, env') -> filter_call pipeline c (capture ctx, env) (capture (to x), env')) ->
  triple (held ctx) (run_call c f) (fun p => if_ok p.1 (held (to p.2))).
Proof.
  intros Hf s g [Hs Hc]. unfold run_call. repeat wp_step. cbn [g_env log_event].
  destruct (f (g_env g)) as [[r x] env'] eqn:E. repeat wp_step. intros Hr. destruct r as [a|]; [|done].
  split; [done|]. cbn. rewrite calls_log. eapply chain_next; [exact Hc|]. by eapply Hf.
Qed.

Lemma triple_request ctx : triple (held ctx) (execute_request pipeline ctx) (fun p => if_ok p.1 (held p.2)).
Proof. apply (triple_run_call _ _ _ id). intros env a x env' E. by eapply called_request. Qed.
Lemma triple_response ctx : triple (held ctx) (execute_response pipeline ctx) (fun p => if_ok p.1 (held p.2)).
Proof. apply (triple_run_call _ _ _ id). intros env a x env' E. by eapply called_response. Qed.
Lemma triple_request_body ctx b eos :
  triple (held ctx) (execute_request_body pipeline ctx b eos) (fun p => if_ok p.1 (held p.2.1)).
Proof.
  apply (triple_run_call _ _ _ fst). intros env a x env'. destruct (execute_http_request_body _ _ _ _ _) as [[[r c] b'] e] eqn:E.
  intros [= -> <- <-]. by eapply called_request_body.
Qed.
Lemma triple_upstream ctx b :
  triple (held ctx) (execute_selected_upstream pipeline ctx b) (fun p => if_ok p.1 (held p.2.1)).
Proof.
  apply (triple_run_call _ _ _ fst). intros env a x env'.
  destruct (execute_http_selected_upstream_request_body _ _ _ _) as [[[r c] b'] e] eqn:E.
  intros [= -> <- <-]. by eapply called_upstream_body.
Qed.
Lemma triple_response_body ctx b eos :
  triple (held ctx) (execute_response_body pipeline ctx b eos) (fun p => if_ok p.1 (held p.2.1)).
Proof.
  apply (triple_run_call _ _ _ fst). intros env a x env'. destruct (execute_http_response_body _ _ _ _ _) as [[[r c] b'] e] eqn:E.
  intros [= -> <- <-]. by eapply called_response_body.
Qed.

(** A call and the outcome of its action, reified. *)
Definition filtered (p : result Status (option ImmediateResponse) * Ctx * bytes) : assertion := if_ok p.1.1 (held p.1.2).

Lemma triple_reified ctx (r : result Status FilterAction) (k : result Status (option ImmediateResponse) -> M Env StreamState _) :
  (forall o, triple (if_ok o (held ctx)) (k o) filtered) ->
  triple (if_ok r (held ctx)) (bind (attempt (action_outcome r)) k) filtered.
Proof. intros Hk. eapply triple_bind; [apply triple_attempt, triple_outcome|]. exact Hk. Qed.

Lemma triple_done ctx (o : result Status (option ImmediateResponse)) b :
  triple (if_ok o (held ctx)) (ret (o, ctx, b)) filtered.
Proof. by apply triple_ret. Qed.

Lemma triple_passed ctx b : triple (held ctx) (ret (Ok None, ctx, b)) filtered.
Proof. apply triple_ret. by intros slot env cs Hh _. Qed.

(** The same without a body. *)
Definition settled (p : result Status (option ImmediateResponse) * Ctx) : assertion := if_ok p.1 (held p.2).

Lemma triple_settled ctx (o : result Status (option ImmediateResponse)) :
  triple (if_ok o (held ctx)) (ret (o, ctx)) settled.
Proof. by apply triple_ret. Qed.

Lemma triple_unsettled ctx : triple (held ctx) (ret (Ok None, ctx)) settled.
Proof. apply triple_ret. by intros slot env cs Hh _. Qed.

Lemma triple_body_filters ctx b eos : triple (held ctx) (run_body_filters pipeline ctx b eos) filtered.
Proof.
  unfold run_body_filters. destruct (_ && _); [apply triple_passed|].
  eapply triple_bind; [apply triple_request_body|]. intros [r [ctx' b']]. apply triple_reified. intros o. apply triple_done.
Qed.

Lemma triple_resp_body_filters ctx b eos : triple (held ctx) (run_resp_body_filters pipeline ctx b eos) filtered.
Proof.
  unfold run_resp_body_filters. destruct (_ && _); [apply triple_passed|].
  eapply triple_bind; [apply triple_response_body|]. intros [r [ctx' b']]. apply triple_reified. intros o. apply triple_done.
Qed.

Lemma triple_selected ctx b m : triple (held ctx) (run_selected_upstream_body_filters pipeline ctx b m) filtered.
Proof.
  unfold run_selected_upstream_body_filters. destruct (negb _); [apply triple_passed|].
  eapply triple_bind; [apply triple_upstream|]. intros [r [ctx' b']]. apply triple_reified. intros [[i|]|e]; try apply triple_done.
  destruct (_ && _); [|apply triple_done]. apply triple_skip; [unfold record_body_size_rejection; step_aside|]. intros _.
  apply triple_ret. intros ??? Hx _. by apply Hx.
Qed.

Lemma triple_at_eos phase ctx b ord m : triple (held ctx) (run_request_body_filters_at_eos phase pipeline ctx b ord m) filtered.
Proof.
  unfold run_request_body_filters_at_eos. destruct phase; [apply triple_passed|].
  apply (triple_bind _ _ filtered); [destruct ord; [apply triple_body_filters|apply triple_passed]|].
  intros [[[[i|]|e] ctx1] b1]; try apply triple_done. apply triple_known, triple_selected.
Qed.

Lemma triple_response_filters phase ctx b x :
  triple (held ctx) (execute_response_pipeline_and_body_filters phase pipeline ctx b x) filtered.
Proof.
  unfold execute_response_pipeline_and_body_filters.
  apply (triple_bind _ _ settled).
  - destruct (match phase with RsHeaders => true | RsBody => negb x end); [|apply triple_unsettled].
    eapply triple_bind; [apply triple_response|]. intros [r ctx']. eapply triple_bind; [apply triple_attempt, triple_outcome|].
    intros o. apply triple_settled.
  - intros [[[i|]|e] ctx1]; try apply triple_done. apply triple_known. destruct phase; [apply triple_passed|].
    apply triple_resp_body_filters.
Qed.

Lemma triple_request_filters ctx :
  triple (held ctx) (execute_request_filters_if_needed pipeline ctx) settled.
Proof.
  unfold execute_request_filters_if_needed. apply triple_skip; [apply aside_get|]. intros s.
  destruct (request_filters_executed _); [apply triple_unsettled|].
  eapply triple_bind; [apply triple_request|]. intros [r ctx']. eapply triple_bind; [apply triple_attempt, triple_outcome|].
  by intros [[i|]|e]; apply triple_settled.
Qed.

Lemma triple_trailing ctx b :
  triple (held ctx) (run_trailing_body pipeline ctx b) (fun p => if_ok p.1 (held p.2)).
Proof.
  unfold run_trailing_body. apply (triple_bind _ _ (fun p => if_ok p.1 (held p.2.1))).
  - destruct b; [apply triple_request_body|apply triple_response_body].
  - intros [r [ctx' b']]. by apply triple_ret.
Qed.

(** ** Taking out and putting back *)

Definition unset (ctx : Ctx) : Prop := ctx_response_body_mode ctx = FilterStream.

Lemma triple_fresh {B} P rq (k : Ctx -> M Env StreamState B) R :
  (forall ctx, unset ctx -> triple P (k ctx) R) -> triple P (bind (fresh_context pipeline rq) k) R.
Proof.
  intros Hk. intros s g HP. wp_step. unfold fresh_context. repeat wp_step. by apply Hk.
Qed.

Lemma triple_hydrate ctx : unset ctx -> triple parked (hydrate_from_state ctx) held.
Proof.
  intros Hu s g (c & Hc & Hch). unfold hydrate_from_state. repeat wp_step. rewrite Hc. cbn. split; [done|].
  unfold capture, resumes in *. cbn in *. by rewrite Hu.
Qed.

Lemma triple_dehydrate ctx : triple (held ctx) (dehydrate_to_state ctx) (fun _ => parked).
Proof.
  intros s g [Hc Hch]. unfold dehydrate_to_state. repeat wp_step. rewrite Hc. cbn. repeat wp_step. by exists (capture ctx).
Qed.

(** What a handler owes: unless it ends the stream, the slot is filled again. *)
Definition refilled (rs : list ProcessingResponse) : assertion :=
  fun slot env cs => existsb is_immediate rs = false -> parked slot env cs.

Lemma triple_immediate (P : assertion) i : triple P (ret [immediate i]) refilled.
Proof. by apply triple_ret. Qed.
Lemma triple_quiet (m : M Env StreamState (list ProcessingResponse)) : bystander m -> triple parked m refilled.
Proof. intros Hm. eapply triple_post; [by apply triple_aside|]. by intros rs ??? ? _. Qed.

(** ** The pipeline functions *)

Ltac skip := apply triple_skip; [first [apply aside_get|apply aside_write_back|apply aside_warn|apply aside_missing|step_aside]|intro].

(** Put back, then assemble the answer. *)
Lemma triple_put_back ctx (k : M Env StreamState (list ProcessingResponse)) :
  bystander k -> triple (held ctx) (bind (dehydrate_to_state ctx) (fun _ => k)) refilled.
Proof. intros Hk. eapply triple_bind; [apply triple_dehydrate|]. intros []. by apply triple_quiet. Qed.

Lemma triple_request_pipeline phase eos ord : triple parked (run_request_pipeline_inner phase pipeline eos ord) refilled.
Proof.
  unfold run_request_pipeline_inner. skip. destruct (request _) as [rq|]; [|apply triple_quiet, aside_missing].
  apply triple_fresh. intros fresh Hu. eapply triple_bind; [by apply triple_hydrate|]. intros ctx.
  eapply triple_bind; [apply triple_request_filters|]. intros [o ctx1].
  eapply triple_bind; [apply triple_lift|]. intros [i|]; [apply triple_immediate|]. skip.
  destruct (selected_input_exceeds_limit _ _ _).
  { apply (triple_bind _ _ (fun r _ _ _ => is_immediate r = true)).
    - unfold selected_input_limit_rejection, record_body_size_rejection. skip. by apply triple_ret.
    - intros r. apply triple_ret. intros ??? Hi Hn. cbn in Hn. by rewrite Hi in Hn. }
  eapply triple_bind; [apply triple_at_eos|]. intros [[o2 ctx2] body]. skip.
  eapply triple_bind; [apply triple_lift|]. intros [i|]; [apply triple_immediate|].
  apply triple_put_back, aside_build_request.
Qed.

Lemma capture_response resp ctx : capture (ctx_with_response resp ctx) = capture ctx.
Proof. done. Qed.

Lemma triple_response_pipeline phase eos : triple parked (run_response_pipeline phase pipeline eos) refilled.
Proof.
  unfold run_response_pipeline. skip. destruct (request _) as [rq|]; [|apply triple_quiet, aside_missing]. skip.
  destruct (response _) as [resp|]; [|apply triple_quiet, aside_missing].
  apply triple_fresh. intros fresh Hu. eapply triple_bind; [by apply triple_hydrate|]. intros ctx. skip.
  eapply triple_bind; [apply (triple_response_filters _ (ctx_with_response resp ctx))|]. intros [[o2 ctx2] body]. skip.
  eapply triple_bind; [apply triple_lift|]. intros [i|]; [apply triple_immediate|].
  apply triple_put_back. step_aside.
Qed.

Lemma triple_streamed_chunk body b : triple parked (process_streamed_body_chunk pipeline body b) refilled.
Proof.
  unfold process_streamed_body_chunk. skip. destruct (request _) as [rq|]; [|apply triple_quiet, aside_missing].
  apply triple_fresh. intros fresh Hu.
  apply (triple_bind _ _ (fun p slot env cs => unset p.1 /\ parked slot env cs)).
  { destruct b; [by apply triple_ret|]. destruct (response _) as [resp|]; [by apply triple_ret|].
    intros s g _. apply wp_missing_response. done. }
  intros [ctx0 original]. apply (triple_bind _ _ held).
  { intros s g [Hu0 Hp]. by apply triple_hydrate. }
  intros ctx. apply triple_skip; [destruct b; [apply aside_ret|apply aside_buffer_chunk]|]. intros chunk.
  apply (triple_bind _ _ filtered); [destruct b; [apply triple_body_filters|apply triple_resp_body_filters]|].
  intros [[o ctx1] chunk1]. apply triple_skip; [destruct b; [apply aside_ret|apply aside_write_back]|]. intros [].
  eapply triple_bind; [apply triple_lift|]. intros [i|]; [apply triple_immediate|]. skip.
  apply triple_put_back. step_aside.
Qed.

Lemma triple_flush_streamed b : triple parked (flush_streamed_body_filters pipeline b) refilled.
Proof.
  unfold flush_streamed_body_filters. skip. destruct (_ && _); [by apply triple_ret|].
  destruct (request _) as [rq|]; [|apply triple_quiet, aside_missing].
  apply triple_fresh. intros fresh Hu.
  apply (triple_bind _ _ (fun ctx slot env cs => unset ctx /\ parked slot env cs)).
  { destruct b; [by apply triple_ret|]. destruct (response _) as [resp|]; [by apply triple_ret|].
    intros s g _. apply wp_missing_response. done. }
  intros ctx0. apply (triple_bind _ _ held).
  { intros s g [Hu0 Hp]. by apply triple_hydrate. }
  intros ctx. eapply triple_bind; [apply triple_trailing|]. intros [r ctx1].
  apply triple_skip; [destruct b; [apply aside_ret|apply aside_write_back]|]. intros [].
  eapply triple_bind; [apply triple_lift|]. intros act. apply triple_put_back. pose proof aside_immediate. step_aside.
Qed.

Lemma triple_early_request d : triple parked (run_request_header_filters_early pipeline d) refilled.
Proof.
  unfold run_request_header_filters_early. skip. destruct (request _) as [rq|]; [|apply triple_quiet, aside_deliver].
  apply triple_fresh. intros fresh Hu. eapply triple_bind; [by apply triple_hydrate|]. intros ctx.
  eapply triple_bind; [apply triple_request|]. intros [r ctx1]. eapply triple_bind; [apply triple_outcome|].
  intros [i|]; [apply triple_immediate|]. skip. apply triple_put_back, aside_deliver.
Qed.

Lemma triple_early_response d : triple parked (run_response_header_filters_early pipeline d) refilled.
Proof.
  unfold run_response_header_filters_early. skip. destruct (request _) as [rq|]; [|apply triple_quiet, aside_deliver].
  apply triple_fresh. intros fresh Hu. destruct (response _) as [resp|]; [|apply triple_quiet, aside_deliver].
  eapply triple_bind; [by apply triple_hydrate|]. intros ctx.
  eapply triple_bind; [apply (triple_response (ctx_with_response resp ctx))|]. intros [r ctx1]. skip.
  eapply triple_bind; [apply triple_outcome|]. intros [i|]; [apply triple_immediate|].
  destruct (_ && _); [by apply triple_ret|]. skip. apply triple_put_back, aside_deliver.
Qed.

(** ** The handlers *)

(** Rearranging the responses, keeping what ends the stream. *)
Definition keeps_end (rs : list ProcessingResponse) (m : M Env StreamState (list ProcessingResponse)) : Prop :=
  bystander m /\ forall s g, wp m (fun r _ _ =>
    match r with Ok rs' => existsb is_immediate rs' = existsb is_immediate rs | Err _ => True end) s g.

Lemma triple_rearranged m (k : list ProcessingResponse -> M Env StreamState (list ProcessingResponse)) :
  triple parked m refilled -> (forall rs, keeps_end rs (k rs)) -> triple parked (bind m k) refilled.
Proof.
  intros Hm Hk. eapply triple_bind; [exact Hm|]. intros rs s g HP. destruct (Hk rs) as [Ha Hi].
  eapply wp_mono; [exact (wp_and _ _ _ _ _ (triple_aside _ _ Ha s g HP) (Hi s g))|]. cbv beta.
  intros [rs'|e] s' g' [HQ E]; [|done]. intros Hn. apply HQ. by rewrite <- E.
Qed.

Lemma keeps_end_ret rs rs' : existsb is_immediate rs' = existsb is_immediate rs -> keeps_end rs (ret rs').
Proof. intros E. split; [apply aside_ret|]. intros s g. by wp_step. Qed.

Lemma keeps_end_override rs h : keeps_end rs (apply_response_mode_override pipeline rs h).
Proof.
  split; [apply aside_override|]. intros s g. unfold apply_response_mode_override.
  assert (Hmap : forall mode, existsb is_immediate (map fst (map (fun r => set_response_mode_streamed r mode) rs)) =
                        existsb is_immediate rs).
  { intros mode. induction rs as [|r rs IH]; [done|]. cbn. rewrite IH. f_equal.
    unfold set_response_mode_streamed, is_immediate. destruct (prs_response r) as [[]|] eqn:E; cbn; by rewrite ?E. }
  repeat wp_step. wp_case; [by wp_step|]. wp_case; try by wp_step.
  all: wp_case; [|by wp_step]; wp_step; wp_case; repeat wp_step; apply Hmap.
Qed.

Lemma triple_request_headers h : triple parked (handle_request_headers pipeline h) refilled.
Proof.
  assert (Hearly : triple parked (handle_request_headers_with_body pipeline) refilled).
  { unfold handle_request_headers_with_body. skip. destruct (_ && _).
    - unfold handle_unsupported_selected_request_headers. eapply triple_bind; [apply triple_early_request|].
      intros [|r rs]; [by apply triple_ret|]. destruct (is_immediate r) eqn:Hi; by apply triple_ret.
    - destruct (request_body_mode _); try solve [apply triple_quiet; unfold request_headers_without_body_filter; step_aside].
      1, 2: skip; apply triple_early_request. destruct (negb _); [apply triple_early_request|by apply triple_quiet, aside_ret]. }
  assert (Hend : triple parked (handle_end_stream_request_headers pipeline) refilled).
  { unfold handle_end_stream_request_headers, run_bodyless_selected_upstream_pipeline, run_request_pipeline.
    destruct (needs_selected_upstream_request_body _); apply triple_request_pipeline. }
  unfold handle_request_headers. apply triple_skip; [apply aside_mark|]. intros entry.
  destruct (is_complete entry); [apply triple_quiet, aside_duplicate|].
  destruct (reject_ambiguous_guardrail_selection _); [by apply triple_quiet, aside_ret|]. skip. skip.
  destruct (_ && _); [by apply triple_quiet, aside_ret|]. destruct (hh_end_of_stream h).
  - apply triple_rearranged; [exact Hend|]. intros rs. apply keeps_end_override.
  - destruct (_ && _); [by apply triple_quiet, aside_ret|]. apply triple_rearranged; [exact Hearly|]. intros rs.
    apply keeps_end_override.
Qed.

Lemma triple_request_body_message body : triple parked (handle_request_body pipeline body) refilled.
Proof.
  assert (Hacc : triple parked (accumulate_request_body pipeline body) refilled).
  { unfold accumulate_request_body. skip. apply triple_skip; [apply aside_attempt, aside_limit|]. intros [|]; cbn [is_ok negb];
      [|by apply triple_quiet, aside_ret].
    skip. destruct (_ && _); [by apply triple_quiet, aside_ret|]. skip. apply triple_request_pipeline. }
  unfold handle_request_body. skip. skip. apply triple_skip; [apply aside_mark|]. intros entry.
  apply triple_skip; [apply aside_redelivery|]. intros [rs|]; [by apply triple_quiet, aside_ret|].
  destruct (request_body_mode _), (needs_request_body (caps pipeline)); try exact Hacc.
  all: apply triple_skip; [apply aside_streamed_limit|]; intros [r|]; [by apply triple_quiet, aside_ret|].
  all: try apply triple_streamed_chunk; apply triple_quiet, aside_passthrough.
Qed.

Lemma triple_response_headers h : triple parked (handle_response_headers pipeline h) refilled.
Proof.
  unfold handle_response_headers. apply triple_skip; [apply aside_mark|]. intros entry.
  destruct (is_complete entry); [apply triple_quiet, aside_duplicate|]. skip.
  destruct (hh_end_of_stream h); [apply triple_response_pipeline|]. skip.
  destruct (response_body_mode _); [skip; apply triple_early_response|skip; apply triple_early_response|..];
    (destruct (negb _) || destruct (needs_response_body (caps pipeline))); try apply triple_early_response; by apply triple_quiet, aside_ret.
Qed.

Lemma triple_response_body_message body : triple parked (handle_response_body pipeline body) refilled.
Proof.
  assert (Hacc : triple parked (accumulate_response_body pipeline body) refilled).
  { unfold accumulate_response_body. skip. apply triple_skip; [apply aside_limit|]. intros []. skip.
    destruct (negb _); [by apply triple_quiet, aside_ret|]. apply triple_response_pipeline. }
  unfold handle_response_body. skip. skip. apply triple_skip; [apply aside_mark|]. intros entry.
  apply triple_skip; [apply aside_redelivery|]. intros [rs|]; [by apply triple_quiet, aside_ret|].
  destruct (response_body_mode _), (needs_response_body (caps pipeline)); try exact Hacc;
    try apply triple_streamed_chunk; apply triple_quiet, aside_passthrough.
Qed.

Lemma triple_trailers b : triple parked (handle_trailers pipeline b) refilled.
Proof.
  assert (Hpipe : triple parked (run_trailing_body_pipeline pipeline b) refilled).
  { unfold run_trailing_body_pipeline, run_request_pipeline. destruct b; [apply triple_request_pipeline|apply triple_response_pipeline]. }
  assert (Hfin : triple parked (finalize_body_on_trailers pipeline b) refilled).
  { unfold finalize_body_on_trailers. skip. destruct (negb _); [by apply triple_quiet, aside_ret|].
    destruct (trailing_body_phase _ _ _) as [[phase mode] needs]. skip. destruct mode.
    - by apply triple_quiet, aside_ret.
    - destruct needs; [apply triple_flush_streamed|by apply triple_quiet, aside_ret].
    - destruct (_ && _); [by apply triple_quiet, aside_ret|]. apply triple_rearranged; [exact Hpipe|]. intros rs.
      apply keeps_end_ret. unfold rejection_only. induction rs as [|r rs IH]; [done|]. cbn.
      destruct (is_immediate r) eqn:E; cbn; by rewrite ?E, ?IH.
    - by apply triple_quiet, aside_ret.
    - destruct needs; [|apply triple_quiet, aside_flush_deferred]. unfold run_trailing_fds_body. skip.
      apply triple_rearranged; [exact Hpipe|]. intros rs. split; [step_aside|]. intros s g. repeat wp_step.
      wp_case; wp_step; [done|]. apply bodies_aside_immediate. }
  unfold handle_trailers. apply triple_rearranged; [exact Hfin|]. intros rs.
  destruct (match last rs with Some r => is_immediate r | None => false end); apply keeps_end_ret; [done|].
  rewrite existsb_app. destruct b; cbn; by rewrite orb_false_r.
Qed.

Lemma triple_handle req s1 : triple parked (handle pipeline s1 req) refilled.
Proof.
  unfold handle. destruct (local_reply _); [apply triple_quiet, aside_local|]. destruct req.
  - apply triple_request_headers.
  - apply triple_response_headers.
  - apply triple_request_body_message.
  - apply triple_response_body_message.
  - apply triple_trailers.
  - apply triple_trailers.
Qed.

(** ** Whole streams *)

Lemma dispatch_continues req s g :
  holds_at parked s g ->
  wp (dispatch_request pipeline req) (when_ok_in (fun _ s' g' => holds_at parked s' g')) s g.
Proof.
  intros HP. apply dispatch_handles; [done|]. intros side step _ _ _ s1.
  eapply wp_mono; [by apply (triple_handle req s1 s1)|]. intros [rs|e] s' g' Hr; [|done]. exact Hr.
Qed.
End Triples.

Variable max : option Z.
Variable trust : bool.
Variable selector : ResponseModeSelector.

(** C9. The filters resume where they left off: in a stream that ends without error and without
    an immediate response, over all its messages, in whatever body modes, the filter calls of
    its trace, in their order, form a chain. What the filters carry (their state and metadata,
    branch counters, executed filters, cluster, body mode and byte counts) is empty at the first
    call; every later call starts with exactly what the call before it left and in the
    environment it left; and what the last call left is what the stream's state keeps. *)
Theorem filters_resume_where_they_left inbound env warned :
  let s := run_state pipeline max trust selector (fun _ => true) inbound env warned in
  let w := run_world pipeline max trust selector (fun _ => true) inbound env warned in
  run_result pipeline max trust selector (fun _ => true) inbound env warned = Ok tt ->
  existsb is_immediate (run_sent pipeline max trust selector (fun _ => true) inbound env warned) = false ->
  exists c, carried_context s = Some c /\
    chain pipeline (resumes CarriedContext_default, env) (calls_of (g_log w)) (resumes c, g_env w).
Proof.
  intros s w Hr Hi. set (start := (resumes CarriedContext_default, env)).
  destruct (run_holds_in pipeline (fun _ _ s g => holds_at (parked start) s g)
    ltac:(by intros; apply dispatch_continues) max trust selector inbound env warned) as (g & Hw & c & Hc & Hch); [|done..|].
  - exists CarriedContext_default. split; [done|constructor].
  - exists c. split; [exact Hc|]. subst w. rewrite Hw. cbn [g_log g_env log_event]. by rewrite calls_log, app_nil_r.
Qed.
End Handlers.

(** ** An instance: filters that count their own calls in what they carry *)

Definition counted (ctx : PCtx) : PCtx :=
  {| ctx_client_addr := ctx_client_addr ctx;
     ctx_cluster := Some "counted"%string;
     ctx_branch_iterations := ctx_branch_iterations ctx;
     ctx_executed_filter_indices := ctx_executed_filter_indices ctx;
     ctx_filter_metadata := ctx_filter_metadata ctx;
     ctx_filter_state := ctx_filter_state ctx;
     ctx_extra_request_headers := ctx_extra_request_headers ctx;
     ctx_request_headers_to_remove := ctx_request_headers_to_remove ctx;
     ctx_request_headers_to_set := ctx_request_headers_to_set ctx;
     ctx_rewritten_path := ctx_rewritten_path ctx;
     ctx_request := ctx_request ctx;
     ctx_request_body_bytes := ctx_request_body_bytes ctx + 1;
     ctx_request_body_mode := ctx_request_body_mode ctx;
     ctx_response_body_bytes := ctx_response_body_bytes ctx;
     ctx_response_body_mode := ctx_response_body_mode ctx;
     ctx_response_header := ctx_response_header ctx;
     ctx_response_headers_modified := ctx_response_headers_modified ctx;
     ctx_upstream_reached := ctx_upstream_reached ctx;
     ctx_rest := ctx_rest ctx |}.

Definition counting_pipeline : DemoPipeline :=
  let p := pass_pipeline (demo_caps true true false false) in
  {| dp_caps := dp_caps p; dp_limit := dp_limit p;
     dp_request := fun ctx => (Ok (FilterOther 0), counted ctx);
     dp_response := fun ctx => (Ok (FilterOther 0), counted ctx);
     dp_request_body := fun ctx b _ => (Ok (FilterOther 0), counted ctx, b);
     dp_upstream_body := dp_upstream_body p;
     dp_response_body := fun ctx b _ => (Ok (FilterOther 0), counted ctx, b) |}.

(** A streamed request in two chunks, and a full-duplex response. *)
Definition counted_stream : list (result string ProcessingRequest) :=
  map Ok [demo_first 1 4 (demo_request_headers false);
          demo_message (RequestBody (demo_body "he" false)); demo_message (RequestBody (demo_body "llo" true));
          demo_message (demo_response_headers false); demo_message (ResponseBody (demo_body "bye" true))].

#[local] Abbreviation counted_run f :=
  (f counting_pipeline (Some 100) false ResponseModeSelector_default (fun _ : nat => true) counted_stream 0%nat false).

Lemma filters_resume_where_they_left_witness :
  calls_of (g_log (counted_run (run_world (H0 := ConcretePraxis)))) =
    [CallRequest; CallRequestBody; CallRequestBody; CallResponse; CallResponseBody] /\
  option_map (cc_request_body_bytes (H0 := ConcretePraxis)) (carried_context (counted_run (run_state (H0 := ConcretePraxis)))) =
    Some 5 /\
  exists c, carried_context (counted_run (run_state (H0 := ConcretePraxis))) = Some c /\
    chain (H0 := ConcretePraxis) counting_pipeline (resumes (H0 := ConcretePraxis) CarriedContext_default, 0%nat)
      (calls_of (g_log (counted_run (run_world (H0 := ConcretePraxis)))))
      (resumes (H0 := ConcretePraxis) c, g_env (counted_run (run_world (H0 := ConcretePraxis)))).
Proof.
  assert (H1 : counted_run (run_result (H0 := ConcretePraxis)) = Ok tt) by (vm_compute; reflexivity).
  assert (H2 : existsb is_immediate (counted_run (run_sent (H0 := ConcretePraxis))) = false) by (vm_compute; reflexivity).
  split; [vm_compute; reflexivity|split; [vm_compute; reflexivity|]].
  exact (filters_resume_where_they_left (H0 := ConcretePraxis) counting_pipeline (Some 100) false ResponseModeSelector_default
           counted_stream 0%nat false H1 H2).
Defined.
