(* ===== verification/Delivery.v ===== *)
(** * The bodies of a full-duplex exchange, end to end

    In full-duplex mode Envoy forwards what the server sends in place of the body it received.
    Over a whole stream, whatever the message boundaries: a body no filter reads is delivered
    as it was received; a body the filters hold is delivered once it is closed, as some call of
    the filters on the whole of it left it, and not at all before. The filters are arbitrary. *)

From S2P Require Import Prelude RustStd Proto Effect Extern Concrete Metrics Response Protocol Adapter ResponseMode State Pipeline Handlers Server Invariant StreamInv Stream Guarantees Answers Budget Replies Runs Frames Marks.

(** ** What is delivered *)

(** The streamed chunk a response has for a side. *)
Definition side_chunk (b : bool) (r : ProcessingResponse) : option (bytes * bool) :=
  match prs_response r, b with
  | Some (RespRequestBody _), true | Some (RespResponseBody _), false => streamed_chunk r
  | _, _ => None
  end.

(** The bytes delivered to a side, and the end-of-stream flags. *)
Definition delivered (b : bool) (rs : list ProcessingResponse) : bytes :=
  concat (map (fun r => from_option fst [] (side_chunk b r)) rs).
Definition ends (b : bool) (rs : list ProcessingResponse) : nat :=
  length (List.filter (fun r => from_option snd false (side_chunk b r)) rs).

Lemma delivered_app b rs rs' : delivered b (rs ++ rs') = delivered b rs ++ delivered b rs'.
Proof. unfold delivered. by rewrite map_app, concat_app. Qed.
Lemma ends_app b rs rs' : ends b (rs ++ rs') = (ends b rs + ends b rs')%nat.
Proof. unfold ends. by rewrite List.filter_app, length_app. Qed.
Lemma delivered_cons b r rs : delivered b (r :: rs) = from_option fst [] (side_chunk b r) ++ delivered b rs.
Proof. done. Qed.
Lemma ends_cons b r rs :
  ends b (r :: rs) = ((if from_option snd false (side_chunk b r) then 1 else 0) + ends b rs)%nat.
Proof. unfold ends. simpl. by destruct (from_option _ _ _). Qed.

(** Nothing for a side: neither bytes nor flags. *)
Lemma no_chunks b rs : Forall (fun r => side_chunk b r = None) rs -> delivered b rs = [] /\ ends b rs = 0%nat.
Proof.
  induction 1 as [|r rs Hr _ [IH1 IH2]]; [done|]. rewrite delivered_cons, ends_cons, Hr, IH1, IH2. done.
Qed.

(** Answers on the other side deliver nothing here; nor do answers to a header message. *)
Lemma other_answers b b' step rs :
  Forall (fun r => answers (side_of b) step r = true) rs -> b' <> b -> Forall (fun r => side_chunk b' r = None) rs.
Proof.
  intros Ha Hb. eapply Forall_impl; [exact Ha|]. intros r. unfold answers, side_chunk.
  destruct (prs_response r) as [[]|]; cbn; try done; by destruct b, b'.
Qed.

Lemma header_answers b b' rs :
  Forall (fun r => answers (side_of b) Headers r = true) rs -> Forall (fun r => side_chunk b' r = None) rs.
Proof.
  intros Ha. eapply Forall_impl; [exact Ha|]. intros r. unfold answers, side_chunk.
  destruct (prs_response r) as [[]|]; cbn; try done; destruct b, b'; cbn; try done.
Qed.

Lemma streamed_delivers b rs :
  Forall (fun r => side_chunk b r = streamed_chunk r) rs -> delivered b rs = streamed_bytes rs.
Proof.
  intros Hr. unfold delivered, streamed_bytes. induction Hr as [|r rs Hr _ IH]; [done|]. cbn [map concat].
  rewrite Hr, IH. by destruct (streamed_chunk r) as [[]|].
Qed.

Lemma streamed_side chunk eos m b :
  side_chunk b (make_streamed_response chunk eos m b) = Some (chunk, eos) /\
  streamed_chunk (make_streamed_response chunk eos m b) = Some (chunk, eos).
Proof. by destruct b. Qed.

Lemma streamed_loop_side fuel : forall limit offset data m b eos,
  Forall (fun r => side_chunk b r = streamed_chunk r) (streamed_loop fuel limit offset data m b eos).
Proof.
  induction fuel as [|fuel IH]; intros; simpl; [done|]. destruct (_ <? _); [|done]. constructor; [|apply IH].
  match goal with |- side_chunk b (make_streamed_response ?c ?e ?m b) = _ => destruct (streamed_side c e m b) as [-> ->] end.
  done.
Qed.

(** One flag, on the last chunk. *)
Lemma streamed_loop_ends limit data b eos (Hl : 0 < limit) fuel : forall offset m,
  0 <= offset <= len data -> (Z.to_nat (len data - offset) < fuel)%nat ->
  ends b (streamed_loop fuel limit offset data m b eos) = if (offset <? len data) && eos then 1%nat else 0%nat.
Proof.
  induction fuel as [|fuel IH]; intros offset m Ho Hf; [lia|]. cbn [streamed_loop].
  destruct (Z.ltb_spec offset (len data)) as [Hlt|Hge]; [|done]. cbn [andb].
  set (end_ := Z.min (offset + limit) (len data)). rewrite ends_cons, (proj1 (streamed_side _ _ _ _)), IH by lia. cbn [from_option snd].
  destruct (Z.eqb_spec end_ (len data)) as [He|He].
  - rewrite He, Z.ltb_irrefl, andb_true_r. by destruct eos.
  - rewrite andb_false_r, (proj2 (Z.ltb_lt end_ (len data))) by lia. by destruct eos.
Qed.

(** A full-duplex body response delivers the body, and the flag it is given. *)
Lemma body_responses_deliver body b eos m :
  delivered b (body_responses body m b FullDuplexStreamed eos) = default [] body /\
  ends b (body_responses body m b FullDuplexStreamed eos) = if eos then 1%nat else 0%nat.
Proof.
  assert (Hone : forall m', delivered b [make_streamed_response [] eos m' b] = [] /\
    ends b [make_streamed_response [] eos m' b] = if eos then 1%nat else 0%nat).
  { intros m'. unfold delivered, ends. cbn [map concat List.filter]. rewrite (proj1 (streamed_side _ _ _ _)). by destruct eos. }
  cbn [body_responses]. destruct body as [[|a l]|]; [apply Hone| |apply Hone].
  cbn [body_responses_streamed default from_option]. unfold body_responses_streamed. split.
  - rewrite streamed_delivers by apply streamed_loop_side.
    apply (streamed_loop_spec BODY_CHUNK_LIMIT (a :: l) b eos ltac:(done)); unfold len, BODY_CHUNK_LIMIT; cbn [length]; lia.
  - rewrite (streamed_loop_ends BODY_CHUNK_LIMIT (a :: l) b eos) by (unfold len, BODY_CHUNK_LIMIT; cbn [length]; lia).
    rewrite (proj2 (Z.ltb_lt 0 (len (a :: l)))) by (unfold len; cbn [length]; lia). by destruct eos.
Qed.

Lemma request_header_no_chunk b m : side_chunk b (request_headers m) = None.
Proof. by destruct b. Qed.
Lemma response_header_no_chunk b m : side_chunk b (response_headers m) = None.
Proof. by destruct b. Qed.

Section Delivery.
Context `{PraxisFilter}.
Variable pipeline : FilterPipeline.

(** ** What the filters make of a body *)

(** Some call of the body filters of a side on [p] ended in [q]; they are not called on an
    empty chunk that is not the last. *)
Definition filters_made (b : bool) (p : bytes) (eos : bool) (q : bytes) : Prop :=
  exists ctx env action ctx' body env',
    (if b then execute_http_request_body pipeline ctx (Some p) eos env
     else execute_http_response_body pipeline ctx (Some p) eos env) = (Ok action, ctx', body, env') /\
    q = default [] body.
Definition makes (b : bool) (p : bytes) (eos : bool) (q : bytes) : Prop :=
  if bool_decide (p = []) && negb eos then q = [] else filters_made b p eos q.

(** The calls of the body filters, on a chunk or on a whole body. *)
Lemma body_filters_make (b : bool) ctx p (eos : bool) s (g : Glob Env) :
  wp (if b then run_body_filters pipeline ctx p eos else run_resp_body_filters pipeline ctx p eos)
    (fun r s' _ => s' = s /\ match r with Ok (Ok None, _, q) => makes b p eos q | _ => True end) s g.
Proof.
  unfold run_body_filters, run_resp_body_filters, makes.
  destruct (bool_decide (p = []) && negb eos) eqn:Hskip.
  { apply andb_prop in Hskip as [->%bool_decide_eq_true _]. destruct b; by wp_step. }
  destruct b; unfold execute_request_body, execute_response_body, run_call; repeat wp_step.
  1: destruct (execute_http_request_body _ _ _ _ _) as [[[r c] b'] env'] eqn:Hcall; repeat wp_step.
  2: destruct (execute_http_response_body _ _ _ _ _) as [[[r c] b'] env'] eqn:Hcall; repeat wp_step.
  all: destruct r as [a|e]; cbn [map_err refill]; unfold action_outcome; repeat wp_step; [|done].
  all: apply wp_immediate_from_action; intros o g2 _; repeat wp_step; split; [done|]; destruct o; [done|].
  all: by eexists _, _, _, _, _, _.
Qed.

Lemma whole_body_made (b : bool) ctx body s (g : Glob Env) :
  wp (if b then run_body_filters pipeline ctx body true else run_resp_body_filters pipeline ctx body true)
    (fun r s' _ => s' = s /\ match r with Ok (Ok None, _, q) => filters_made b body true q | _ => True end) s g.
Proof. pose proof (body_filters_make b ctx body true s g) as Hm. unfold makes in Hm. by rewrite andb_false_r in Hm. Qed.

(** Unless it ends the stream, a batch delivers bytes that satisfy [P], and this many flags. *)
Definition gives (b : bool) (P : bytes -> Prop) (n : nat) (r : result Status (list ProcessingResponse))
  (_ : StreamState) (_ : Glob Env) : Prop :=
  match r with
  | Ok rs => existsb is_immediate rs = false -> P (delivered b rs) /\ ends b rs = n
  | Err _ => True
  end.

Lemma gives_body b (P : bytes -> Prop) h (body : option bytes) (eos : bool) s (g : Glob Env) :
  side_chunk b h = None -> P (default [] body) ->
  gives b P (if eos then 1 else 0) (Ok (h :: body_responses body None b FullDuplexStreamed eos)) s g.
Proof.
  intros Hh HP _. destruct (body_responses_deliver body b eos None) as [E1 E2].
  rewrite delivered_cons, ends_cons, Hh, E1, E2. done.
Qed.

(** A whole-body run also leaves what it delivers in the buffer. *)
Definition gives_buffer (b : bool) (P : bytes -> Prop) (n : nat) (r : result Status (list ProcessingResponse))
  (s' : StreamState) (g' : Glob Env) : Prop :=
  gives b P n r s' g' /\
  match r with Ok rs => existsb is_immediate rs = false -> buffer b s' = delivered b rs | Err _ => True end.

(** Continue where nothing looked at has changed. *)
Lemma wp_still {A} (m : M Env StreamState A) Q s (g : Glob Env) :
  frames still m -> (forall r s' g', still s' = still s -> Q r s' g') -> wp m Q s g.
Proof. intros Hm HQ. eapply wp_mono; [apply Hm|]. intros r s' g' E. by apply HQ. Qed.

(** The whole-body run of the request pipeline. *)
Lemma request_pipeline_delivers (eos : bool) s (g : Glob Env) :
  request_body_mode (protocol_config s) = FullDuplexStreamed ->
  eos_request_headers (eos_tracker s) = Active ->
  needs_selected_upstream_request_body (caps pipeline) = false ->
  wp (run_request_pipeline RqBody pipeline eos)
    (gives_buffer true (filters_made true (request_body_buf s) true) (if eos then 1 else 0)) s g.
Proof.
  intros Hm Hh Hsel. unfold run_request_pipeline, run_request_pipeline_inner. repeat wp_step.
  destruct (request s) as [rq|]; [|by apply wp_missing_request].
  wp_step. apply wp_fresh_context. intros fresh. wp_step. apply wp_still; [apply frames_hydrate|].
  intros [ctx|e] s1 g1 E1; [|done]. wp_step. apply wp_still; [apply frames_request_filters|].
  intros [[o ctx1]|e] s2 g2 E2; [|done]. rewrite E1 in E2. repeat wp_step.
  destruct o as [[i|]|e]; [by wp_step| |done]. repeat wp_step. unfold selected_input_exceeds_limit.
  change (body_capabilities pipeline) with (caps pipeline). rewrite Hsel. cbn [andb]. repeat wp_step.
  unfold run_request_body_filters_at_eos. wp_step.
  eapply wp_mono; [apply (whole_body_made true)|]. cbv beta. intros [[[o ctx2] body]|e] s3 g3 [-> Hb]; [|done].
  assert (Hbuf : request_body_buf s2 = request_body_buf s /\ protocol_config s2 = protocol_config s /\
                 eos_tracker s2 = eos_tracker s) by (unfold still in E2; by injection E2).
  destruct Hbuf as (Hbuf & Hcfg & Heos). rewrite Hbuf in Hb.
  assert (Hend : forall o ctx2 body g3, (o = Ok None -> filters_made true (request_body_buf s) true body) ->
     wp (modify (with_request_body_buf body) ;;; let? imm := lift o in
         match imm with
         | Some i => ret [immediate i]
         | None => dehydrate_to_state ctx2 ;;;
                   build_request RqBody (collect_request_header_mutations ctx2) (len (request_body_buf s2)) eos
         end) (gives_buffer true (filters_made true (request_body_buf s) true) (if eos then 1 else 0)) s2 g3).
  { clear - Hm Hh Hcfg Heos. intros o ctx2 body g3 Hb. repeat wp_step. destruct o as [[i|]|e]; [by wp_step| |done].
    specialize (Hb eq_refl). repeat wp_step. apply wp_still; [apply frames_dehydrate|].
    intros [[]|e] s4 g4 E4; [|done]. unfold still in E4. cbn [protocol_config eos_tracker request_body_buf
      with_request_body_buf] in E4. injection E4 as E4c E4e E4b _.
    unfold build_request. repeat wp_step. rewrite E4e, Heos, Hh, E4c, Hcfg, Hm, E4b. cbn [is_complete].
    repeat wp_step. cbn [build_request_for_phase]. unfold request_body.
    split; [by apply (gives_body true _ _ (Some body)); [apply request_header_no_chunk|]|]. intros _.
    rewrite delivered_cons, request_header_no_chunk, (proj1 (body_responses_deliver (Some body) true eos None)). exact E4b. }
  destruct o as [[i|]|e]; [wp_step; apply Hend; done| |wp_step; apply Hend; done].
  unfold run_selected_upstream_body_filters. change (body_capabilities pipeline) with (caps pipeline). rewrite Hsel.
  cbn [negb]. wp_step. apply Hend. by intros _.
Qed.

(** The header filters of a response leave the outcome open; its body filters rewrite. *)
Lemma response_filters_rewrite ctx body (executed : bool) s (g : Glob Env) :
  wp (execute_response_pipeline_and_body_filters RsBody pipeline ctx body executed)
    (fun r s' _ => s' = s /\ match r with Ok (Ok None, _, body') => filters_made false body true body' | _ => True end) s g.
Proof.
  unfold execute_response_pipeline_and_body_filters.
  assert (Hrest : forall first ctx1 g1, wp (match first with
      | Ok None => run_resp_body_filters pipeline ctx1 body true
      | _ => ret (first, ctx1, body)
      end) (fun r s' _ => s' = s /\ match r with Ok (Ok None, _, body') => filters_made false body true body' | _ => True end) s g1).
  { intros first ctx1 g1. destruct first as [[i|]|e]; [by wp_step| |by wp_step]. apply (whole_body_made false). }
  wp_step. destruct executed; cbn [negb]; [wp_step; apply (Hrest (Ok None))|].
  wp_step. apply wp_execute_response. intros r ctx' g' _ _. repeat wp_step.
  unfold wp. destruct (action_outcome r s g') as [[o s1] g1] eqn:Ho.
  pose proof (frames_state (fun s => s) _ _ _ _ _ _ (frames_outcome (fun s => s) r) Ho) as ->. cbn. apply (Hrest o).
Qed.

Lemma response_pipeline_delivers (eos : bool) s (g : Glob Env) :
  response_body_mode (protocol_config s) = FullDuplexStreamed ->
  wp (run_response_pipeline RsBody pipeline eos)
    (gives_buffer false (filters_made false (response_body_buf s) true) (if eos then 1 else 0)) s g.
Proof.
  intros Hm. unfold run_response_pipeline. repeat wp_step.
  destruct (request s) as [rq|]; [|by apply wp_missing_request]. repeat wp_step.
  destruct (response s) as [resp|]; [|by apply wp_missing_response].
  wp_step. apply wp_fresh_context. intros fresh. wp_step. apply wp_still; [apply frames_hydrate|].
  intros [ctx|e] s1 g1 E1; [|done]. unfold still in E1.
  cbn [protocol_config eos_tracker request_body_buf response_body_buf with_response] in E1. injection E1 as Ec _ _ Eb.
  repeat wp_step. eapply wp_mono; [apply response_filters_rewrite|]. cbv beta.
  intros [[[o ctx2] body]|e] s3 g3 [-> Hb]; [|done]. repeat wp_step.
  destruct o as [[i|]|e]; [by wp_step| |done]. rewrite Eb in Hb. repeat wp_step.
  apply wp_still; [apply frames_dehydrate|]. intros [[]|e] s4 g4 E4; [|done]. unfold still in E4.
  cbn [protocol_config eos_tracker request_body_buf response_body_buf with_response_body_buf] in E4.
  injection E4 as E4c _ _ E4b. repeat wp_step. cbn [protocol_config response_body_buf
    with_deferred_response_header_mutation]. rewrite E4b, E4c, Ec, Hm. cbn [build_response_for_phase].
  unfold response_body. split; [by apply (gives_body false _ _ (Some body)); [apply response_header_no_chunk|]|]. intros _.
  rewrite delivered_cons, response_header_no_chunk, (proj1 (body_responses_deliver (Some body) false eos None)). exact E4b.
Qed.

(** ** The handlers of a body, in full-duplex mode *)

Lemma passthrough_delivers body b s (g : Glob Env) :
  wp (passthrough_chunk body FullDuplexStreamed b)
    (gives b (fun d => d = hb_body body) (if hb_end_of_stream body then 1 else 0)) s g.
Proof.
  unfold passthrough_chunk.
  assert (Hd : default [] (body_data_if_present (hb_body body)) = hb_body body) by (by destruct (hb_body body)).
  assert (Hbody : forall h, side_chunk b h = None -> forall s g, gives b (fun d => d = hb_body body) (if hb_end_of_stream body then 1 else 0)
    (Ok (h :: if b then request_body (body_data_if_present (hb_body body)) None FullDuplexStreamed (hb_end_of_stream body)
              else response_body (body_data_if_present (hb_body body)) None FullDuplexStreamed (hb_end_of_stream body))) s g).
  { intros h Hh s1 g1. pose proof (gives_body b (fun d => d = hb_body body) h (body_data_if_present (hb_body body)) (hb_end_of_stream body) s1 g1 Hh Hd) as Hg.
    by destruct b. }
  wp_step. apply wp_take_first; [intros _|intros s' _ _ _]; cbn [negb].
  - wp_step. intros _. destruct (body_responses_deliver (body_data_if_present (hb_body body)) b (hb_end_of_stream body) None)
      as [E1 E2]. rewrite Hd in E1. by destruct b.
  - wp_step. unfold deferred_header_response. repeat wp_step. destruct b; repeat wp_step; apply Hbody;
      [apply request_header_no_chunk|apply response_header_no_chunk].
Qed.

(** A body message of an open body: delivered at once if no filter reads it, else added to the
    buffer, and rewritten and delivered with it when it is the last. *)
Definition body_post (b : bool) (body : HttpBody) (s : StreamState) (r : result Status (list ProcessingResponse))
  (s' : StreamState) (_ : Glob Env) : Prop :=
  match r with
  | Err _ => True
  | Ok rs =>
      existsb is_immediate rs = false ->
      let whole := buffer b s ++ hb_body body in
      let n := if hb_end_of_stream body then 1%nat else 0%nat in
      match body_mark b s with
      | Completed => rs = [] /\ body_mark b s' = Completed
      | Active =>
          phase_state (eos_tracker s) (headers_phase b) = Active /\
          body_mark b s' = (if hb_end_of_stream body then Completed else Active) /\
          if holds pipeline b s then
            if hb_end_of_stream body then filters_made b whole true (delivered b rs) /\ ends b rs = 1%nat
            else rs = [] /\ buffer b s' = whole
          else delivered b rs = hb_body body /\ ends b rs = n
      end
  end.

(** Marking a body message. *)
Lemma wp_enter_body b (eos : bool) (m : option (list ProcessingResponse) -> M Env StreamState (list ProcessingResponse)) Q s
  (g : Glob Env) :
  (forall e s' g', Q (Err e) s' g') ->
  (body_mark b s = Completed -> wp (m (Some [])) Q s g) ->
  (body_mark b s = Active -> phase_state (eos_tracker s) (headers_phase b) = Active ->
   wp (m None) Q (with_eos_tracker (if eos then mark_complete (body_phase b) (eos_tracker s) else eos_tracker s) s) g) ->
  wp (let? entry := mark_phase (body_phase b) eos in
      let? redelivered := handle_body_redelivery entry FullDuplexStreamed (body_phase b) in m redelivered) Q s g.
Proof.
  intros HE HC HA. wp_step. apply wp_mark_phase; [|intros Ha Hq Hp|auto].
  - intros Hc. wp_step. unfold handle_body_redelivery. rewrite bool_decide_true by done. wp_step. auto.
  - wp_step. unfold handle_body_redelivery. wp_step. apply HA; [done|]. destruct b; [by apply Hq|by apply Hp].
Qed.

Lemma marked_body b (eos : bool) s :
  body_mark b s = Active ->
  body_mark b (with_eos_tracker (if eos then mark_complete (body_phase b) (eos_tracker s) else eos_tracker s) s) =
  if eos then Completed else Active.
Proof. intros Ha. unfold body_mark in *. cbn. destruct eos; [by destruct b|done]. Qed.

Lemma request_body_delivers body s (g : Glob Env) :
  mode_of true s = FullDuplexStreamed -> sound pipeline s ->
  wp (handle_request_body pipeline body) (body_post true body s) s g.
Proof.
  intros Hm Hs. cbn in Hm. unfold handle_request_body. do 4 wp_step. rewrite Hm.
  apply (wp_enter_body true); [done| |].
  { intros Hc. wp_step. intros _. change (body_mark true s = Completed) in Hc. by rewrite Hc. }
  intros Ha Hh. change (body_mark true s = Active) in Ha. change (eos_request_headers (eos_tracker s) = Active) in Hh.
  pose proof (marked_body true (hb_end_of_stream body) s Ha) as Hmark.
  set (s1 := with_eos_tracker _ _).
  assert (Hs1 : body_mark true s1 = (if hb_end_of_stream body then Completed else Active) /\
    request_body_buf s1 = request_body_buf s /\ protocol_config s1 = protocol_config s /\
    eos_request_headers (eos_tracker s1) = Active).
  { unfold s1. split_and!; [exact Hmark|done|done|]. by destruct (hb_end_of_stream body). }
  destruct Hs1 as (Hk & Hb & Hc & Hh1). clearbody s1.
  assert (Hsel : needs_selected_upstream_request_body (caps pipeline) = false).
  { destruct (needs_selected_upstream_request_body _) eqn:Hsel; [|done]. specialize (Hs Hm Hsel). cbn in Hs. congruence. }
  assert (Hhold : holds pipeline true s = needs_request_body (caps pipeline)) by (unfold holds; by rewrite Hsel, orb_false_r).
  unfold body_post. rewrite Ha, Hhold. destruct (needs_request_body (caps pipeline)) eqn:Hn.
  - unfold accumulate_request_body. repeat wp_step. apply check_body_limit_spec; cbn [is_ok negb]; [by intros; wp_step|].
    intros _. repeat wp_step. cbn [protocol_config with_request_body_buf]. rewrite Hc, Hm. cbn [negb].
    rewrite bool_decide_false by done. cbn [negb]. rewrite andb_true_r.
    destruct (hb_end_of_stream body) eqn:He; cbn [negb]; repeat wp_step.
    + eapply wp_mono; [apply wp_and; [apply (request_pipeline_delivers true); cbn; [congruence|done|done]|
        apply (mark_view true true), frames_request_pipeline]|]. cbv beta.
      intros [rs|e] s' g' [[Hg _] Hbm]; [|done]. intros Hi. cbn in Hg. rewrite Hb in Hg.
      split; [done|]. split; [rewrite Hbm; exact Hk|]. by apply Hg.
    + intros _. split; [done|]. split; [exact Hk|]. split; [done|]. cbn. by rewrite Hb.
  - wp_step. apply (streamed_limit_spec pipeline (max_body_accumulation s1)); [done|intros r g2 _ Hi; wp_step; cbn; by rewrite Hi|].
    intros v _. eapply wp_mono; [apply wp_and; [apply passthrough_delivers|
      apply (mark_still true), frames_passthrough]|]. cbv beta.
    intros [rs|e] s' g' [Hg Hbm]; [|done]. intros Hi. split; [done|]. split; [rewrite Hbm; exact Hk|]. by apply Hg.
Qed.

Lemma response_body_delivers body s (g : Glob Env) :
  mode_of false s = FullDuplexStreamed -> po_local_reply (phase_order s) = false ->
  wp (handle_response_body pipeline body) (body_post false body s) s g.
Proof.
  intros Hm Hl. cbn in Hm. unfold handle_response_body. do 4 wp_step. rewrite Hm.
  apply (wp_enter_body false); [done| |].
  { intros Hc. wp_step. intros _. change (body_mark false s = Completed) in Hc. by rewrite Hc. }
  intros Ha Hh. change (body_mark false s = Active) in Ha.
  pose proof (marked_body false (hb_end_of_stream body) s Ha) as Hk.
  set (s1 := with_eos_tracker _ _). change (body_mark false s1 = if hb_end_of_stream body then Completed else Active) in Hk.
  assert (Hb : response_body_buf s1 = response_body_buf s) by done.
  assert (Hc : protocol_config s1 = protocol_config s) by done. clearbody s1.
  assert (Hhold : holds pipeline false s = needs_response_body (caps pipeline)) by (unfold holds; by rewrite Hl, andb_true_r).
  unfold body_post. rewrite Ha, Hhold. destruct (needs_response_body (caps pipeline)) eqn:Hn.
  - unfold accumulate_response_body. repeat wp_step. apply check_body_limit_spec; [done|].
    intros _. repeat wp_step. rewrite Hb. destruct (hb_end_of_stream body) eqn:He; cbn [negb].
    + eapply wp_mono; [apply wp_and; [apply (response_pipeline_delivers true); cbn; congruence|
        apply (mark_view false false), frames_response_pipeline]|]. cbv beta.
      intros [rs|e] s' g' [[Hg _] Hbm]; [|done]. intros Hi. split; [done|]. split; [rewrite Hbm; exact Hk|]. by apply Hg.
    + wp_step. intros _. split; [done|]. by split; [exact Hk|].
  - eapply wp_mono; [apply wp_and; [apply passthrough_delivers|apply (mark_still false), frames_passthrough]|]. cbv beta.
    intros [rs|e] s' g' [Hg Hbm]; [|done]. intros Hi. split; [done|]. split; [rewrite Hbm; exact Hk|]. by apply Hg.
Qed.

Lemma local_body_delivers body s (g : Glob Env) :
  mode_of false s = FullDuplexStreamed -> po_local_reply (phase_order s) = true ->
  wp (local_reply_body body) (body_post false body s) s g.
Proof.
  intros Hm Hl. cbn in Hm. unfold local_reply_body. do 2 wp_step. rewrite Hm.
  apply (wp_enter_body false); [done| |].
  { intros Hc. wp_step. intros _. by rewrite Hc. }
  intros Ha Hh. pose proof (marked_body false (hb_end_of_stream body) s Ha) as Hk.
  assert (Hhold : holds pipeline false s = false) by (unfold holds; by rewrite Hl, andb_false_r).
  unfold body_post. rewrite Ha, Hhold, bool_decide_true by done.
  eapply wp_mono; [apply wp_and; [apply passthrough_delivers|apply (mark_still false), frames_passthrough]|]. cbv beta.
  intros [rs|e] s' g' [Hg Hbm]; [|done]. intros Hi. split; [done|]. split; [rewrite Hbm; exact Hk|]. by apply Hg.
Qed.

(** Trailers end an open body: what is held is rewritten and delivered, with no flag. *)
Definition trailers_post (b : bool) (s : StreamState) (r : result Status (list ProcessingResponse))
  (s' : StreamState) (_ : Glob Env) : Prop :=
  match r with
  | Err _ => True
  | Ok rs =>
      existsb is_immediate rs = false -> ends b rs = 0%nat /\
      if body_open b s && (b || negb (po_local_reply (phase_order s)))
      then body_mark b s' = Completed /\ (if holds pipeline b s then filters_made b (buffer b s) true (delivered b rs) else delivered b rs = [])
      else s' = s /\ delivered b rs = []
  end.

Lemma trailing_pipeline_delivers b s (g : Glob Env) :
  mode_of b s = FullDuplexStreamed -> phase_state (eos_tracker s) (headers_phase b) = Active ->
  (b = true -> needs_selected_upstream_request_body (caps pipeline) = false) ->
  wp (run_trailing_body_pipeline pipeline b) (fun r s' g' =>
    gives_buffer b (filters_made b (buffer b s) true) 0 r s' g' /\ body_mark b s' = body_mark b s) s g.
Proof.
  intros Hm Hh Hsel. destruct b; cbn [run_trailing_body_pipeline].
  - apply wp_and; [apply (request_pipeline_delivers false); [exact Hm|exact Hh|auto]|].
    apply (mark_view true true), frames_request_pipeline.
  - apply wp_and; [by apply (response_pipeline_delivers false)|apply (mark_view false false), frames_response_pipeline].
Qed.

Lemma trailers_chunk b b' : side_chunk b (if b' : bool then request_trailers else response_trailers) = None.
Proof. by destruct b, b'. Qed.

(** Without the bodies nothing is delivered. *)
Lemma not_bodies b rs : Forall (fun r => side_chunk b r = None) (List.filter (fun r => negb (is_body r)) rs).
Proof.
  apply Forall_forall. intros r [_ Hr]%list_elem_of_In%filter_In. unfold is_body, side_chunk in *.
  by destruct (prs_response r) as [[]|], b.
Qed.

(** What trailers that close the body deliver: the held body, or nothing. *)
Definition closing_post (b : bool) (P : bytes -> Prop) (r : result Status (list ProcessingResponse))
  (s' : StreamState) (_ : Glob Env) : Prop :=
  match r with
  | Ok rs => existsb is_immediate rs = false -> ends b rs = 0%nat /\ body_mark b s' = Completed /\ P (delivered b rs)
  | Err _ => True
  end.

Lemma trailing_fds_delivers b s (g : Glob Env) :
  mode_of b s = FullDuplexStreamed -> phase_state (eos_tracker s) (headers_phase b) = Active -> body_mark b s = Completed ->
  (b = true -> needs_selected_upstream_request_body (caps pipeline) = false) ->
  wp (run_trailing_fds_body pipeline b) (closing_post b (filters_made b (buffer b s) true)) s g.
Proof.
  intros Hm Hh Hk Hsel. unfold run_trailing_fds_body. repeat wp_step.
  eapply wp_mono; [by apply trailing_pipeline_delivers|]. cbv beta. rewrite Hk.
  intros [rs|e] s' g' [[Hg Hbuf] Hbm]; [|done]. repeat wp_step.
  destruct (body_chunk_seen b s) eqn:Hseen; cbn [orb].
  { wp_step. intros Hi. by destruct (Hg Hi) as [HP ->]. }
  destruct (bool_decide _) eqn:Hempty; cbn [negb]; wp_step; intros Hi; [|by destruct (Hg Hi) as [HP ->]].
  destruct (no_chunks b _ (not_bodies b rs)) as [-> ->]. split; [done|]. split; [done|].
  apply bool_decide_eq_true in Hempty. change (buffer b s' = []) in Hempty. rewrite <- Hempty.
  rewrite bodies_aside_immediate in Hi. rewrite (Hbuf Hi). apply (Hg Hi).
Qed.

Lemma flush_delivers b s (g : Glob Env) :
  body_mark b s = Completed -> wp (flush_deferred_fds_headers b) (closing_post b (fun d => d = [])) s g.
Proof.
  intros Hk. unfold flush_deferred_fds_headers. wp_step. apply wp_take_first; [intros _|intros s2 _ Hf _]; [by wp_step|].
  wp_step. apply deferred_answers. intros h s3 Hf3 _ Hh3. wp_step. intros _.
  destruct Hh3 as [Hans _]. destruct (no_chunks b [h] (header_answers b b [h] Hans)) as [-> ->]. split; [done|].
  split; [|done]. unfold body_mark in *. by rewrite (flow_eos _ _ _ Hf3), (flow_eos _ _ _ Hf).
Qed.

Lemma trailers_deliver b s (g : Glob Env) :
  mode_of b s = FullDuplexStreamed -> (b = false -> po_local_reply (phase_order s) = false) -> (b = true -> sound pipeline s) ->
  wp (handle_trailers pipeline b) (trailers_post b s) s g.
Proof.
  intros Hm Hl Hs. unfold handle_trailers. wp_step.
  assert (Hnl : b || negb (po_local_reply (phase_order s)) = true) by (destruct b; [done|by rewrite Hl]).
  assert (Hlast : forall r s' g', trailers_post b s r s' g' -> match r with
    | Ok rs => wp (if match last rs with Some r => is_immediate r | None => false end then ret rs
        else ret (rs ++ [if b then request_trailers else response_trailers])) (trailers_post b s) s' g'
    | Err e => trailers_post b s (Err e) s' g' end).
  { intros [rs|e] s' g' Hp; [|done]. wp_case; wp_step; [done|]. intros Hi. rewrite existsb_app in Hi.
    apply orb_false_iff in Hi as [Hi _]. specialize (Hp Hi).
    destruct (no_chunks b [if b then request_trailers else response_trailers]) as [E1 E2];
      [constructor; [apply trailers_chunk|done]|]. rewrite delivered_app, ends_app, E1, E2, app_nil_r, Nat.add_0_r. exact Hp. }
  eapply wp_mono; [|exact Hlast]. clear Hlast. unfold finalize_body_on_trailers. repeat wp_step.
  destruct (body_open b s) eqn:Hopen; cbn [negb].
  2: { wp_step. intros _. by rewrite Hopen. }
  assert (Hact : phase_state (eos_tracker s) (headers_phase b) = Active /\ body_mark b s = Active).
  { apply body_open_spec in Hopen. destruct b, Hopen as [_ [? ?]]; done. }
  destruct Hact as [Hh Ha].
  assert (Hp : trailing_body_phase pipeline s b = (body_phase b, FullDuplexStreamed, holds pipeline b s)).
  { unfold trailing_body_phase, holds. destruct b; cbn in Hm; rewrite Hm; [done|]. by rewrite Hl, andb_true_r. }
  rewrite Hp. wp_step. wp_step. set (s1 := with_eos_tracker _ s).
  assert (Hk : body_mark b s1 = Completed) by (unfold body_mark, s1; by destruct b).
  assert (Hh1 : phase_state (eos_tracker s1) (headers_phase b) = Active) by (unfold s1; by destruct b).
  assert (Hb : buffer b s1 = buffer b s) by (by destruct b).
  assert (Hm1 : mode_of b s1 = FullDuplexStreamed) by done. 
  assert (Hsel : b = true -> needs_selected_upstream_request_body (caps pipeline) = false).
  { intros Hbt. destruct (needs_selected_upstream_request_body _) eqn:Hx; [|done]. specialize (Hs Hbt). subst b.
    specialize (Hs Hm Hx). cbn in Hs, Hh. congruence. }
  clearbody s1. unfold trailers_post. rewrite Hopen, Hnl. cbn [andb]. destruct (holds pipeline b s).
  - rewrite <- Hb. by apply trailing_fds_delivers.
  - by apply flush_delivers.
Qed.

(** ** One message *)

(** A side whose headers, body and trailers a message is none of. *)
Definition untouched (b : bool) (s : StreamState) (rs : list ProcessingResponse) (s' : StreamState) : Prop :=
  (mode_of b s = FullDuplexStreamed -> mode_of b s' = FullDuplexStreamed) /\ buffer b s' = buffer b s /\
  body_mark b s' = body_mark b s /\ head_mark b s' = head_mark b s /\ phase_order s' = phase_order s /\
  Forall (fun r => side_chunk b r = None) rs.

Lemma handle_buffer b step req s (g : Glob Env) :
  message_order req = (side_of (negb b), step) ->
  wp (handle pipeline s req) (fun _ s' _ => buffer b s' = buffer b s) s g.
Proof.
  intros Hm. destruct (response_buffer_kept pipeline) as (R1 & R2 & R3).
  destruct (request_buffer_kept pipeline) as (Q1 & Q2 & Q3 & Q4).
  unfold handle, local_reply. destruct b, (po_local_reply (phase_order s)).
  - apply Q4.
  - destruct req; cbn in Hm; simplify_eq; [apply Q1|apply Q2|apply Q3].
  - destruct req; cbn in Hm; simplify_eq; cbn [local_reply_passthrough]; by wp_step.
  - destruct req; cbn in Hm; simplify_eq; [apply R1|apply R2|apply R3].
Qed.

Lemma handle_duplex step req s (g : Glob Env) :
  message_order req = (Request_, step) ->
  wp (handle pipeline s req) (when_ok (fun _ s' => mode_of false s = FullDuplexStreamed -> mode_of false s' = FullDuplexStreamed)) s g.
Proof.
  intros Hm. destruct (decide (step = Headers)) as [->|Hs].
  - destruct req; cbn in Hm; simplify_eq. unfold handle. destruct (local_reply _); [cbn [local_reply_passthrough]; by wp_step|].
    eapply wp_mono; [apply duplex_kept|]. cbv beta. intros [rs|e] s' g' Hd; [|done]. intros _ Hf.
    unfold full_duplex_response in Hd. cbn in Hf. rewrite Hf in Hd. by apply bool_decide_eq_true in Hd.
  - eapply wp_mono; [apply handle_answers|]. intros [rs|e] s' g'; [|done]. intros [Hk _] Hi Hf.
    destruct (kept_facts pipeline true step req s rs s' Hm Hk) as (_ & Hl & _). cbn in Hf |- *.
    by rewrite (leaves_config _ _ _ (Hl (or_introl Hs))).
Qed.

Lemma handle_other b step req s (g : Glob Env) :
  message_order req = (side_of (negb b), step) ->
  wp (handle pipeline s req) (when_ok (untouched b s)) s g.
Proof.
  intros Hm. assert (Hne : b <> negb b) by by destruct b.
  assert (Hd : wp (handle pipeline s req) (when_ok (fun _ s' => mode_of b s = FullDuplexStreamed -> mode_of b s' = FullDuplexStreamed)) s g).
  { destruct b; [|by eapply handle_duplex]. eapply wp_mono; [apply handle_answers|]. intros [rs|e] s' g'; [|done].
    intros [Hk _] Hi Hf. destruct (kept_facts pipeline false step req s rs s' Hm Hk) as (_ & Hl & _). cbn in Hf |- *.
    by rewrite (leaves_config _ _ _ (Hl (or_intror eq_refl))). }
  eapply wp_mono; [exact (wp_and _ _ _ _ _ Hd (wp_and _ _ _ _ _ (handle_buffer b step req s g Hm) (handle_answers pipeline req s g)))|].
  cbv beta. intros [rs|e] s' g' (Hmo & Hb & Ha); [|done]. intros Hi. destruct Ha as (Hk & Ha & _).
  rewrite Hm in Ha. cbn [fst snd] in Ha. assert (is_request_side (side_of (negb b)) = negb b) as Hs by by destruct b.
  rewrite Hs in Ha.
  destruct (kept_facts pipeline (negb b) step req s rs s' Hm Hk) as ([S1 S2 S3 S4 S5] & _).
  rewrite negb_involutive in S3, S4. split_and!; auto. by eapply other_answers.
Qed.

(** A header message of the side. *)
Definition opened_side (b : bool) (s : StreamState) (rs : list ProcessingResponse) (s' : StreamState) : Prop :=
  mode_of b s' = mode_of b s /\ body_mark b s' = body_mark b s /\ phase_order s' = phase_order s /\
  (head_mark b s' = Active -> buffer b s' = buffer b s) /\ Forall (fun r => side_chunk b r = None) rs.

Lemma handle_opening b req s (g : Glob Env) :
  message_order req = (side_of b, Headers) ->
  wp (handle pipeline s req) (when_ok (opened_side b s)) s g.
Proof.
  intros Hm.
  assert (Hb : wp (handle pipeline s req) (fun r s' _ => match r with
    | Ok _ => body_mark b s' = body_mark b s /\ (head_mark b s' = Active -> buffer b s' = buffer b s) | Err _ => True end) s g).
  { destruct (body_mark_kept pipeline) as (K1 & K2 & K3).
    assert (Hgo : forall h phase m, phase = headers_phase b -> frames (E := Env) (body_mark b) m ->
      (hh_end_of_stream h = true -> wp m (closes phase) s g) -> (hh_end_of_stream h = false -> frames (buffer b) m) ->
      wp m (fun r s' _ => match r with
        | Ok _ => body_mark b s' = body_mark b s /\ (head_mark b s' = Active -> buffer b s' = buffer b s) | Err _ => True end) s g).
    { intros h phase m -> Hk Hc Hb. destruct (hh_end_of_stream h).
      - eapply wp_mono; [apply (wp_and _ _ _ _ _ (Hk s g) (Hc eq_refl))|]. cbv beta.
        intros [rs|e] s' g' [E1 E2]; [|done]. split; [done|]. intros Ha. unfold head_mark, closes in *. congruence.
      - eapply wp_mono; [apply (wp_and _ _ _ _ _ (Hk s g) (Hb eq_refl s g))|]. cbv beta. by intros [rs|e] s' g' [E1 E2]. }
    unfold handle. destruct b; destruct req; cbn in Hm; simplify_eq; destruct (local_reply _); cbn [local_reply_passthrough].
    - by wp_step.
    - apply (Hgo h PRequestHeaders); auto; intros He; [by apply headers_close|by apply headers_keep_buffer].
    - apply (Hgo h PResponseHeaders); auto; intros He; [by apply headers_close|by apply headers_keep_buffer].
    - apply (Hgo h PResponseHeaders); auto; intros He; [by apply headers_close|by apply headers_keep_buffer]. }
  eapply wp_mono; [exact (wp_and _ _ _ _ _ Hb (handle_answers pipeline req s g))|].
  cbv beta. intros [rs|e] s' g' [HE Hans]; [|done]. destruct HE as [E1 E2], Hans as (Hk & Ha & _). intros Hi.
  rewrite Hm in Ha. cbn [fst snd] in Ha. assert (is_request_side (side_of b) = b) as Hs by by destruct b.
  rewrite Hs in Ha. destruct (kept_facts pipeline b Headers req s rs s' Hm Hk) as ([S1 S2 S3 S4 S5] & _).
  split_and!; auto. by eapply header_answers.
Qed.

(** ** What a side has received *)

(** The body of the side is over. *)
Definition over (b : bool) (s : StreamState) : bool :=
  is_complete (body_mark b s) || bool_decide (position b (phase_order s) = Some Trailers).

(** Between two messages: [acc] has been received, with the flag if [e]; delivered is all of it,
    or, held by the filters, what they made of it once it ended and nothing before. *)
Record Side (b : bool) (sent : list ProcessingResponse) (acc : bytes) (e : bool) (s : StreamState) : Prop := {
  side_mode : mode_of b s = FullDuplexStreamed;
  side_delivered :
    if holds pipeline b s then (if is_complete (body_mark b s) then filters_made b acc true (delivered b sent) else delivered b sent = [])
    else delivered b sent = acc;
  side_ends : ends b sent = if e then 1%nat else 0%nat;
  side_buffer : head_mark b s = Active -> body_mark b s = Active -> holds pipeline b s = true -> buffer b s = acc;
  side_fresh : position b (phase_order s) = None -> acc = [] /\ body_mark b s = Active /\ buffer b s = [];
  side_last : e = true -> body_mark b s = Completed;
}.

Definition side_message (b : bool) (req : ReqMsg) (sent : list ProcessingResponse) (acc : bytes) (e : bool)
  (s : StreamState) (rs : list ProcessingResponse) (s' : StreamState) : Prop :=
  let c := if over b s then ([], false) else message_chunk b req in
  Side b (sent ++ rs) (acc ++ c.1) (e || c.2) s' /\ over b s' = over b s || message_ends b req.

(** Whether the filters hold the body depends on whether the exchange is a local reply. *)
Lemma holds_order b s s' : phase_order s' = phase_order s -> holds pipeline b s' = holds pipeline b s.
Proof. intros E. unfold holds. by rewrite E. Qed.

(** A message of the other side. *)
Lemma other_side_message b req step sent acc e s s1 rs s' :
  Side b sent acc e s -> message_order req = (side_of (negb b), step) ->
  s1 = with_phase_order (advanced (negb b) step (phase_order s)) s -> untouched b s1 rs s' ->
  (b = false -> po_local_reply (phase_order s1) = po_local_reply (phase_order s)) ->
  side_message b req sent acc e s rs s'.
Proof.
  intros [Sm Sd Se Sb Sf Sl] Hm -> (Um & Ub & Uk & Uh & Uo & Un) Hl.
  destruct (no_message b req step Hm) as [Hc He]. destruct (no_chunks b rs Un) as [D1 D2].
  assert (Hpos : position b (phase_order s') = position b (phase_order s)).
  { rewrite Uo. cbn. by apply advanced_other; destruct b. }
  assert (Hh : holds pipeline b s' = holds pipeline b s).
  { rewrite (holds_order _ _ _ Uo). unfold holds. destruct b; [done|]. by rewrite Hl. }
  change (body_mark b s' = body_mark b s) in Uk. change (buffer b s' = buffer b s) in Ub.
  change (head_mark b s' = head_mark b s) in Uh.
  unfold side_message. rewrite Hc, He, orb_false_r. cbv zeta.
  assert ((if over b s then ([], false) else ([], false)) = (([], false) : bytes * bool)) as -> by by destruct (over b s).
  cbn [fst snd]. rewrite app_nil_r, orb_false_r. split.
  - constructor; rewrite ?delivered_app, ?ends_app, ?D1, ?D2, ?app_nil_r, ?Nat.add_0_r, ?Hh, ?Uk, ?Uh, ?Ub, ?Hpos; auto.
  - unfold over. by rewrite Uk, Hpos.
Qed.

(** Its header message. *)
Lemma header_side_message b req sent acc e s s1 rs s' :
  Side b sent acc e s -> message_order req = (side_of b, Headers) -> position b (phase_order s) = None ->
  s1 = with_phase_order (advanced b Headers (phase_order s)) s -> opened_side b s1 rs s' ->
  side_message b req sent acc e s rs s'.
Proof.
  intros [Sm Sd Se Sb Sf Sl] Hm Hp -> (Um & Uk & Uo & Ub & Un).
  destruct (no_header_message b req Hm) as [Hc He]. destruct (no_chunks b rs Un) as [D1 D2].
  destruct (Sf Hp) as (-> & Hk & Hb).
  change (mode_of b s' = mode_of b s) in Um. change (body_mark b s' = body_mark b s) in Uk.
  assert (Hd : delivered b sent = []) by (rewrite Hk in Sd; by destruct (holds pipeline b s)).
  assert (Hpos : position b (phase_order s') = Some Headers) by (rewrite Uo; apply advanced_own).
  unfold side_message. rewrite Hc, He. cbv zeta.
  assert ((if over b s then ([], false) else ([], false)) = (([], false) : bytes * bool)) as -> by by destruct (over b s).
  cbn [fst snd app]. rewrite !orb_false_r. split.
  - constructor; rewrite ?delivered_app, ?ends_app, ?D1, ?D2, ?app_nil_r, ?Nat.add_0_r.
    + congruence.
    + rewrite Hd, Uk, Hk. by destruct (holds pipeline b s').
    + done.
    + intros Ha _ _. rewrite (Ub Ha). exact Hb.
    + by rewrite Hpos.
    + intros Ht. specialize (Sl Ht). congruence.
  - unfold over. rewrite Uk, Hpos, Hp, Hk. done.
Qed.

(** A message of its body, and its trailers. *)
Section OwnMessage.
Variables (b : bool) (sent : list ProcessingResponse) (acc : bytes) (e : bool) (s s1 : StreamState).
Variables (rs : list ProcessingResponse) (s' : StreamState) (step : PhaseStep).
Hypothesis HS : Side b sent acc e s.
Hypothesis Hp : position b (phase_order s) <> None.
Hypothesis Htr : position b (phase_order s) <> Some Trailers.
Hypothesis Hs1 : s1 = with_phase_order (advanced b step (phase_order s)) s.
Hypothesis Hl : po_local_reply (phase_order s1) = po_local_reply (phase_order s).
Hypothesis Um : mode_of b s' = mode_of b s1.
Hypothesis Uo : phase_order s' = phase_order s1.

Lemma own_facts :
  position b (phase_order s') = Some step /\ holds pipeline b s1 = holds pipeline b s /\
  holds pipeline b s' = holds pipeline b s /\ mode_of b s' = FullDuplexStreamed /\
  body_mark b s1 = body_mark b s /\ buffer b s1 = buffer b s /\ head_mark b s1 = head_mark b s.
Proof.
  destruct HS as [Sm _ _ _ _ _].
  assert (H1 : holds pipeline b s1 = holds pipeline b s) by (unfold holds; destruct b; [done|by rewrite Hl]).
  split_and!; [rewrite Uo, Hs1; apply advanced_own|done|by rewrite (holds_order _ _ _ Uo)|..]; subst s1; try done.
  rewrite Um. exact Sm.
Qed.

Lemma body_side_message body g' :
  step = Body -> existsb is_immediate rs = false -> body_post b body s1 (Ok rs) s' g' ->
  side_message b (if b then RequestBody body else ResponseBody body) sent acc e s rs s'.
Proof.
  intros Hst Hi Hx. specialize (Hx Hi). cbv zeta in Hx. destruct own_facts as (Hpos & H1 & H2 & Hm & Hk & Hb & Hh).
  destruct HS as [Sm Sd Se Sb Sf Sl].
  assert (Hc : message_chunk b (if b then RequestBody body else ResponseBody body) = (hb_body body, hb_end_of_stream body) /\
               message_ends b (if b then RequestBody body else ResponseBody body) = hb_end_of_stream body) by (unfold message_ends; destruct b; cbn; by rewrite orb_false_r).
  destruct Hc as [Hc He]. unfold side_message, over. rewrite Hc, He, Hpos, Hst.
  rewrite (bool_decide_false (position b (phase_order s) = Some Trailers)), (bool_decide_false (Some Body = Some Trailers)) by done.
  rewrite !orb_false_r. rewrite Hk, Hb, H1 in Hx. unfold head_mark in Hh. rewrite Hh in Hx.
  destruct (body_mark b s) eqn:Ek; cbn [is_complete fst snd].
  2: { destruct Hx as [-> Hx]. rewrite !app_nil_r, orb_false_r. split; [|by rewrite Hx].
       constructor; rewrite ?H2, ?Hpos; auto; [by rewrite Hx|intros; congruence|done]. }
  destruct Hx as (Hha & Hx & Hd). rewrite Hx.
  assert (He0 : e = false) by (destruct e; [by specialize (Sl eq_refl)|done]). rewrite He0 in Se |- *. cbn [orb] in *.
  split; [|by destruct (hb_end_of_stream body)].
  cbn [is_complete] in Sd. destruct (holds pipeline b s) eqn:Ehold.
  - rewrite (Sb Hha eq_refl eq_refl) in Hd. destruct (hb_end_of_stream body); [destruct Hd as [D1 D2]|destruct Hd as [-> D1]].
    + constructor; rewrite ?delivered_app, ?ends_app, ?H2, ?Hpos, ?Hx, ?D1, ?D2, ?Sd, ?Se, ?Hst; try done.
    + constructor; rewrite ?app_nil_r, ?H2, ?Hpos, ?Hx, ?Hst; auto; done.
  - destruct Hd as [D1 D2].
    constructor; rewrite ?delivered_app, ?ends_app, ?H2, ?Hpos, ?Hx, ?D1, ?D2, ?Sd, ?Se, ?Hst; try done.
    by intros ->.
Qed.

Lemma trailers_side_message t g' :
  step = Trailers -> existsb is_immediate rs = false ->
  (body_open b s1 = true -> head_mark b s = Active /\ body_mark b s = Active) -> trailers_post b s1 (Ok rs) s' g' ->
  side_message b (if b then RequestTrailers t else ResponseTrailers t) sent acc e s rs s'.
Proof.
  intros Hst Hi Hopen Hx. destruct (Hx Hi) as [D2 Hd]. clear Hx. destruct own_facts as (Hpos & H1 & H2 & Hm & Hk & Hb & Hh).
  destruct HS as [Sm Sd Se Sb Sf Sl].
  assert (Hc : message_chunk b (if b then RequestTrailers t else ResponseTrailers t) = ([], false) /\
               message_ends b (if b then RequestTrailers t else ResponseTrailers t) = true) by by destruct b.
  destruct Hc as [Hc He]. unfold side_message, over. rewrite Hc, He, Hpos, Hst.
  rewrite (bool_decide_true (Some Trailers = Some Trailers)) by done. rewrite !orb_true_r.
  assert ((if is_complete (body_mark b s) || bool_decide (position b (phase_order s) = Some Trailers)
           then ([], false) else ([], false)) = (([], false) : bytes * bool)) as ->
    by by destruct (is_complete (body_mark b s) || _).
  cbn [fst snd]. rewrite app_nil_r, orb_false_r. split; [|done]. rewrite H1, Hb in Hd.
  destruct (body_open b s1); cbn [andb] in Hd; [destruct (b || negb (po_local_reply (phase_order s1)))|].
  - destruct (Hopen eq_refl) as [Ha1 Ha2]. destruct Hd as [Hx D1]. rewrite Ha2 in Sd. cbn [is_complete] in Sd.
    assert (He0 : e = false) by (destruct e; [specialize (Sl eq_refl); congruence|done]). rewrite He0 in *.
    destruct (holds pipeline b s) eqn:Ehold; [rewrite (Sb Ha1 Ha2 eq_refl) in D1|];
      constructor; rewrite ?delivered_app, ?ends_app, ?H2, ?Hpos, ?Hx, ?Sd, ?D2, ?Se, ?Hst; try done.
    by rewrite D1, app_nil_r.
  - destruct Hd as [-> D1].
    constructor; rewrite ?delivered_app, ?ends_app, ?H2, ?Hpos, ?Hk, ?Hh, ?Hb, ?D1, ?D2, ?Sd, ?Se, ?Hst, ?app_nil_r, ?Nat.add_0_r; done.
  - destruct Hd as [-> D1].
    constructor; rewrite ?delivered_app, ?ends_app, ?H2, ?Hpos, ?Hk, ?Hh, ?Hb, ?D1, ?D2, ?Sd, ?Se, ?Hst, ?app_nil_r, ?Nat.add_0_r; done.
Qed.
End OwnMessage.

(** What the body and trailers handlers owe, through the choice of the local reply. *)
Lemma handle_own_body b body s (g : Glob Env) :
  mode_of b s = FullDuplexStreamed -> (b = true -> sound pipeline s) ->
  wp (handle pipeline s (if b then RequestBody body else ResponseBody body)) (body_post b body s) s g.
Proof.
  intros Hm Hs. unfold handle, local_reply. destruct (po_local_reply (phase_order s)) eqn:Hl, b; cbn [local_reply_passthrough].
  - by wp_step.
  - by apply local_body_delivers.
  - apply request_body_delivers; auto.
  - by apply response_body_delivers.
Qed.

Lemma handle_own_trailers b t s (g : Glob Env) :
  mode_of b s = FullDuplexStreamed -> (b = true -> sound pipeline s) ->
  wp (handle pipeline s (if b then RequestTrailers t else ResponseTrailers t)) (trailers_post b s) s g.
Proof.
  intros Hm Hs. unfold handle, local_reply. destruct (po_local_reply (phase_order s)) eqn:Hl, b; cbn [local_reply_passthrough].
  - by wp_step.
  - wp_step. intros _. split; [done|]. by rewrite Hl, andb_false_r.
  - by apply trailers_deliver.
  - by apply trailers_deliver.
Qed.

Lemma dispatch_delivers b req all sent acc e s (g : Glob Env) :
  Budget pipeline all s -> Side b sent acc e s ->
  wp (dispatch_request pipeline req) (when_ok (side_message b req sent acc e s)) s g.
Proof.
  intros HB HS. apply dispatch_handles; [done|]. intros side step Hm Hside Htr s1.
  assert (Hs1 : s1 = with_phase_order (advanced (is_request_side side) step (phase_order s)) s) by (by destruct side).
  clearbody s1. assert (Hm2 : message_order req = (side_of (is_request_side side), step)) by (by destruct side).
  destruct (decide (b = is_request_side side)) as [Heq|Hne].
  2: { assert (is_request_side side = negb b) as Hb by (by destruct b, side). rewrite Hb in Htr, Hs1, Hm2.
    eapply wp_mono; [by apply (handle_other b step)|]. intros [rs|er] s' g'; [|done]. intros Hu Hi.
    eapply other_side_message; [done..|by apply Hu|]. intros ->. rewrite Hs1. eapply advanced_local; [exact HB|]. auto. }
  rewrite <- Heq in Htr, Hs1, Hm2. destruct (headers_first _ _ _ Htr) as [[-> Hp]|[Hs [prev Hp]]].
  { eapply wp_mono; [by apply (handle_opening b)|]. intros [rs|er] s' g'; [|done]. intros Hu Hi.
    eapply header_side_message; [done..|by apply Hu]. }
  assert (Hpn : position b (phase_order s) <> None) by congruence.
  assert (Hpt : position b (phase_order s) <> Some Trailers).
  { intros Hx. rewrite Hx in Htr. by destruct step. }
  assert (Hl : po_local_reply (phase_order s1) = po_local_reply (phase_order s)).
  { rewrite Hs1. eapply advanced_local; [exact HB|]. auto. }
  assert (Hm1 : mode_of b s1 = FullDuplexStreamed) by (rewrite Hs1; exact (side_mode _ _ _ _ _ HS)).
  assert (Hso : b = true -> sound pipeline s1).
  { intros ->. rewrite Hs1. exact (budget_sound _ _ _ HB Hpn). }
  assert (Hkeep : forall P, wp (handle pipeline s1 req) P s1 g ->
     wp (handle pipeline s1 req) (fun r s' g' => P r s' g' /\ match r with
       | Ok rs => mode_of b s' = mode_of b s1 /\ phase_order s' = phase_order s1 | Err _ => True end) s1 g).
  { intros P HP. eapply wp_mono; [exact (wp_and _ _ _ _ _ HP (handle_answers pipeline req s1 g))|]. cbv beta.
    intros [rs|er] s' g' [HP' Hans]; [|done]. split; [exact HP'|]. destruct Hans as [Hk _].
    destruct (kept_facts pipeline b step req s1 rs s' Hm2 Hk) as (Hsp & Hlv & _).
    split; [|apply (spares_order _ _ _ Hsp)]. unfold mode_of. by rewrite (leaves_config _ _ _ (Hlv (or_introl Hs))). }
  destruct step; [done| |].
  - assert (exists body, req = if b then RequestBody body else ResponseBody body) as [body ->]
      by (destruct req, b; cbn in Hm2; simplify_eq; by eexists).
    eapply wp_mono; [apply Hkeep, handle_own_body; done|]. cbv beta. intros [rs|er] s' g' [Hx Hk]; [|done].
    destruct Hk as [Hk1 Hk2]. intros Hi. by eapply (body_side_message b sent acc e s s1 rs s' Body).
  - assert (exists t, req = if b then RequestTrailers t else ResponseTrailers t) as [t ->]
      by (destruct req, b; cbn in Hm2; simplify_eq; by eexists).
    eapply wp_mono; [apply Hkeep, handle_own_trailers; done|]. cbv beta. intros [rs|er] s' g' [Hx Hk]; [|done].
    destruct Hk as [Hk1 Hk2]. intros Hi. eapply (trailers_side_message b sent acc e s s1 rs s' Trailers); try done.
    intros Ho. rewrite Hs1 in Ho. apply body_open_spec in Ho. by destruct b, Ho as [_ [? ?]].
Qed.

(** ** Whole streams *)

(** No message makes a side full-duplex. *)
Lemma dispatch_duplex b req s (g : Glob Env) :
  wp (dispatch_request pipeline req)
    (when_ok (fun _ s' => mode_of b s' = FullDuplexStreamed -> mode_of b s = FullDuplexStreamed)) s g.
Proof.
  apply dispatch_handles; [done|]. intros side step Hm _ _ s1.
  assert (Hm1 : mode_of b s1 = mode_of b s) by done. rewrite <- Hm1. clearbody s1. clear s Hm1.
  assert (Hm2 : message_order req = (side_of (is_request_side side), step)) by (by destruct side).
  destruct (decide (b = false /\ side = Request_ /\ step = Headers)) as [(-> & -> & ->)|Hne].
  - destruct req; cbn in Hm; simplify_eq. unfold handle. destruct (local_reply _); [cbn [local_reply_passthrough]; by wp_step|].
    eapply wp_mono; [apply duplex_kept|]. cbv beta. intros [rs|e] s' g' Hd; [|done]. intros _ Hf.
    unfold full_duplex_response in Hd. cbn in Hf. rewrite Hf in Hd. symmetry in Hd. by apply bool_decide_eq_true in Hd.
  - eapply wp_mono; [apply handle_answers|]. intros [rs|e] s' g'; [|done]. intros [Hk _] Hi Hf.
    destruct (kept_facts pipeline _ step req s1 rs s' Hm2 Hk) as ([_ Smode _ _ _] & Hl & _).
    destruct (decide (b = is_request_side side)) as [->|Hb]; [congruence|].
    unfold mode_of in *. rewrite (leaves_config _ _ _ (Hl ltac:(destruct side, b, step; cbn in *; auto; tauto))) in Hf. done.
Qed.

Definition Delivers (b : bool) (past : list ReqMsg) (sent : list ProcessingResponse) (s : StreamState) : Prop :=
  mode_of b s = FullDuplexStreamed ->
  Side b sent (received b past).1 (received b past).2 s /\ over b s = ended b past.

Lemma dispatch_kept b past sent req s (g : Glob Env) :
  Budget pipeline sent s -> Delivers b past sent s ->
  wp (dispatch_request pipeline req) (when_ok (fun rs s' => Delivers b (past ++ [req]) (sent ++ rs) s')) s g.
Proof.
  intros HB HD. pose proof (dispatch_duplex b req s g) as Hdup.
  destruct (decide (mode_of b s = FullDuplexStreamed)) as [Hm|Hm].
  2: { eapply wp_mono; [exact Hdup|]. intros [rs|e] s' g'; [|done]. intros Hx Hi Hm'. by destruct (Hm (Hx Hi Hm')). }
  destruct (HD Hm) as [HS Ho]. eapply wp_mono; [by eapply dispatch_delivers|]. intros [rs|e] s' g'; [|done].
  intros Hx Hi _. destruct (Hx Hi) as [HS' Ho']. cbv zeta in HS'. rewrite Ho in HS', Ho'. rewrite received_snoc.
  split; [|unfold ended; rewrite Ho', existsb_app; cbn; by rewrite orb_false_r].
  destruct (ended b past); [|done]. cbn in HS'. by rewrite app_nil_r, orb_false_r in HS'.
Qed.

Variable max : option Z.
Variable trust : bool.
Variable selector : ResponseModeSelector.

Abbreviation sent_by inbound env warned := (run_sent pipeline max trust selector (fun _ => true) inbound env warned).
Abbreviation state_after inbound env warned := (run_state pipeline max trust selector (fun _ => true) inbound env warned).

Lemma run_delivers inbound env warned b :
  max_valid max ->
  run_result pipeline max trust selector (fun _ => true) inbound env warned = Ok tt ->
  existsb is_immediate (sent_by inbound env warned) = false ->
  Said (requests inbound) (state_after inbound env warned) /\
  Delivers b (requests inbound) (sent_by inbound env warned) (state_after inbound env warned).
Proof.
  intros Hv Hr Hi.
  destruct (run_said pipeline max trust selector (Delivers b) inbound env warned Hv) as (_ & HS & HD); [| |done|done|done].
  - intros past sent' req s g HB _ HD. eapply wp_mono; [by apply dispatch_kept|]. cbv beta.
    intros [rs|e] s' g' Hx; [|done]. intros Hn _ _. by apply Hx.
  - split; [|by destruct b].
    constructor; try done; destruct b; try done; cbn [body_mark]; by destruct (holds pipeline _ _).
Qed.

(** C6. In a stream that ends without error and without an immediate response, on a side Envoy runs
    in full-duplex mode, however the body was cut into messages and wherever it ended (a last
    chunk, or trailers), and whatever the filters do: a body they do not hold (the response body
    of a local reply among them) is delivered byte for byte as it was received; a body they hold
    is delivered once it is closed, as a call of them on the whole of it, announced as the last,
    left it, and nothing of it before; and the end-of-stream flag is passed on exactly when it
    was received. *)
Theorem full_duplex_bodies_are_delivered inbound env warned b :
  let sent := sent_by inbound env warned in
  let reqs := requests inbound in
  max_valid max ->
  run_result pipeline max trust selector (fun _ => true) inbound env warned = Ok tt ->
  existsb is_immediate sent = false -> mode_of b (state_after inbound env warned) = FullDuplexStreamed ->
  (if held pipeline b reqs
   then if body_closed b reqs then filters_made b (received b reqs).1 true (delivered b sent) else delivered b sent = []
   else delivered b sent = (received b reqs).1) /\
  ends b sent = (if (received b reqs).2 then 1%nat else 0%nat).
Proof.
  intros sent reqs Hv Hr Hi Hm.
  destruct (run_delivers inbound env warned b Hv Hr Hi) as [HS HD].
  destruct (HD Hm) as [[_ Hd He _ _ _] _]. split; [|done].
  rewrite (said_holds pipeline _ _ b HS), (said_body _ _ HS b) in Hd.
  unfold reqs. destruct (body_closed b (requests inbound)); exact Hd.
Qed.
End Delivery.

(** ** An instance *)

(** A pipeline that reverses the request body and does not read the response body. *)
Definition reversing_pipeline : DemoPipeline :=
  let p := pass_pipeline (demo_caps true false false false) in
  {| dp_caps := dp_caps p; dp_limit := dp_limit p; dp_request := dp_request p; dp_response := dp_response p;
     dp_request_body := fun ctx b _ => (Ok (FilterOther 0), ctx, option_map (@rev _) b);
     dp_upstream_body := dp_upstream_body p; dp_response_body := dp_response_body p |}.

(** A request body in two messages ended by trailers, and a response body ended by its flag. *)
Definition duplex_stream : list (result string ProcessingRequest) :=
  map Ok [demo_first 4 4 (demo_request_headers false);
          demo_message (RequestBody (demo_body "he" false)); demo_message (RequestBody (demo_body "llo" false));
          demo_message (RequestTrailers {| ht_trailers := None |});
          demo_message (demo_response_headers false);
          demo_message (ResponseBody (demo_body "wor" false)); demo_message (ResponseBody (demo_body "ld" true))].

#[local] Abbreviation duplex_sent :=
  (run_sent (H0 := ConcretePraxis) reversing_pipeline (Some 100) false ResponseModeSelector_default (fun _ => true)
     duplex_stream 0%nat false).
#[local] Abbreviation duplex_state :=
  (run_state (H0 := ConcretePraxis) reversing_pipeline (Some 100) false ResponseModeSelector_default (fun _ => true)
     duplex_stream 0%nat false).

Lemma full_duplex_bodies_are_delivered_witness :
  delivered true duplex_sent = as_bytes "olleh" /\ delivered false duplex_sent = as_bytes "world" /\
  (filters_made (H0 := ConcretePraxis) reversing_pipeline true (as_bytes "hello") true (delivered true duplex_sent) /\
   ends true duplex_sent = 0%nat).
Proof.
  assert (H1 : run_result (H0 := ConcretePraxis) reversing_pipeline (Some 100) false ResponseModeSelector_default
                 (fun _ => true) duplex_stream 0%nat false = Ok tt) by (vm_compute; reflexivity).
  assert (H2 : existsb is_immediate duplex_sent = false) by (vm_compute; reflexivity).
  assert (H3 : mode_of true duplex_state = FullDuplexStreamed) by (vm_compute; reflexivity).
  split; [vm_compute; reflexivity|split; [vm_compute; reflexivity|]].
  exact (full_duplex_bodies_are_delivered (H0 := ConcretePraxis) reversing_pipeline
           (Some 100) false ResponseModeSelector_default duplex_stream 0%nat false true demo_max_valid H1 H2 H3).
Defined.
