(* ===== verification/LocalReply.v ===== *)
(** * Local replies, over whole streams

    A stream that opens with a response message carries a reply Envoy made itself. No filter is
    called for it, each of its messages is answered with a plain continue, and its body reaches
    the client as Envoy made it: in full-duplex mode because the chunks sent are those received,
    in the other modes because no response replaces it. *)

From S2P Require Import Prelude RustStd Proto Effect Extern Concrete Metrics Response Protocol Adapter ResponseMode State Pipeline Handlers Server Invariant StreamInv Stream Guarantees Answers Budget Replies Runs Frames Marks Delivery.

(** The first message that carries a request, if any does, is on the response side. *)
Fixpoint opens_with_response (inbound : list (result string ProcessingRequest)) : Prop :=
  match inbound with
  | [] | Err _ :: _ => True
  | Ok m :: rest =>
      match pr_request m with
      | None => opens_with_response rest
      | Some req => fst (message_order req) = Response_
      end
  end.

Section LocalReply.
Context `{PraxisFilter}.
Variable pipeline : FilterPipeline.
Variable max : option Z.

(** After a local reply, a request message is refused before any filter runs. *)
Lemma dispatch_request_after_local req s (g : Glob Env) :
  po_local_reply (phase_order s) = true -> fst (message_order req) = Request_ ->
  wp (dispatch_request pipeline req) (fun r s' g' => is_ok r = false /\ filter_calls g' = filter_calls g) s g.
Proof.
  intros Hl Hs. unfold dispatch_request. repeat wp_step. apply wp_validate_body_message; [|by intros; split].
  wp_step. apply wp_check_and_advance; [|by intros; split].
  intros side step Hm Hside _. rewrite Hm in Hs. cbn in Hs. subst side. rewrite Hside in Hl; done.
Qed.

(** A local reply keeps the announced modes, whatever becomes of the message. *)
Lemma local_keeps_config req s (g : Glob Env) :
  po_request (phase_order s) = None -> po_local_reply (phase_order s) = true \/ fst (message_order req) = Response_ ->
  wp (dispatch_request pipeline req) (fun _ s' _ => protocol_config s' = protocol_config s) s g.
Proof.
  intros Hn Hc. unfold dispatch_request. repeat wp_step. apply wp_validate_body_message; [|done].
  wp_step. apply wp_check_and_advance; [|done]. intros side step Hm Hside _. repeat wp_step.
  assert (side = Response_) as ->.
  { destruct side; [|done]. rewrite Hm in Hc. destruct Hc as [Hc|]; [by rewrite (Hside eq_refl) in Hc|done]. }
  unfold local_reply. cbn [phase_order with_phase_order po_local_reply order_advance].
  rewrite !bool_decide_true by done. cbn [andb]. rewrite orb_true_r. set (s1 := with_phase_order _ s).
  change (protocol_config s) with (protocol_config s1). clearbody s1.
  assert (Hst : forall A (m : M Env StreamState A), frames still m -> frames protocol_config m).
  { intros A m Hm' s2 g2. eapply wp_mono; [apply Hm'|]. cbv beta. unfold still. intros r s' g' E. by injection E. }
  assert (Hk : frames (E := Env) protocol_config (local_reply_passthrough req)).
  { unfold local_reply_passthrough, local_reply_headers, local_reply_body, record_local_reply, mark_phase.
    frame. all: apply Hst, frames_passthrough. }
  apply Hk.
Qed.

(** The configuration of the first message is the only one. *)
Lemma apply_config_first cfg (first : bool) Q s (g : Glob Env) :
  (forall c, first = false \/ c = protocol_config s -> Q (Ok tt) (with_protocol_config c s) g) ->
  (forall m g', filter_calls g' = filter_calls g -> Q (Err (Status_invalid_argument m)) s g') ->
  wp (apply_protocol_config cfg first) Q s g.
Proof.
  intros HQ HE. assert (Hs : with_protocol_config (protocol_config s) s = s) by by destruct s.
  unfold apply_protocol_config. destruct cfg as [c|]; [|wp_step; rewrite <- Hs; apply HQ; by right].
  destruct first; [|unfold config_from_first_message; destruct (ProtocolConfig_try_from c); repeat wp_step; [apply HQ; by left|]].
  all: unfold record_invalid_argument; repeat wp_step; apply HE; by apply filter_calls_log.
Qed.

Definition local_modes (s : StreamState) (sent : list ProcessingResponse) : Prop :=
  Forall (transparent (response_body_mode (protocol_config s))) sent.

Lemma local_loop open inbound : forall (first : bool) sent s (g : Glob Env),
  Inv max s g -> po_request (phase_order s) = None ->
  (po_local_reply (phase_order s) = true \/ opens_with_response inbound) ->
  local_modes s sent -> (first = false -> sent = []) ->
  wp (process_messages pipeline open first inbound sent)
    (fun o s' g' => filter_calls g' = [] /\ exists sent' r, o = Ok (sent', r) /\ local_modes s' sent' /\
       (r = Ok tt -> po_request (phase_order s') = None)) s g.
Proof.
  assert (Hsame : forall s, with_protocol_config (protocol_config s) s = s) by by intros [].
  induction inbound as [|msg rest IH]; intros first sent s g Hinv Hrq Hl Ht Hf; simpl;
    (destruct (ord_virgin _ _ (proj2 Hinv) Hrq) as [Hcalls0 _]).
  { wp_step. eauto 10. }
  destruct msg as [msg|e]; [|wp_step; split; [done|]; by eexists _, _]. repeat wp_step.
  apply apply_config_first.
  2: { intros m g' Hg. wp_step. split; [congruence|]. by eexists _, _. }
  intros c Hcfg.
  apply (inv_config _ c) in Hinv.
  assert (Ht1 : local_modes (with_protocol_config c s) sent).
  { destruct Hcfg as [Hfirst| ->]; [rewrite (Hf Hfirst); by constructor|by rewrite Hsame]. }
  set (s1 := with_protocol_config c s) in *.
  assert (Hrq1 : po_request (phase_order s1) = None) by done.
  simpl in Hl. destruct (pr_request msg) as [req|]; [|by apply IH]. repeat wp_step.
  assert (Hcase : po_local_reply (phase_order s1) = true \/ fst (message_order req) = Response_) by (by destruct Hl; auto).
  pose proof (local_keeps_config req s1 g Hrq1 Hcase) as Hcfg1.
  destruct (message_order req) as [[] step] eqn:Hm.
  - destruct Hcase as [Hlo|Hcase]; [|done].
    eapply wp_mono; [apply wp_and; [exact Hcfg1|by apply dispatch_request_after_local; rewrite ?Hm]|]. cbv beta.
    intros [rs|e] s2 g2 [Ec [? Hq]]; [done|]. wp_step. split; [by rewrite Hq|]. eexists _, _. split; [done|]. split; [|done].
    unfold local_modes. by rewrite Ec.
  - eapply wp_mono; [apply wp_and; [exact Hcfg1|by apply (dispatch_spec pipeline max)]|]. cbv beta.
    intros r s2 g2 [Ec (_ & Hcalls & Hr)].
    specialize (Hcalls Hrq1 ltac:(by rewrite Hm)).
    assert (Ht2 : local_modes s2 sent) by (unfold local_modes; by rewrite Ec).
    destruct r as [rs|e]; [|wp_step; split; [done|]; by eexists _, _].
    destruct Hr as (_ & Hi & Hloc). destruct (Hloc Hrq1 ltac:(by rewrite Hm)) as (Hrq2 & Hl2 & _ & Hrs & _).
    pose proof (transparent_goes_on _ _ Hrs) as Hni. rewrite <- Ec in Hrs.
    destruct (send_all_spec open rs sent) as (k & E1 & E2 & _).
    destruct (send_all open sent rs) as [sent' still]. simpl in *. rewrite Hni. destruct still; simpl.
    + rewrite E2 by done. apply IH; auto; [|done]. by apply Forall_app.
    + wp_step. split; [done|]. eexists _, _. split; [done|]. rewrite E1. split; [|done].
      apply Forall_app; split; [done|by apply Forall_take].
Qed.

Variable trust : bool.
Variable selector : ResponseModeSelector.

(** C16. A local reply is passed through, in any body mode: on a stream that opens with a response
    message no filter is ever called; every response is a plain continue for headers, for a body
    left as it is or for trailers, that neither mutates a header, nor replaces or clears the
    body, nor overrides a mode, except that in full-duplex mode, where Envoy forwards what it is
    sent, a body response carries a chunk; and there, when the stream ends without error and
    everything was sent, the chunks are together the body received, with its end-of-stream
    flag. *)
Theorem local_reply_is_transparent open inbound env warned :
  max_valid max -> opens_with_response inbound ->
  filter_calls (run_world pipeline max trust selector open inbound env warned) = [] /\
  Forall (transparent (mode_of false (run_state pipeline max trust selector open inbound env warned)))
    (run_sent pipeline max trust selector open inbound env warned) /\
  let sent := run_sent pipeline max trust selector (fun _ => true) inbound env warned in
  let s := run_state pipeline max trust selector (fun _ => true) inbound env warned in
  run_result pipeline max trust selector (fun _ => true) inbound env warned = Ok tt ->
  mode_of false s = FullDuplexStreamed ->
  delivered false sent = (received false (requests inbound)).1 /\
  ends false sent = (if (received false (requests inbound)).2 then 1 else 0)%nat.
Proof.
  intros Hv Ho.
  assert (Hrun : forall open,
    let s := run_state pipeline max trust selector open inbound env warned in
    let sent := run_sent pipeline max trust selector open inbound env warned in
    filter_calls (run_world pipeline max trust selector open inbound env warned) = [] /\ local_modes s sent /\
    (run_result pipeline max trust selector open inbound env warned = Ok tt -> po_request (phase_order s) = None)).
  { clear open. intros open. unfold run_sent, run_world, run_state, run_result, run, handle_stream, bind.
    pose proof (local_loop open inbound false [] _ _ (initial_inv max trust selector env warned Hv) eq_refl
                  (or_intror Ho) ltac:(by constructor) ltac:(done)) as Hs.
    unfold wp in Hs. destruct (process_messages _ _ _ _ _ _ _) as [[o s] g]. destruct Hs as (Hf & sent & r & -> & Ht & Hn).
    cbn. split_and!; [|done|done]. etrans; [exact (filter_calls_log (EMetric MRequest) g eq_refl)|done]. }
  destruct (Hrun open) as (Hf & Ht & _). split; [done|]. split; [done|]. intros sent s Hr Hm.
  destruct (Hrun (fun _ => true)) as (_ & Ht' & Hn). specialize (Hn Hr). fold sent s in Ht', Hn.
  pose proof (transparent_goes_on _ _ Ht') as Hi.
  destruct (run_delivers pipeline max trust selector inbound env warned false Hv Hr Hi) as [HS HD].
  destruct (HD Hm) as [[_ Hd He _ _ _] _]. split; [|done].
  rewrite (said_holds pipeline _ _ false HS), (said_body _ _ HS false) in Hd.
  pose proof (said_came _ _ HS true) as Hc. cbn [position] in Hc. unfold s in Hn. rewrite Hn, bool_decide_true in Hc by done.
  unfold held in Hd. destruct (requests inbound) as [|r reqs]; cbn in Hc, Hd.
  - by destruct (needs_response_body _ && true).
  - destruct r; cbn in Hc, Hd; try done; by rewrite andb_false_r in Hd.
Qed.
End LocalReply.

(** ** An instance: the reply of a full-duplex stream *)

#[local] Abbreviation demo_sent :=
  (run_sent (H0 := ConcretePraxis) demo_pipeline (Some 100) false ResponseModeSelector_default (fun _ => true)
     demo_local_reply 0%nat false).
#[local] Abbreviation demo_state :=
  (run_state (H0 := ConcretePraxis) demo_pipeline (Some 100) false ResponseModeSelector_default (fun _ => true)
     demo_local_reply 0%nat false).

Lemma local_reply_is_transparent_witness :
  opens_with_response demo_local_reply /\
  delivered false demo_sent = as_bytes "denied" /\
  (filter_calls (demo_run demo_pipeline demo_local_reply).2 = [] /\
   delivered false demo_sent = (received false (requests demo_local_reply)).1 /\
   ends false demo_sent = (if (received false (requests demo_local_reply)).2 then 1 else 0)%nat).
Proof.
  assert (H1 : run_result (H0 := ConcretePraxis) demo_pipeline (Some 100) false ResponseModeSelector_default
                 (fun _ => true) demo_local_reply 0%nat false = Ok tt) by (vm_compute; reflexivity).
  assert (H2 : mode_of false demo_state = FullDuplexStreamed) by (vm_compute; reflexivity).
  pose proof (local_reply_is_transparent (H0 := ConcretePraxis) demo_pipeline (Some 100) false ResponseModeSelector_default
                (fun _ => true) demo_local_reply 0%nat false demo_max_valid eq_refl) as (Hf & _ & Hd).
  split; [reflexivity|]. split; [vm_compute; reflexivity|]. split; [exact Hf|exact (Hd H1 H2)].
Defined.
