(* ===== verification/Override.v ===== *)
(** * The response-mode override

    The server may ask Envoy, in its answer to the request headers, to stream the response body
    whatever mode was announced. Over a whole stream: when it does, what exactly it asks for, and
    that it then works in the mode it asked for. A discipline of rules in the style of [Frames]
    shows that no other response asks for anything. *)

From S2P Require Import Prelude RustStd Proto Effect Extern Concrete Metrics Response Protocol Adapter ResponseMode State Pipeline Handlers Server Invariant StreamInv Stream Contracts Guarantees Answers Budget Replies Runs Lockstep Frames Marks.

(** ** What a function returns *)

Section Rules.
Context {E S : Type}.

(** Whatever its outcome, [m] returns values that satisfy [P]. *)
Definition yields {A} (P : A -> Prop) (m : M E S A) : Prop :=
  forall s g, wp m (fun r _ _ => match r with Ok a => P a | Err _ => True end) s g.

Lemma yields_ret {A} (P : A -> Prop) a : P a -> yields P (ret a).
Proof. by intros HP s g; wp_step. Qed.
Lemma yields_fail {A} (P : A -> Prop) e : yields P (fail e).
Proof. by intros s g; wp_step. Qed.
Lemma yields_bind {A B} (Q : A -> Prop) (P : B -> Prop) (m : M E S A) (k : A -> M E S B) :
  yields Q m -> (forall a, Q a -> yields P (k a)) -> yields P (bind m k).
Proof.
  intros Hm Hk s g. wp_step. eapply wp_mono; [apply Hm|]. intros [a|e] s' g' HQ; [|done]. by apply Hk.
Qed.
Lemma yields_any {A} (m : M E S A) : yields (fun _ => True) m.
Proof. intros s g. unfold wp. by destruct (m s g) as [[[a|e] s'] g']. Qed.
End Rules.

(** A response that overrides no mode. *)
Definition unforced (r : ProcessingResponse) : Prop := prs_mode_override r = None.

Create HintDb unforced discriminated.

(** What the values of a type are to satisfy, rule by rule. *)
Ltac unforced_step :=
  match goal with
  | |- forall _, _ => intro
  | |- yields _ (match ?x with _ => _ end) => destruct x eqn:?
  | |- yields _ (fail _) => apply yields_fail
  | |- yields _ (ret (match ?x with Some _ => _ | None => _ end)) => destruct x
  | |- yields _ (ret _) => apply yields_ret; solve [auto 6 with unforced]
  | |- yields _ (bind (A := list ProcessingResponse) _ _) => apply (yields_bind (Forall unforced))
  | |- yields _ (bind (A := ProcessingResponse) _ _) => apply (yields_bind unforced)
  | |- yields _ (bind (A := option ProcessingResponse) _ _) =>
      apply (yields_bind (fun o => match o with Some r => unforced r | None => True end))
  | |- yields _ (bind (A := option (list ProcessingResponse)) _ _) =>
      apply (yields_bind (fun o => match o with Some rs => Forall unforced rs | None => True end))
  | |- yields _ (bind _ _) => apply (yields_bind (fun _ => True)); [apply yields_any|]
  | |- yields _ _ => solve [auto with unforced nocore]
  end.
Ltac unforce := repeat unforced_step.

Lemma unforced_one r : unforced r -> Forall unforced [r].
Proof. by repeat constructor. Qed.
Lemma unforced_nil : Forall unforced [].
Proof. done. Qed.
Lemma unforced_cons r rs : unforced r -> Forall unforced rs -> Forall unforced (r :: rs).
Proof. by constructor. Qed.
Lemma unforced_app rs rs' : Forall unforced rs -> Forall unforced rs' -> Forall unforced (rs ++ rs').
Proof. intros. by apply Forall_app. Qed.
Lemma unforced_filter f rs : Forall unforced rs -> Forall unforced (List.filter f rs).
Proof. induction 1 as [|r rs Hr _ IH]; [done|]. simpl. destruct (f r); [by constructor|done]. Qed.
Lemma unforced_rejections rs : Forall unforced rs -> Forall unforced (rejection_only rs).
Proof. apply unforced_filter. Qed.
Lemma unforced_immediate i : unforced (immediate i).
Proof. done. Qed.
Lemma unforced_request_headers m : unforced (request_headers m).
Proof. done. Qed.
Lemma unforced_response_headers m : unforced (response_headers m).
Proof. done. Qed.
Lemma unforced_request_trailers : unforced request_trailers.
Proof. done. Qed.
Lemma unforced_response_trailers : unforced response_trailers.
Proof. done. Qed.
Lemma unforced_streamed fuel : forall limit offset data m b eos, Forall unforced (streamed_loop fuel limit offset data m b eos).
Proof.
  induction fuel as [|fuel IH]; intros; simpl; [done|]. destruct (_ <? _); [|done]. constructor; [by destruct b|apply IH].
Qed.
Lemma unforced_body body m b mode eos : Forall unforced (body_responses body m b mode eos).
Proof.
  destruct mode; cbn [body_responses]; try (constructor; [by destruct b|done]).
  unfold body_responses_streamed. destruct body as [[|]|]; try (constructor; [by destruct b|done]). apply unforced_streamed.
Qed.
Lemma unforced_request_body body m mode eos : Forall unforced (request_body body m mode eos).
Proof. apply unforced_body. Qed.
Lemma unforced_response_body body m mode eos : Forall unforced (response_body body m mode eos).
Proof. apply unforced_body. Qed.
Lemma unforced_either body m (b : bool) mode eos :
  Forall unforced (if b then request_body body m mode eos else response_body body m mode eos).
Proof. destruct b; apply unforced_body. Qed.
Lemma unforced_build_request phase m body mode eos : Forall unforced (build_request_for_phase phase m body mode eos).
Proof. destruct phase, mode; cbn; try (by constructor); try apply unforced_body.
  constructor; [done|]. apply (unforced_body _ _ _ FullDuplexStreamed). Qed.
Lemma unforced_build_response phase m body mode eos : Forall unforced (build_response_for_phase phase m body mode eos).
Proof. destruct phase, mode; cbn; try (by constructor); try apply unforced_body.
  constructor; [done|]. apply (unforced_body _ _ _ FullDuplexStreamed). Qed.

#[export] Hint Resolve unforced_one unforced_nil unforced_cons unforced_app unforced_filter unforced_rejections unforced_immediate
  unforced_request_headers unforced_response_headers unforced_request_trailers unforced_response_trailers unforced_request_body unforced_response_body
  unforced_either unforced_build_request unforced_build_response yields_any : unforced.

(** ** The functions a message goes through *)

Section Unforced.
Context `{PraxisFilter}.
Variable pipeline : FilterPipeline.

Abbreviation plain m := (yields (E := Env) (S := StreamState) (Forall unforced) m).

Lemma unforced_rejection status body : unforced (local_rejection status body).
Proof. done. Qed.
Lemma unforced_plain status : unforced (plain_rejection status).
Proof. done. Qed.
Lemma unforced_limit : unforced (request_body_limit_exceeded pipeline).
Proof. done. Qed.
#[local] Hint Resolve unforced_rejection unforced_plain unforced_limit : unforced.

Lemma unforced_missing_request : plain missing_request_headers.
Proof. unfold missing_request_headers. unforce. Qed.
Lemma unforced_missing_response : plain missing_response_headers.
Proof. unfold missing_response_headers. unforce. Qed.
Lemma unforced_limit_rejection : yields (E := Env) (S := StreamState) unforced selected_input_limit_rejection.
Proof. unfold selected_input_limit_rejection. unforce. Qed.
Lemma unforced_request phase m n eos : plain (build_request phase m n eos).
Proof. unfold build_request, build_bodyless_selected_request_response. unforce. Qed.
Lemma unforced_deferred b : yields (E := Env) (S := StreamState) unforced (deferred_header_response b).
Proof. unfold deferred_header_response. unforce. Qed.
#[local] Hint Resolve unforced_missing_request unforced_missing_response unforced_limit_rejection unforced_request
  unforced_deferred : unforced.

Lemma unforced_request_pipeline phase eos ord : plain (run_request_pipeline_inner phase pipeline eos ord).
Proof. unfold run_request_pipeline_inner. unforce. Qed.
Lemma unforced_response_pipeline phase eos : plain (run_response_pipeline phase pipeline eos).
Proof. unfold run_response_pipeline. unforce. Qed.
Lemma unforced_passthrough body mode b : plain (passthrough_chunk body mode b).
Proof. unfold passthrough_chunk. unforce. Qed.
Lemma unforced_streamed_chunk body b : plain (process_streamed_body_chunk pipeline body b).
Proof. unfold process_streamed_body_chunk. unforce. Qed.
Lemma unforced_early_request d : plain (run_request_header_filters_early pipeline d).
Proof. unfold run_request_header_filters_early, deliver_request. unforce. Qed.
Lemma unforced_early_response d : plain (run_response_header_filters_early pipeline d).
Proof. unfold run_response_header_filters_early, deliver_response. unforce. Qed.
Lemma unforced_flush_streamed b : plain (flush_streamed_body_filters pipeline b).
Proof. unfold flush_streamed_body_filters. unforce. Qed.
Lemma unforced_flush_deferred b : plain (flush_deferred_fds_headers b).
Proof. unfold flush_deferred_fds_headers. unforce. Qed.
Lemma unforced_duplicate phase : plain (duplicate_after_eos phase).
Proof. unfold duplicate_after_eos. unforce. Qed.
Lemma unforced_redelivery entry mode phase : yields (E := Env) (S := StreamState)
  (fun o => match o with Some rs => Forall unforced rs | None => True end) (handle_body_redelivery entry mode phase).
Proof. unfold handle_body_redelivery, duplicate_after_eos. unforce. Qed.
Lemma unforced_over_limit n : yields (E := Env) (S := StreamState)
  (fun o => match o with Some r => unforced r | None => True end) (reject_streamed_request_over_limit pipeline n).
Proof. unfold reject_streamed_request_over_limit. unforce. Qed.
#[local] Hint Resolve unforced_request_pipeline unforced_response_pipeline unforced_passthrough unforced_streamed_chunk
  unforced_early_request unforced_early_response unforced_flush_streamed unforced_flush_deferred unforced_duplicate
  unforced_redelivery unforced_over_limit : unforced.

(** Only the answer to request headers may ask for anything, and not before the last step. *)
Lemma handle_unforced req s (g : Glob Env) :
  message_order req <> (Request_, Headers) ->
  wp (handle pipeline s req) (fun r _ _ => match r with Ok rs => Forall unforced rs | Err _ => True end) s g.
Proof.
  intros Hm. assert (Hy : plain (handle pipeline s req)); [|apply Hy].
  unfold handle, local_reply_passthrough, local_reply_headers, local_reply_body, handle_request_body, accumulate_request_body,
    handle_response_headers, handle_response_body, accumulate_response_body, handle_trailers, finalize_body_on_trailers,
    run_trailing_fds_body, run_trailing_body_pipeline, run_request_pipeline. unforce. all: done.
Qed.

(** ** The answer to request headers *)

(** The mode asked for, and when: never in full-duplex mode, nor where Envoy sends no response
    body, nor where it does not wait for the answer that would carry the request, nor against
    filters that buffer the response; and only if the selector says so. *)
Definition override_of (cfg : ProtocolConfig) : ProcessingMode :=
  {| pm_request_header_mode := 0; pm_response_header_mode := HeaderSendMode_Send;
     pm_request_body_mode := BodyMode_as_i32 (request_body_mode cfg); pm_response_body_mode := BodySendMode_Streamed;
     pm_request_trailer_mode := 0; pm_response_trailer_mode := 0 |}.
Definition may_stream (cfg : ProtocolConfig) (selector : ResponseModeSelector) (headers : list HeaderValue) : bool :=
  negb (bool_decide (request_body_mode cfg = FullDuplexStreamed)) &&
  negb (bool_decide (response_body_mode cfg = FullDuplexStreamed)) &&
  negb (bool_decide (response_body_mode cfg = None_)) &&
  negb (send_body_without_waiting_for_header_response cfg) &&
  (match cap_response_body_mode (caps pipeline) with FilterStreamBuffer _ => false | _ => true end) &&
  should_stream selector headers.

Definition overrides (rs : list ProcessingResponse) : list ProcessingMode := omap prs_mode_override rs.

Lemma overrides_app rs rs' : overrides (rs ++ rs') = overrides rs ++ overrides rs'.
Proof. apply omap_app. Qed.
Lemma no_overrides rs : Forall unforced rs -> overrides rs = [].
Proof. unfold overrides. induction 1 as [|r rs Hr _ IH]; [done|]. cbn. by rewrite Hr. Qed.

(** Only the answer to request headers asks. *)
Definition asks_with_headers (rs : list ProcessingResponse) : Prop :=
  Forall (fun r => unforced r \/ exists c, prs_response r = Some (RespRequestHeaders c)) rs.
Lemma unforced_asks rs : Forall unforced rs -> asks_with_headers rs.
Proof. intros Hf. eapply Forall_impl; [exact Hf|]. by left. Qed.

(** The functions that answer request headers leave the selector alone. *)
Lemma selector_kept phase eos ord d :
  frames (E := Env) response_mode_selector (run_request_pipeline_inner phase pipeline eos ord) /\
  frames (E := Env) response_mode_selector (run_request_header_filters_early pipeline d).
Proof.
  split; unfold run_request_pipeline_inner, run_request_header_filters_early, deliver_request, hydrate_from_state,
    dehydrate_to_state, execute_request_filters_if_needed, run_request_body_filters_at_eos,
    run_selected_upstream_body_filters, run_body_filters, build_request, build_bodyless_selected_request_response, fresh_context,
    missing_request_headers, selected_input_limit_rejection, execute_request, execute_request_body,
    execute_selected_upstream, run_call, action_outcome, immediate_from_action, record_immediate_response,
    record_body_size_rejection, record_invalid_argument; frame.
Qed.

(** The answer before the override: nothing asked, the modes as they were, and, outside
    full-duplex mode, one header response. *)
Definition opening_answer (s : StreamState) (rs : list ProcessingResponse) (s' : StreamState) : Prop :=
  Forall unforced rs /\ protocol_config s' = protocol_config s /\ response_mode_selector s' = response_mode_selector s /\
  (request_body_mode (protocol_config s) <> FullDuplexStreamed ->
   exists r c, rs = [r] /\ prs_response r = Some (RespRequestHeaders c)).

(** The override of that answer. *)
Lemma apply_override rs headers s0 s (g : Glob Env) :
  opening_answer s0 rs s ->
  wp (apply_response_mode_override pipeline rs headers) (fun r s' _ => match r with
    | Ok rs' => asks_with_headers rs' /\
        if may_stream (protocol_config s0) (response_mode_selector s0) headers
        then overrides rs' = [override_of (protocol_config s0)] /\
             protocol_config s' = with_response_body_mode Streamed (protocol_config s0)
        else overrides rs' = [] /\ protocol_config s' = protocol_config s0
    | Err _ => True end) s g.
Proof.
  intros (Hf & Hc & Hs & Hone). unfold apply_response_mode_override, may_stream. repeat wp_step. rewrite Hc, Hs.
  pose proof (unforced_asks _ Hf) as Hasks. pose proof (no_overrides _ Hf) as Hno.
  destruct (bool_decide (request_body_mode (protocol_config s0) = FullDuplexStreamed)) eqn:Hq; cbn [orb negb andb]; [by wp_step|].
  destruct (bool_decide (response_body_mode _ = FullDuplexStreamed)), (bool_decide (response_body_mode _ = None_)),
    (send_body_without_waiting_for_header_response _); cbn [orb negb andb]; try by wp_step.
  apply bool_decide_eq_false in Hq. destruct (Hone Hq) as (r & c & -> & Hr).
  assert (Hset : set_response_mode_streamed r (request_body_mode (protocol_config s0)) =
    ({| prs_response := prs_response r; prs_mode_override := Some (override_of (protocol_config s0)) |}, true))
    by (unfold set_response_mode_streamed; by rewrite Hr).
  destruct (cap_response_body_mode _); cbn [andb]; try by wp_step.
  all: destruct (should_stream _ _); [|by wp_step].
  all: cbn [map existsb]; rewrite Hset; cbn [snd fst orb]; repeat wp_step; (split; [|done]).
  all: constructor; [right; by exists c|done].
Qed.

(** The answer, from a pipeline function that yields one header response. *)
Lemma opening_emits s (m : M Env StreamState (list ProcessingResponse)) g :
  yields (Forall unforced) m -> frames response_mode_selector m ->
  wp m (emits true s (fun rs _ => request_body_mode (protocol_config s) <> FullDuplexStreamed -> batch true Headers 1 rs)) s g ->
  wp m (when_ok (opening_answer s)) s g.
Proof.
  intros Hy Hf Hm. eapply wp_mono; [exact (wp_and _ _ _ _ _ (wp_and _ _ _ _ _ (Hy s g) (Hf s g)) Hm)|]. cbv beta.
  intros [rs|e] s' g'; [|done]. intros [[Hu Hs] [Hfl Hb]] Hi. split_and!; [done|apply (flow_config _ _ _ Hfl)|done|].
  intros Hq. destruct (Hb Hq) as (Ha & _ & Ht). specialize (Ht Hi). pose proof (only_headers _ _ Ha Hi) as Hl. rewrite Ht in Hl.
  destruct rs as [|r [|]]; try done. unfold times, is_kind in Ht. cbn in Ht.
  destruct (prs_response r) as [[]|] eqn:Er; cbn in Ht; try done. by eexists _, _.
Qed.

Lemma opening_with_body s (g : Glob Env) :
  wp (handle_request_headers_with_body pipeline) (when_ok (opening_answer s)) s g.
Proof.
  unfold handle_request_headers_with_body. repeat wp_step. wp_case.
  { unfold handle_unsupported_selected_request_headers. wp_step. unfold wp.
    destruct (run_request_header_filters_early _ _ _ _) as [[[rs|e] s'] g'] eqn:Hr; [|done].
    destruct rs as [|r rs]; cbn; [by intros ?|]. destruct (is_immediate r) eqn:Hi; cbn; [by rewrite Hi|by intros ?]. }
  assert (Hearly : forall d s1, (request_body_mode (protocol_config s1) <> FullDuplexStreamed -> d = Send) ->
    wp (run_request_header_filters_early pipeline d) (when_ok (opening_answer s1)) s1 g).
  { intros d s1 Hd. apply opening_emits; [apply unforced_early_request|apply (selector_kept RqHeaders true true)|].
    eapply emits_mono; [|apply early_request_answers]. cbv beta. intros rs s' _ [_ Hb] Hq. by rewrite (Hd Hq) in Hb. }
  assert (Hone : wp (request_headers_without_body_filter) (when_ok (opening_answer s)) s g).
  { unfold request_headers_without_body_filter. repeat wp_step. intros _. split_and!; [by repeat constructor|done|done|].
    intros _. by eexists _, _. }
  destruct (request_body_mode (protocol_config s)) eqn:Hm; try exact Hone; repeat wp_step.
  1,2: exact (Hearly Send (set_request_headers_sent true s) (fun _ => eq_refl)).
  wp_case; [apply Hearly; congruence|]. wp_step. intros _. by split_and!; [..|intros []].
Qed.

Lemma opening_end_stream s (g : Glob Env) :
  eos_request_headers (eos_tracker s) = Completed ->
  wp (handle_end_stream_request_headers pipeline) (when_ok (opening_answer s)) s g.
Proof.
  intros Hc.
  assert (Hrun : forall phase eos ord, wp (run_request_pipeline_inner phase pipeline eos ord) (when_ok (opening_answer s)) s g).
  { intros phase eos ord. apply opening_emits; [apply unforced_request_pipeline|apply (selector_kept phase eos ord Send)|].
    pose proof (request_pipeline_answers pipeline phase eos ord s g) as Hp.
    unfold request_step, request_headers_yield in Hp. rewrite Hc in Hp.
    eapply emits_mono; [|exact Hp]. cbv beta. intros rs s' _ Hb _. by destruct phase. }
  unfold handle_end_stream_request_headers. destruct (needs_selected_upstream_request_body _); apply Hrun.
Qed.

Lemma request_headers_override headers s (g : Glob Env) :
  wp (handle_request_headers pipeline headers) (when_ok (fun rs s' => asks_with_headers rs /\
    if may_stream (protocol_config s) (response_mode_selector s) (extract_header_list headers)
    then overrides rs = [override_of (protocol_config s)] /\
         protocol_config s' = with_response_body_mode Streamed (protocol_config s)
    else overrides rs = [] /\ protocol_config s' = protocol_config s)) s g.
Proof.
  unfold handle_request_headers. wp_step. apply wp_mark_phase; [by intros _; apply wp_duplicate|intros Ha _ _|done].
  cbn [is_complete]. assert (He1 : hh_end_of_stream headers = true ->
     eos_request_headers (eos_tracker (with_eos_tracker (if hh_end_of_stream headers
       then mark_complete PRequestHeaders (eos_tracker s) else eos_tracker s) s)) = Completed) by (intros ->; done).
  set (s1 := with_eos_tracker _ s) in *.
  assert (Hs1 : protocol_config s1 = protocol_config s /\ response_mode_selector s1 = response_mode_selector s) by done.
  destruct Hs1 as [<- <-]. clearbody s1. clear s Ha.
  destruct (reject_ambiguous_guardrail_selection _) as [rej|] eqn:Hrej.
  { wp_step. unfold reject_ambiguous_guardrail_selection in Hrej. destruct (ambiguous_selection _ _); [|done].
    injection Hrej as <-. intros Hi. discriminate Hi. }
  repeat wp_step. set (s2 := with_request _ s1).
  assert (Hs2 : protocol_config s2 = protocol_config s1 /\ response_mode_selector s2 = response_mode_selector s1 /\
    eos_tracker s2 = eos_tracker s1) by done. destruct Hs2 as (<- & <- & Ht). rewrite <- Ht in He1. clearbody s2. clear s1 Ht.
  wp_case; [by wp_step|].
  assert (Hcont : forall m : M Env StreamState (list ProcessingResponse),
     wp m (when_ok (opening_answer s2)) s2 g ->
     wp (let? responses := m in apply_response_mode_override pipeline responses (extract_header_list headers))
       (when_ok (fun rs s' => asks_with_headers rs /\
          if may_stream (protocol_config s2) (response_mode_selector s2) (extract_header_list headers)
          then overrides rs = [override_of (protocol_config s2)] /\
               protocol_config s' = with_response_body_mode Streamed (protocol_config s2)
          else overrides rs = [] /\ protocol_config s' = protocol_config s2)) s2 g).
  { intros m Hm. wp_step. eapply wp_mono; [exact Hm|]. cbv beta. intros [rs|e] s' g'; [|done]. intros Ho.
    destruct (existsb is_immediate rs) eqn:Hi.
    - apply wp_override. intros rs' c Hmap _ Hi'. destruct (same_kinds _ _ Hmap) as [Hx _]. congruence.
    - eapply wp_mono; [exact (apply_override rs (extract_header_list headers) s2 s' g' (Ho Hi))|]. cbv beta.
      intros [rs'|e] s3 g3 Hr; [|done]. by intros _. }
  destruct (hh_end_of_stream headers); [apply Hcont, opening_end_stream; by apply He1|].
  wp_case; [by wp_step|]. apply Hcont, opening_with_body.
Qed.

(** ** Whole streams *)

Section Stream.
Variable cfg : ProtocolConfig.
Variable selector : ResponseModeSelector.

(** The stream is switched by the request headers that open it, if they may. *)
Definition switches (reqs : list ReqMsg) : bool :=
  match reqs with RequestHeaders h :: _ => may_stream cfg selector (extract_header_list h) | _ => false end.

Definition Asked (past : list ReqMsg) (sent : list ProcessingResponse) (s : StreamState) : Prop :=
  asks_with_headers sent /\ overrides sent = (if switches past then [override_of cfg] else []) /\
  protocol_config s = (if switches past then with_response_body_mode Streamed cfg else cfg) /\
  (past = [] -> response_mode_selector s = selector).

Lemma switches_snoc past req : past <> [] -> switches (past ++ [req]) = switches past.
Proof. by destruct past. Qed.

(** Anything but request headers that open the stream. *)
Lemma asked_kept past sent req s (g : Glob Env) :
  Asked past sent s -> Said past s -> (forall h, past = [] -> req <> RequestHeaders h) ->
  wp (dispatch_request pipeline req) (when_ok (fun rs s' => Asked (past ++ [req]) (sent ++ rs) s')) s g.
Proof.
  intros HA HS Hreq. apply dispatch_handles; [done|]. intros side step Hm Hside Htr s1.
  assert (Hs1 : s1 = with_phase_order (advanced (is_request_side side) step (phase_order s)) s) by (by destruct side).
  clearbody s1. assert (Hm2 : message_order req = (side_of (is_request_side side), step)) by (by destruct side).
  assert (Hne : message_order req <> (Request_, Headers)).
  { intros E. rewrite E in Hm. injection Hm as <- <-. specialize (Hside eq_refl). cbn [is_request_side] in Htr.
    destruct (headers_first _ _ _ Htr) as [[_ Hp]|[? _]]; [|done].
    pose proof (said_came _ _ HS true) as Hc. rewrite Hp, bool_decide_true in Hc by done.
    rewrite (said_local _ _ HS) in Hside. destruct past as [|r past].
    - destruct req; try done. by eapply Hreq.
    - cbn in Hc, Hside. by destruct r. }
  eapply wp_mono; [exact (wp_and _ _ _ _ _ (handle_unforced req s1 g Hne) (handle_answers pipeline req s1 g))|]. cbv beta.
  intros [rs|e] s' g' [Hu Hans]; [|done]. destruct Hans as [Hk _]. intros Hi.
  destruct (kept_facts pipeline _ step req s1 rs s' Hm2 Hk) as (_ & Hlv & _).
  assert (Hc : protocol_config s' = protocol_config s).
  { rewrite (leaves_config _ _ _ (Hlv ltac:(destruct side, step; cbn in *; auto; congruence))). by rewrite Hs1. }
  destruct HA as (Ha & Ho & Hcfg & Hsel).
  assert (Hsw : switches (past ++ [req]) = switches past).
  { destruct past; [|done]. cbn. by destruct req. }
  split; [by apply Forall_app; split; [|apply unforced_asks]|].
  rewrite overrides_app, (no_overrides rs Hu), app_nil_r, Hsw, Hc. split_and!; [done|done|]. by destruct past.
Qed.

(** Request headers that open the stream. *)
Lemma asked_opening sent h s (g : Glob Env) :
  Asked [] sent s -> Said [] s ->
  wp (dispatch_request pipeline (RequestHeaders h)) (when_ok (fun rs s' => Asked [RequestHeaders h] (sent ++ rs) s')) s g.
Proof.
  intros (Ha & Ho & Hcfg & Hsel) HS. cbn in Ho, Hcfg. specialize (Hsel eq_refl).
  apply dispatch_handles; [done|]. intros side step Hm Hside Htr s1.
  assert (Hl : local_reply (phase_order s1) = false).
  { injection Hm as <- <-. unfold s1, local_reply. cbn. by rewrite (said_local _ _ HS). }
  assert (Hs1 : protocol_config s1 = cfg /\ response_mode_selector s1 = selector) by done. clearbody s1.
  unfold handle. rewrite Hl. eapply wp_mono; [apply request_headers_override|]. cbv beta.
  intros [rs|e] s' g'; [|done]. intros Hx Hi. destruct (Hx Hi) as [Hask Hr]. destruct Hs1 as [E1 E2]. rewrite E1, E2 in Hr.
  split; [by apply Forall_app|]. rewrite overrides_app, Ho. cbn [switches app].
  destruct (may_stream cfg selector (extract_header_list h)); destruct Hr as [-> ->]; by split_and!.
Qed.

Lemma dispatch_asked past sent req s (g : Glob Env) :
  Said past s -> Asked past sent s ->
  wp (dispatch_request pipeline req) (when_ok (fun rs s' => Asked (past ++ [req]) (sent ++ rs) s')) s g.
Proof.
  intros HS HA. destruct past as [|r past]; [|by apply asked_kept].
  destruct req; try (apply asked_kept; [done|done|by intros ? _]). by apply asked_opening.
Qed.
End Stream.

Variable max : option Z.
Variable trust : bool.
Variable selector : ResponseModeSelector.

(** C19. The response is switched to streaming exactly where that is asked for and safe. In a
    stream that ends without error and without an immediate response: if it opens with request
    headers that may be streamed (neither announced body mode is FULL_DUPLEX_STREAMED, the
    announced response mode is not NONE, Envoy waits for the answer to the headers, no filter
    buffers the response, and the selector allows it for these headers), then exactly one
    override is sent, it asks for the request mode announced, response headers and a STREAMED
    response body, and STREAMED is the response mode from then on; otherwise no override is sent
    and the modes stay as announced. Only an answer to request headers carries an override. *)
Theorem override_is_recorded_and_safe inbound env warned :
  let sent := run_sent pipeline max trust selector (fun _ => true) inbound env warned in
  let s := run_state pipeline max trust selector (fun _ => true) inbound env warned in
  let cfg := announced inbound in
  max_valid max ->
  run_result pipeline max trust selector (fun _ => true) inbound env warned = Ok tt ->
  existsb is_immediate sent = false ->
  overrides sent = (if switches cfg selector (requests inbound) then [override_of cfg] else []) /\
  protocol_config s = (if switches cfg selector (requests inbound) then with_response_body_mode Streamed cfg else cfg) /\
  Forall (fun r => prs_mode_override r <> None -> exists c, prs_response r = Some (RespRequestHeaders c)) sent.
Proof.
  intros sent s cfg Hv Hr Hi.
  destruct (run_said pipeline max trust selector (Asked cfg selector) inbound env warned Hv) as (_ & _ & Ha & Ho & Hc & _);
    [| |done|done|].
  - intros past sent' req s0 g _ HS HA. eapply wp_mono; [by apply dispatch_asked|]. cbv beta.
    intros [rs|e] s' g'; [|done]. intros Hx Hn _ _. by apply Hx.
  - split_and!; [by constructor|done|done|done].
  - split; [exact Ho|]. split; [exact Hc|]. eapply Forall_impl; [exact Ha|]. cbv beta. intros r [Hu|Hh] Hn; [done|exact Hh].
Qed.
End Unforced.

(** ** An instance: a request that declines the output guardrail of [demo_chain] *)

Definition streamable_stream : list (result string ProcessingRequest) :=
  map Ok [demo_first 2 2 (RequestHeaders {| hh_headers := Some (demo_selection "false"); hh_end_of_stream := true |});
          demo_message (demo_response_headers false); demo_message (ResponseBody (demo_body "hello" true))].
#[local] Abbreviation streamable_sent :=
  (run_sent (H0 := ConcretePraxis) demo_pipeline (Some 100) false (from_config [demo_chain]) (fun _ => true)
     streamable_stream 0%nat false).
#[local] Abbreviation streamable_state :=
  (run_state (H0 := ConcretePraxis) demo_pipeline (Some 100) false (from_config [demo_chain]) (fun _ => true)
     streamable_stream 0%nat false).

Lemma override_is_recorded_and_safe_witness :
  overrides streamable_sent = [{| pm_request_header_mode := 0; pm_response_header_mode := 1; pm_request_body_mode := 2;
    pm_response_body_mode := 1; pm_request_trailer_mode := 0; pm_response_trailer_mode := 0 |}] /\
  mode_of false streamable_state = Streamed /\
  overrides streamable_sent =
    (if switches (H0 := ConcretePraxis) demo_pipeline (announced streamable_stream) (from_config [demo_chain]) (requests streamable_stream)
     then [override_of (announced streamable_stream)] else []).
Proof.
  assert (H1 : run_result (H0 := ConcretePraxis) demo_pipeline (Some 100) false (from_config [demo_chain])
                 (fun _ => true) streamable_stream 0%nat false = Ok tt) by (vm_compute; reflexivity).
  assert (H2 : existsb is_immediate streamable_sent = false) by (vm_compute; reflexivity).
  split; [vm_compute; reflexivity|]. split; [vm_compute; reflexivity|].
  exact (proj1 (override_is_recorded_and_safe (H0 := ConcretePraxis) demo_pipeline (Some 100) false (from_config [demo_chain])
                  streamable_stream 0%nat false demo_max_valid H1 H2)).
Defined.
