(* ===== verification/Released.v ===== *)
(** * Which headers are answered

    Outside full-duplex mode a header message is answered as it comes. In full-duplex mode its
    response waits until something releases it, and the messages tell what does: headers that
    end the stream, a body that closes, or, where the filters do not hold the body, its first
    message. The trailers of a local reply release nothing. *)

From S2P Require Import Prelude RustStd Proto Effect Extern Concrete Metrics Response Protocol Adapter ResponseMode State Pipeline Handlers Server Invariant StreamInv Stream Guarantees Answers Budget Replies Runs Frames Marks Delivery.

(** A body message of a side came. *)
Definition chunk_of (b : bool) (req : ReqMsg) : bool :=
  match req, b with RequestBody _, true | ResponseBody _, false => true | _, _ => false end.
Definition body_came (b : bool) (reqs : list ReqMsg) : bool := existsb (chunk_of b) reqs.

Lemma body_came_snoc b past req : body_came b (past ++ [req]) = body_came b past || chunk_of b req.
Proof. unfold body_came. rewrite existsb_app. cbn. by rewrite orb_false_r. Qed.

Lemma body_came_came b past : body_came b past = true -> came b past = true.
Proof.
  unfold body_came, came. intros (r & Hin & Hr)%existsb_exists. apply existsb_exists. exists r. split; [done|]. by destruct r, b.
Qed.

Section Released.
Context `{PraxisFilter}.
Variable pipeline : FilterPipeline.

(** What releases the header response of a side in full-duplex mode. *)
Definition released_by (b : bool) (reqs : list ReqMsg) : bool :=
  heads_ended b reqs || body_closed b reqs || (negb (held pipeline b reqs) && body_came b reqs).

(** ** The messages that release, and those that do not *)

Definition header_message (b : bool) (req : ReqMsg) : Prop := message_order req = (side_of b, Headers).
#[export] Instance header_message_dec b req : Decision (header_message b req).
Proof. unfold header_message. apply _. Defined.
Definition silent_headers (b : bool) : result Status (list ProcessingResponse) -> StreamState -> Glob Env -> Prop :=
  when_ok (fun rs _ => times (side_of b) Headers rs = 0%nat).

Lemma silent_early b s0 (m : M Env StreamState (list ProcessingResponse)) s g :
  wp m (emits b s0 (fun rs s' => unsent b s' = unsent b s0 /\ batch b Headers 0 rs)) s g ->
  wp m (silent_headers b) s g.
Proof.
  intros Hm. eapply wp_mono; [exact Hm|]. cbv beta. intros [rs|e] s' g'; [|done]. intros (_ & _ & _ & _ & Hn). exact Hn.
Qed.

Lemma response_headers_wait h s (g : Glob Env) :
  hh_end_of_stream h = false -> mode_of false s = FullDuplexStreamed ->
  wp (handle_response_headers pipeline h) (silent_headers false) s g /\
  wp (local_reply_headers h) (silent_headers false) s g.
Proof.
  intros He Hm. cbn in Hm. unfold handle_response_headers, local_reply_headers. rewrite !He.
  split; wp_step; (apply wp_mark_phase; [intros _; by apply wp_duplicate|intros _ _ _|done]); cbn [is_complete].
  - repeat wp_step. cbn [protocol_config with_eos_tracker with_response]. rewrite Hm.
    wp_case; [eapply silent_early, (early_response_answers pipeline DeferSilent)|by wp_step].
  - unfold record_local_reply. repeat wp_step. cbn [protocol_config with_eos_tracker]. rewrite Hm, bool_decide_true by done.
    cbn [negb andb]. by wp_step.
Qed.

Lemma request_headers_wait h s (g : Glob Env) :
  hh_end_of_stream h = false -> mode_of true s = FullDuplexStreamed ->
  wp (handle_request_headers pipeline h) (silent_headers true) s g.
Proof.
  intros He Hm. cbn in Hm. unfold handle_request_headers. rewrite He.
  wp_step. apply wp_mark_phase; [intros _; by apply wp_duplicate|intros _ _ _|done]. cbn [is_complete].
  destruct (reject_ambiguous_guardrail_selection _) as [rej|] eqn:Hrej.
  { wp_step. unfold reject_ambiguous_guardrail_selection in Hrej. destruct (ambiguous_selection _ _); [|done].
    injection Hrej as <-. intros Hi. discriminate Hi. }
  repeat wp_step. set (s1 := with_request _ _).
  assert (Hm1 : request_body_mode (protocol_config s1) = FullDuplexStreamed) by done. clearbody s1. rewrite Hm1.
  rewrite !(bool_decide_true (FullDuplexStreamed = FullDuplexStreamed)) by done. cbn [orb andb].
  wp_case; [by wp_step|]. wp_case; [by wp_step|]. wp_step.
  assert (Hin : wp (handle_request_headers_with_body pipeline)
    (fun r s' g' => match r with Ok _ => silent_headers true r s' g' /\ request_body_mode (protocol_config s') = FullDuplexStreamed
      | Err _ => True end) s1 g).
  { unfold handle_request_headers_with_body. repeat wp_step. rewrite Hm1, !bool_decide_false by done.
    rewrite andb_false_r. wp_case; [|by wp_step].
    eapply wp_mono; [apply (early_request_answers pipeline DeferSilent)|]. cbv beta. intros [rs|e] s' g'; [|done].
    intros (Hf & _ & _ & _ & Hn). split; [exact Hn|]. by rewrite (flow_config _ _ _ Hf). }
  eapply wp_mono; [exact Hin|]. cbv beta. intros [rs|e] s' g'; [intros [Hs Hm']|done].
  unfold apply_response_mode_override. repeat wp_step. rewrite Hm', bool_decide_true by done. cbn [orb]. by wp_step.
Qed.

Lemma headers_wait b req s (g : Glob Env) :
  header_message b req -> head_ends b req = false -> mode_of b s = FullDuplexStreamed ->
  wp (handle pipeline s req) (silent_headers b) s g.
Proof.
  unfold header_message. intros Hr He Hm. unfold handle. destruct req, b; cbn in Hr, He; simplify_eq; destruct (local_reply _); cbn [local_reply_passthrough].
  - by wp_step.
  - by apply request_headers_wait.
  - by apply response_headers_wait.
  - by apply response_headers_wait.
Qed.

(** A chunk that is forwarded takes the deferred headers with it. *)
Definition all_sent (b : bool) : result Status (list ProcessingResponse) -> StreamState -> Glob Env -> Prop :=
  when_ok (fun _ s' => unsent b s' = 0%nat).

Lemma passthrough_sends body mode b s (g : Glob Env) : wp (passthrough_chunk body mode b) (all_sent b) s g.
Proof. eapply wp_mono; [apply passthrough_answers|]. cbv beta. intros [rs|e] s' g'; [|done]. by intros (_ & Hu & _) _. Qed.

Lemma chunk_sends b (body : HttpBody) s (g : Glob Env) :
  mode_of b s = FullDuplexStreamed -> holds pipeline b s = false -> body_mark b s = Active ->
  wp (handle pipeline s (if b then RequestBody body else ResponseBody body)) (all_sent b) s g.
Proof.
  intros Hm Hh Ha. assert (Hno : body_mark b s = Completed -> False) by congruence.
  unfold handle, local_reply. unfold holds in Hh. destruct b; cbn in Hm.
  - apply orb_false_iff in Hh as [Hn _]. destruct (po_local_reply _); [cbn [local_reply_passthrough]; by wp_step|].
    unfold handle_request_body. do 4 wp_step. rewrite Hm, Hn. apply (wp_enter_body true); [done|done|]. intros _ _. wp_step.
    apply (streamed_limit_spec pipeline (max_body_accumulation s)); [done|intros r g2 _ Hi; wp_step; cbn; by rewrite Hi|].
    intros v _. apply passthrough_sends.
  - destruct (po_local_reply _); cbn [local_reply_passthrough].
    + unfold local_reply_body. do 2 wp_step. rewrite Hm. apply (wp_enter_body false); [done|done|]. intros _ _.
      rewrite bool_decide_true by done. apply passthrough_sends.
    + rewrite andb_true_r in Hh. unfold handle_response_body. do 4 wp_step. rewrite Hm, Hh.
      apply (wp_enter_body false); [done|done|]. intros _ _. apply passthrough_sends.
Qed.

(** ** Whole streams *)

(** While nothing else has released them, the headers wait for a chunk the filters do not hold. *)
Definition Waits (b : bool) (past : list ReqMsg) (s : StreamState) : Prop :=
  mode_of b s = FullDuplexStreamed -> came b past = true -> heads_ended b past = false ->
  body_closed b past = false -> held pipeline b past = false -> unsent b s = if body_came b past then 0%nat else 1%nat.

Lemma not_closed past s b :
  Said past s -> heads_ended b past = false -> body_closed b past = false -> ~ closed b s.
Proof.
  intros HS Hh Hb. apply closed_headers.
  - pose proof (said_head _ _ HS b) as E. by rewrite Hh in E.
  - pose proof (said_body _ _ HS b) as E. by rewrite Hb in E.
Qed.

(** The header responses of a side, from what the messages have said. *)
Lemma waits_pending past s b :
  Said past s -> Waits b past s -> came b past = true ->
  pending pipeline b s = if bool_decide (mode_of b s = FullDuplexStreamed) && negb (released_by b past) then 1%nat else 0%nat.
Proof.
  intros HS HW Hc. case_bool_decide as Hm; cbn [andb]; [|by rewrite pending_mode]. unfold released_by.
  destruct (heads_ended b past) eqn:Hh.
  { rewrite pending_closed; [done|]. left. pose proof (said_head _ _ HS b) as E. by rewrite Hh in E. }
  destruct (body_closed b past) eqn:Hb.
  { rewrite pending_closed; [done|]. right. pose proof (said_body _ _ HS b) as E. by rewrite Hb in E. }
  pose proof (not_closed past s b HS Hh Hb) as Hn. cbn [orb].
  destruct (held pipeline b past) eqn:Hheld; cbn [negb andb].
  - by rewrite pending_held by (rewrite ?(said_holds pipeline past s b HS); done).
  - rewrite pending_passed by (rewrite ?(said_holds pipeline past s b HS); done). rewrite (HW Hm Hc Hh Hb Hheld).
    by destruct (body_came b past).
Qed.

(** A message that sends no header response of the side leaves what waits as it was. *)
Lemma waits_kept b past sent req rs s s' :
  Budget pipeline sent s -> Said past s -> Waits b past s -> came b past = true ->
  Budget pipeline (sent ++ rs) s' -> Said (past ++ [req]) s' ->
  (mode_of b s' = FullDuplexStreamed -> mode_of b s = FullDuplexStreamed) ->
  times (side_of b) Headers rs = 0%nat ->
  chunk_of b req = false -> heads_ended b past = false -> body_closed b past = false -> Waits b (past ++ [req]) s'.
Proof.
  intros HB HS HW Hc HB' HS' Hm Ht Hck Hh Hb Hm' Hc' Hh' Hb' Hheld'.
  assert (Hlo : held pipeline b past = held pipeline b (past ++ [req])) by (unfold held; by rewrite (local_kept past s b req HS Hc)).
  rewrite body_came_snoc, Hck, orb_false_r.
  pose proof (waits_pending past s b HS HW Hc) as Hp. rewrite (bool_decide_true _ (Hm Hm')) in Hp. unfold released_by in Hp.
  rewrite Hh, Hb, Hlo, Hheld' in Hp. cbn [orb andb negb] in Hp.
  pose proof (budget_headers _ _ _ HB b) as E. pose proof (budget_headers _ _ _ HB' b) as E'. unfold budget in E, E'.
  rewrite times_app, Ht, Nat.add_0_r in E'.
  assert (Hpos : position b (phase_order s) <> None) by by apply (said_some past s b HS).
  assert (Hpos' : position b (phase_order s') <> None) by by apply (said_some _ s' b HS').
  destruct (position b (phase_order s)); [|done]. destruct (position b (phase_order s')); [|done].
  rewrite (pending_passed pipeline b s') in E' by (rewrite ?(said_holds pipeline _ s' b HS'); auto; by eapply not_closed).
  destruct (body_came b past); cbn [negb] in Hp; lia.
Qed.

Lemma chunk_of_spec b req : chunk_of b req = true -> exists body, req = if b then RequestBody body else ResponseBody body.
Proof. destruct req, b; cbn; try done; intros _; by eexists. Qed.

(** Dispatch, with what the messages say of the local reply. *)
Lemma dispatch_handled past req Q s (g : Glob Env) :
  Said past s -> (forall e s' g', Q (Err e) s' g') ->
  (forall b step s1, message_order req = (side_of b, step) ->
     s1 = with_phase_order (advanced b step (phase_order s)) s ->
     po_local_reply (phase_order s1) = local_exchange (past ++ [req]) -> wp (handle pipeline s1 req) Q s1 g) ->
  wp (dispatch_request pipeline req) Q s g.
Proof.
  intros HS HE HQ. apply dispatch_handles; [done|]. intros side step Hm _ _ s1.
  assert (Hs1 : s1 = with_phase_order (advanced (is_request_side side) step (phase_order s)) s) by (by destruct side).
  clearbody s1. assert (Hm2 : message_order req = (side_of (is_request_side side), step)) by (by destruct side).
  eapply HQ; [exact Hm2|exact Hs1|]. subst s1. by apply said_first.
Qed.

Lemma quiet_message b past req s (g : Glob Env) :
  Said past s ->
  of_side b req = false \/
  header_message b req /\ head_ends b req = false /\ mode_of b s = FullDuplexStreamed \/
  b = false /\ trailers_of false req = true /\ local_exchange (past ++ [req]) = true ->
  wp (dispatch_request pipeline req) (silent_headers b) s g.
Proof.
  intros HS Hc. apply (dispatch_handled past); [done|done|]. intros b' step s1 Hm Hs1 Hl.
  destruct Hc as [Ho|[(Hh & He & Hmo)|(-> & Ht & Hlo)]].
  - eapply wp_mono; [exact (handle_answers pipeline req s1 g)|]. intros [rs|e] s' g'; [|done]. intros (_ & Ha & _) _.
    rewrite Hm in Ha. cbn [fst snd] in Ha. assert (is_request_side (side_of b') = b') as Hb by by destruct b'. rewrite Hb in Ha.
    eapply times_other; [exact Ha|]. destruct (of_side_order b' req step Hm) as [Hx _]. congruence.
  - apply headers_wait; [done|done|]. by rewrite Hs1.
  - unfold handle, local_reply. rewrite Hl, Hlo. by destruct req.
Qed.

Lemma chunk_message b past req s (g : Glob Env) :
  Said past s -> came b past = true -> chunk_of b req = true -> mode_of b s = FullDuplexStreamed -> held pipeline b past = false ->
  body_mark b s = Active -> wp (dispatch_request pipeline req) (all_sent b) s g.
Proof.
  intros HS Hc Hck Hm Hh Ha. apply (dispatch_handled past); [done|done|]. intros b' step s1 _ Hs1 Hl.
  destruct (chunk_of_spec b req Hck) as [body Hreq]. rewrite Hreq at 1. apply chunk_sends; subst s1; [done| |done].
  unfold holds. unfold held in Hh. by rewrite Hl, (local_kept past s b req HS Hc).
Qed.

(** What closes a side stays. *)
Lemma open_before b past s req :
  Said past s -> came b past = true -> heads_ended b (past ++ [req]) = false -> body_closed b (past ++ [req]) = false ->
  heads_ended b past = false /\ head_ends b req = false /\ body_closed b past = false /\
  (trailers_of b req = true -> b = false /\ local_exchange (past ++ [req]) = true).
Proof.
  intros HS Hc Hh Hb. rewrite heads_snoc in Hh. apply orb_false_iff in Hh as [Hh1 Hh2]. split; [done|]. split; [done|].
  unfold body_closed in *. rewrite heads_snoc, !existsb_app, Hh1, Hh2, (local_kept past s b req HS Hc) in Hb.
  rewrite (local_kept past s b req HS Hc), Hh1. cbn in Hb |- *.
  destruct (existsb (fun req => (message_chunk b req).2) past); [done|]. cbn [orb] in *.
  destruct (existsb (trailers_of b) past), (message_chunk b req).2, (trailers_of b req), b, (local_exchange past); cbn in *; done.
Qed.

(** The message that opens a side. *)
Lemma opening_waits b past sent req s (g : Glob Env) :
  Budget pipeline sent s -> Said past s -> came b past = false ->
  wp (dispatch_request pipeline req) (when_ok (fun rs s' => Budget pipeline (sent ++ rs) s' -> Said (past ++ [req]) s' ->
    Waits b (past ++ [req]) s')) s g.
Proof.
  intros HB HS Hc. pose proof (dispatch_duplex pipeline b req s g) as Hdup.
  assert (Hp : position b (phase_order s) = None).
  { pose proof (said_came _ _ HS b) as E. rewrite Hc in E. by apply bool_decide_eq_true in E. }
  destruct (decide (header_message b req /\ head_ends b req = false /\ mode_of b s = FullDuplexStreamed)) as [Hx|Hno].
  - eapply wp_mono; [apply (quiet_message b past req s g HS); by auto|]. intros [rs|e] s' g'; [|done].
    intros Hz Hi HB' HS' Hm' Hc' Hh' Hb' Hheld'.
    pose proof (budget_headers _ _ _ HB b) as E. pose proof (budget_headers _ _ _ HB' b) as E'. unfold budget in E, E'.
    rewrite times_app, (Hz Hi), Nat.add_0_r in E'. rewrite Hp in E.
    assert (Hp' : position b (phase_order s') <> None) by by apply (said_some _ s' b HS').
    destruct (position b (phase_order s')); [|done].
    rewrite (pending_passed pipeline b s') in E' by (rewrite ?(said_holds pipeline _ s' b HS'); auto; by eapply not_closed).
    rewrite body_came_snoc. destruct (body_came b past) eqn:Hbc; [apply body_came_came in Hbc; congruence|].
    destruct Hx as (Hx & _). unfold header_message in Hx. destruct req, b; cbn in Hx |- *; simplify_eq; lia.
  - destruct (of_side b req) eqn:Ho.
    2: { eapply wp_mono; [exact Hdup|]. intros [rs|e] s' g'; [|done]. intros _ _ _ _ _ Hc'. rewrite came_snoc, Hc, Ho in Hc'. done. }
    assert (Hf : wp (dispatch_request pipeline req) (when_ok (fun _ _ => header_message b req)) s g).
    { apply dispatch_handles; [done|]. intros side step Hm _ Htr s1.
      assert (is_request_side side = b) as Hs by (unfold of_side in Ho; rewrite Hm in Ho; by destruct side, b).
      rewrite Hs in Htr. destruct (headers_first _ _ _ Htr) as [[-> _]|[_ [prev Hx]]]; [|congruence].
      eapply wp_mono; [exact (handle_answers pipeline req s1 g)|]. intros [rs|e] s' g'; [|done]. intros _ _.
      unfold header_message. rewrite Hm. by destruct side, b. }
    eapply wp_mono; [exact (wp_and _ _ _ _ _ Hdup Hf)|]. cbv beta. intros [rs|e] s' g' [Hd Hm]; [|done].
    intros Hi _ _ Hm' _ Hh' _ _. destruct Hno. split; [by apply Hm|]. split; [|by apply Hd].
    rewrite heads_snoc in Hh'. by apply orb_false_iff in Hh' as [_ ?].
Qed.

Lemma dispatch_waits b past sent req s (g : Glob Env) :
  Budget pipeline sent s -> Said past s -> Waits b past s ->
  wp (dispatch_request pipeline req) (when_ok (fun rs s' => Budget pipeline (sent ++ rs) s' -> Said (past ++ [req]) s' ->
    Waits b (past ++ [req]) s')) s g.
Proof.
  intros HB HS HW. pose proof (dispatch_duplex pipeline b req s g) as Hdup.
  destruct (came b past) eqn:Hc.
  - destruct (decide (heads_ended b (past ++ [req]) = false /\ body_closed b (past ++ [req]) = false)) as [[Hh Hb]|Hno].
    2: { eapply wp_mono; [exact Hdup|]. intros [rs|e] s' g'; [|done]. intros _ _ _ _ _ _ Hh Hb. tauto. }
    destruct (open_before b past s req HS Hc Hh Hb) as (Hh1 & He & Hb1 & Htr).
    destruct (chunk_of b req) eqn:Hck.
    + destruct (decide (mode_of b s = FullDuplexStreamed /\ held pipeline b past = false)) as [[Hm Hheld]|Hno].
      * eapply wp_mono; [apply (chunk_message b past req s g); try done; rewrite (said_body _ _ HS b), Hb1; done|].
        intros [rs|e] s' g'; [|done]. intros Hu Hi _ _ _ _ _ _ _. rewrite (Hu Hi), body_came_snoc, Hck, orb_true_r. done.
      * eapply wp_mono; [exact Hdup|]. intros [rs|e] s' g'; [|done]. intros Hd Hi _ _ Hm' _ _ _ Hheld'.
        destruct Hno. split; [by apply Hd|]. unfold held in *. by rewrite (local_kept past s b req HS Hc) in Hheld'.
    + destruct (decide (mode_of b s = FullDuplexStreamed)) as [Hm|Hm].
      2: { eapply wp_mono; [exact Hdup|]. intros [rs|e] s' g'; [|done]. intros Hd Hi _ _ Hm'. by destruct Hm; apply Hd. }
      assert (Hq : wp (dispatch_request pipeline req) (silent_headers b) s g).
      { apply (quiet_message b past req s g HS). destruct (of_side b req) eqn:Ho; [right|by left].
        destruct (trailers_of b req) eqn:Ht; [right; destruct (Htr eq_refl) as [-> ?]; done|left].
        split_and!; [|done|done]. by destruct req, b. }
      eapply wp_mono; [exact Hq|]. cbv beta. intros [rs|e] s' g'; [|done]. intros Hz Hi HB' HS'.
      eapply (waits_kept b past sent req rs s s'); eauto.
  - eapply wp_mono; [exact (opening_waits b past sent req s g HB HS Hc)|]. done.
Qed.

Variable max : option Z.
Variable trust : bool.
Variable selector : ResponseModeSelector.

(** C4. And they are answered: in a stream that ends without error and without an immediate
    response, all of whose responses the channel took, a side that was opened has exactly one
    header response, unless the side is in full-duplex mode and nothing released it, and then it
    has none. Its headers are released by their own end of stream; by the end of its body, a last
    chunk or trailers, though not the trailers of a local reply; or, where the filters do not
    hold its body, by the first message of it. *)
Theorem headers_are_answered inbound env warned b :
  let sent := run_sent pipeline max trust selector (fun _ => true) inbound env warned in
  let s := run_state pipeline max trust selector (fun _ => true) inbound env warned in
  max_valid max ->
  run_result pipeline max trust selector (fun _ => true) inbound env warned = Ok tt ->
  existsb is_immediate sent = false ->
  came b (requests inbound) = true ->
  times (side_of b) Headers sent =
    (if bool_decide (mode_of b s = FullDuplexStreamed) && negb (released_by b (requests inbound)) then 0 else 1)%nat.
Proof.
  intros sent s Hv Hr Hi Hc.
  destruct (run_said pipeline max trust selector (fun past _ s => Waits b past s) inbound env warned Hv)
    as (HB & HS & HW); [|by intros _ ?|done|done|].
  - intros past sent' req s0 g HB HS HW. by apply (dispatch_waits b past sent' req s0 g).
  - pose proof (budget_headers _ _ _ HB b) as E. unfold budget in E. fold sent s in E, HS, HW.
    assert (Hp : position b (phase_order s) <> None) by by apply (said_some _ s b HS).
    destruct (position b (phase_order s)); [|done]. rewrite (waits_pending _ s b HS HW Hc) in E.
    destruct (bool_decide _ && _); lia.
Qed.
End Released.

(** ** An instance: a local reply in full-duplex mode, closed by its body *)

#[local] Abbreviation demo_sent :=
  (run_sent (H0 := ConcretePraxis) demo_pipeline (Some 100) false ResponseModeSelector_default (fun _ => true)
     demo_local_reply 0%nat false).
#[local] Abbreviation demo_state :=
  (run_state (H0 := ConcretePraxis) demo_pipeline (Some 100) false ResponseModeSelector_default (fun _ => true)
     demo_local_reply 0%nat false).

Lemma headers_are_answered_witness :
  streamed_bytes demo_sent = as_bytes "denied" /\ mode_of false demo_state = FullDuplexStreamed /\
  released_by (H0 := ConcretePraxis) demo_pipeline false (requests demo_local_reply) = true /\
  times (side_of false) Headers demo_sent = 1%nat.
Proof.
  split; [vm_compute; reflexivity|]. split; [vm_compute; reflexivity|]. split; [vm_compute; reflexivity|].
  assert (H1 : run_result (H0 := ConcretePraxis) demo_pipeline (Some 100) false ResponseModeSelector_default
                 (fun _ => true) demo_local_reply 0%nat false = Ok tt) by (vm_compute; reflexivity).
  assert (H2 : existsb is_immediate demo_sent = false) by (vm_compute; reflexivity).
  assert (H3 : came false (requests demo_local_reply) = true) by (vm_compute; reflexivity).
  exact (headers_are_answered (H0 := ConcretePraxis) demo_pipeline (Some 100) false ResponseModeSelector_default
           demo_local_reply 0%nat false false demo_max_valid H1 H2 H3).
Defined.
