(* ===== verification/Streaming.v ===== *)
(** * The bodies of a streamed exchange, end to end

    In [STREAMED] mode Envoy forwards each chunk as the one response to it says, and keeps the
    chunk as it came where the response has no body mutation. Over a whole stream, whatever the
    filters do: every body message has its one response, in order; a side the filters do not
    read is forwarded chunk by chunk as it was received; of a side they read, each chunk is
    forwarded as they made it; and a response the filters buffer is forwarded as nothing until
    its last chunk, which then carries what they made of all that was held. *)

From S2P Require Import Prelude RustStd Proto Effect Extern Concrete Metrics Response Protocol Adapter ResponseMode State Pipeline Handlers Server Invariant StreamInv Stream Guarantees Answers Budget Replies Runs Lockstep Frames Marks Delivery.

(** ** Messages, answers, and what Envoy forwards *)

(** A body message of a side: its bytes and its end-of-stream flag. *)
Definition body_message (b : bool) (req : ReqMsg) : option (bytes * bool) :=
  match req, b with
  | RequestBody body, true | ResponseBody body, false => Some (hb_body body, hb_end_of_stream body)
  | _, _ => None
  end.
Definition body_messages (b : bool) (reqs : list ReqMsg) : list (bytes * bool) := omap (body_message b) reqs.

(** A body response of a side: its body mutation, if any. *)
Definition body_answer (b : bool) (r : ProcessingResponse) : option (option BodyMutation) :=
  match prs_response r, b with
  | Some (RespRequestBody c), true | Some (RespResponseBody c), false => Some (c ≫= cr_body_mutation)
  | _, _ => None
  end.
Definition body_answers (b : bool) (rs : list ProcessingResponse) : list (option BodyMutation) := omap (body_answer b) rs.

(** What Envoy forwards for a chunk it was answered [m] for. *)
Definition effective (chunk : bytes) (m : option BodyMutation) : bytes :=
  match m with
  | None | Some (MutationClearBody false) => chunk
  | Some (MutationBody x) => x
  | Some (MutationClearBody true) => []
  | Some (MutationStreamedResponse s) => sb_body s
  end.
Definition forwarded (messages : list (bytes * bool)) (ms : list (option BodyMutation)) : list bytes :=
  zip_with (fun c m => effective c.1 m) messages ms.

Lemma body_messages_app b l l' : body_messages b (l ++ l') = body_messages b l ++ body_messages b l'.
Proof. apply omap_app. Qed.
Lemma body_answers_app b rs rs' : body_answers b (rs ++ rs') = body_answers b rs ++ body_answers b rs'.
Proof. apply omap_app. Qed.

Lemma no_body_answers b rs : Forall (fun r => body_answer b r = None) rs -> body_answers b rs = [].
Proof. unfold body_answers. induction 1 as [|r rs Hr _ IH]; [done|]. cbn. by rewrite Hr. Qed.

(** Answers to the other side's messages, and to headers, are no body responses of this side. *)
Lemma other_side_answers b b' step rs :
  Forall (fun r => answers (side_of b) step r = true) rs -> b' <> b -> body_answers b' rs = [].
Proof.
  intros Ha Hb. apply no_body_answers. eapply Forall_impl; [exact Ha|]. intros r. unfold answers, body_answer.
  destruct (prs_response r) as [[]|]; cbn; try done; by destruct b, b'.
Qed.

Lemma header_side_answers b rs :
  Forall (fun r => answers (side_of b) Headers r = true) rs -> body_answers b rs = [].
Proof.
  intros Ha. apply no_body_answers. eapply Forall_impl; [exact Ha|]. intros r. unfold answers, body_answer.
  destruct (prs_response r) as [[]|]; cbn; try done; by destruct b.
Qed.

(** A chunk left alone, and a chunk the filters have made [q] of. *)
Lemma effective_present p : effective p (option_map make_body_mutation (body_data_if_present p)) = p.
Proof. by destruct p. Qed.
Lemma effective_filtered p q :
  effective p (option_map make_body_mutation (streamed_body_data (negb (bool_decide (p = []))) q)) = q.
Proof. unfold streamed_body_data. by destruct q, p. Qed.

Lemma streamed_answer b (body : option bytes) (eos : bool) :
  body_answers b (if b then request_body body None Streamed eos else response_body body None Streamed eos) =
  [option_map make_body_mutation body].
Proof. by destruct b. Qed.

Section Streaming.
Context `{PraxisFilter}.
Variable pipeline : FilterPipeline.

(** ** What the filters make of a chunk ([makes]) *)

(** One chunk: with [held] kept back before and after. *)
Inductive passes (b reads : bool) : bytes -> bytes * bool -> bytes -> bytes -> Prop :=
| passes_unread held p eos : reads = false -> passes b reads held (p, eos) p held
| passes_filtered held p eos q : reads = true -> makes pipeline b p eos q -> passes b reads held (p, eos) q held
| passes_held held p : reads = true -> b = false -> passes b reads held (p, false) [] (held ++ p)
| passes_released held p q :
    reads = true -> b = false -> makes pipeline b (held ++ p) true q -> passes b reads held (p, true) q [].

(** A whole body, chunk by chunk. *)
Inductive streams (b reads : bool) : list (bytes * bool) -> list bytes -> bytes -> Prop :=
| streams_start : streams b reads [] [] []
| streams_next l out held c q held' :
    streams b reads l out held -> passes b reads held c q held' -> streams b reads (l ++ [c]) (out ++ [q]) held'.

(** The filters read the chunks of a side; not those of a local reply. *)
Definition reads (b : bool) (s : StreamState) : bool :=
  if b then needs_request_body (caps pipeline)
  else needs_response_body (caps pipeline) && negb (po_local_reply (phase_order s)).

Lemma streams_unread b l out held : streams b false l out held -> out = map fst l /\ held = [].
Proof.
  induction 1 as [|l out held c q held' _ [-> ->] Hp]; [done|]. inversion Hp; subst; try done. by rewrite map_app.
Qed.
Lemma streams_request l out held : streams true true l out held -> held = [].
Proof. by induction 1 as [|l out held c q held' _ -> Hp]; [|inversion Hp]. Qed.

(** ** The handlers of a body message *)

(** What a side keeps back. *)
Definition kept_back (b : bool) (s : StreamState) : bytes := if b then [] else response_body_buf s.

(** A chunk has its one response, and passes. *)
Definition chunk_post (b : bool) (body : HttpBody) (s : StreamState) (r : result Status (list ProcessingResponse))
  (s' : StreamState) (_ : Glob Env) : Prop :=
  match r with
  | Err _ => True
  | Ok rs =>
      existsb is_immediate rs = false ->
      exists m, body_answers b rs = [m] /\
        passes b (reads b s) (kept_back b s) (hb_body body, hb_end_of_stream body) (effective (hb_body body) m) (kept_back b s')
  end.

(** What is filtered now of a response chunk, and what is kept back. *)
Lemma buffered_chunk ctx p (eos : bool) s (g : Glob Env) :
  wp (buffer_response_chunk ctx p eos) (fun r s' _ => match r with
    | Ok q => protocol_config s' = protocol_config s /\ phase_order s' = phase_order s /\
        forall q', makes pipeline false q eos q' -> passes false true (response_body_buf s) (p, eos) q' (response_body_buf s')
    | Err _ => True end) s g.
Proof.
  unfold buffer_response_chunk. destruct (ctx_response_body_mode ctx).
  1,3: wp_step; split_and!; [done..|]; intros q' Hq; by constructor.
  repeat wp_step. wp_case; [unfold record_body_size_rejection; by repeat wp_step|].
  destruct eos; repeat wp_step; (split_and!; [done..|]); intros q' Hq; cbn.
  - by constructor.
  - cbn in Hq. subst q'. by constructor.
Qed.

(** The response to a filtered chunk. *)
Lemma streamed_response (b : bool) body q (s s0 s' : StreamState) :
  mode_of b s' = Streamed -> reads b s = true ->
  passes b true (kept_back b s) (hb_body body, hb_end_of_stream body) q (kept_back b s0) -> kept_back b s' = kept_back b s0 ->
  forall g : Glob Env, chunk_post b body s (Ok
    (if b
     then request_body (streamed_body_data (negb (bool_decide (hb_body body = []))) q) None
            (if b then request_body_mode (protocol_config s') else response_body_mode (protocol_config s')) (hb_end_of_stream body)
     else response_body (streamed_body_data (negb (bool_decide (hb_body body = []))) q) None
            (if b then request_body_mode (protocol_config s') else response_body_mode (protocol_config s')) (hb_end_of_stream body)))
    s' g.
Proof.
  intros Hm Hr Hp Hk g _. exists (option_map make_body_mutation (streamed_body_data (negb (bool_decide (hb_body body = []))) q)).
  split; [destruct b; cbn in Hm; rewrite Hm; done|]. by rewrite effective_filtered, Hr, Hk.
Qed.

Lemma streamed_chunk_passes b body s (g : Glob Env) :
  mode_of b s = Streamed -> reads b s = true ->
  wp (process_streamed_body_chunk pipeline body b) (chunk_post b body s) s g.
Proof.
  intros Hm Hr. unfold process_streamed_body_chunk. repeat wp_step.
  destruct (request s) as [rq|]; [|by apply wp_missing_request].
  wp_step. apply wp_fresh_context. intros fresh. wp_step.
  assert (Hctx : forall Q, (forall x, Q (Ok x) s g) -> (forall e g', Q (Err e) s g') ->
    wp (if b then ret (fresh, None) else match response s with
        | None => missing_response_headers
        | Some resp => ret (ctx_with_response resp fresh, Some (rs_headers resp)) end) Q s g).
  { intros Q HQ HE. destruct b; [by wp_step|]. destruct (response s); [by wp_step|by apply wp_missing_response]. }
  apply Hctx; clear Hctx; [|done]. intros [ctx0 original]. wp_step. apply wp_still; [apply frames_hydrate|].
  intros [ctx|e] s1 g1 E1; [|done]. repeat wp_step.
  assert (Hbuf : forall Q,
    (forall q s2 g2, mode_of b s2 = mode_of b s1 -> 
       (forall q', makes pipeline b q (hb_end_of_stream body) q' ->
          passes b true (kept_back b s1) (hb_body body, hb_end_of_stream body) q' (kept_back b s2)) -> Q (Ok q) s2 g2) ->
    (forall e s2 g2, Q (Err e) s2 g2) ->
    wp (if b then ret (hb_body body) else buffer_response_chunk ctx (hb_body body) (hb_end_of_stream body)) Q s1 g1).
  { intros Q HQ HE. destruct b.
    - wp_step. apply HQ; [done|]. intros q' Hq. by constructor.
    - eapply wp_mono; [apply buffered_chunk|]. cbv beta. intros [q|e] s2 g2; [|auto].
      intros (Hc & _ & Hp). apply HQ; [cbn; by rewrite Hc|exact Hp]. }
  apply Hbuf; clear Hbuf; [|done]. intros q s2 g2 Hm2 Hp. wp_step.
  eapply wp_mono; [apply body_filters_make|]. cbv beta. intros [[[o ctx2] q']|e] s3 g3 [-> Hq]; [|done].
  wp_step. apply wp_still; [destruct b; [apply frames_ret|apply frames_write_back]|].
  intros [[]|e] s4 g4 E4; [|done]. repeat wp_step. destruct o as [[i|]|e]; [by wp_step| |done].
  repeat wp_step. apply wp_still; [apply frames_warn|]. intros [[]|e] s5 g5 E5; [|done]. wp_step.
  apply wp_still; [apply frames_dehydrate|]. intros [[]|e] s6 g6 E6; [|done]. repeat wp_step.
  assert (E : still s6 = still s2) by congruence. unfold still in E, E1. injection E as Ec _ _ Eb. injection E1 as E1c _ _ E1b.
  apply (streamed_response b body q' s s2); [|done| |].
  - unfold mode_of in *. rewrite Ec, Hm2, E1c. exact Hm.
  - assert (kept_back b s1 = kept_back b s) as <- by (destruct b; [done|exact E1b]). by apply Hp.
  - by destruct b.
Qed.

Lemma passthrough_passes b body s s0 (g : Glob Env) :
  unsent b s = 0%nat -> reads b s0 = false -> kept_back b s = kept_back b s0 ->
  wp (passthrough_chunk body Streamed b) (chunk_post b body s0) s g.
Proof.
  intros Hu Hr Hk. unfold passthrough_chunk. wp_step. apply wp_take_first; [intros _|intros s' Hu'; congruence].
  cbn [negb]. wp_step. intros _. rewrite streamed_answer. eexists. split; [done|]. rewrite effective_present, Hr, Hk.
  by constructor.
Qed.

Lemma wp_enter_streamed phase (eos : bool) (m : option (list ProcessingResponse) -> M Env StreamState (list ProcessingResponse)) b Q s
  (g : Glob Env) :
  phase = body_phase b ->
  (forall e s' g', Q (Err e) s' g') ->
  (body_mark b s = Active -> head_mark b s = Active ->
   wp (m None) Q (with_eos_tracker (if eos then mark_complete phase (eos_tracker s) else eos_tracker s) s) g) ->
  wp (let? entry := mark_phase phase eos in
      let? redelivered := handle_body_redelivery entry Streamed phase in m redelivered) Q s g.
Proof.
  intros -> HE HA. wp_step. apply wp_mark_phase; [|intros Ha Hq Hp|auto].
  - intros _. wp_step. apply wp_not_redelivered; [done| |auto]. done.
  - wp_step. apply wp_not_redelivered; [done| |done]. intros _. apply HA; [done|]. destruct b; [by apply Hq|by apply Hp].
Qed.

(** Only an open body takes one. *)
Definition own_post (b : bool) (body : HttpBody) (s : StreamState) (r : result Status (list ProcessingResponse))
  (s' : StreamState) (g' : Glob Env) : Prop :=
  chunk_post b body s r s' g' /\ match r with Ok _ => head_mark b s = Active | Err _ => True end.

Lemma own_open b body s s1 (m : M Env StreamState (list ProcessingResponse)) g :
  head_mark b s = Active -> reads b s1 = reads b s -> kept_back b s1 = kept_back b s ->
  wp m (chunk_post b body s1) s1 g -> wp m (own_post b body s) s1 g.
Proof.
  intros Hh Hr Hk Hm. eapply wp_mono; [exact Hm|]. unfold own_post, chunk_post. rewrite Hr, Hk. by intros [rs|e].
Qed.

Lemma request_body_passes body s (g : Glob Env) :
  mode_of true s = Streamed -> ready true s ->
  wp (handle_request_body pipeline body) (own_post true body s) s g.
Proof.
  intros Hm Hr. pose proof Hm as Hm'. cbn in Hm'. unfold handle_request_body. do 4 wp_step. rewrite Hm'.
  apply (wp_enter_streamed _ _ _ true); [done..|]. intros Ha Hh.
  assert (Hu : unsent true s = 0%nat) by (apply open_request_ready; done).
  destruct (needs_request_body (caps pipeline)) eqn:Hn; wp_step;
    (apply (streamed_limit_spec pipeline (max_body_accumulation s)); [done|intros r g2 _ Hi; wp_step; by split; [cbn; rewrite Hi|]|]);
    intros v _; apply own_open; [done..| |done|done|done|].
  - by apply (streamed_chunk_passes true).
  - by apply (passthrough_passes true).
Qed.

Lemma response_body_passes body s (g : Glob Env) :
  mode_of false s = Streamed -> ready false s -> po_local_reply (phase_order s) = false ->
  wp (handle_response_body pipeline body) (own_post false body s) s g.
Proof.
  intros Hm Hr Hl. pose proof Hm as Hm'. cbn in Hm'. unfold handle_response_body. do 4 wp_step. rewrite Hm'.
  apply (wp_enter_streamed _ _ _ false); [done..|]. intros Ha Hh.
  assert (Hu : unsent false s = 0%nat) by (apply open_response_ready; done).
  destruct (needs_response_body (caps pipeline)) eqn:Hn.
  - apply own_open; [done..|]. apply (streamed_chunk_passes false); [done|]. unfold reads. cbn. by rewrite Hn, Hl.
  - apply own_open; [done..|]. apply (passthrough_passes false); [done| |done]. unfold reads. by rewrite Hn.
Qed.

Lemma local_body_passes body s (g : Glob Env) :
  mode_of false s = Streamed -> po_local_reply (phase_order s) = true ->
  wp (local_reply_body body) (own_post false body s) s g.
Proof.
  intros Hm Hl. cbn in Hm. unfold local_reply_body. do 2 wp_step. rewrite Hm.
  apply (wp_enter_streamed _ _ _ false); [done..|]. intros Ha Hh. rewrite bool_decide_false by done. apply own_open; [done..|].
  wp_step. intros _. exists None. split; [done|].
  assert (Hr : forall s1, phase_order s1 = phase_order s -> reads false s1 = false)
    by (intros s1 E; unfold reads; by rewrite E, Hl, andb_false_r).
  rewrite Hr by done. by constructor.
Qed.

Lemma own_body_passes b body s (g : Glob Env) :
  mode_of b s = Streamed -> ready b s ->
  wp (handle pipeline s (if b then RequestBody body else ResponseBody body)) (own_post b body s) s g.
Proof.
  intros Hm Hr. unfold handle, local_reply. destruct (po_local_reply (phase_order s)) eqn:Hl, b; cbn [local_reply_passthrough].
  - by wp_step.
  - by apply local_body_passes.
  - by apply request_body_passes.
  - by apply response_body_passes.
Qed.

(** Trailers carry no body and leave what is kept back. *)
Lemma trailers_pass b t s (g : Glob Env) :
  mode_of b s = Streamed ->
  wp (handle pipeline s (if b then RequestTrailers t else ResponseTrailers t))
    (when_ok (fun rs s' => body_answers b rs = [] /\ kept_back b s' = kept_back b s)) s g.
Proof.
  intros Hm. unfold handle, local_reply. destruct (po_local_reply (phase_order s)).
  { destruct b; cbn [local_reply_passthrough]; by wp_step. }
  assert (Hgo : wp (handle_trailers pipeline b) (when_ok (fun rs s' => body_answers b rs = [] /\ kept_back b s' = kept_back b s)) s g);
    [|by destruct b].
  assert (Hk : wp (handle_trailers pipeline b) (fun _ s' _ => kept_back b s' = kept_back b s) s g).
  { unfold handle_trailers. wp_step. 
    assert (Hf : wp (finalize_body_on_trailers pipeline b) (fun _ s' _ => kept_back b s' = kept_back b s) s g).
    { unfold finalize_body_on_trailers. repeat wp_step. destruct (body_open b s); cbn [negb]; [|by wp_step].
      destruct (trailing_body_phase pipeline s b) as [[phase mode] needs] eqn:Hp.
      assert (mode = mode_of b s) as -> by (unfold trailing_body_phase in Hp; by destruct b; injection Hp as <- <- <-).
      repeat wp_step. rewrite Hm. destruct needs; [|by wp_step; destruct b].
      apply wp_still; [apply frames_flush_streamed|]. intros r s' g' E. unfold still in E. injection E as _ _ _ E. by destruct b. }
    eapply wp_mono; [exact Hf|]. cbv beta. intros [rs|e] s' g' E; [|done]. wp_case; by wp_step. }
  eapply wp_mono; [apply wp_and; [exact Hk|apply (handle_trailers_one pipeline b s g); by rewrite Hm]|]. cbv beta.
  intros [rs|e] s' g' [E Ho]; [|done]. intros Hi. rewrite (Ho Hi). split; [by destruct b|done].
Qed.

(** ** One message *)

(** Between two messages: [past] has come, [sent] has been answered. The mode of a side may
    still change until its header message; then nothing of its body has come. *)
Record Chunks (b : bool) (past : list ReqMsg) (sent : list ProcessingResponse) (s : StreamState) : Prop := {
  chunks_start : position b (phase_order s) = None ->
    body_messages b past = [] /\ body_answers b sent = [] /\ kept_back b s = [];
  chunks_run : mode_of b s = Streamed ->
    exists held, length (body_answers b sent) = length (body_messages b past) /\
      streams b (reads b s) (body_messages b past) (forwarded (body_messages b past) (body_answers b sent)) held /\
      (head_mark b s = Active -> held = kept_back b s);
}.

Lemma chunks_open b past sent s :
  (position b (phase_order s) = None -> kept_back b s = []) ->
  body_messages b past = [] -> body_answers b sent = [] -> (head_mark b s = Active -> kept_back b s = []) ->
  Chunks b past sent s.
Proof.
  intros Hn Hp Hs Hk. constructor; rewrite Hp, Hs; [auto|]. intros _. exists []. split_and!; [done|constructor|].
  intros Ha. by rewrite Hk.
Qed.

Lemma forwarded_snoc l ms c m :
  length ms = length l -> forwarded (l ++ [c]) (ms ++ [m]) = forwarded l ms ++ [effective c.1 m].
Proof. intros Hl. unfold forwarded. by rewrite zip_with_app. Qed.

Lemma reads_order b s s' : po_local_reply (phase_order s') = po_local_reply (phase_order s) -> reads b s' = reads b s.
Proof. intros E. unfold reads. by rewrite E. Qed.

(** A message without body or body response, which keeps what matters. *)
Lemma chunks_keep b past sent s req rs s' :
  Chunks b past sent s -> body_message b req = None -> body_answers b rs = [] -> mode_of b s' = mode_of b s ->
  po_local_reply (phase_order s') = po_local_reply (phase_order s) -> position b (phase_order s') <> None ->
  kept_back b s' = kept_back b s -> (head_mark b s' = Active -> head_mark b s = Active) ->
  Chunks b (past ++ [req]) (sent ++ rs) s'.
Proof.
  intros [Hs Hr] Hb Ha Hm Hl Hp Hk Hh.
  assert (Hb' : body_messages b [req] = []) by (cbn; by rewrite Hb).
  constructor; rewrite body_messages_app, body_answers_app, Hb', Ha, !app_nil_r; [done|].
  rewrite Hm, (reads_order b s s' Hl), Hk. intros Hst. destruct (Hr Hst) as (held & H1 & H2 & H3). exists held. auto.
Qed.

Lemma chunks_chunk b past sent s body rs s' m :
  Chunks b past sent s -> body_answers b rs = [m] -> mode_of b s = Streamed -> mode_of b s' = mode_of b s ->
  po_local_reply (phase_order s') = po_local_reply (phase_order s) -> position b (phase_order s') <> None ->
  head_mark b s = Active ->
  passes b (reads b s) (kept_back b s) (hb_body body, hb_end_of_stream body) (effective (hb_body body) m) (kept_back b s') ->
  Chunks b (past ++ [if b then RequestBody body else ResponseBody body]) (sent ++ rs) s'.
Proof.
  intros [_ Hr] Ha Hst Hm Hl Hp Hh Hpass. destruct (Hr Hst) as (held & Hlen & Hs & Hk). specialize (Hk Hh). subst held.
  assert (Hb : body_messages b [if b then RequestBody body else ResponseBody body] = [(hb_body body, hb_end_of_stream body)])
    by by destruct b.
  constructor; rewrite body_messages_app, body_answers_app, Hb, Ha; [done|]. intros _. rewrite (reads_order b s s' Hl).
  exists (kept_back b s'). split_and!; [by rewrite !length_app, Hlen| |done]. rewrite forwarded_snoc by done.
  by eapply streams_next.
Qed.

Lemma no_body b req step : message_order req = (side_of (negb b), step) \/ message_order req = (side_of b, Headers) ->
  body_message b req = None.
Proof. by destruct req, b; cbn; intros [?|?]; simplify_eq. Qed.

Lemma kept_back_buffer b s s' : buffer b s' = buffer b s -> kept_back b s' = kept_back b s.
Proof. by destruct b. Qed.

(** A message of the other side. *)
Lemma other_chunks b req step past sent s s1 (g : Glob Env) :
  Budget pipeline sent s -> Chunks b past sent s -> message_order req = (side_of (negb b), step) ->
  s1 = with_phase_order (advanced (negb b) step (phase_order s)) s ->
  (negb b = true -> po_local_reply (phase_order s) = false) ->
  invalid_transition (position (negb b) (phase_order s)) step = false ->
  wp (handle pipeline s1 req) (when_ok (fun rs s' => Chunks b (past ++ [req]) (sent ++ rs) s')) s1 g.
Proof.
  intros HB HC Hm Hs1 Hside Htr.
  eapply wp_mono; [exact (wp_and _ _ _ _ _ (handle_other pipeline b step req s1 g Hm) (handle_answers pipeline req s1 g))|].
  cbv beta. intros [rs|e] s' g' [Hu Hans]; [|done]. intros Hi. destruct (Hu Hi) as (_ & Ub & _ & Uh & Uo & _).
  destruct Hans as (Hk & Ha & _). rewrite Hm in Ha. cbn [fst snd] in Ha.
  assert (is_request_side (side_of (negb b)) = negb b) as Hb by by destruct b. rewrite Hb in Ha.
  destruct (kept_facts pipeline (negb b) step req s1 rs s' Hm Hk) as (_ & Hlv & _).
  pose proof (other_side_answers (negb b) b step rs Ha ltac:(by destruct b)) as Hn.
  pose proof (no_body b req step (or_introl Hm)) as Hbm. apply kept_back_buffer in Ub.
  assert (Hpos : position b (phase_order s') = position b (phase_order s)).
  { rewrite Uo, Hs1. cbn. by apply advanced_other; destruct b. }
  destruct (position b (phase_order s)) as [prev|] eqn:Hp.
  - assert (Hor : step <> Headers \/ negb b = false).
    { destruct b; [by right|]. left. intros ->. destruct (headers_first _ _ _ Htr) as [[_ Hnone]|[? _]]; [|done].
      cbn in Hp, Hnone. specialize (Hside eq_refl). rewrite (budget_local _ _ _ HB) in Hside; congruence. }
    assert (Hl : po_local_reply (phase_order s') = po_local_reply (phase_order s)).
    { rewrite Uo, Hs1. eapply advanced_local; [exact HB|]. destruct b; [right; left; cbn in Hp; congruence|auto]. }
    assert (Hmo : mode_of b s' = mode_of b s) by (unfold mode_of; rewrite (leaves_config _ _ _ (Hlv Hor)); by rewrite Hs1).
    apply (chunks_keep b past sent s); rewrite ?Hpos, ?Ub, ?Uh; try done; by rewrite Hs1.
  - destruct (chunks_start _ _ _ _ HC Hp) as (E1 & E2 & E3). rewrite Hs1 in Ub. change (kept_back b s' = kept_back b s) in Ub.
    apply chunks_open; rewrite ?body_messages_app, ?body_answers_app, ?E1, ?E2, ?Hn, ?Ub; try done. cbn. by rewrite Hbm.
Qed.

(** The header message of the side. *)
Lemma opening_chunks b req past sent s s1 (g : Glob Env) :
  Chunks b past sent s -> message_order req = (side_of b, Headers) ->
  s1 = with_phase_order (advanced b Headers (phase_order s)) s -> position b (phase_order s) = None ->
  wp (handle pipeline s1 req) (when_ok (fun rs s' => Chunks b (past ++ [req]) (sent ++ rs) s')) s1 g.
Proof.
  intros HC Hm Hs1 Hp.
  eapply wp_mono; [exact (wp_and _ _ _ _ _ (handle_opening pipeline b req s1 g Hm) (handle_answers pipeline req s1 g))|].
  cbv beta. intros [rs|e] s' g' [Hu Hans]; [|done]. intros Hi. destruct (Hu Hi) as (_ & _ & Uo & Ub & _).
  destruct Hans as (_ & Ha & _). rewrite Hm in Ha. cbn [fst snd] in Ha.
  assert (is_request_side (side_of b) = b) as Hb by by destruct b. rewrite Hb in Ha. apply header_side_answers in Ha.
  destruct (chunks_start _ _ _ _ HC Hp) as (E1 & E2 & E3).
  apply chunks_open; rewrite ?body_messages_app, ?body_answers_app, ?E1, ?E2; [|cbn|done|].
  - rewrite Uo, Hs1. cbn. rewrite advanced_own. done.
  - by rewrite (no_body b req Headers (or_intror Hm)).
  - intros Hh. rewrite (kept_back_buffer _ _ _ (Ub Hh)), Hs1. exact E3.
Qed.

(** A later message of the side. *)
Lemma own_chunks b req step past sent s s1 (g : Glob Env) :
  Budget pipeline sent s -> Chunks b past sent s -> message_order req = (side_of b, step) ->
  s1 = with_phase_order (advanced b step (phase_order s)) s ->
  step <> Headers -> position b (phase_order s) <> None ->
  wp (handle pipeline s1 req) (when_ok (fun rs s' => Chunks b (past ++ [req]) (sent ++ rs) s')) s1 g.
Proof.
  intros HB HC Hm Hs1 Hstep Hp.
  assert (Hkeep : wp (handle pipeline s1 req) (when_ok (fun _ s' =>
     mode_of b s' = mode_of b s /\ po_local_reply (phase_order s') = po_local_reply (phase_order s) /\
     position b (phase_order s') <> None /\ (head_mark b s' = Active -> head_mark b s = Active))) s1 g).
  { eapply wp_mono; [exact (handle_answers pipeline req s1 g)|]. intros [rs|e] s' g'; [|done]. intros [Hk _] Hi.
    destruct (kept_facts pipeline b step req s1 rs s' Hm Hk) as ([So _ _ _ _] & Hlv & _).
    destruct (Hlv (or_introl Hstep)) as [E1 _ Hd _ _ _ _]. rewrite So. subst s1. cbn [phase_order with_phase_order].
    rewrite advanced_own. split_and!; [unfold mode_of; by rewrite E1| |done|].
    - eapply advanced_local; [exact HB|]. auto.
    - specialize (Hd (headers_phase b)). unfold head_mark in *. cbn in Hd. destruct (phase_state (eos_tracker s) _); [done|].
      by rewrite Hd. }
  destruct (decide (mode_of b s = Streamed)) as [Hst|Hst].
  2: { eapply wp_mono; [exact Hkeep|]. intros [rs|e] s' g'; [|done]. intros Hx Hi. destruct (Hx Hi) as (E1 & _ & E3 & _).
       constructor; [done|]. congruence. }
  assert (Hst1 : mode_of b s1 = Streamed) by by subst s1.
  assert (Hr1 : ready b s1).
  { subst s1. apply (budget_ready _ _ _ HB b Hp). }
  assert (Hrd : reads b s1 = reads b s).
  { apply reads_order. subst s1. eapply advanced_local; [exact HB|]. auto. }
  destruct step; [done| |].
  - assert (exists body, req = if b then RequestBody body else ResponseBody body) as [body ->]
      by (destruct req, b; cbn in Hm; simplify_eq; by eexists).
    eapply wp_mono; [exact (wp_and _ _ _ _ _ Hkeep (own_body_passes b body s1 g Hst1 Hr1))|]. cbv beta.
    intros [rs|e] s' g' [Hx Hy]; [|done]. intros Hi. destruct (Hx Hi) as (E1 & E2 & E3 & _), Hy as [Hc Hh].
    destruct (Hc Hi) as (m & Hn & Hpass). rewrite Hrd in Hpass. subst s1. by eapply chunks_chunk.
  - assert (exists t, req = if b then RequestTrailers t else ResponseTrailers t) as [t ->]
      by (destruct req, b; cbn in Hm; simplify_eq; by eexists).
    eapply wp_mono; [exact (wp_and _ _ _ _ _ Hkeep (trailers_pass b t s1 g Hst1))|]. cbv beta.
    intros [rs|e] s' g' [Hx Hy]; [|done]. intros Hi. destruct (Hx Hi) as (E1 & E2 & E3 & E4), (Hy Hi) as [Hn Hk].
    eapply chunks_keep; try done; [by destruct b|]. subst s1. exact Hk.
Qed.

Lemma dispatch_chunks b req past sent s (g : Glob Env) :
  Budget pipeline sent s -> Chunks b past sent s ->
  wp (dispatch_request pipeline req) (when_ok (fun rs s' => Chunks b (past ++ [req]) (sent ++ rs) s')) s g.
Proof.
  intros HB HC. apply dispatch_handles; [done|]. intros side step Hm Hside Htr s1.
  assert (Hs1 : s1 = with_phase_order (advanced (is_request_side side) step (phase_order s)) s) by (by destruct side).
  clearbody s1. assert (Hm2 : message_order req = (side_of (is_request_side side), step)) by (by destruct side).
  destruct (decide (b = is_request_side side)) as [Heq|Hne].
  - rewrite <- Heq in Htr, Hs1, Hm2. destruct (headers_first _ _ _ Htr) as [[-> Hp]|[Hs [prev Hp]]].
    + by eapply opening_chunks.
    + eapply own_chunks; try done. congruence.
  - assert (is_request_side side = negb b) as Hb by (by destruct b, side). rewrite Hb in Htr, Hs1, Hm2.
    eapply other_chunks; try done. intros Hn. apply Hside. by destruct side, b.
Qed.

(** ** Whole streams *)

Variable max : option Z.
Variable trust : bool.
Variable selector : ResponseModeSelector.

Abbreviation sent_by inbound env warned := (run_sent pipeline max trust selector (fun _ => true) inbound env warned).
Abbreviation state_after inbound env warned := (run_state pipeline max trust selector (fun _ => true) inbound env warned).

(** C7. In a stream that ends without error and without an immediate response, on a side Envoy
    runs in streamed mode, whatever the filters do: every body message got exactly one body
    response, in order, and what Envoy forwards chunk by chunk is what was received, where the
    filters do not read the side's body; where they do, it is for each chunk what a call of
    them made of it, or, of a response they buffer, nothing until the last chunk, which
    carries what a call of them made of the bytes held back and its own. Of a request body
    nothing is held back. *)
Theorem streamed_bodies_are_forwarded inbound env warned b :
  let sent := sent_by inbound env warned in
  let s := state_after inbound env warned in
  let received := body_messages b (requests inbound) in
  run_result pipeline max trust selector (fun _ => true) inbound env warned = Ok tt ->
  existsb is_immediate sent = false -> mode_of b s = Streamed ->
  length (body_answers b sent) = length received /\
  exists held, streams b (reads b s) received (forwarded received (body_answers b sent)) held /\
    (reads b s = false -> forwarded received (body_answers b sent) = map fst received) /\
    (b = true -> held = []).
Proof.
  intros sent s l Hr Hi Hm.
  assert (HC : Chunks b (requests inbound) sent s).
  { apply (run_holds pipeline _ _ _ (Chunks b)); [by intros; apply dispatch_chunks| |done|done].
    intros c. apply chunks_open; try done; by destruct b. }
  destruct (chunks_run _ _ _ _ HC Hm) as (held & Hlen & Hs & _). split; [done|]. exists held. split; [done|].
  split; [intros Hf; rewrite Hf in Hs; by apply streams_unread in Hs as [? _]|]. intros ->.
  destruct (reads true s); [by apply streams_request in Hs|by apply streams_unread in Hs as [_ ?]].
Qed.
End Streaming.

(** ** An instance: filters that reverse what they are given, and buffer the response *)

Definition buffering (ctx : PCtx) : PCtx :=
  {| ctx_client_addr := ctx_client_addr ctx;
     ctx_cluster := ctx_cluster ctx;
     ctx_branch_iterations := ctx_branch_iterations ctx;
     ctx_executed_filter_indices := ctx_executed_filter_indices ctx;
     ctx_filter_metadata := ctx_filter_metadata ctx;
     ctx_filter_state := ctx_filter_state ctx;
     ctx_extra_request_headers := ctx_extra_request_headers ctx;
     ctx_request_headers_to_remove := ctx_request_headers_to_remove ctx;
     ctx_request_headers_to_set := ctx_request_headers_to_set ctx;
     ctx_rewritten_path := ctx_rewritten_path ctx;
     ctx_request := ctx_request ctx;
     ctx_request_body_bytes := ctx_request_body_bytes ctx;
     ctx_request_body_mode := ctx_request_body_mode ctx;
     ctx_response_body_bytes := ctx_response_body_bytes ctx;
     ctx_response_body_mode := FilterStreamBuffer (Some 100);
     ctx_response_header := ctx_response_header ctx;
     ctx_response_headers_modified := ctx_response_headers_modified ctx;
     ctx_upstream_reached := ctx_upstream_reached ctx;
     ctx_rest := ctx_rest ctx |}.

Definition buffering_pipeline : DemoPipeline :=
  let p := pass_pipeline (demo_caps true true false false) in
  {| dp_caps := dp_caps p; dp_limit := dp_limit p; dp_request := dp_request p;
     dp_response := fun ctx => (Ok (FilterOther 0), buffering ctx);
     dp_request_body := fun ctx b _ => (Ok (FilterOther 0), ctx, option_map (@rev _) b);
     dp_upstream_body := dp_upstream_body p;
     dp_response_body := fun ctx b _ => (Ok (FilterOther 0), ctx, option_map (@rev _) b) |}.

Definition streamed_stream : list (result string ProcessingRequest) :=
  map Ok [demo_first 1 1 (demo_request_headers false);
          demo_message (RequestBody (demo_body "he" false)); demo_message (RequestBody (demo_body "llo" true));
          demo_message (demo_response_headers false);
          demo_message (ResponseBody (demo_body "wor" false)); demo_message (ResponseBody (demo_body "ld" true))].

#[local] Abbreviation streamed_sent :=
  (run_sent (H0 := ConcretePraxis) buffering_pipeline (Some 100) false ResponseModeSelector_default (fun _ => true)
     streamed_stream 0%nat false).
#[local] Abbreviation streamed_state :=
  (run_state (H0 := ConcretePraxis) buffering_pipeline (Some 100) false ResponseModeSelector_default (fun _ => true)
     streamed_stream 0%nat false).
#[local] Abbreviation chunks_received b := (body_messages b (requests streamed_stream)).

Lemma streamed_bodies_are_forwarded_witness :
  forwarded (chunks_received true) (body_answers true streamed_sent) = [as_bytes "eh"; as_bytes "oll"] /\
  forwarded (chunks_received false) (body_answers false streamed_sent) = [[]; as_bytes "dlrow"] /\
  (length (body_answers false streamed_sent) = length (chunks_received false) /\
   exists held, streams (H0 := ConcretePraxis) buffering_pipeline false
     (reads (H0 := ConcretePraxis) buffering_pipeline false streamed_state) (chunks_received false)
     (forwarded (chunks_received false) (body_answers false streamed_sent)) held /\
   (reads (H0 := ConcretePraxis) buffering_pipeline false streamed_state = false ->
    forwarded (chunks_received false) (body_answers false streamed_sent) = map fst (chunks_received false)) /\
   (false = true -> held = [])).
Proof.
  assert (H1 : run_result (H0 := ConcretePraxis) buffering_pipeline (Some 100) false ResponseModeSelector_default
                 (fun _ => true) streamed_stream 0%nat false = Ok tt) by (vm_compute; reflexivity).
  assert (H2 : existsb is_immediate streamed_sent = false) by (vm_compute; reflexivity).
  assert (H3 : mode_of false streamed_state = Streamed) by (vm_compute; reflexivity).
  split; [vm_compute; reflexivity|split; [vm_compute; reflexivity|]].
  exact (streamed_bodies_are_forwarded (H0 := ConcretePraxis) buffering_pipeline
           (Some 100) false ResponseModeSelector_default streamed_stream 0%nat false false H1 H2 H3).
Defined.
