(* ===== verification/Findings.v ===== *)
(** * Runs that differ from what the code or its documents say

    Concrete runs of the service in which a message that Envoy waits on gets no answer, because
    trailers close a body that end of stream did not; and a refusal of the server's own that the
    counter of immediate responses does not count. *)

From S2P Require Import Prelude RustStd Proto Effect Extern Concrete Metrics Response Protocol Adapter ResponseMode State Pipeline Handlers Server Invariant StreamInv Stream Contracts Guarantees.

Definition demo_trailers : ProcessingRequest := demo_message (ResponseTrailers {| ht_trailers := None |}).

(** What a stream sends, over an open channel with a limit of a hundred bytes. *)
Definition demo_sent (p : DemoPipeline) (inbound : list (result string ProcessingRequest)) : list ProcessingResponse :=
  run_sent (H0 := ConcretePraxis) p (Some 100) false ResponseModeSelector_default (fun _ => true) inbound 0%nat false.

(** A local reply in full-duplex mode whose headers promise more, followed by trailers and no
    chunk, never gets its headers response: it was left for the first body chunk, and the trailers
    of a local reply do not release it. Whatever the pipeline, the limit, the headers and the
    trailers, only the trailers are answered. *)
Theorem local_reply_headers_unanswered `{PraxisFilter} pipeline max trust selector headers trailers cfg (env : Env) warned :
  pc_response_body_mode cfg = 4 -> pc_request_body_mode cfg = 4 ->
  run_sent pipeline max trust selector (fun _ => true)
    [Ok {| pr_request := Some (ResponseHeaders {| hh_headers := headers; hh_end_of_stream := false |});
           pr_protocol_config := Some cfg |};
     Ok {| pr_request := Some (ResponseTrailers trailers); pr_protocol_config := None |}] env warned =
  [response_trailers].
Proof. destruct cfg as [rq rs early]. cbn. intros -> ->. reflexivity. Qed.

Lemma local_reply_headers_unanswered_witness :
  demo_sent demo_pipeline (map Ok [demo_first 4 4 (demo_response_headers false); demo_trailers]) = [response_trailers].
Proof.
  exact (local_reply_headers_unanswered (H0 := ConcretePraxis) demo_pipeline (Some 100) false ResponseModeSelector_default
           (Some [demo_header ":status" "200"]) {| ht_trailers := None |}
           {| pc_request_body_mode := 4; pc_response_body_mode := 4; pc_send_body_without_waiting_for_header_response := false |}
           0%nat false eq_refl eq_refl).
Defined.

(** The same messages on a stream whose response goes through the pipeline, for comparison: the
    trailers release the headers response. *)
Example filtered_headers_answered :
  demo_sent (pass_pipeline (demo_caps false false false false))
    (map Ok [demo_first 4 4 (demo_request_headers true); demo_message (demo_response_headers false); demo_trailers]) =
  [request_headers None; response_headers None; response_trailers].
Proof. vm_compute. reflexivity. Qed.

Lemma buffered_chunk_waits `{PraxisFilter} pipeline body s (g : Glob Env) :
  response_body_mode (protocol_config s) = Buffered -> hb_end_of_stream body = false ->
  wp (handle_response_body pipeline body)
    (fun r s' _ => forall rs, r = Ok rs -> rs = [] /\ response_body_mode (protocol_config s') = Buffered) s g.
Proof.
  intros Hm He. unfold handle_response_body. do 4 wp_step. rewrite Hm, He. wp_step.
  apply wp_mark_phase; [intros _|intros _ _ _|done]; wp_step; unfold handle_body_redelivery.
  - rewrite bool_decide_false by done. by apply wp_duplicate.
  - wp_step. unfold accumulate_response_body. rewrite He. do 3 wp_step.
    unfold check_body_limit. destruct (max_body_accumulation _); [wp_case|].
    + unfold record_body_size_rejection. by repeat wp_step.
    + repeat wp_step. by intros rs [= <-].
    + repeat wp_step. by intros rs [= <-].
Qed.

Lemma rejection_has_no_body rs : existsb is_body (rejection_only rs) = false.
Proof.
  induction rs as [|r rs IH]; [done|]. unfold rejection_only in *. cbn [List.filter].
  destruct (is_immediate r) eqn:Hi; [|done]. cbn [existsb]. rewrite IH, orb_false_r.
  unfold is_immediate, is_body in *. by destruct (prs_response r) as [[]|].
Qed.

Lemma buffered_trailers_answer_no_body `{PraxisFilter} pipeline s (g : Glob Env) :
  response_body_mode (protocol_config s) = Buffered ->
  wp (handle_trailers pipeline false) (fun r _ _ => forall rs, r = Ok rs -> existsb is_body rs = false) s g.
Proof.
  intros Hm. unfold handle_trailers. wp_step.
  assert (Hf : wp (finalize_body_on_trailers pipeline false)
            (fun r _ _ => forall rs, r = Ok rs -> existsb is_body rs = false) s g).
  { unfold finalize_body_on_trailers. do 2 wp_step. destruct (body_open false s); cbn [negb]; [|by wp_step; intros rs [= <-]].
    unfold trailing_body_phase. do 2 wp_step. rewrite Hm. cbn [andb]. wp_step.
    unfold wp. destruct (run_trailing_body_pipeline _ _ _ _) as [[[rs|e] s'] g']; [|done].
    intros rs' [= <-]. apply rejection_has_no_body. }
  eapply wp_mono; [exact Hf|]. cbv beta. intros [rs|e] s' g' Hrs; [|done]. specialize (Hrs rs eq_refl).
  destruct (match last rs with Some r => is_immediate r | None => false end); wp_step; intros rs' [= <-]; [done|].
  by rewrite existsb_app, Hrs.
Qed.

(** C40. A BUFFERED response body that trailers close is never answered: in any state, a body
    message without end of stream followed by the trailers yields no body response, so the message
    Envoy sent gets no answer and what the filters made of the body reaches nobody. *)
Theorem buffered_response_body_unanswered `{PraxisFilter} pipeline body s (g : Glob Env) r1 s1 g1 r2 s2 g2 :
  response_body_mode (protocol_config s) = Buffered -> hb_end_of_stream body = false ->
  handle_response_body pipeline body s g = (Ok r1, s1, g1) ->
  handle_trailers pipeline false s1 g1 = (Ok r2, s2, g2) ->
  existsb is_body (r1 ++ r2) = false.
Proof.
  intros Hm He H1 H2.
  destruct (wp_run _ _ _ _ _ _ _ (buffered_chunk_waits pipeline body s g Hm He) H1 r1 eq_refl) as [-> Hm1].
  exact (wp_run _ _ _ _ _ _ _ (buffered_trailers_answer_no_body pipeline s1 g1 Hm1) H2 r2 eq_refl).
Qed.

Lemma run_of_result {E A S W} (x : result E A * S * W) r : x.1.1 = r -> x = (r, x.1.2, x.2).
Proof. destruct x as [[? ?] ?]. by intros <-. Qed.

(** A stream whose filters read the response body, in BUFFERED mode, with its response headers
    already processed, and the two messages in question. *)
Definition demo_response_reader : DemoPipeline := pass_pipeline (demo_caps false false true false).
Definition demo_buffered_response : StreamState (H0 := ConcretePraxis) :=
  with_response (H0 := ConcretePraxis) (Some (envoy_headers_to_response []))
    (with_request (H0 := ConcretePraxis) (Some (envoy_headers_to_request []))
       (with_protocol_config {| request_body_mode := Streamed; response_body_mode := Buffered;
                                send_body_without_waiting_for_header_response := false |}
          (StreamState_new (H0 := ConcretePraxis)))).
Definition demo_open_chunk : HttpBody := {| hb_body := as_bytes "hello"; hb_end_of_stream := false |}.
#[local] Abbreviation demo_after_chunk :=
  (handle_response_body (H0 := ConcretePraxis) demo_response_reader demo_open_chunk demo_buffered_response demo_world).
#[local] Abbreviation demo_after_trailers :=
  (handle_trailers (H0 := ConcretePraxis) demo_response_reader false demo_after_chunk.1.2 demo_after_chunk.2).

Lemma buffered_response_body_unanswered_witness :
  demo_after_chunk.1.1 = Ok [] /\ demo_after_trailers.1.1 = Ok [response_trailers] /\
  existsb is_body ([] ++ [response_trailers]) = false.
Proof.
  assert (H1 : demo_after_chunk.1.1 = Ok []) by (vm_compute; reflexivity).
  assert (H2 : demo_after_trailers.1.1 = Ok [response_trailers]) by (vm_compute; reflexivity).
  split; [exact H1|split; [exact H2|]].
  exact (buffered_response_body_unanswered (H0 := ConcretePraxis) demo_response_reader demo_open_chunk
           demo_buffered_response demo_world [] demo_after_chunk.1.2 demo_after_chunk.2
           [response_trailers] demo_after_trailers.1.2 demo_after_trailers.2 eq_refl eq_refl
           (run_of_result demo_after_chunk (Ok []) H1)
           (run_of_result demo_after_trailers (Ok [response_trailers]) H2)).
Defined.

(** The request side answers the same sequence. *)
Example buffered_request_body_answered :
  map is_body (demo_sent demo_pipeline
    (map Ok [demo_first 2 2 (demo_request_headers false); demo_message (RequestBody (demo_body "hello" false));
             demo_message (RequestTrailers {| ht_trailers := None |})])) = [false; true; false].
Proof. vm_compute. reflexivity. Qed.

(** A request refused for its guardrail selection gets an immediate response that nothing counts. *)
Example own_refusals_uncounted :
  let run := handle_request_headers (H0 := ConcretePraxis) demo_reader demo_guarded demo_guarded_stream demo_world in
  match run.1.1 with Ok rs => map is_immediate rs = [true] | Err _ => False end /\ g_log run.2 = [].
Proof. split; vm_compute; reflexivity. Qed.
