(* ===== verification/Report.v ===== *)
(** * The FIPS compliance report ([xtask/src/fips/report.rs], its data)

    The context every section gets, findings, and the report under construction. Programs and
    files are the operations of [Toolbox]: what running a program answers, and what a file
    holds. They do not change while a report is made. *)

From S2P Require Import Prelude RustStd Text.

(** ** The machine the tools run on *)

(** A program with its arguments, the directory, the variables and the input it is given. *)
Record Command := {
  cmd_program : string;
  cmd_args : list string;
  cmd_dir : option string;
  cmd_env : list (string * string);
  cmd_stdin : option string;
}.

Definition command (program : string) (args : list string) : Command :=
  {| cmd_program := program; cmd_args := args; cmd_dir := None; cmd_env := []; cmd_stdin := None |}.

(** [std::process::Output], the exit status also as the text it displays. *)
Record Output := {
  out_success : bool;
  out_status : string;
  out_stdout : bytes;
  out_stderr : bytes;
}.

Class Toolbox := {
  (** [Command::output]: an error when the program cannot be started. *)
  run_command : Command -> result string Output;
  (** [std::fs::read_to_string], [Path::is_file]. *)
  read_text : string -> result string string;
  is_file : string -> bool;
  (** A temporary file with the given content, by its path. *)
  temporary_file : string -> option string;
  (** [{:?}] of a string; its tables of Unicode characters are not modelled. *)
  debug_str : string -> string;
  (** [std::fs::write], with the error's text. *)
  write_file : string -> string -> result string unit;
}.

Definition stdout_text (o : Output) : string := from_utf8_lossy (out_stdout o).

(** [[String]::join]. *)
Definition join (sep : string) (l : list string) : string :=
  match l with [] => "" | s :: l => fold_left (fun acc t => acc +:+ sep +:+ t) l s end.

(** ** Context *)

Record Context := {
  root : string;
  features : option string;
  offline : bool;
}.

Definition feature_flags (c : Context) : list string :=
  match features c with
  | None => []
  | Some f => ["--no-default-features"; "--features"; f]
  end.

Definition feature_label (c : Context) : string :=
  match features c with
  | None => "default features"
  | Some f => "features: " +:+ f +:+ " (no defaults)"
  end.

Definition cargo_flags (c : Context) : list string := if offline c then ["--offline"] else [].

(** ** Findings and the report *)

Record Finding := { title : string; why : string; location : string; fix_ : string }.

Definition explained (f : Finding) (number : nat) : string :=
  "  " +:+ show number +:+ ". " +:+ title f +:+ String newline ("    why:   " +:+ why f) +:+
  String newline ("    where: " +:+ location f) +:+ String newline ("    fix:   " +:+ fix_ f).

Record Report := { report_lines : list string; findings : list Finding; warnings : nat }.

Definition Report_default : Report := {| report_lines := []; findings := []; warnings := 0 |}.

Definition push (ls : list string) (r : Report) : Report :=
  {| report_lines := report_lines r ++ ls; findings := findings r; warnings := warnings r |}.

Definition section (t : string) (r : Report) : Report := push [""; "== " +:+ t] r.
Definition ok (m : string) (r : Report) : Report := push ["  ok    " +:+ m] r.
Definition info (m : string) (r : Report) : Report := push ["  info  " +:+ m] r.
Definition warn (m : string) (r : Report) : Report :=
  {| report_lines := report_lines r ++ ["  WARN  " +:+ m]; findings := findings r; warnings := S (warnings r) |}.
Definition fail (f : Finding) (r : Report) : Report :=
  {| report_lines := report_lines r ++ ["  FAIL  " +:+ title f]; findings := findings r ++ [f];
     warnings := warnings r |}.
Definition raw (text : string) (r : Report) : Report := push (map (fun l => "        " +:+ l) (str_lines text)) r.

Definition has_finding (needle : string) (r : Report) : bool :=
  existsb (fun f => contains needle (title f)) (findings r).
Definition failed (r : Report) : bool := negb (bool_decide (length (findings r) = 0%nat)).

Definition references (r : Report) : Report :=
  push [""; "  Reference: denylist and symbol rules mirror openshift/check-payload (Rust support, PR #360);";
        "  validated module: RHEL 9 OpenSSL FIPS Provider 3.0.7 (CMVP #4857). See docs/fips.md."] r.

Fixpoint explained_from (n : nat) (fs : list Finding) : list string :=
  match fs with [] => [] | f :: fs => explained f n :: explained_from (S n) fs end.

Definition summary (r : Report) : Report :=
  let r := section "Summary" r in
  references
    (if bool_decide (length (findings r) = 0%nat) then
       let r := push ["  RESULT: no findings. This build is structurally FIPS-ready; run it on a FIPS-enabled RHEL host and Red Hat's scanner for the verification result."] r in
       if Nat.ltb 0 (warnings r) then push ["  " +:+ show (warnings r) +:+ " warning(s) above."] r else r
     else
       push (("  RESULT: " +:+ show (length (findings r)) +:+ " finding(s), " +:+ show (warnings r) +:+
              " warning(s). This build is NOT FIPS compliant yet. What to fix:") ::
             explained_from 1 (findings r)) r).

Definition text (r : Report) : string := join (String newline EmptyString) (report_lines r) +:+ String newline EmptyString.

(** ** What reaches the findings *)

Lemma findings_push ls r : findings (push ls r) = findings r.
Proof. done. Qed.
Lemma findings_info m r : findings (info m r) = findings r.
Proof. done. Qed.
Lemma findings_ok m r : findings (ok m r) = findings r.
Proof. done. Qed.
Lemma findings_warn m r : findings (warn m r) = findings r.
Proof. done. Qed.
Lemma findings_fail f r : findings (fail f r) = findings r ++ [f].
Proof. done. Qed.
Lemma findings_section t r : findings (section t r) = findings r.
Proof. done. Qed.
Lemma findings_raw t r : findings (raw t r) = findings r.
Proof. done. Qed.
Lemma findings_summary r : findings (summary r) = findings r.
Proof. unfold summary, references. cbn. case_bool_decide; [by destruct (warnings r)|done]. Qed.

Lemma failed_spec r : failed r = false <-> findings r = [].
Proof. unfold failed. by destruct (findings r). Qed.

(** A section that only appends: it leaves the report clean exactly when the report was and its own
    checks passed. *)
Definition adds_unless (P : Prop) (f : Report -> Report) : Prop :=
  forall r, findings (f r) = [] <-> findings r = [] /\ P.

Lemma adds_compose P Q f g : adds_unless P f -> adds_unless Q g -> adds_unless (P /\ Q) (fun r => g (f r)).
Proof. unfold adds_unless. intros Hf Hg r. rewrite Hg, Hf. tauto. Qed.

Lemma fail_not_clean f r : findings (fail f r) = [] <-> False.
Proof. rewrite findings_fail. split; [by intros [_ ?]%app_nil|done]. Qed.

Lemma adds_fail f : adds_unless False (fail f).
Proof. intros r. rewrite fail_not_clean. tauto. Qed.

Lemma adds_fail_not P f : ~ P -> adds_unless P (fail f).
Proof. intros HP r. rewrite (adds_fail f r). tauto. Qed.

Lemma adds_quiet_if P f : (forall r, findings (f r) = findings r) -> P -> adds_unless P f.
Proof. intros Hf HP r. rewrite Hf. tauto. Qed.

Lemma adds_quiet f : (forall r, findings (f r) = findings r) -> adds_unless True f.
Proof. intros Hf r. rewrite Hf. tauto. Qed.

Lemma adds_iff P Q f : (P <-> Q) -> adds_unless P f -> adds_unless Q f.
Proof. unfold adds_unless. intros HPQ Hf r. rewrite Hf. tauto. Qed.

Lemma adds_if (b : bool) P Q f g :
  adds_unless P f -> adds_unless Q g -> adds_unless (if b then P else Q) (fun r => if b then f r else g r).
Proof. by destruct b. Qed.
