(* ===== verification/Environment.v ===== *)
(** * The environment section of the report ([xtask/src/fips/environment.rs])

    What the host offers: it only ever adds information, never a finding. *)

From S2P Require Import Prelude RustStd Text Report.

Definition FIPS_MODULE_PATHS : list string :=
  ["/usr/lib64/ossl-modules/fips.so"; "/usr/lib/x86_64-linux-gnu/ossl-modules/fips.so"].

Definition double_quote : ascii := ascii_of_nat 34.

Section Environment.
Context `{Toolbox}.

(** The bundled configuration that activates the provider ([assets::FIPS_PROVIDER_CNF]). *)
Variable FIPS_PROVIDER_CNF : string.

Definition first_line (program : string) (args : list string) : option string :=
  match run_command (command program args) with
  | Ok o => if out_success o then Some (trim (default "" (head (str_lines (stdout_text o))))) else None
  | Err _ => None
  end.

Definition os_pretty_name : option string :=
  match read_text "/etc/os-release" with
  | Ok contents => trim_matches double_quote <$> first_some (str_strip_prefix "PRETTY_NAME=") (str_lines contents)
  | Err _ => None
  end.

Definition rpm_versions : list string :=
  match run_command (command "rpm" ["-q"; "openssl-libs"; "openssl-fips-provider-so"]) with
  | Ok o => List.filter (fun l => negb (bool_decide (l = ""))) (str_lines (stdout_text o))
  | Err _ => []
  end.

Definition fips_module : option string := find_first is_file FIPS_MODULE_PATHS.

Definition kernel_flag : string :=
  match read_text "/proc/sys/crypto/fips_enabled" with Ok flag => trim flag | Err _ => "n/a" end.

(** [openssl] under the configuration at [cnf]. *)
Definition openssl_under (cnf : string) (args : list string) (input : option string) : Command :=
  {| cmd_program := "openssl"; cmd_args := args; cmd_dir := None; cmd_env := [("OPENSSL_CONF", cnf)];
     cmd_stdin := input |}.

Definition provider_listed (cnf : string) : bool :=
  match run_command (openssl_under cnf ["list"; "-providers"] None) with
  | Ok o => existsb (fun l => bool_decide (l = "  fips")) (str_lines (stdout_text o))
  | Err _ => false
  end.

Definition md5_works (cnf : string) : bool :=
  match run_command (openssl_under cnf ["dgst"; "-md5"] (Some "abc")) with
  | Ok o => out_success o
  | Err _ => false
  end.

Definition provider_activation : string :=
  let activated :=
    match temporary_file FIPS_PROVIDER_CNF with
    | Some cnf => provider_listed cnf && negb (md5_works cnf)
    | None => false
    end in
  if activated then "fips provider can be activated per process here (MD5 refused under it): yes"
  else "fips provider can be activated per process here: no".

Definition toolchain : option string :=
  cargo ← first_line "cargo" ["--version"];
  Some (cargo +:+ ", " +:+ default "" (first_line "rustc" ["--version"])).

Definition info_if (label : string) (o : option string) (r : Report) : Report :=
  match o with Some v => info (label +:+ v) r | None => r end.

Definition environment_section (context : Context) (r : Report) : Report :=
  let r := section "Environment" r in
  let r := info ("host: " +:+ default "unknown" (first_line "uname" ["-srm"])) r in
  let r := info_if "os: " os_pretty_name r in
  let openssl := first_line "openssl" ["version"] in
  let r := info_if "openssl: " openssl r in
  let r := fold_left (fun r line => info ("rpm: " +:+ line) r) rpm_versions r in
  let r := info match fips_module with
                | None => "fips provider module: not installed"
                | Some path => "fips provider module: " +:+ path
                end r in
  let r := info ("kernel fips_enabled: " +:+ kernel_flag) r in
  let r := if bool_decide (is_Some fips_module) && bool_decide (is_Some openssl)
           then info provider_activation r else r in
  let r := info_if "toolchain: " toolchain r in
  info ("build assessed: praxis-extproc, " +:+ feature_label context) r.

Lemma findings_info_if label o r : findings (info_if label o r) = findings r.
Proof. by destruct o. Qed.

Lemma findings_infos label ls : forall r, findings (fold_left (fun r line => info (label +:+ line) r) ls r) = findings r.
Proof. induction ls as [|l ls IH]; intros r; [done|]. cbn [fold_left]. by rewrite IH. Qed.

Lemma environment_quiet context : adds_unless True (environment_section context).
Proof.
  apply adds_quiet. intros r. unfold environment_section. rewrite findings_info, findings_info_if.
  destruct (_ && _); rewrite ?findings_info, findings_infos, !findings_info_if, findings_info; done.
Qed.
End Environment.
