(* ===== verification/Graph.v ===== *)
(** * The dependency graph section of the report ([xtask/src/fips/graph.rs])

    Every denied crate is looked up with [cargo tree -i]; one that is found is a finding, and so is
    one whose lookup failed. What counts as an absence is read off cargo's message, which says the
    same of an unknown root package ([unknown_package_reads_as_absent]). *)

From S2P Require Import Prelude RustStd Text Report.

Definition DENIED : list string :=
  ["ring"; "aws-lc-rs"; "aws-lc-sys"; "aws-lc-fips-sys"; "boring"; "boring-sys"; "openssl-src"; "sha1"; "sha2"; "sha3";
   "md-5"; "hmac"; "aes"; "aes-gcm"; "chacha20poly1305"; "ctr"; "cbc"; "rsa"; "ecdsa"; "ed25519-dalek";
   "curve25519-dalek"; "x25519-dalek"; "p256"; "p384"].

Definition one_of (names : list string) (name : string) : bool := bool_decide (name ∈ names).

Definition hint_location (crate_name : string) : string :=
  if one_of ["ring"] crate_name then
    "the Pingora fork before 0.10.0 (its rustls crate carried a ring provider), which any praxis before the 0.7 FIPS release brings back; a dependency enabling rustls' 'ring' feature; rcgen outside dev-dependencies; a manifest built from 'cargo metadata' (which activates rustls-webpki's weak 'ring?/alloc' feature) when the graph itself is clean"
  else if one_of ["aws-lc-rs"; "aws-lc-sys"] crate_name then
    "a dependency enabling rustls' 'aws_lc_rs' feature (rustls' default, kept off in Cargo.toml); jsonwebtoken via the praxis policy engine (feature policy-engine; praxis-ai enabled it by default before its FIPS work)"
  else if one_of ["sha2"] crate_name then
    "sqlx-core's migration checksums (feature responses-store); the praxis policy engine (feature policy-engine); the aws-sigv4 crate if praxis-ai's OpenSSL-backed signer ever regresses to it"
  else if one_of ["hmac"] crate_name then
    "the praxis policy engine's 'oauth' builtin (feature policy-engine); the aws-sigv4 crate if praxis-ai's OpenSSL-backed signer ever regresses to it"
  else if one_of ["sha1"] crate_name then "tokio-tungstenite WebSocket accept key (test utilities)"
  else if one_of ["openssl-src"] crate_name then "the 'vendored' feature of the openssl crate, or OPENSSL_STATIC"
  else if one_of ["boring"; "boring-sys"] crate_name then "pingora 'boringssl' feature"
  else "see the dependency path above".

Definition hint_fix (crate_name : string) : string :=
  if one_of ["ring"] crate_name then
    "find the edge with 'cargo tree -e features -i ring'; keep rustls/tokio-rustls/reqwest on no-provider features; the only provider is the OpenSSL one src/fips.rs installs"
  else if one_of ["aws-lc-rs"; "aws-lc-sys"] crate_name then
    "find the edge with 'cargo tree -e features -i aws-lc-rs'; keep rustls default-features off; leave policy-engine out of the FIPS build (FIPS_FEATURES in the Makefile)"
  else if one_of ["sha2"; "hmac"] crate_name then
    "leave policy-engine and responses-store out of the FIPS build (FIPS_FEATURES in the Makefile), or route the operation through openssl (EVP APIs: openssl::hash, openssl::sign, openssl::pkey) the way praxis-ai's SigV4 signer does"
  else if one_of ["sha1"] crate_name then "keep it a dev-dependency; it must not appear in the release graph"
  else if one_of ["openssl-src"] crate_name then "remove 'vendored', build with OPENSSL_NO_VENDOR=1, never set OPENSSL_STATIC"
  else if one_of ["boring"; "boring-sys"] crate_name then "build pingora with the 'rustls' feature only"
  else if one_of ["aws-lc-fips-sys"] crate_name then "remove the dependency or route it through the system OpenSSL"
  else "route the operation through openssl (EVP APIs: openssl::hash, openssl::sign, openssl::pkey) or disable the feature that pulls it".

Definition unchecked_finding (unchecked : list string) : Finding :=
  {| title := "cargo tree could not check " +:+ show (length unchecked) +:+ " of " +:+ show (length DENIED) +:+
              " denied crates";
     why := "a crate that could not be looked up may be in the graph; the check must fail closed";
     location := default "" (head unchecked);
     fix_ := "fix the cargo error (run the same cargo tree by hand in the workspace root) and rerun" |}.

Definition finding (crate_name : string) : Finding :=
  {| title := "denied crate '" +:+ crate_name +:+ "' is in the shipped dependency graph";
     why := "this crate implements cryptography outside the RHEL OpenSSL FIPS module; Red Hat's scanner fails any binary whose manifest lists it";
     location := hint_location crate_name;
     fix_ := hint_fix crate_name |}.

Inductive Tree := Absent | Error (first : string) | Present (tree : string).

Definition classify (text : string) : Tree :=
  if contains "did not match any packages" text || contains "nothing to print" text then Absent
  else match find_first (str_starts_with "error") (str_lines text) with
       | Some error => Error error
       | None => Present text
       end.

Definition excerpt (tree : string) : string :=
  join (String newline EmptyString)
    (take 20 (List.filter (fun l => negb (str_ends_with "(*)" l)) (str_lines tree))).

Section Graph.
Context `{Toolbox}.

Definition cargo_tree (context : Context) (crate_name : string) (feature_flags : list string) : Command :=
  {| cmd_program := "cargo";
     cmd_args := ["tree"] ++ cargo_flags context ++ ["-e"; "normal"; "-p"; "praxis-extproc"] ++ feature_flags ++
                 ["-i"; crate_name; "--prefix"; "indent"];
     cmd_dir := Some (root context); cmd_env := []; cmd_stdin := None |}.

Definition inverted_tree (context : Context) (crate_name : string) (feature_flags : list string) : Tree :=
  match run_command (cargo_tree context crate_name feature_flags) with
  | Err _ => Error "cargo could not be run"
  | Ok o => classify (from_utf8_lossy (out_stdout o) +:+ from_utf8_lossy (out_stderr o))
  end.

(** One round of the loop over [DENIED]: the report, whether it is clean so far, and the crates
    that could not be checked. *)
Definition check_crate (context : Context) (st : Report * bool * list string) (crate_name : string)
  : Report * bool * list string :=
  let '(r, clean, unchecked) := st in
  match inverted_tree context crate_name (feature_flags context) with
  | Absent => (r, clean, unchecked)
  | Error first => (r, clean, unchecked ++ [crate_name +:+ ": " +:+ first])
  | Present tree => (raw (excerpt tree) (fail (finding crate_name) r), false, unchecked)
  end.

Definition is_present (t : Tree) : bool := match t with Present _ => true | _ => false end.

Definition all_features_note (context : Context) (r : Report) : Report :=
  let extra :=
    List.filter (fun c => is_present (inverted_tree context c ["--all-features"]))
      (List.filter (fun c => negb (has_finding ("'" +:+ c +:+ "' is in the shipped") r)) DENIED) in
  match extra with
  | [] => r
  | _ => warn ("with --all-features these denied crates also appear: " +:+ join " " extra +:+
               " (not in this build; check before enabling those features)") r
  end.

Definition graph_section (context : Context) (r : Report) : Report :=
  let r := section ("Dependency graph (praxis-extproc, " +:+ feature_label context +:+ ", normal edges)") r in
  match run_command (command "cargo" ["--version"]) with
  | Err _ => fail (unchecked_finding ["cargo not found"]) r
  | Ok _ =>
      let '(r, clean, unchecked) := fold_left (check_crate context) DENIED (r, true, []) in
      let '(r, clean) :=
        match unchecked with
        | [] => (r, clean)
        | _ => (fail (unchecked_finding unchecked) r, false)
        end in
      let r := if clean then ok ("no denied crate in the graph (" +:+ feature_label context +:+ ")") r else r in
      all_features_note context r
  end.

(** ** When the section finds nothing *)

(** Cargo runs, and its answer has one of the two messages taken for an absence: that no package
    matches, which it also says when the package assessed is itself unknown, or that there is
    nothing to print. Its exit status is not looked at. *)
Definition answered_absent (context : Context) (crate_name : string) : Prop :=
  exists o, run_command (cargo_tree context crate_name (feature_flags context)) = Ok o /\
            let text := from_utf8_lossy (out_stdout o) +:+ from_utf8_lossy (out_stderr o) in
            contains "did not match any packages" text || contains "nothing to print" text = true.

Definition graph_clean (context : Context) : Prop :=
  (exists o, run_command (command "cargo" ["--version"]) = Ok o) /\ Forall (answered_absent context) DENIED.

Lemma inverted_tree_absent context c :
  inverted_tree context c (feature_flags context) = Absent <-> answered_absent context c.
Proof.
  unfold inverted_tree, answered_absent. destruct (run_command _) as [o|e]; [|naive_solver].
  unfold classify. destruct (contains _ _ || contains _ _) eqn:Hc.
  - split; [intros _; by exists o|done].
  - split; [by destruct (find_first _ _)|]. intros (o' & [= <-] & Ho). cbv zeta in Ho. by rewrite Hc in Ho.
Qed.

Lemma check_crates context crates : forall r clean unchecked r' clean' unchecked',
  fold_left (check_crate context) crates (r, clean, unchecked) = (r', clean', unchecked') ->
  (findings r' = [] /\ unchecked' = [] <-> (findings r = [] /\ unchecked = []) /\ Forall (answered_absent context) crates).
Proof.
  induction crates as [|c crates IH]; intros r clean unchecked r' clean' unchecked'; cbn [fold_left].
  - intros [= <- <- <-]. rewrite Forall_nil. tauto.
  - unfold check_crate at 2. pose proof (inverted_tree_absent context c) as Hc.
    rewrite Forall_cons, <- Hc. destruct (inverted_tree _ _ _) as [|first|tree]; intros ->%IH.
    + tauto.
    + split; [intros [[_ ?%app_nil] _]; naive_solver|intros [_ [? _]]; done].
    + rewrite findings_raw, findings_fail. split; [intros [[?%app_nil _] _]; naive_solver|intros [_ [? _]]; done].
Qed.

Lemma graph_section_spec context : adds_unless (graph_clean context) (graph_section context).
Proof.
  intros r. unfold graph_section, graph_clean. destruct (run_command (command _ _)) as [o|e].
  - destruct (fold_left _ _ _) as [[r' clean] unchecked] eqn:Hf. apply check_crates in Hf. rewrite findings_section in Hf.
    transitivity (findings r' = [] /\ unchecked = []); [|naive_solver].
    assert (Hn : forall r, findings (all_features_note context r) = findings r).
    { intros r0. unfold all_features_note. by destruct (List.filter _ _). }
    destruct unchecked as [|u us].
    + rewrite Hn. destruct clean; rewrite ?findings_ok; tauto.
    + rewrite Hn, findings_fail. split; [intros [_ ?]%app_nil; done|by intros [_ ?]].
  - rewrite findings_fail. split; [intros [_ ?]%app_nil; done|intros [_ [[? ?] _]]; done].
Qed.
End Graph.

(** Cargo's complaint that the assessed package itself is unknown reads as the absence of the crate
    that was asked about. *)
Example unknown_package_reads_as_absent :
  classify "error: package ID specification `praxis-extproc` did not match any packages" = Absent.
Proof. vm_compute. reflexivity. Qed.
