(* ===== verification/Guards.v ===== *)
(** * The source guards of the report ([xtask/src/fips/guards.rs])

    Patterns that must not appear outside comments in the repository's files. The regular
    expression engine is a parameter; the workspace is a tree of files, with paths relative to its
    root (symbolic links are what they point to). A line counts as a comment when it starts with
    two slashes or with a number sign, in every kind of file ([attribute_reads_as_comment]); a file
    or directory that cannot be read, or is not there, has nothing to find. *)

From S2P Require Import Prelude RustStd Text Report.

Definition MAX_HITS : nat := 10.

Record Guard := { label : string; pattern : string; g_why : string; g_fix : string; paths : list string }.

(** The pattern [fips::enable\(|Provider::load\([^)]*"fips"], which quotes a word. *)
Definition enable_pattern : string :=
  "fips::enable\(|Provider::load\([^)]*" +:+ String (ascii_of_nat 34) ("fips" +:+ String (ascii_of_nat 34) EmptyString).

Definition GUARDS : list Guard :=
  [{| label := "application enables a FIPS provider itself";
      pattern := enable_pattern;
      g_why := "Red Hat requires FIPS mode to come from the host; an application that loads or enables the provider is in an unsupported state";
      g_fix := "query only: CryptoProvider::fips(), config.fips(), /proc/sys/crypto/fips_enabled";
      paths := ["src"] |};
   {| label := "legacy OpenSSL digest API";
      pattern := "openssl::sha::";
      g_why := "openssl::sha::* wraps SHA256_Init and friends, which never dispatch through the provider and so bypass the FIPS module";
      g_fix := "use openssl::hash (EVP_Digest*)";
      paths := ["src"] |};
   {| label := "vendored OpenSSL";
      pattern := "^[^#]*\bvendored(-openssl)?([^-\w]|$)";
      g_why := "a vendored libcrypto is compiled into the binary and is not the validated module";
      g_fix := "drop the feature; build with OPENSSL_NO_VENDOR=1";
      paths := ["Cargo.toml"; "proto/Cargo.toml"; "src"] |};
   {| label := "static OpenSSL linking in shipped build files";
      pattern := "OPENSSL_STATIC";
      g_why := "statically linked libcrypto defines OPENSSL_* symbols in the binary and fails the symbol scan";
      g_fix := "remove OPENSSL_STATIC from build files";
      paths := ["Containerfile"; "Dockerfile.konflux"; "Makefile"; ".github"] |}].

(** ** The workspace *)

#[local] Set Warnings "-register-all".

(** A file with its text ([None] when it cannot be read as UTF-8), a directory with its entries by
    name ([None] when it cannot be listed), or neither. *)
Inductive Node :=
| File (text : option string)
| Dir (entries : option (list (string * Node)))
| Special.

(** [Path::file_name().to_str()] and [Path::extension().to_str()], the empty text when a name is not
    UTF-8. *)
Definition to_str (name : string) : string := default "" (from_utf8 (as_bytes name)).

Definition scannable (name : string) : bool :=
  let ext := default "" (to_str <$> extension name) in
  bool_decide (ext ∈ ["rs"; "toml"; "yaml"; "yml"]%string) ||
  str_starts_with "Containerfile" (to_str name) || bool_decide (to_str name = "Makefile").

(** A file found: its path and its text. *)
Abbreviation Found := (string * option string)%type.

(** [walk]: what is found under the node of an entry; each entry's answer is computed before they
    are sorted, which does not change what is found. *)
Fixpoint walk_node (path name : string) (n : Node) : list Found :=
  match n with
  | Dir (Some entries) =>
      if bool_decide (name = "target") then []
      else concat (map snd (sort_entries (map (fun e => (e.1, walk_node (path +:+ "/" +:+ e.1) e.1 e.2)) entries)))
  | Dir None => []
  | File text => if scannable name then [(path, text)] else []
  | Special => if scannable name then [(path, None)] else []
  end.

Definition walk (path : string) (entries : option (list (string * Node))) : list Found :=
  match entries with
  | None => []
  | Some es => concat (map snd (sort_entries (map (fun e => (e.1, walk_node (path +:+ "/" +:+ e.1) e.1 e.2)) es)))
  end.

(** [files]. *)
Definition files (path : string) (n : option Node) : list Found :=
  match n with
  | Some (File text) => [(path, text)]
  | Some (Dir entries) => walk path entries
  | _ => []
  end.

(** ** Scanning *)

Class Workspace := {
  (** What the workspace has at a path. *)
  node_at : string -> option Node;
  (** [Regex::new(pattern).is_match(line)], for the patterns of [GUARDS]. *)
  is_match : string -> string -> bool;
}.

Section Guards.
Context `{Workspace}.

Definition is_comment (line : string) : bool :=
  let trimmed := trim_start line in str_starts_with "//" trimmed || str_starts_with "#" trimmed.

Fixpoint scan_lines (pat path : string) (index : nat) (ls : list string) : list string :=
  match ls with
  | [] => []
  | line :: ls =>
      (if negb (is_comment line) && is_match pat line
       then [path +:+ ":" +:+ show (index + 1) +:+ ":" +:+ line] else []) ++ scan_lines pat path (S index) ls
  end.

Definition scan (pat : string) (f : Found) (hits : list string) : list string :=
  match f.2 with
  | None => hits
  | Some text => hits ++ scan_lines pat (from_utf8_lossy (as_bytes f.1)) 0 (str_lines text)
  end.

(** The two loops of [hits], which stop once there are enough hits. *)
Fixpoint scan_files (pat : string) (fs : list Found) (hits : list string) : list string * bool :=
  match fs with
  | [] => (hits, false)
  | f :: fs =>
      let hits := scan pat f hits in
      if Nat.leb MAX_HITS (length hits) then (hits, true) else scan_files pat fs hits
  end.

Fixpoint scan_paths (pat : string) (ps : list string) (hits : list string) : list string :=
  match ps with
  | [] => hits
  | p :: ps =>
      match scan_files pat (files p (node_at p)) hits with
      | (hits, true) => hits
      | (hits, false) => scan_paths pat ps hits
      end
  end.

Definition guard_hits (g : Guard) : list string := scan_paths (pattern g) (paths g) [].

Definition check_guard (r : Report) (g : Guard) : Report :=
  match guard_hits g with
  | [] => ok (label g +:+ ": none") r
  | hits => fail {| title := label g; why := g_why g; location := join ";" (take 3 hits); fix_ := g_fix g |} r
  end.

Definition guards_section (r : Report) : Report := fold_left check_guard GUARDS (section "Source guards" r).

(** ** When the section finds nothing *)

(** If the file could be read, no line of it that [is_comment] does not skip matches. *)
Definition file_clean (pat : string) (f : Found) : Prop :=
  forall text line, f.2 = Some text -> line ∈ str_lines text -> is_comment line = false -> is_match pat line = false.

Definition guard_clean (g : Guard) : Prop :=
  forall path f, path ∈ paths g -> f ∈ files path (node_at path) -> file_clean (pattern g) f.

Lemma scan_lines_nil pat path ls : forall index,
  scan_lines pat path index ls = [] <-> (forall line, line ∈ ls -> is_comment line = false -> is_match pat line = false).
Proof.
  induction ls as [|l ls IH]; intros index; cbn [scan_lines]; [split; [by intros _ ? ?%elem_of_nil|done]|].
  setoid_rewrite elem_of_cons. destruct (is_comment l) eqn:Hc, (is_match pat l) eqn:Hm; cbn; try rewrite IH;
    split; intros Hx; try done; try (intros line [->|?]; [congruence|eauto]); try (intros line ? ?; apply Hx; eauto).
  by specialize (Hx l (or_introl eq_refl) Hc); congruence.
Qed.

Lemma scan_nil pat f hits : scan pat f hits = [] <-> hits = [] /\ file_clean pat f.
Proof.
  unfold scan, file_clean. destruct f.2 as [text|] eqn:Hf; [|naive_solver].
  split.
  - intros [-> Hs]%app_nil. split; [done|]. intros ? line [= <-]. by apply (proj1 (scan_lines_nil _ _ _ _) Hs).
  - intros [-> Hs]. apply scan_lines_nil. intros line. by apply Hs.
Qed.

Lemma scan_files_nil pat fs : forall hits,
  (scan_files pat fs hits).1 = [] <-> hits = [] /\ Forall (file_clean pat) fs.
Proof.
  induction fs as [|f fs IH]; intros hits; cbn [scan_files]; [rewrite Forall_nil; cbn; tauto|].
  rewrite Forall_cons. pose proof (scan_nil pat f hits) as Hs. destruct (Nat.leb_spec MAX_HITS (length (scan pat f hits))).
  - cbn [fst]. split; [intros Hn; rewrite Hn in *; unfold MAX_HITS in *; cbn in *; lia|].
    intros [? [? _]]. tauto.
  - rewrite IH, Hs. tauto.
Qed.

Lemma scan_files_more pat fs hits h : scan_files pat fs hits = (h, true) -> h <> [].
Proof.
  revert hits. induction fs as [|f fs IH]; intros hits; cbn [scan_files]; [done|].
  destruct (Nat.leb_spec MAX_HITS (length (scan pat f hits))); [|apply IH].
  intros [= <-] Hn. rewrite Hn in *. unfold MAX_HITS in *. cbn in *. lia.
Qed.

Lemma scan_paths_nil pat ps : forall hits,
  scan_paths pat ps hits = [] <-> hits = [] /\ forall p f, p ∈ ps -> f ∈ files p (node_at p) -> file_clean pat f.
Proof.
  induction ps as [|p ps IH]; intros hits; cbn [scan_paths]; [split; [by split; [|intros ? ? ?%elem_of_nil]|tauto]|].
  setoid_rewrite elem_of_cons. pose proof (scan_files_nil pat (files p (node_at p)) hits) as Hs.
  rewrite Forall_forall in Hs. destruct (scan_files _ _ _) as [h []] eqn:Hf; cbn [fst] in Hs.
  - split; [intros ->; by apply scan_files_more in Hf|].
    intros [-> Hc]. apply scan_files_more in Hf. destruct Hf. apply Hs. split; [done|]. intros f ?. by apply (Hc p); [left|].
  - rewrite IH, Hs. split; [intros [[-> Hp] Hps]; split; [done|intros p' f [->|?]; eauto]|].
    intros [-> Hc]. split_and!; [done|intros f ?; by apply (Hc p); [left|]|intros p' f ?; apply Hc; by right].
Qed.

Lemma check_guard_spec g : adds_unless (guard_clean g) (fun r => check_guard r g).
Proof.
  intros r. unfold check_guard. pose proof (scan_paths_nil (pattern g) (paths g) []) as Hs. fold (guard_hits g) in Hs.
  change (guard_clean g) with (forall p f, p ∈ paths g -> f ∈ files p (node_at p) -> file_clean (pattern g) f).
  destruct (guard_hits g) as [|h hs].
  - rewrite findings_ok. tauto.
  - rewrite findings_fail. split; [intros [_ ?]%app_nil; done|]. intros [_ Hc]. discriminate (proj2 Hs (conj eq_refl Hc)).
Qed.

Lemma guards_section_spec : adds_unless (Forall guard_clean GUARDS) guards_section.
Proof.
  intros r. unfold guards_section. rewrite <- (findings_section "Source guards" r). generalize (section "Source guards" r).
  induction GUARDS as [|g gs IH]; intros r0; cbn [fold_left]; [rewrite Forall_nil; tauto|].
  rewrite IH, Forall_cons, (check_guard_spec g r0). tauto.
Qed.
End Guards.

(** A line that begins with a Rust attribute counts as a comment. *)
Example attribute_reads_as_comment : is_comment "#[inline] fn h() { openssl::sha::sha256(b) }" = true.
Proof. vm_compute. reflexivity. Qed.
