(* ===== verification/Binary.v ===== *)
(** * The binary section of the report ([xtask/src/fips/binary.rs])

    Linkage, symbols, the allowlist of OpenSSL imports, the cargo-auditable manifest and the
    producer string. The [object] crate, zlib and [serde_json] are parameters. A binary that is not
    given, cannot be read or is not ELF is a finding; an [ldd] that cannot be run is only a warning,
    and leaves the linkage unchecked. *)

From S2P Require Import Prelude RustStd Text Report Graph.

(** ** The object crate, zlib and serde_json *)

Inductive BinaryFormat := Elf | OtherFormat (debug : string).

(** A symbol of [object::File]: whether it is undefined, and its name when that reads as text. *)
Record Symbol := { sym_undefined : bool; sym_name : option string }.
(** A symbol of the ELF dynamic table with its raw name. *)
Record ElfSymbol := { es_undefined : bool; es_name : result string bytes }.

Class ObjectCrate := {
  ObjFile : Type;
  object_parse : bytes -> result string ObjFile;
  object_format : ObjFile -> BinaryFormat;
  symbols : ObjFile -> list Symbol;
  dynamic_symbols : ObjFile -> list Symbol;
  (** A section's data, or why it cannot be read, when there is such a section. *)
  section_by_name : ObjFile -> string -> option (result string bytes);
  (** The names of the imports; [None] when they cannot be read. *)
  object_imports : ObjFile -> option (list bytes);

  (** [ElfFile64]: the dynamic symbols, the GNU version table if any, and a symbol's version node
      by its index. *)
  ElfFile : Type;
  Versions : Type;
  elf_parse : bytes -> result string ElfFile;
  elf_dynamic_symbols : ElfFile -> list ElfSymbol;
  elf_versions : ElfFile -> result string (option Versions);
  version_of : Versions -> nat -> result string (option bytes);

  zlib_decode : bytes -> result string bytes;
  JValue : Type;
  json_from_slice : bytes -> result string JValue;
  json_get : JValue -> string -> option JValue;
  json_as_array : JValue -> option (list JValue);
  json_as_str : JValue -> option string;
  json_as_u64 : JValue -> option Z;

  (** [std::fs::metadata] ([is_file]) and [std::fs::read], with the error's text. *)
  metadata_is_file : string -> result string bool;
  read_file : string -> result string bytes;
}.

Definition BACKEND_PREFIXES : list string := ["ring_core_"; "GFp_"; "aws_lc_"; "AWSLC_"; "BORINGSSL_"; "OPENSSL_"].
Definition OPENSSL_PREFIXES : list string := ["EVP_"; "SSL_"; "OSSL_"; "RAND_"].
Definition OPENSSL_VERSION_PREFIX : bytes := as_bytes "OPENSSL_".
Definition PRECURSOR_FORMAT : Z := 8.

(** ** Findings *)

Definition UNASSESSED : string :=
  "the linkage, symbol, manifest and producer checks all run on the binary itself; without them the report would call a build FIPS-ready without ever inspecting it".

Definition no_binary : Finding :=
  {| title := "no binary given, so the binary checks did not run";
     why := UNASSESSED;
     location := "the command line: the binary to assess is the BINARY argument";
     fix_ := "build it with 'make release-fips' and pass its path (as 'make fips-report' does), or pass --deps-only to report on the dependency graph alone" |}.

Definition unreadable_binary (binary reason : string) : Finding :=
  {| title := "cannot read the binary at " +:+ binary +:+ " (" +:+ reason +:+ ")";
     why := UNASSESSED;
     location := "the BINARY argument (FIPS_BIN for 'make fips-report')";
     fix_ := "build it with 'make release-fips', or pass the path of an existing, readable binary" |}.

Definition not_elf (binary reason : string) : Finding :=
  {| title := binary +:+ " is not an ELF file (" +:+ reason +:+ ")";
     why := UNASSESSED;
     location := "the BINARY argument (FIPS_BIN for 'make fips-report')";
     fix_ := "pass the praxis-extproc executable itself ('make release-fips' writes target/fips/release/praxis-extproc), not a script, archive or other file" |}.

Definition missing_libcrypto : Finding :=
  {| title := "does not link libcrypto.so.3 at all";
     why := "no cryptography can be reaching the RHEL OpenSSL FIPS module; the binary carries its own crypto instead of calling libcrypto";
     location := "src/fips.rs is the only place a provider is chosen; a binary without libcrypto was built without it (or against a vendored OpenSSL)";
     fix_ := "build with the rustls-openssl provider src/fips.rs installs and OPENSSL_NO_VENDOR=1, on a host with the OpenSSL headers" |}.

Definition unexpected_openssl (names : list string) : Finding :=
  {| title := "imports OpenSSL symbols not on the allowlist: " +:+ join " " names;
     why := "the allowlist is every non-deprecated OpenSSL export through 3.5, as name@OPENSSL_version; a symbol outside it is a deprecated or otherwise non-standard call into libcrypto/libssl that has not been reviewed for this FIPS build";
     location := "xtask/assets/fips/openssl-nondeprecated-symbols.txt holds the allowed symbols";
     fix_ := "prefer a non-deprecated replacement; if the call is appropriate for the FIPS build, add its name@OPENSSL_version to xtask/assets/fips/openssl-nondeprecated-symbols.txt" |}.

Definition uninspectable_imports (reason : string) : Finding :=
  {| title := "cannot inspect the binary's OpenSSL symbol imports (" +:+ reason +:+ ")";
     why := "the allowlist check reads the version and UTF-8 name of every OpenSSL import to match it; a versioned OpenSSL import it cannot read would otherwise slip past the allowlist and ship unchecked";
     location := "the ELF dynamic symbol table and GNU version sections (.gnu.version / .gnu.version_r)";
     fix_ := "assess a 64-bit ELF built by 'make release-fips', dynamically linked against the system OpenSSL so its imports carry versions; the .gnu.version/.gnu.version_r sections are load-bearing for the dynamic linker and survive 'strip', so do not disable stripping to keep them" |}.

Definition missing_manifest : Finding :=
  {| title := "no cargo-auditable manifest (.dep-v0 section)";
     why := "without it Red Hat's scanner cannot list the crates compiled in and reports the binary as inconclusive, which fails a gated scan";
     location := "the build command";
     fix_ := "build with 'make release-fips' (cargo auditable with the SBOM precursor) and keep .dep-v0 through stripping" |}.

Definition unreadable_manifest (reason binary : string) : Finding :=
  {| title := "cargo-auditable manifest is unreadable (" +:+ reason +:+ ")";
     why := "the scanner treats a present but unparseable manifest as corrupt evidence and fails the binary";
     location := "the build that produced " +:+ binary;
     fix_ := "rebuild with cargo auditable; do not post-process the .dep-v0 section" |}.

Definition show_Z (n : Z) : string := of_bytes (display_unsigned n).

Definition metadata_derived (format : Z) (binary : string) : Finding :=
  {| title := "manifest was derived from 'cargo metadata', not cargo's SBOM precursor (format " +:+ show_Z format +:+
              ", expected " +:+ show_Z PRECURSOR_FORMAT +:+ ")";
     why := "a metadata-derived manifest can list crates the build never compiled (weak features, workspace-wide feature unification), so it is not evidence of what is in the binary";
     location := "the build command that produced " +:+ binary;
     fix_ := "build with 'make release-fips' or the Containerfile (RUSTC_BOOTSTRAP=1 CARGO_BUILD_SBOM=true cargo auditable -Zsbom ...)" |}.

Definition denied_manifest (listed : list string) : Finding :=
  {| title := "manifest lists denied crates: " +:+ join " " listed;
     why := "this is exactly what the scanner's manifest check reads; it fails on the name alone, whether or not the crate's code was linked";
     location := "the dependency graph section when it has findings; otherwise the manifest was derived from 'cargo metadata', which lists crates the build never compiled (weak features, workspace-wide feature unification)";
     fix_ := "fix the graph findings first; then build with cargo's SBOM precursor the way 'make release-fips' and the Containerfile do (RUSTC_BOOTSTRAP=1 CARGO_BUILD_SBOM=true cargo auditable -Zsbom ...)" |}.

(** ** The checks *)

Definition is_system_libcrypto (line : string) : bool :=
  contains "libcrypto.so.3 => /lib64/" line || contains "libcrypto.so.3 => /usr/lib64/" line.

Definition openssl_lines (ldd : string) : string :=
  join "; " (map trim (List.filter (fun l => contains "libssl" l || contains "libcrypto" l) (str_lines ldd))).

(** [name@version]. *)
Definition versioned_name (name : string) (version : bytes) : string := name +:+ "@" +:+ from_utf8_lossy version.

(** What the report needs of a manifest. *)
Record Manifest := { format : Z; denied : list string }.

Section Binary.
Context `{Toolbox} `{ObjectCrate}.

(** The compiled-in list [assets::OPENSSL_NONDEPRECATED_SYMBOLS]. *)
Variable OPENSSL_NONDEPRECATED_SYMBOLS : string.

Definition read_binary (binary : string) : result Finding bytes :=
  let! regular := map_err (unreadable_binary binary) (metadata_is_file binary) in
  if negb regular then Err (unreadable_binary binary "not a regular file")
  else map_err (unreadable_binary binary) (read_file binary).

Definition parse_elf (data : bytes) : result string ObjFile :=
  let! file := object_parse data in
  match object_format file with
  | Elf => Ok file
  | OtherFormat name => Err (name +:+ " format")
  end.

Definition linkage (binary : string) (r : Report) : Report :=
  match run_command (command "ldd" [binary]) with
  | Err _ => warn "ldd not found; dynamic linkage not checked" r
  | Ok o =>
      let ldd := stdout_text o in
      if existsb is_system_libcrypto (str_lines ldd) then
        info (openssl_lines ldd) (ok "dynamically links the system libcrypto.so.3" r)
      else if contains "libcrypto" ldd then
        fail {| title := "links a libcrypto that is not the system one";
                why := "only the OS-provided libcrypto.so.3 (the openssl-libs RPM) contains the validated module";
                location := openssl_lines ldd;
                fix_ := "build against the system OpenSSL (OPENSSL_NO_VENDOR=1) and ship on UBI" |} r
      else fail missing_libcrypto r
  end.

(** [*hits.entry(prefix).or_insert(0) += 1]. *)
Definition count_prefix (hits : gmap string nat) (s : Symbol) : gmap string nat :=
  if sym_undefined s then hits
  else match sym_name s with
       | None => hits
       | Some name =>
           match find_first (fun p => str_starts_with p name) BACKEND_PREFIXES with
           | None => hits
           | Some prefix => <[prefix := S (default 0%nat (hits !! prefix))]> hits
           end
       end.

Definition backend_symbols (file : ObjFile) : gmap string nat :=
  fold_left count_prefix (symbols file ++ dynamic_symbols file) ∅.

Definition defined_symbols (file : ObjFile) (r : Report) : Report :=
  match sort_entries (map_to_list (backend_symbols file)) with
  | (_ :: _) as hits =>
      fail {| title := "defines symbols of a bundled crypto backend: " +:+
                       join " " (map (fun e => show e.2 +:+ " " +:+ e.1) hits);
              why := "ring_core_/GFp_ mean ring, aws_lc_/AWSLC_ mean aws-lc-sys, BORINGSSL_ means boring-sys, OPENSSL_ means a statically linked or vendored OpenSSL; the scanner fails on any of them";
              location := "the crate that owns the prefix; see the dependency graph section for who pulls it";
              fix_ := "remove the crate from the release graph (see above)" |} r
  | [] =>
      if bool_decide (section_by_name file ".symtab" = None) then
        ok "no bundled-crypto symbols exported"
          (info "no bundled-crypto symbols in .dynsym; .symtab is stripped, so this is weaker evidence (the scanner sees the same)" r)
      else ok "no bundled-crypto symbols defined" r
  end.

Definition is_openssl_import (name : bytes) : bool :=
  existsb (fun p => starts_with (as_bytes p) name) OPENSSL_PREFIXES.

Definition imports (file : ObjFile) (r : Report) : Report :=
  let count := match object_imports file with
               | None => 0%nat
               | Some names => length (List.filter is_openssl_import names)
               end in
  if Nat.ltb 0 count then
    ok ("imports " +:+ show count +:+
        " OpenSSL functions from libcrypto/libssl (undefined symbols resolved by the system library)") r
  else
    fail {| title := "imports no OpenSSL functions";
            why := "a binary that never calls into libcrypto performs all of its cryptography elsewhere";
            location := "same as the libcrypto linkage finding";
            fix_ := "same as the libcrypto linkage finding" |} r.

Definition import_name (raw : result string bytes) : result string string :=
  let! raw := map_err (fun err => "an OpenSSL import has an unreadable name: " +:+ err) raw in
  match from_utf8 raw with
  | Some name => Ok name
  | None => Err ("an OpenSSL import has a non-UTF-8 name (" +:+ display_utf8_error raw +:+ "): " +:+
                 debug_str (from_utf8_lossy raw))
  end.

(** The loop of [openssl_symbols] from the symbol at [index]. *)
Fixpoint collect_imports (versions : Versions) (index : nat) (syms : list ElfSymbol) (imported : gset string)
  : result string (gset string) :=
  match syms with
  | [] => Ok imported
  | s :: syms =>
      if negb (es_undefined s) then collect_imports versions (S index) syms imported
      else
        let! version := version_of versions index in
        match version with
        | Some node =>
            if starts_with OPENSSL_VERSION_PREFIX node then
              let! name := import_name (es_name s) in
              collect_imports versions (S index) syms ({[versioned_name name node]} ∪ imported)
            else collect_imports versions (S index) syms imported
        | None => collect_imports versions (S index) syms imported
        end
  end.

Definition openssl_symbols (data : bytes) : result string (gset string) :=
  let! elf := elf_parse data in
  let! versions := elf_versions elf in
  let! versions := ok_or "no GNU symbol version table (.gnu.version)" versions in
  collect_imports versions 0 (elf_dynamic_symbols elf) ∅.

Definition allowlist : gset string :=
  list_to_set (List.filter (fun l => negb (bool_decide (l = "")) && negb (str_starts_with "#" l))
                 (map trim (str_lines OPENSSL_NONDEPRECATED_SYMBOLS))).

Definition unexpected_imports (imported allowed : gset string) : list string :=
  List.filter (fun n => negb (bool_decide (n ∈ allowed))) (sort_strings (elements imported)).

Definition openssl_imports (data : bytes) (r : Report) : Report :=
  match openssl_symbols data with
  | Err reason => fail (uninspectable_imports reason) r
  | Ok imported =>
      match unexpected_imports imported allowlist with
      | [] => ok ("every one of the " +:+ show (size imported) +:+
                  " OpenSSL symbols imported is on the reviewed allowlist") r
      | unexpected => fail (unexpected_openssl unexpected) r
      end
  end.

(** ** The manifest *)

Definition is_runtime (package : JValue) : bool :=
  match (k ← json_get package "kind"; json_as_str k) with
  | None => true
  | Some kind => bool_decide (kind = "runtime")
  end.

Definition package_name (package : JValue) : option string := n ← json_get package "name"; json_as_str n.

Definition denied_names (packages : list JValue) : list string :=
  List.filter (one_of DENIED) (omap package_name (List.filter is_runtime packages)).

Definition parse_manifest (compressed : bytes) : result string Manifest :=
  let! json := map_err (fun err => "zlib: " +:+ err) (zlib_decode compressed) in
  let! manifest := map_err (fun err => "json: " +:+ err) (json_from_slice json) in
  let! packages := ok_or "no packages array" (p ← json_get manifest "packages"; json_as_array p) in
  Ok {| format := default 0 (f ← json_get manifest "format"; json_as_u64 f);
        denied := dedup (sort_strings (denied_names packages)) |}.

Definition manifest (file : ObjFile) (binary : string) (r : Report) : Report :=
  match section_by_name file ".dep-v0" with
  | None => fail missing_manifest r
  | Some data =>
      let r := ok "cargo-auditable manifest (.dep-v0) present" r in
      match result_bind data parse_manifest with
      | Err reason => fail (unreadable_manifest reason binary) r
      | Ok m =>
          let r := if negb (format m =? PRECURSOR_FORMAT) then fail (metadata_derived (format m) binary) r else r in
          match denied m with
          | [] => ok "manifest lists no denied crate" r
          | listed => fail (denied_manifest listed) r
          end
      end
  end.

Definition producer (file : ObjFile) (r : Report) : Report :=
  let has_rustc := match section_by_name file ".comment" with
                   | Some (Ok data) => contains_bytes (as_bytes "rustc") data
                   | _ => false
                   end in
  if has_rustc then ok "rustc producer string present (scanner classifies it as a Rust binary)" r
  else fail {| title := "no rustc producer string in .comment";
               why := "a stripped binary with neither .comment nor .dep-v0 is scanned as a plain executable and bundled crypto passes silently";
               location := "the strip step";
               fix_ := "keep the .comment section (do not strip it) and build with cargo auditable" |} r.

(** [assess]: the report after the checks, or the finding that stops them before they start. *)
Definition assess (binary : option string) (r : Report) : result Finding Report :=
  let! binary := ok_or no_binary binary in
  let! data := read_binary binary in
  let! file := map_err (not_elf binary) (parse_elf data) in
  let r := info ("path: " +:+ binary) r in
  Ok (producer file (manifest file binary (openssl_imports data (imports file (defined_symbols file (linkage binary r)))))).

Definition binary_section (binary : option string) (r : Report) : Report :=
  let r := section "Binary" r in
  match assess binary r with Ok r => r | Err finding => fail finding r end.
End Binary.
