(* ===== verification/FipsReport.v ===== *)
(** * The report as a gate ([xtask/src/fips/report.rs], [run])

    What [cargo xtask fips report] prints, writes and exits with, and the policy its exit status
    implements, each requirement stated here without reference to the report. The policy is what
    the report checks, which is less than a clean build where the source is lenient, and it says
    where: [ldd_cannot_run], [answered_absent], [is_comment] and files that cannot be read. *)

From S2P Require Import Prelude RustStd Text Report Environment Graph Guards Binary.

Record Args := {
  binary : option string;
  deps_only : bool;
  args_features : option string;
  args_offline : bool;
  out : option string;
}.

(** What a run leaves behind: the text printed, the file written and what was printed to stderr
    about it, and the exit status. *)
Record Outcome := {
  printed : string;
  written : option (string * option string);
  exit_status : Z;
}.

Section FipsReport.
Context `{Toolbox} `{ObjectCrate} `{Workspace}.
Variables FIPS_PROVIDER_CNF OPENSSL_NONDEPRECATED_SYMBOLS workspace_root : string.

(** The sections of the report, before the summary. *)
Definition assembled (args : Args) : Report :=
  let context := {| root := workspace_root; features := args_features args; offline := args_offline args |} in
  let r := graph_section context (environment_section FIPS_PROVIDER_CNF context Report_default) in
  if negb (deps_only args)
  then guards_section (binary_section OPENSSL_NONDEPRECATED_SYMBOLS (binary args) r)
  else r.

(** A report that cannot be written is a complaint on stderr, not a failure. *)
Definition write_report (path text : string) : option string :=
  match write_file path text with
  | Ok _ => None
  | Err err => Some ("fips report: cannot write " +:+ path +:+ ": " +:+ err)
  end.

Definition run_report (args : Args) : Outcome :=
  let report := summary (assembled args) in
  let text := text report in
  {| printed := text;
     written := path ← out args; Some (path, write_report path text);
     exit_status := if failed report then 1 else 0 |}.

(** ** The policy

    What the binary must be, in terms of what the tools say about it. *)

(** [ldd] resolves libcrypto to the system's. *)
Definition links_system_libcrypto (path : string) : Prop :=
  exists o line, run_command (command "ldd" [path]) = Ok o /\
    line ∈ str_lines (stdout_text o) /\ is_system_libcrypto line = true.

(** There is no [ldd] to ask: the linkage goes unchecked, and the report can still pass. *)
Definition ldd_cannot_run (path : string) : Prop := exists e, run_command (command "ldd" [path]) = Err e.

Definition no_backend (file : ObjFile) : Prop :=
  forall s name p, s ∈ symbols file ++ dynamic_symbols file -> sym_undefined s = false -> sym_name s = Some name ->
    p ∈ BACKEND_PREFIXES -> str_starts_with p name = false.

Definition calls_openssl (file : ObjFile) : Prop :=
  exists names name p, object_imports file = Some names /\ name ∈ names /\ p ∈ OPENSSL_PREFIXES /\
    starts_with (as_bytes p) name = true.

(** Every import bound to an OpenSSL version node has a readable name on the reviewed list. *)
Definition version_reviewed (version : result string (option bytes)) (raw_name : result string bytes) : Prop :=
  exists v, version = Ok v /\
    forall node, v = Some node -> starts_with OPENSSL_VERSION_PREFIX node = true ->
    exists raw name, raw_name = Ok raw /\ from_utf8 raw = Some name /\
      versioned_name name node ∈ allowlist OPENSSL_NONDEPRECATED_SYMBOLS.

Definition import_reviewed (versions : Versions) (index : nat) (s : ElfSymbol) : Prop :=
  es_undefined s = true -> version_reviewed (version_of versions index) (es_name s).

Definition imports_reviewed (data : bytes) : Prop :=
  exists elf versions, elf_parse data = Ok elf /\ elf_versions elf = Ok (Some versions) /\
    forall index s, elf_dynamic_symbols elf !! index = Some s -> import_reviewed versions index s.

Definition payload_clean (data : bytes) : Prop :=
  exists json value packages,
    zlib_decode data = Ok json /\ json_from_slice json = Ok value /\
    (p ← json_get value "packages"; json_as_array p) = Some packages /\
    (f ← json_get value "format"; json_as_u64 f) = Some 8 /\
    forall package name, package ∈ packages -> is_runtime package = true -> package_name package = Some name ->
      name ∉ DENIED.

Definition manifest_clean (file : ObjFile) : Prop :=
  exists data, section_by_name file ".dep-v0" = Some (Ok data) /\ payload_clean data.

Definition made_by_rustc (file : ObjFile) : Prop :=
  exists data, section_by_name file ".comment" = Some (Ok data) /\ contains_bytes (as_bytes "rustc") data = true.

Definition binary_clean (given : option string) : Prop :=
  exists path data file,
    given = Some path /\ metadata_is_file path = Ok true /\ read_file path = Ok data /\
    object_parse data = Ok file /\ object_format file = Elf /\
    (links_system_libcrypto path \/ ldd_cannot_run path) /\ no_backend file /\ calls_openssl file /\
    imports_reviewed data /\ manifest_clean file /\ made_by_rustc file.

(** ** Each check is its requirement *)

Lemma linkage_spec path : adds_unless (links_system_libcrypto path \/ ldd_cannot_run path) (linkage path).
Proof.
  intros r. unfold linkage, links_system_libcrypto, ldd_cannot_run.
  destruct (run_command _) as [o|e]; [|rewrite findings_warn; naive_solver].
  assert (Hs : (exists o0 line, @Ok string _ o = Ok o0 /\ line ∈ str_lines (stdout_text o0) /\ is_system_libcrypto line = true) <->
               existsb is_system_libcrypto (str_lines (stdout_text o)) = true).
  { rewrite existsb_exists. setoid_rewrite <- list_elem_of_In. naive_solver. }
  rewrite Hs. destruct (existsb is_system_libcrypto _).
  - rewrite findings_info, findings_ok. naive_solver.
  - transitivity False; [destruct (contains _ _); apply adds_fail || (split; [by intros []%adds_fail|done])|]. naive_solver.
Qed.

(** A symbol that carries no backend prefix. *)
Definition harmless (s : Symbol) : Prop :=
  forall name p, sym_undefined s = false -> sym_name s = Some name -> p ∈ BACKEND_PREFIXES ->
    str_starts_with p name = false.

Lemma count_prefix_empty hits s : count_prefix hits s = ∅ <-> hits = ∅ /\ harmless s.
Proof.
  unfold count_prefix, harmless. destruct (sym_undefined s); [naive_solver|].
  destruct (sym_name s) as [name|]; [|naive_solver].
  destruct (find_first _ _) as [p|] eqn:Hf.
  - split; [by intros ?%insert_non_empty|]. intros [_ Hp]. apply find_first_some in Hf as [Hin Hs].
    by rewrite (Hp name p eq_refl eq_refl Hin) in Hs.
  - split; [intros ->; split; [done|]|tauto]. intros ? p _ [= <-] Hin. exact (proj1 (find_first_none _ _) Hf p Hin).
Qed.

Lemma count_prefixes_empty syms : forall hits,
  fold_left count_prefix syms hits = ∅ <-> hits = ∅ /\ Forall harmless syms.
Proof.
  induction syms as [|s syms IH]; intros hits; cbn [fold_left]; [rewrite Forall_nil; tauto|].
  rewrite IH, count_prefix_empty, Forall_cons. tauto.
Qed.

Lemma no_backend_spec file : no_backend file <-> sort_entries (map_to_list (backend_symbols file)) = [].
Proof.
  rewrite sort_entries_nil, map_to_list_empty_iff. unfold backend_symbols. rewrite count_prefixes_empty, Forall_forall.
  unfold no_backend, harmless. naive_solver.
Qed.

Lemma defined_symbols_spec file : adds_unless (no_backend file) (defined_symbols file).
Proof.
  intros r. rewrite no_backend_spec. unfold defined_symbols. destruct (sort_entries _) as [|h hs].
  - destruct (bool_decide _); rewrite ?findings_ok, ?findings_info; tauto.
  - rewrite (adds_fail _ r). naive_solver.
Qed.

Lemma imports_spec file : adds_unless (calls_openssl file) (imports file).
Proof.
  intros r. unfold imports, calls_openssl. destruct (object_imports file) as [names|]; cbn [Nat.ltb Nat.leb];
    [|rewrite (adds_fail _ r); naive_solver].
  destruct (List.filter is_openssl_import names) as [|n ns] eqn:Hf; cbn [length Nat.ltb Nat.leb].
  - rewrite (adds_fail _ r). split; [tauto|]. intros [_ (? & name & p & [= <-] & Hin & Hp & Hs)].
    assert (Hn : name ∈ List.filter is_openssl_import names).
    { apply list_elem_of_In, filter_In. rewrite <- list_elem_of_In. split; [done|].
      apply existsb_exists. exists p. by rewrite <- list_elem_of_In. }
    rewrite Hf in Hn. by apply elem_of_nil in Hn.
  - rewrite findings_ok. split; [|tauto]. intros Hr. split; [done|].
    assert (Hn : In n (List.filter is_openssl_import names)) by (rewrite Hf; left; done).
    apply filter_In in Hn as [Hin (p & Hp & Hs)%existsb_exists]. rewrite <- list_elem_of_In in Hin. rewrite <- list_elem_of_In in Hp. by exists names, n, p.
Qed.

Lemma import_name_ok raw name : import_name raw = Ok name <-> exists b, raw = Ok b /\ from_utf8 b = Some name.
Proof.
  unfold import_name. destruct raw as [b|e]; cbn; [|naive_solver]. destruct (from_utf8 b) eqn:Hb; naive_solver.
Qed.

Lemma and_insert (P Q R : Prop) : R -> (P /\ Q <-> P /\ R /\ Q).
Proof. tauto. Qed.

(** What the loop over the symbols collects is on the list exactly when every import is reviewed. *)
Lemma collect_imports_spec versions syms : forall index imported,
  (exists all, collect_imports versions index syms imported = Ok all /\
               all ⊆ allowlist OPENSSL_NONDEPRECATED_SYMBOLS) <->
  imported ⊆ allowlist OPENSSL_NONDEPRECATED_SYMBOLS /\
  forall i s, syms !! i = Some s -> import_reviewed versions (index + i) s.
Proof.
  induction syms as [|s syms IH]; intros index imported; cbn [collect_imports]; [naive_solver|].
  assert (Hcons : (forall i s', (s :: syms) !! i = Some s' -> import_reviewed versions (index + i) s') <->
                  import_reviewed versions index s /\
                  forall i s', syms !! i = Some s' -> import_reviewed versions (S index + i) s').
  { split.
    - intros Hi. split; [specialize (Hi 0%nat s eq_refl); by rewrite Nat.add_0_r in Hi|].
      intros i s' Hs. specialize (Hi (S i) s' Hs). by rewrite Nat.add_succ_r in Hi.
    - intros [Hs Hi] [|i] s' Hl; cbn in Hl; [injection Hl as <-; by rewrite Nat.add_0_r|].
      rewrite Nat.add_succ_r. by apply Hi. }
  rewrite Hcons. clear Hcons. unfold import_reviewed at 1.
  destruct (es_undefined s); cbn [negb]; [|rewrite IH; by apply and_insert].
  destruct (version_of versions index) as [[node|]|e]; cbn [result_bind].
  - destruct (starts_with OPENSSL_VERSION_PREFIX node) eqn:Hn.
    + pose proof (import_name_ok (es_name s)) as Hname. destruct (import_name (es_name s)) as [name|e]; cbn [result_bind].
      * rewrite IH, union_subseteq, singleton_subseteq_l. destruct (proj1 (Hname name) eq_refl) as (b & Hb & Hu).
        assert (Hr : (true = true -> version_reviewed (Ok (Some node)) (es_name s)) <->
                     versioned_name name node ∈ allowlist OPENSSL_NONDEPRECATED_SYMBOLS).
        { rewrite Hb. split; [|intros Hin _; exists (Some node); split; [done|intros ? [= <-] _; by exists b, name]]. intros Hx. destruct (Hx eq_refl) as (v & [= <-] & Hv).
          destruct (Hv node eq_refl Hn) as (raw & name' & [= <-] & Hu' & Hin). congruence. }
        rewrite Hr. tauto.
      * split; [by intros (? & ? & _)|]. intros (_ & Hr & _). destruct (Hr eq_refl) as (v & [= <-] & Hv).
        destruct (Hv node eq_refl Hn) as (raw & name & Hraw & Hu & _).
        discriminate (proj2 (Hname name) (ex_intro _ raw (conj Hraw Hu))).
    + rewrite IH. apply and_insert. intros _. exists (Some node). split; [done|]. intros ? [= <-]. congruence.
  - rewrite IH. apply and_insert. intros _. by exists None.
  - split; [by intros (? & ? & _)|]. intros (_ & Hr & _). by destruct (Hr eq_refl) as (? & ? & _).
Qed.

Lemma unexpected_nil imported allowed : unexpected_imports imported allowed = [] <-> imported ⊆ allowed.
Proof.
  unfold unexpected_imports. split.
  - intros Hu n Hn. destruct (decide (n ∈ allowed)) as [|Hna]; [done|]. exfalso.
    assert (Hin : n ∈ List.filter (fun n => negb (bool_decide (n ∈ allowed))) (sort_strings (elements imported))).
    { apply list_elem_of_In, filter_In. rewrite <- list_elem_of_In, elem_of_sort_strings, elem_of_elements.
      by rewrite bool_decide_false. }
    rewrite Hu in Hin. by apply elem_of_nil in Hin.
  - intros Hs. apply elem_of_nil_inv. intros n Hin. apply list_elem_of_In, filter_In in Hin as [Hin Hb].
    rewrite <- list_elem_of_In, elem_of_sort_strings, elem_of_elements in Hin. by rewrite bool_decide_true in Hb by auto.
Qed.

Lemma openssl_imports_spec data : adds_unless (imports_reviewed data) (openssl_imports OPENSSL_NONDEPRECATED_SYMBOLS data).
Proof.
  intros r. unfold openssl_imports, openssl_symbols, imports_reviewed.
  destruct (elf_parse data) as [elf|e]; cbn [result_bind]; [|apply adds_fail_not; by intros (? & ? & ? & _)].
  destruct (elf_versions elf) as [[versions|]|e] eqn:Hv; cbn [result_bind ok_or];
    [|apply adds_fail_not; intros (? & ? & [= <-] & Hv' & _); congruence..].
  pose proof (collect_imports_spec versions (elf_dynamic_symbols elf) 0 ∅) as Hc.
  assert (Hr : (exists elf0 versions0, @Ok string _ elf = Ok elf0 /\ elf_versions elf0 = Ok (Some versions0) /\
                  forall i s, elf_dynamic_symbols elf0 !! i = Some s -> import_reviewed versions0 i s) <->
               exists all, collect_imports versions 0 (elf_dynamic_symbols elf) ∅ = Ok all /\
                 all ⊆ allowlist OPENSSL_NONDEPRECATED_SYMBOLS).
  { rewrite Hc. split; [intros (? & ? & [= <-] & Hv' & Hi)|intros [_ Hi]; by exists elf, versions].
    rewrite Hv in Hv'. injection Hv' as <-. split; [apply empty_subseteq|done]. }
  rewrite Hr. clear Hr Hc. destruct (collect_imports _ _ _ _) as [all|e]; [|apply adds_fail_not; by intros (? & ? & _)].
  pose proof (unexpected_nil all (allowlist OPENSSL_NONDEPRECATED_SYMBOLS)) as Hu.
  destruct (unexpected_imports _ _); [apply adds_quiet_if; [done|exists all]; tauto|].
  apply adds_fail_not. intros (all' & [= <-] & Ha). by apply Hu in Ha.
Qed.

Lemma denied_names_nil packages :
  dedup (sort_strings (denied_names packages)) = [] <->
  forall package name, package ∈ packages -> is_runtime package = true -> package_name package = Some name ->
    name ∉ DENIED.
Proof.
  rewrite dedup_nil, sort_strings_nil. unfold denied_names. split.
  - intros Hd package name Hin Hr Hn Hdn.
    assert (Hx : name ∈ List.filter (one_of DENIED) (omap package_name (List.filter is_runtime packages))).
    { apply list_elem_of_In, filter_In. split; [|by apply bool_decide_eq_true]. apply list_elem_of_In, list_elem_of_omap.
      exists package. split; [|done]. apply list_elem_of_In, filter_In. by rewrite <- list_elem_of_In. }
    rewrite Hd in Hx. by apply elem_of_nil in Hx.
  - intros Hp. apply elem_of_nil_inv. intros name Hin. apply list_elem_of_In, filter_In in Hin as [Hin Hd].
    apply list_elem_of_In, list_elem_of_omap in Hin as (package & Hpk & Hn). apply list_elem_of_In, filter_In in Hpk as [Hpk Hr].
    apply (Hp package name); [by apply list_elem_of_In|done..|]. by apply bool_decide_eq_true in Hd.
Qed.

Lemma payload_spec data :
  payload_clean data <->
  exists m, parse_manifest data = Ok m /\ format m = PRECURSOR_FORMAT /\ denied m = [].
Proof.
  unfold parse_manifest, payload_clean. destruct (zlib_decode data) as [json|e]; cbn [map_err result_bind]; [|naive_solver].
  destruct (json_from_slice json) as [value|e] eqn:Hj; cbn [map_err result_bind];
    [|split; [intros (? & ? & ? & [= <-] & Hj' & _); congruence|naive_solver]].
  destruct (p ← json_get value "packages"; json_as_array p) as [packages|] eqn:Hp; cbn [ok_or result_bind];
    [|split; [intros (? & ? & ? & [= <-] & Hj' & Hp' & _); congruence|naive_solver]].
  split.
  - intros (? & ? & ? & [= <-] & Hj' & Hp' & Hf & Hd). rewrite Hj in Hj'. injection Hj' as <-.
    rewrite Hp in Hp'. injection Hp' as <-. eexists. split; [done|]. cbn [format denied]. rewrite Hf.
    split; [done|by apply denied_names_nil].
  - intros (m & [= <-] & Hf & Hd). cbn [format denied] in *. exists json, value, packages. split_and!; try done.
    + by destruct (f ← json_get value "format"; json_as_u64 f) as [f|]; [f_equal|].
    + by apply denied_names_nil.
Qed.

Lemma manifest_spec file path : adds_unless (manifest_clean file) (manifest file path).
Proof.
  intros r. unfold manifest, manifest_clean.
  destruct (section_by_name file ".dep-v0") as [[data|e]|]; cbn [result_bind]; [|rewrite fail_not_clean; naive_solver..].
  transitivity (findings r = [] /\ payload_clean data); [|naive_solver]. rewrite payload_spec.
  destruct (parse_manifest data) as [m|e]; [|rewrite fail_not_clean; naive_solver].
  destruct (Z.eqb_spec (format m) PRECURSOR_FORMAT) as [Hf|Hf]; cbn [negb].
  - destruct (denied m) eqn:Hd; [rewrite findings_ok, findings_ok|rewrite fail_not_clean].
    + split; [intros ?; split; [done|by exists m]|tauto].
    + split; [done|]. intros (_ & ? & [= <-] & _ & ?). congruence.
  - transitivity False; [|naive_solver]. destruct (denied m); [rewrite findings_ok|]; apply fail_not_clean.
Qed.

Lemma producer_spec file : adds_unless (made_by_rustc file) (producer file).
Proof.
  intros r. unfold producer, made_by_rustc.
  destruct (section_by_name file ".comment") as [[data|e]|]; [|apply adds_fail_not; by intros (? & ? & _)..].
  destruct (contains_bytes _ data) eqn:Hc; [apply adds_quiet_if; [done|by exists data]|].
  apply adds_fail_not. intros (? & [= <-] & Hc'). congruence.
Qed.

Lemma parse_elf_ok data file : parse_elf data = Ok file <-> object_parse data = Ok file /\ object_format file = Elf.
Proof.
  unfold parse_elf. destruct (object_parse data) as [f|e]; cbn [result_bind]; [|by split; [|intros []]].
  destruct (object_format f) eqn:Hf; (split; [intros [= <-]|intros [[= <-] Hf']]; congruence || done).
Qed.

Lemma read_binary_ok path data :
  read_binary path = Ok data <-> metadata_is_file path = Ok true /\ read_file path = Ok data.
Proof.
  unfold read_binary. destruct (metadata_is_file path) as [[]|e]; cbn [map_err result_bind negb]; [|by split; [|intros []]..].
  destruct (read_file path); cbn [map_err]; (split; [intros [= <-]|intros [_ [= <-]]]; done).
Qed.

(** The checks on a binary that could be opened, in one go. *)
Lemma checks_spec path data file :
  adds_unless ((links_system_libcrypto path \/ ldd_cannot_run path) /\ no_backend file /\ calls_openssl file /\ imports_reviewed data /\
               manifest_clean file /\ made_by_rustc file)
    (fun r => producer file (manifest file path (openssl_imports OPENSSL_NONDEPRECATED_SYMBOLS data
                (imports file (defined_symbols file (linkage path r)))))).
Proof.
  intros r. rewrite (producer_spec file _), (manifest_spec file path _), (openssl_imports_spec data _),
    (imports_spec file _), (defined_symbols_spec file _), (linkage_spec path r). tauto.
Qed.

Lemma binary_section_spec given :
  adds_unless (binary_clean given) (binary_section OPENSSL_NONDEPRECATED_SYMBOLS given).
Proof.
  intros r. unfold binary_section, assess, binary_clean. rewrite <- (findings_section "Binary" r).
  generalize (section "Binary" r). clear r. intros r.
  destruct given as [path|]; cbn [ok_or result_bind]; [|apply adds_fail_not; by intros (? & ? & ? & ? & _)].
  pose proof (read_binary_ok path) as Hr. destruct (read_binary path) as [data|f]; cbn [result_bind]; cycle 1.
  { apply adds_fail_not. intros (? & data & ? & [= <-] & ? & ? & _). by discriminate (proj2 (Hr data)). }
  destruct (proj1 (Hr data) eq_refl) as [Hreg Hread]. clear Hr.
  pose proof (parse_elf_ok data) as Hp. destruct (parse_elf data) as [file|e]; cbn [map_err result_bind]; cycle 1.
  { apply adds_fail_not. intros (? & ? & file & [= <-] & _ & Hread' & Hop & Hof & _). rewrite Hread in Hread'.
    injection Hread' as <-. by discriminate (proj2 (Hp file)). }
  destruct (proj1 (Hp file) eq_refl) as [Hop Hof]. rewrite (checks_spec path data file _), findings_info.
  split; intros [Hn Hc]; (split; [done|]); [by exists path, data, file|].
  destruct Hc as (? & ? & ? & [= <-] & _ & Hread' & Hop' & _ & Hall). rewrite Hread in Hread'. injection Hread' as <-.
  rewrite Hop in Hop'. by injection Hop' as <-.
Qed.

(** ** The gate *)

(** C34. The report is a refinement of its policy: it exits with 0 exactly when cargo's answer about
    every denied crate reads as an absence and, unless only the graph was asked for, the binary
    meets every requirement on symbols, imports, manifest and producer, links the system libcrypto
    or could not be asked because [ldd] does not run, and no guard matches a line, not starting
    with two slashes or a number sign, of a file that could be read; otherwise it exits with 1. A
    pass is a clean build only up to these leniencies. *)
Theorem report_passes_exactly_when_clean args :
  let context := {| root := workspace_root; features := args_features args; offline := args_offline args |} in
  let compliant := graph_clean context /\
    (deps_only args = false -> binary_clean (binary args) /\ Forall guard_clean GUARDS) in
  (exit_status (run_report args) = 0 <-> compliant) /\ (exit_status (run_report args) = 1 <-> ~ compliant).
Proof.
  intros context compliant. assert (Hf : findings (assembled args) = [] <-> compliant).
  { unfold assembled. fold context. set (r0 := graph_section context _).
    assert (Hr0 : findings r0 = [] <-> graph_clean context).
    { subst r0. rewrite (graph_section_spec context _), (environment_quiet FIPS_PROVIDER_CNF context _). cbn. tauto. }
    clearbody r0. unfold compliant. rewrite <- Hr0. destruct (deps_only args); cbn [negb]; [naive_solver|].
    rewrite (guards_section_spec _), (binary_section_spec _ _). naive_solver. }
  rewrite <- Hf, <- (findings_summary (assembled args)), <- failed_spec. cbn [exit_status run_report].
  unfold run_report. cbn [exit_status]. destruct (failed _); naive_solver.
Qed.
End FipsReport.
