(* ===== verification/HostCheck.v ===== *)
(** * The host attestation ([xtask/src/fips/host_check.rs], [xtask/src/fips/certified.rs])

    The list of validated module builds and the checks of [cargo xtask fips host-check]: each adds
    lines, facts, warnings and failures to an attestation. The requirements are then stated without
    reference to the attestation, and its exit status is 0 exactly when they hold. *)

From S2P Require Import Prelude RustStd Text Report.

(** ** The validated builds *)

Inductive Status := Active | InProcess_ | Historical_.

Record Module_ := {
  version : string;
  name : string;
  status : Status;
  cmvp_number : option string;
  sunset : option string;
  packages : list string;
  note : option string;
  source : string;
}.

(** [modules]: what [certified-modules.json] lists. *)
Definition modules : list Module_ :=
  [{| version := "3.0.7-395c1a240fbfffd8";
      name := "Red Hat Enterprise Linux 9 - OpenSSL FIPS Provider";
      status := Active;
      cmvp_number := Some "4857";
      sunset := Some "2029-10-28";
      packages := ["openssl-3.0.7-18.el9_2"; "openssl-fips-provider-3.0.7-2.el9"; "openssl-fips-provider-3.0.7-6.el9"];
      note := Some "Validated 2024-10-29, updated 2025-11-28. Tested on RHEL 9 on Intel Xeon Silver 4216, IBM POWER10 and IBM z16 (physical). Shipped by UBI 9.2 through 9.6.";
      source := "https://csrc.nist.gov/projects/cryptographic-module-validation-program/certificate/4857" |};
   {| version := "3.0.7-cda111b5812c30d4";
      name := "Red Hat Enterprise Linux 9 - OpenSSL FIPS Provider";
      status := InProcess_;
      cmvp_number := None;
      sunset := None;
      packages := ["openssl-fips-provider-3.0.7-11.el9_8"];
      note := Some "Rebuilt 2026-06-03 to fix CVE-2026-31790 (RHSA-2026:28832); the build UBI 9.8 ships. On 2026-09-24 NIST's Modules In Process list showed 'Red Hat Enterprise Linux 9 - OpenSSL FIPS Provider' at Comment Resolution (2026-09-03); the list does not say which build that entry covers, so this version is not on any certificate yet.";
      source := "https://csrc.nist.gov/projects/cryptographic-module-validation-program/modules-in-process/modules-in-process-list" |}].

Inductive Verdict := Validated (m : Module_) | InProcess (m : Module_) | Historical (m : Module_) | Unknown.

Definition verdict (v : string) : Verdict :=
  match find_first (fun m => bool_decide (version m = v)) modules with
  | None => Unknown
  | Some m => match status m with Active => Validated m | InProcess_ => InProcess m | Historical_ => Historical m end
  end.

Definition validated (v : Verdict) : bool := match v with Validated _ => true | _ => false end.

Definition describe (verdict : Verdict) (v : string) : string :=
  match verdict with
  | Validated m =>
      "module " +:+ v +:+ " is " +:+ name m +:+ " on CMVP certificate #" +:+ default "?" (cmvp_number m) +:+
      " (sunset " +:+ default "?" (sunset m) +:+ "), packages " +:+ join ", " (packages m) +:+ "; " +:+ source m
  | InProcess m =>
      "module " +:+ v +:+ " (" +:+ name m +:+ ") is in validation, not on a certificate yet; packages " +:+
      join ", " (packages m) +:+ ". " +:+ default "" (note m) +:+ " See " +:+ source m
  | Historical m =>
      "module " +:+ v +:+ " (" +:+ name m +:+ ") is on historical certificate #" +:+ default "?" (cmvp_number m) +:+
      "; " +:+ source m
  | Unknown =>
      "module " +:+ v +:+ " is not in xtask/assets/fips/certified-modules.json: look it up on the CMVP validated modules and Modules In Process lists and add it"
  end.

(** ** The attestation *)

Definition MODULE_PATH : string := "/usr/lib64/ossl-modules/fips.so".
Definition VERSION_PATTERN : string := "[0-9]+\.[0-9]+\.[0-9]+-[0-9a-f]{16}".

(** The JSON values recorded as facts. *)
Inductive Fact := FText (s : string) | FBool (b : bool) | FList (l : list string).

Record Attestation := {
  att_lines : list string;
  failures : nat;
  att_warnings : nat;
  facts : gmap string Fact;
}.

Definition Attestation_default : Attestation :=
  {| att_lines := []; failures := 0; att_warnings := 0; facts := ∅ |}.

Definition att_push (ls : list string) (a : Attestation) : Attestation :=
  {| att_lines := att_lines a ++ ls; failures := failures a; att_warnings := att_warnings a; facts := facts a |}.
Definition att_section (t : string) (a : Attestation) : Attestation := att_push [""; "== " +:+ t] a.
Definition att_ok (m : string) (a : Attestation) : Attestation := att_push ["  ok    " +:+ m] a.
Definition att_info (m : string) (a : Attestation) : Attestation := att_push ["  info  " +:+ m] a.
Definition att_warn (m : string) (a : Attestation) : Attestation :=
  {| att_lines := att_lines a ++ ["  WARN  " +:+ m]; failures := failures a; att_warnings := S (att_warnings a);
     facts := facts a |}.
Definition att_fail (m : string) (a : Attestation) : Attestation :=
  {| att_lines := att_lines a ++ ["  FAIL  " +:+ m]; failures := S (failures a); att_warnings := att_warnings a;
     facts := facts a |}.
Definition fact (key : string) (value : Fact) (a : Attestation) : Attestation :=
  {| att_lines := att_lines a; failures := failures a; att_warnings := att_warnings a;
     facts := <[key := value]> (facts a) |}.

Definition att_summary (a : Attestation) : Attestation :=
  let a := att_section "Summary" a in
  let line :=
    if bool_decide (failures a = 0%nat) then
      "RESULT: FIPS host attested, " +:+ show (att_warnings a) +:+
      " warning(s). Keep this attestation with the run it belongs to."
    else
      "RESULT: " +:+ show (failures a) +:+ " requirement(s) not met, " +:+ show (att_warnings a) +:+
      " warning(s). This is not a FIPS host as the module's Security Policy requires it (docs/fips.md)." in
  att_push ["  " +:+ line] a.

Definition att_text (a : Attestation) : string :=
  join (String newline EmptyString) (att_lines a) +:+ String newline EmptyString.

(** ** Reading the answers *)

(** The policy of a crypto-policies file: its first line that is not blank or a comment. *)
Definition crypto_policy_from (contents : string) : string :=
  default "(none)" (find_first (fun l => negb (bool_decide (l = "")) && negb (str_starts_with "#" l))
                      (map trim (str_lines contents))).

(** The detail lines of a provider, up to one that is no detail. *)
Fixpoint provider_details (provider : string) (ver stat : option string) (ls : list string)
  : option string * option string :=
  match ls with
  | [] => (ver, stat)
  | l :: ls =>
      let detail := trim l in
      if negb (contains ":" detail) || bool_decide (detail = provider) then (ver, stat)
      else match str_strip_prefix "version:" detail with
           | Some value => provider_details provider (Some (trim value)) stat ls
           | None =>
               match str_strip_prefix "status:" detail with
               | Some value => provider_details provider ver (Some (trim value)) ls
               | None => provider_details provider ver stat ls
               end
           end
  end.

Fixpoint provider_lines (provider : string) (ls : list string) : option (string * string) :=
  match ls with
  | [] => None
  | l :: ls =>
      if negb (bool_decide (trim l = provider)) then provider_lines provider ls
      else match provider_details provider None None ls with
           | (Some v, Some s) => Some (v, s)
           | _ => None
           end
  end.

Definition provider_entry (listing provider : string) : option (string * string) :=
  provider_lines provider (str_lines listing).

(** ** The checks *)

Class HostTools `{Toolbox} := {
  (** The first match of [VERSION_PATTERN] in a file ([regex::bytes]). *)
  find_version : bytes -> option bytes;
  (** [serde_json::to_string_pretty] of the document, with the time it is made at. *)
  render_json : nat -> nat -> gmap string Fact -> string;
}.

Section HostCheck.
Context `{HostTools}.

Record Args := {
  image : option string;
  require_certified : bool;
  att_out : option string;
  att_json : option string;
}.

Definition first_line (program : string) (args : list string) : option string :=
  match run_command (command program args) with
  | Ok o => if out_success o then Some (trim (default "" (head (str_lines (stdout_text o))))) else None
  | Err _ => None
  end.

Definition os_release : option string :=
  match read_text "/etc/os-release" with
  | Ok contents => trim_matches (ascii_of_nat 34) <$> first_some (str_strip_prefix "PRETTY_NAME=") (str_lines contents)
  | Err _ => None
  end.

(** An optional fact that is also shown. *)
Definition noted (label key : string) (o : option string) (a : Attestation) : Attestation :=
  match o with Some v => fact key (FText v) (att_info (label +:+ v) a) | None => a end.

Definition kernel_fips : string :=
  match read_text "/proc/sys/crypto/fips_enabled" with Ok flag => trim flag | Err _ => "unreadable" end.

Definition kernel_flag (a : Attestation) : Attestation :=
  let a := fact "host.kernel_fips" (FText kernel_fips) a in
  if bool_decide (kernel_fips = "1")
  then att_ok "kernel is in FIPS mode (/proc/sys/crypto/fips_enabled is 1)" a
  else att_fail ("kernel is not in FIPS mode (/proc/sys/crypto/fips_enabled is " +:+ kernel_fips +:+
                 "); enable FIPS mode at installation or with fips-mode-setup --enable and reboot") a.

(** [read_to_string(path).unwrap_or_default()]. *)
Definition text_or_empty (path : string) : string := match read_text path with Ok t => t | Err _ => "" end.

Definition boot_parameter (a : Attestation) : Attestation :=
  let set := existsb (fun t => bool_decide (t = "fips=1")) (split_whitespace (text_or_empty "/proc/cmdline")) in
  let a := fact "host.cmdline_fips" (FBool set) a in
  if set then att_ok "kernel command line carries fips=1" a
  else att_fail "kernel command line does not carry fips=1" a.

Definition crypto_policy (a : Attestation) : Attestation :=
  let policy := crypto_policy_from (text_or_empty "/etc/crypto-policies/config") in
  let a := fact "host.crypto_policy" (FText policy) a in
  if str_starts_with "FIPS" policy then att_ok ("crypto policy is " +:+ policy) a
  else att_fail ("crypto policy is " +:+ debug_str policy +:+ ", not FIPS (/etc/crypto-policies/config)") a.

Definition fips_mode_setup (a : Attestation) : Attestation :=
  match run_command (command "fips-mode-setup" ["--check"]) with
  | Err _ => att_info "fips-mode-setup is not installed; the kernel flag above stands in for its check" a
  | Ok o =>
      let text := trim (stdout_text o) in
      let a := fact "host.fips_mode_setup" (FText text) a in
      if contains "FIPS mode is enabled" text then att_ok ("fips-mode-setup --check: " +:+ text) a
      else att_fail ("fips-mode-setup --check: " +:+ text) a
  end.

Definition module_verdict (subject v : string) (certified : bool) (a : Attestation) : Attestation :=
  let line := describe (verdict v) v in
  let a := fact (subject +:+ ".module.certified") (FBool (validated (verdict v))) a in
  if validated (verdict v) then att_ok line a
  else if certified then att_fail line a else att_warn line a.

Definition host_module (certified : bool) (a : Attestation) : Attestation :=
  match run_command (command "openssl" ["list"; "-providers"]) with
  | Err _ => att_fail "openssl is not installed on the host, so the loaded module cannot be read" a
  | Ok o =>
      if negb (out_success o) then
        att_fail ("openssl list -providers failed (" +:+ out_status o +:+ "): " +:+ trim (from_utf8_lossy (out_stderr o))) a
      else
        match provider_entry (stdout_text o) "fips" with
        | Some (v, stat) =>
            if bool_decide (stat = "active") then
              module_verdict "host" v certified
                (fact "host.module.version" (FText v)
                   (att_ok ("host OpenSSL loads the fips provider, version " +:+ v +:+ ", active") a))
            else att_fail ("host OpenSSL lists the fips provider (version " +:+ v +:+ ") but its status is " +:+
                           debug_str stat +:+ ", not active") a
        | None => att_fail "host OpenSSL does not list the fips provider; is openssl-fips-provider installed?" a
        end
  end.

Definition host_checks (certified : bool) (a : Attestation) : Attestation :=
  let a := att_section "Host" a in
  let a := noted "os: " "host.os" os_release a in
  let a := noted "kernel: " "host.kernel" (first_line "uname" ["-r"]) a in
  host_module certified (fips_mode_setup (crypto_policy (boot_parameter (kernel_flag a)))).

(** ** The image *)

Definition image_id (img : string) : result string string :=
  let! o := map_err (fun err => "podman is required to inspect the image (" +:+ err +:+ ")")
              (run_command (command "podman" ["image"; "inspect"; "--format"; "{{.Id}}"; img])) in
  if negb (out_success o)
  then Err ("podman does not have '" +:+ img +:+ "': " +:+ trim (from_utf8_lossy (out_stderr o)))
  else Ok (trim (stdout_text o)).

Definition run_in_image (img : string) (cmd : list string) : result string bytes :=
  match cmd with
  | [] => Err "empty command"
  | program :: rest =>
      let! o := map_err (fun err => "podman run: " +:+ err)
                  (run_command (command "podman" (["run"; "--rm"; "--entrypoint"; program; img] ++ rest))) in
      if negb (out_success o)
      then Err ("`" +:+ join " " cmd +:+ "` failed inside " +:+ img +:+ ": " +:+ trim (from_utf8_lossy (out_stderr o)))
      else Ok (out_stdout o)
  end.

Definition image_crypto_policy (img : string) (a : Attestation) : Attestation :=
  match run_in_image img ["cat"; "/etc/crypto-policies/config"] with
  | Ok contents =>
      let policy := crypto_policy_from (from_utf8_lossy contents) in
      let a := fact "image.crypto_policy" (FText policy) a in
      if str_starts_with "FIPS" policy
      then att_ok ("crypto policy inside the container is " +:+ policy +:+ " (podman propagated it)") a
      else att_fail ("crypto policy inside the container is " +:+ debug_str policy +:+
                     ", not FIPS: podman only sets it when the host is in FIPS mode") a
  | Err reason => att_fail reason a
  end.

Definition image_packages (img : string) (a : Attestation) : Attestation :=
  match run_in_image img ["rpm"; "-q"; "openssl-libs"; "openssl-fips-provider-so"] with
  | Ok listing =>
      let pkgs := str_lines (from_utf8_lossy listing) in
      fact "image.packages" (FList pkgs) (fold_left (fun a p => att_info ("rpm: " +:+ p) a) pkgs a)
  | Err reason => att_warn reason a
  end.

Definition module_version (module : bytes) : option string := from_utf8_lossy <$> find_version module.

Definition image_module (img : string) (certified : bool) (a : Attestation) : Attestation :=
  match run_in_image img ["cat"; MODULE_PATH] with
  | Err reason => att_fail ("cannot read " +:+ MODULE_PATH +:+ " inside the image: " +:+ reason) a
  | Ok module =>
      match module_version module with
      | Some v =>
          module_verdict "image" v certified
            (fact "image.module.version" (FText v)
               (att_ok (MODULE_PATH +:+ " inside the image reports version " +:+ v) a))
      | None => att_fail (MODULE_PATH +:+ " inside the image carries no version string matching " +:+ VERSION_PATTERN) a
      end
  end.

Definition image_checks (img : string) (certified : bool) (a : Attestation) : Attestation :=
  let a := att_section ("Image " +:+ img) a in
  match image_id img with
  | Err reason => att_fail reason a
  | Ok id =>
      let a := fact "image.id" (FText id) (fact "image.reference" (FText img) (att_info ("image id: " +:+ id) a)) in
      let a := match run_in_image img ["cat"; "/etc/redhat-release"] with
               | Ok release => att_info ("release: " +:+ trim (from_utf8_lossy release)) a
               | Err reason => att_warn reason a
               end in
      image_module img certified (image_packages img (image_crypto_policy img a))
  end.

(** ** The run *)

(** [attestation.json()]: failures, warnings and facts. *)
Definition att_render (a : Attestation) : string := render_json (failures a) (att_warnings a) (facts a).

Definition attestation (args : Args) : Attestation :=
  let a := host_checks (require_certified args) Attestation_default in
  match image args with Some img => image_checks img (require_certified args) a | None => a end.

(** The exit status of [run]: a file that cannot be written ends it at once. *)
Definition run_host_check (args : Args) : Z :=
  let a := att_summary (attestation args) in
  let writes o text := match o with Some path => is_ok (write_file path text) | None => true end in
  if negb (writes (att_out args) (att_text a)) then 1
  else if negb (writes (att_json args) (att_render a)) then 1
  else if Nat.ltb 0 (failures a) then 1 else 0.

(** ** The requirements *)

(** A build on an active certificate. *)
Definition certified_build (v : string) : Prop := exists m, m ∈ modules /\ version m = v /\ status m = Active.

Definition host_ready (certified : bool) : Prop :=
  (exists flag, read_text "/proc/sys/crypto/fips_enabled" = Ok flag /\ trim flag = "1") /\
  (exists cmdline, read_text "/proc/cmdline" = Ok cmdline /\ "fips=1"%string ∈ split_whitespace cmdline) /\
  (exists config, read_text "/etc/crypto-policies/config" = Ok config /\
     str_starts_with "FIPS" (crypto_policy_from config) = true) /\
  (forall o, run_command (command "fips-mode-setup" ["--check"]) = Ok o ->
     contains "FIPS mode is enabled" (trim (stdout_text o)) = true) /\
  (exists o v, run_command (command "openssl" ["list"; "-providers"]) = Ok o /\ out_success o = true /\
     provider_entry (stdout_text o) "fips" = Some (v, "active"%string) /\ (certified = true -> certified_build v)).

Definition image_ready (certified : bool) (img : string) : Prop :=
  (exists id, image_id img = Ok id) /\
  (exists config, run_in_image img ["cat"; "/etc/crypto-policies/config"] = Ok config /\
     str_starts_with "FIPS" (crypto_policy_from (from_utf8_lossy config)) = true) /\
  (exists module v, run_in_image img ["cat"; MODULE_PATH] = Ok module /\ module_version module = Some v /\
     (certified = true -> certified_build v)).

Lemma failures_info m a : failures (att_info m a) = failures a.
Proof. done. Qed.
Lemma failures_warn m a : failures (att_warn m a) = failures a.
Proof. done. Qed.
Lemma failures_fact k v a : failures (fact k v a) = failures a.
Proof. done. Qed.
Lemma failures_section t a : failures (att_section t a) = failures a.
Proof. done. Qed.

(** A check: it keeps a clean attestation clean exactly when its requirement holds. *)
Definition requires (P : Prop) (f : Attestation -> Attestation) : Prop :=
  forall a, failures (f a) = 0%nat <-> failures a = 0%nat /\ P.

Lemma requires_fail (P : Prop) m : ~ P -> requires P (att_fail m).
Proof. intros HP a. cbn. split; [done|tauto]. Qed.

Lemma requires_fail_fact (P : Prop) k v m : ~ P -> requires P (fun a => att_fail m (fact k v a)).
Proof. intros HP a. cbn. split; [done|tauto]. Qed.

Lemma requires_quiet (P : Prop) f : P -> (forall a, failures (f a) = failures a) -> requires P f.
Proof. intros HP Hf a. rewrite Hf. tauto. Qed.

Lemma validated_spec v : validated (verdict v) = true <-> certified_build v.
Proof.
  unfold verdict, certified_build. split.
  - destruct (find_first _ _) as [m|] eqn:Hf; [|done]. apply find_first_some in Hf as [Hin Hv%bool_decide_eq_true].
    destruct (status m) eqn:Hs; [|done..]. by exists m.
  - intros (m & Hin & <- & Hs). unfold modules in Hin. rewrite !elem_of_cons, elem_of_nil in Hin.
    by destruct Hin as [->|[->|[]]].
Qed.

Lemma module_verdict_spec subject v certified :
  requires (certified = true -> certified_build v) (module_verdict subject v certified).
Proof.
  intros a. rewrite <- validated_spec. unfold module_verdict. destruct (validated (verdict v)), certified; cbn; naive_solver.
Qed.

Lemma kernel_flag_spec :
  requires (exists flag, read_text "/proc/sys/crypto/fips_enabled" = Ok flag /\ trim flag = "1") kernel_flag.
Proof.
  unfold kernel_flag, kernel_fips. destruct (read_text _) as [flag|e].
  - case_bool_decide; [apply requires_quiet; [by exists flag|done]|]. apply requires_fail_fact.
    intros (? & [= <-] & ?). congruence.
  - apply requires_fail_fact. by intros (? & ? & _).
Qed.

Lemma boot_parameter_spec :
  requires (exists cmdline, read_text "/proc/cmdline" = Ok cmdline /\ "fips=1"%string ∈ split_whitespace cmdline)
    boot_parameter.
Proof.
  assert (He : forall l, existsb (fun t => bool_decide (t = "fips=1"%string)) l = true <-> "fips=1"%string ∈ l).
  { intros l. rewrite existsb_exists, list_elem_of_In. setoid_rewrite bool_decide_eq_true. naive_solver. }
  unfold boot_parameter, text_or_empty. destruct (read_text _) as [cmdline|e].
  - specialize (He (split_whitespace cmdline)). destruct (existsb _ _).
    + apply requires_quiet; [exists cmdline; split; [done|by apply He]|done].
    + apply requires_fail_fact. intros (? & [= <-] & Hin). by apply He in Hin.
  - apply requires_fail_fact. by intros (? & ? & _).
Qed.

Lemma crypto_policy_spec :
  requires (exists config, read_text "/etc/crypto-policies/config" = Ok config /\
              str_starts_with "FIPS" (crypto_policy_from config) = true) crypto_policy.
Proof.
  unfold crypto_policy, text_or_empty. destruct (read_text _) as [config|e].
  - destruct (str_starts_with "FIPS" (crypto_policy_from config)) eqn:Hc; [apply requires_quiet; [by exists config|done]|].
    apply requires_fail_fact. intros (? & [= <-] & ?). congruence.
  - apply requires_fail_fact. by intros (? & ? & _).
Qed.

Lemma fips_mode_setup_spec :
  requires (forall o, run_command (command "fips-mode-setup" ["--check"]) = Ok o ->
              contains "FIPS mode is enabled" (trim (stdout_text o)) = true) fips_mode_setup.
Proof.
  unfold fips_mode_setup. destruct (run_command _) as [o|e]; [|by apply requires_quiet].
  destruct (contains _ _) eqn:Hc; [apply requires_quiet; [by intros ? [= <-]|done]|].
  apply requires_fail_fact. intros Ho. specialize (Ho o eq_refl). congruence.
Qed.

Lemma host_module_spec certified :
  requires (exists o v, run_command (command "openssl" ["list"; "-providers"]) = Ok o /\ out_success o = true /\
              provider_entry (stdout_text o) "fips" = Some (v, "active"%string) /\ (certified = true -> certified_build v))
    (host_module certified).
Proof.
  unfold host_module. destruct (run_command _) as [o|e]; [|apply requires_fail; by intros (? & ? & ? & _)].
  destruct (out_success o) eqn:Hs; cbn [negb]; [|apply requires_fail; intros (? & ? & [= <-] & ? & _); congruence].
  destruct (provider_entry _ _) as [[v stat]|] eqn:Hp;
    [|apply requires_fail; intros (? & ? & [= <-] & _ & ? & _); congruence].
  case_bool_decide as Ha; [subst stat|apply requires_fail; intros (? & ? & [= <-] & _ & ? & _); congruence].
  intros a. rewrite (module_verdict_spec _ _ _ _). cbn [failures fact att_ok att_push].
  split; intros [Hf Hx]; (split; [done|]); [by exists o, v|].
  destruct Hx as (? & v' & [= <-] & _ & Hp' & Hc). rewrite Hp in Hp'. by injection Hp' as <-.
Qed.

Lemma failures_noted l k o a : failures (noted l k o a) = failures a.
Proof. by destruct o. Qed.

Lemma host_checks_spec certified : requires (host_ready certified) (host_checks certified).
Proof.
  intros a. unfold host_checks. rewrite (host_module_spec certified _), (fips_mode_setup_spec _), (crypto_policy_spec _),
    (boot_parameter_spec _), (kernel_flag_spec _), !failures_noted. unfold host_ready. cbn [failures att_section att_push]. tauto.
Qed.

Lemma image_crypto_policy_spec img :
  requires (exists config, run_in_image img ["cat"; "/etc/crypto-policies/config"] = Ok config /\
              str_starts_with "FIPS" (crypto_policy_from (from_utf8_lossy config)) = true) (image_crypto_policy img).
Proof.
  unfold image_crypto_policy. destruct (run_in_image _ _) as [config|e]; [|apply requires_fail; by intros (? & ? & _)].
  destruct (str_starts_with _ _) eqn:Hc; [apply requires_quiet; [by exists config|done]|].
  apply requires_fail_fact. intros (? & [= <-] & ?). congruence.
Qed.

Lemma failures_packages img a : failures (image_packages img a) = failures a.
Proof.
  unfold image_packages. destruct (run_in_image _ _) as [l|e]; [|done]. cbn [failures fact].
  generalize (str_lines (from_utf8_lossy l)). intros ls. revert a. induction ls as [|p ls IH]; intros a; [done|].
  cbn [fold_left]. by rewrite IH.
Qed.

Lemma image_module_spec certified img :
  requires (exists module v, run_in_image img ["cat"; MODULE_PATH] = Ok module /\ module_version module = Some v /\
              (certified = true -> certified_build v)) (image_module img certified).
Proof.
  unfold image_module. destruct (run_in_image _ _) as [module|e]; [|apply requires_fail; by intros (? & ? & ? & _)].
  destruct (module_version module) as [v|] eqn:Hv; [|apply requires_fail; intros (? & ? & [= <-] & ? & _); congruence].
  intros a. rewrite (module_verdict_spec _ _ _ _). cbn [failures fact att_ok att_push].
  split; intros [Hf Hx]; (split; [done|]); [by exists module, v|].
  destruct Hx as (? & v' & [= <-] & Hv' & Hc). rewrite Hv in Hv'. by injection Hv' as <-.
Qed.

Lemma image_checks_spec certified img : requires (image_ready certified img) (image_checks img certified).
Proof.
  intros a. unfold image_checks, image_ready. destruct (image_id img) as [id|e]; cycle 1.
  { cbn. split; [done|]. by intros (_ & [? ?] & _). }
  rewrite (image_module_spec certified img _), failures_packages, (image_crypto_policy_spec img _).
  destruct (run_in_image img ["cat"; "/etc/redhat-release"]); rewrite ?failures_info, ?failures_warn, !failures_fact, failures_info, failures_section;
    (split; [intros [[? ?] ?]; split_and!; [done|by exists id|done..]|tauto]).
Qed.

(** Whether a file asked for could be written. *)
Lemma written_spec o text :
  match o with Some path => is_ok (write_file path text) | None => true end = true <->
  forall path, o = Some path -> write_file path text = Ok tt.
Proof.
  destruct o as [path|]; [|by split]. destruct (write_file path text) as [[]|e] eqn:Hw; cbn.
  - split; [by intros _ ? [= <-]|done].
  - split; [done|]. intros Hp. specialize (Hp path eq_refl). congruence.
Qed.

Lemma attestation_spec args :
  failures (attestation args) = 0%nat <->
  host_ready (require_certified args) /\
  forall img, image args = Some img -> image_ready (require_certified args) img.
Proof.
  unfold attestation. destruct (image args) as [img|].
  - rewrite (image_checks_spec _ img _), (host_checks_spec _ _). cbn [failures Attestation_default].
    split; [intros [[_ ?] ?]; split; [done|by intros ? [= <-]]|intros [? Hi]; auto].
  - rewrite (host_checks_spec _ _). cbn [failures Attestation_default]. split; [intros [_ ?]; by split|by intros [? _]].
Qed.

(** C35. The attestation is a refinement of its requirements: it exits with 0 exactly when the host
    is in FIPS mode by the kernel flag, the boot parameter, the crypto policy and the tool where
    there is one, its OpenSSL has the FIPS provider active, the image asked for (if any) exists and
    has the FIPS policy and a module, every module is on an active certificate when that is
    required, and the files asked for could be written; otherwise it exits with 1. *)
Theorem host_check_attests_exactly args :
  let a := att_summary (attestation args) in
  let attested :=
    host_ready (require_certified args) /\
    (forall img, image args = Some img -> image_ready (require_certified args) img) /\
    (forall path, att_out args = Some path -> write_file path (att_text a) = Ok tt) /\
    (forall path, att_json args = Some path -> write_file path (att_render a) = Ok tt) in
  (run_host_check args = 0 <-> attested) /\ (run_host_check args = 1 <-> ~ attested).
Proof.
  intros a attested.
  assert (Ha : attested <-> failures a = 0%nat /\ (forall path, att_out args = Some path -> write_file path (att_text a) = Ok tt) /\
                (forall path, att_json args = Some path -> write_file path (att_render a) = Ok tt)).
  { unfold attested. change (failures a) with (failures (attestation args)). rewrite attestation_spec. tauto. }
  rewrite Ha, <- !written_spec. unfold run_host_check. cbv zeta. fold a. clearbody a. clear attested Ha.
  destruct (match att_out args with Some _ => _ | None => _ end); cbn [negb]; [|naive_solver].
  destruct (match att_json args with Some _ => _ | None => _ end); cbn [negb]; [|naive_solver].
  destruct (failures a); cbn; naive_solver.
Qed.
End HostCheck.
