(* ===== verification/BodyOracle.v ===== *)
(** * The request-body digest filter of the qualification suite ([src/e2e/body_oracle.rs])

    A filter that hashes the request body chunk by chunk and publishes the digest on the response.
    OpenSSL's SHA-256 is a parameter. A call sees the context through [Oracle]: the filter's typed
    state slot, its metadata entry and the response headers; an error keeps what was done. *)

From S2P Require Import Prelude RustStd Effect Proto IpAddr Extern Concrete.

Definition HOP_INDEX_ENV : string := "BODY_ORACLE_HOP_INDEX".

(** ** SHA-256 *)

Class Digest := {
  Hasher : Type;
  hasher_new : result string Hasher;
  hasher_update : Hasher -> bytes -> result string Hasher;
  hasher_finish : Hasher -> result string bytes;
}.

(** What the digest is documented to do: bytes are absorbed in order, and finishing gives the
    32-byte digest of all of them. *)
Class DigestLaws `{Digest} := {
  sha256 : bytes -> bytes;
  absorbed : Hasher -> bytes;
  hasher_new_ok : exists h, hasher_new = Ok h /\ absorbed h = [];
  hasher_update_ok h b : exists h', hasher_update h b = Ok h' /\ absorbed h' = absorbed h ++ b;
  hasher_finish_ok h : hasher_finish h = Ok (sha256 (absorbed h));
  sha256_length b : length (sha256 b) = 32%nat;
}.

(** [{b:02x}] of every byte. *)
Definition hex_digit (d : Z) : ascii := if d <? 10 then byte_of (48 + d) else byte_of (87 + d).
Definition hex (b : bytes) : string :=
  of_bytes (flat_map (fun a => [hex_digit (byte_val a / 16); hex_digit (byte_val a mod 16)]) b).

(** [str::parse::<u32>], with the text of its error. *)
Definition u32_max : Z := 2 ^ 32 - 1.
Fixpoint parse_u32_go (acc : Z) (s : bytes) : result string Z :=
  match s with
  | [] => Ok acc
  | c :: s' =>
      if negb (is_ascii_digit c) then Err "invalid digit found in string"
      else match checked_mul u32_max acc 10 with
           | None => Err "number too large to fit in target type"
           | Some m => match checked_add u32_max m (digit_val c) with
                       | None => Err "number too large to fit in target type"
                       | Some n => parse_u32_go n s'
                       end
           end
  end.
Definition parse_u32 (s : string) : result string Z :=
  match as_bytes s with
  | [] => Err "cannot parse integer from empty string"
  | c :: rest =>
      if decide (c = plus_sign) then
        match rest with [] => Err "invalid digit found in string" | _ => parse_u32_go 0 rest end
      else parse_u32_go 0 (c :: rest)
  end.

Section BodyOracle.
Context `{HttpLib} `{Digest}.

(** The texts of the http crate's errors for a bad header name and value. *)
Variables name_error value_error : string.

(** ** Data *)

Definition META_DIGEST : string := "e2e_body_oracle.digest".

Record BodyOracleFilter := { hop_index : option Z }.

(** [Mutex<Option<Sha256>>]: poisoned once a holder panicked. *)
Record BodyOracleState := { hasher : option Hasher; poisoned : bool }.

(** What a call sees of the filter context. *)
Record Oracle := {
  filter_state : option BodyOracleState;
  metadata : gmap string string;
  response_headers : option HMap;
}.

Definition with_filter_state (st : BodyOracleState) (c : Oracle) : Oracle :=
  {| filter_state := Some st; metadata := metadata c; response_headers := response_headers c |}.
Definition set_metadata (k v : string) (c : Oracle) : Oracle :=
  {| filter_state := filter_state c; metadata := <[k := v]> (metadata c); response_headers := response_headers c |}.
Definition with_headers (m : HMap) (c : Oracle) : Oracle :=
  {| filter_state := filter_state c; metadata := metadata c; response_headers := Some m |}.

(** ** Configuration *)

(** [from_config], given whether the configuration parses ([parse_filter_config]), the variable's
    value and how a string is quoted in an error. *)
Definition from_config (parsed : result string unit) (raw : option string) (debug_str : string -> string)
  : result string BodyOracleFilter :=
  let! _ := parsed in
  match raw with
  | None => Ok {| hop_index := None |}
  | Some raw =>
      let! n := map_err (fun error => "e2e_body_oracle: " +:+ HOP_INDEX_ENV +:+ "=" +:+ debug_str raw +:+
                                      " is not a u32: " +:+ error) (parse_u32 raw) in
      Ok {| hop_index := Some n |}
  end.

Definition header_name (filter : BodyOracleFilter) : string :=
  match hop_index filter with
  | Some n => "x-qualification-request-sha256-hop-" +:+ of_bytes (display_unsigned n)
  | None => "x-qualification-request-sha256"
  end.

(** ** Hashing *)

Definition sha_new : result string Hasher :=
  map_err (fun e => "e2e_body_oracle: open SHA-256: " +:+ e) hasher_new.
Definition sha_update (h : Hasher) (b : bytes) : result string Hasher :=
  map_err (fun e => "e2e_body_oracle: update SHA-256: " +:+ e) (hasher_update h b).

(** [Sha256::finish]; [copy_from_slice] panics on any length but 32, shown here as an error. *)
Definition sha_finish (h : Hasher) : result string bytes :=
  let! d := map_err (fun e => "e2e_body_oracle: finish SHA-256: " +:+ e) (hasher_finish h) in
  if bool_decide (length d = 32%nat) then Ok d
  else Err "copy_from_slice: source slice length does not match destination slice length".

Definition lock_hasher (st : BodyOracleState) : result string (option Hasher) :=
  if poisoned st then Err "e2e_body_oracle: hasher mutex poisoned" else Ok (hasher st).

(** [hex_sha256], which panics where this is an error. *)
Definition hex_sha256 (b : bytes) : result string string :=
  let! h := sha_new in
  let! h := sha_update h b in
  let! d := sha_finish h in
  Ok (hex d).

Definition finalize_digest (c : Oracle) : result string unit * Oracle :=
  match filter_state c with
  | None => (Ok tt, set_metadata META_DIGEST "state-missing" c)
  | Some st =>
      match lock_hasher st with
      | Err e => (Err e, c)
      | Ok None => (Ok tt, c)
      | Ok (Some h) =>
          let c := with_filter_state {| hasher := None; poisoned := poisoned st |} c in
          match sha_finish h with
          | Err e => (Err e, c)
          | Ok d => (Ok tt, set_metadata META_DIGEST (hex d) c)
          end
      end
  end.

Definition ensure_digest (c : Oracle) : result string unit * Oracle :=
  match metadata c !! META_DIGEST with
  | Some _ => (Ok tt, c)
  | None =>
      match filter_state c with
      | Some st =>
          match lock_hasher st with
          | Err e => (Err e, c)
          | Ok pending => if bool_decide (is_Some pending) then finalize_digest c else (Ok tt, c)
          end
      | None => (Ok tt, set_metadata META_DIGEST "state-missing" c)
      end
  end.

Definition publish_digest_header (filter : BodyOracleFilter) (c : Oracle) : result string unit * Oracle :=
  let '(ensured, c) := ensure_digest c in
  match ensured with
  | Err e => (Err e, c)
  | Ok _ =>
      match metadata c !! META_DIGEST with
      | None => (Ok tt, c)
      | Some digest =>
          match response_headers c with
          | None => (Ok tt, c)
          | Some headers =>
              match hname_parse (header_name filter) with
              | None => (Err ("e2e_body_oracle: invalid header name " +:+ header_name filter +:+ ": " +:+ name_error), c)
              | Some n =>
                  match hvalue_from_str digest with
                  | None => (Err ("e2e_body_oracle: invalid digest value: " +:+ value_error), c)
                  | Some v => (Ok tt, with_headers (hmap_insert headers n v) c)
                  end
              end
          end
      end
  end.

(** ** The filter's calls; every action is [FilterAction::Continue] *)

Definition on_request (c : Oracle) : result string unit * Oracle :=
  match sha_new with
  | Err e => (Err e, c)
  | Ok h => (Ok tt, with_filter_state {| hasher := Some h; poisoned := false |} c)
  end.

(** Absorb a chunk, when there is one and a hasher to absorb it. *)
Definition absorb (body : option bytes) (c : Oracle) : result string unit * Oracle :=
  match body, filter_state c with
  | Some chunk, Some st =>
      match lock_hasher st with
      | Err e => (Err e, c)
      | Ok None => (Ok tt, c)
      | Ok (Some h) =>
          match sha_update h chunk with
          | Err e => (Err e, c)
          | Ok h' => (Ok tt, with_filter_state {| hasher := Some h'; poisoned := poisoned st |} c)
          end
      end
  | _, _ => (Ok tt, c)
  end.

Definition on_request_body (body : option bytes) (end_of_stream : bool) (c : Oracle) : result string unit * Oracle :=
  let '(r, c) := absorb body c in
  match r with
  | Err e => (Err e, c)
  | Ok _ => if end_of_stream then finalize_digest c else (Ok tt, c)
  end.

Definition on_response (filter : BodyOracleFilter) (c : Oracle) : result string unit * Oracle :=
  publish_digest_header filter c.

(** The body calls of a request: each chunk, the last of which ends the stream. *)
Fixpoint body_calls (chunks : list (option bytes)) (c : Oracle) : result string unit * Oracle :=
  match chunks with
  | [] => (Ok tt, c)
  | b :: rest =>
      let '(r, c) := on_request_body b (bool_decide (rest = [])) c in
      match r with Err e => (Err e, c) | Ok _ => body_calls rest c end
  end.

(** ** The digest published *)

Context `{!HttpLaws} `{!DigestLaws}.

Definition body_of (chunks : list (option bytes)) : bytes := concat (map (default []) chunks).

Lemma sha_finish_ok h : sha_finish h = Ok (sha256 (absorbed h)).
Proof. unfold sha_finish. rewrite hasher_finish_ok. cbn. by rewrite bool_decide_true by apply sha256_length. Qed.

Lemma hex_sha256_ok b : hex_sha256 b = Ok (hex (sha256 b)).
Proof.
  unfold hex_sha256, sha_new, sha_update. destruct hasher_new_ok as (h & -> & Hh). cbn.
  destruct (hasher_update_ok h b) as (h' & -> & Hh'). cbn. by rewrite sha_finish_ok, Hh', Hh.
Qed.

(** A context whose hasher has absorbed [b] and is still open. *)
Definition hashing (b : bytes) (c : Oracle) : Prop :=
  exists h, filter_state c = Some {| hasher := Some h; poisoned := false |} /\ absorbed h = b.

Lemma absorb_ok b chunk c :
  hashing b c -> metadata c !! META_DIGEST = None ->
  exists c', absorb chunk c = (Ok tt, c') /\ hashing (b ++ default [] chunk) c' /\ metadata c' = metadata c /\
    response_headers c' = response_headers c.
Proof.
  intros (h & Hs & Hb) Hm. unfold absorb. destruct chunk as [chunk|]; cbn [default].
  - rewrite Hs. unfold lock_hasher, sha_update. cbn [poisoned hasher].
    destruct (hasher_update_ok h chunk) as (h' & -> & Hh'). cbn.
    eexists. split_and!; [done| |done..]. exists h'. by rewrite Hh', Hb.
  - exists c. split_and!; try done. exists h. by rewrite app_nil_r.
Qed.

Lemma finalize_ok b c :
  hashing b c ->
  exists c', finalize_digest c = (Ok tt, c') /\ metadata c' = <[META_DIGEST := hex (sha256 b)]> (metadata c) /\
    response_headers c' = response_headers c.
Proof.
  intros (h & Hs & <-). unfold finalize_digest. rewrite Hs. unfold lock_hasher. cbn [poisoned hasher].
  rewrite sha_finish_ok. by eexists.
Qed.

Lemma body_calls_ok chunks : forall b c,
  hashing b c -> metadata c !! META_DIGEST = None ->
  exists c', body_calls chunks c = (Ok tt, c') /\ response_headers c' = response_headers c /\
    (chunks = [] /\ c' = c \/ metadata c' !! META_DIGEST = Some (hex (sha256 (b ++ body_of chunks)))).
Proof.
  induction chunks as [|chunk rest IH]; intros b c Hh Hm; cbn [body_calls]; [exists c; auto|].
  unfold on_request_body. destruct (absorb_ok b chunk c Hh Hm) as (c1 & -> & Hh1 & Hm1 & Hr1).
  rewrite <- Hm1 in Hm. unfold body_of. cbn [map concat]. rewrite app_assoc.
  destruct rest as [|chunk' rest]; cbn [bool_decide].
  - rewrite bool_decide_true by done. destruct (finalize_ok _ _ Hh1) as (c2 & -> & Hm2 & Hr2).
    exists c2. rewrite Hr2, Hr1. split_and!; [done..|right]. by rewrite Hm2, lookup_insert_eq, app_nil_r.
  - rewrite bool_decide_false by done. destruct (IH _ c1 Hh1 Hm) as (c2 & Hc2 & Hr2 & [[[=] _]|Hd]).
    exists c2. rewrite Hc2, Hr2, Hr1. split_and!; [done..|by right].
Qed.

(** However the request body is cut into chunks, or absent altogether, the response gets one
    header with the SHA-256 of the whole body, the digest [hex_sha256] computes at once, in place of
    any value the name had; the other headers keep theirs. *)
Theorem published_digest_is_of_whole_body (filter : BodyOracleFilter) (chunks : list (option bytes)) (headers : HMap)
    (n : HName) (v : HValue) (c : Oracle) :
  hname_parse (header_name filter) = Some n ->
  hvalue_from_str (hex (sha256 (body_of chunks))) = Some v ->
  metadata c !! META_DIGEST = None ->
  exists c1 c2 c3 digest,
    on_request c = (Ok tt, c1) /\ body_calls chunks c1 = (Ok tt, c2) /\
    on_response filter (with_headers headers c2) = (Ok tt, c3) /\
    hex_sha256 (body_of chunks) = Ok digest /\ hvalue_as_bytes v = as_bytes digest /\
    response_headers c3 = Some (hmap_insert headers n v) /\
    (forall n', n' <> n -> hmap_get_all (hmap_insert headers n v) n' = hmap_get_all headers n') /\
    hmap_get_all (hmap_insert headers n v) n = [v].
Proof.
  intros Hn Hv Hm. unfold on_request, sha_new. destruct hasher_new_ok as (h & -> & Hh). cbn [map_err].
  set (c1 := with_filter_state _ c).
  assert (Hh1 : hashing [] c1) by (exists h; done).
  assert (Hm1 : metadata c1 !! META_DIGEST = None) by exact Hm.
  destruct (body_calls_ok chunks [] c1 Hh1 Hm1) as (c2 & Hc2 & _ & Hd). cbn [app] in Hd.
  assert (He : exists c', ensure_digest (with_headers headers c2) = (Ok tt, c') /\
             metadata c' !! META_DIGEST = Some (hex (sha256 (body_of chunks))) /\ response_headers c' = Some headers).
  { unfold ensure_digest. cbn [metadata with_headers filter_state]. destruct Hd as [[-> ->]|Hd].
    - rewrite Hm1. cbn [filter_state c1 with_filter_state lock_hasher poisoned hasher]. rewrite bool_decide_true by done.
      destruct (finalize_ok [] (with_headers headers c1)) as (c' & Hc' & Hmc & Hrc); [by exists h|].
      exists c'. split_and!; [exact Hc'|by rewrite Hmc, lookup_insert_eq|done].
    - rewrite Hd. eexists. split_and!; [done|exact Hd|done]. }
  destruct He as (c' & He & Hdc & Hrc).
  eexists c1, c2, _, _. split_and!; [done|exact Hc2| |apply hex_sha256_ok|by apply hvalue_from_str_as_bytes| | |].
  - unfold on_response, publish_digest_header. rewrite He, Hdc, Hrc, Hn, Hv. reflexivity.
  - done.
  - intros n' Hn'. rewrite hmap_get_all_insert. by case_decide.
  - rewrite hmap_get_all_insert. by case_decide.
Qed.
End BodyOracle.

(** ** A digest to run it on: the last bytes absorbed, padded to 32 *)

Definition demo_digest (b : bytes) : bytes := take 32 (rev b ++ repeat "0"%char 32).

#[export] Instance DemoDigest : Digest := {|
  Hasher := bytes;
  hasher_new := Ok [];
  hasher_update := fun h b => Ok (h ++ b);
  hasher_finish := fun h => Ok (demo_digest h);
|}.

#[export] Instance DemoDigestLaws : DigestLaws.
Proof.
  refine {| sha256 := demo_digest; absorbed := fun h => h |}.
  - by eexists.
  - intros h b. by eexists.
  - done.
  - intros b. unfold demo_digest. rewrite length_take, length_app, repeat_length. lia.
Defined.

Definition demo_chunks : list (option bytes) := [Some (as_bytes "hel"); None; Some (as_bytes "lo")].
Definition demo_oracle : Oracle (H := ConcreteHttp) :=
  {| filter_state := None; metadata := ∅; response_headers := None |}.
Definition demo_hop : BodyOracleFilter := {| hop_index := Some 2 |}.
Definition demo_hop_name : string := "x-qualification-request-sha256-hop-2".

Lemma published_digest_is_of_whole_body_witness :
  exists c1 c2 c3 digest,
    on_request demo_oracle = (Ok tt, c1) /\ body_calls demo_chunks c1 = (Ok tt, c2) /\
    on_response "" "" demo_hop (with_headers (H := ConcreteHttp) [] c2) = (Ok tt, c3) /\
    hex_sha256 (as_bytes "hello") = Ok digest /\
    response_headers c3 = Some [(demo_hop_name, as_bytes (hex (demo_digest (as_bytes "hello"))))].
Proof.
  assert (Hv : hvalue_from_str (HttpLib := ConcreteHttp) (hex (sha256 (body_of demo_chunks))) =
               Some (as_bytes (hex (demo_digest (as_bytes "hello"))))) by (vm_compute; reflexivity).
  destruct (published_digest_is_of_whole_body (H := ConcreteHttp) "" "" demo_hop demo_chunks [] demo_hop_name
    _ demo_oracle eq_refl Hv eq_refl)
    as (c1 & c2 & c3 & digest & H1 & H2 & H3 & H4 & H5 & H6 & _ & _).
  exists c1, c2, c3, digest. split_and!; assumption.
Defined.
