(* ===== verification/RuntimeProbe.v ===== *)
(** * The runtime probe ([xtask/src/fips/runtime_probe.rs])

    The shipped image is started on this host, waited for, probed from outside and removed. The
    host (podman, files, the clock, OpenSSL's certificate builder) is a parameter with a state of
    its own; [Probe] threads it, and an error keeps what was done. *)

From S2P Require Import Prelude RustStd Text Report.

(** ** The host *)

Class Machine := {
  World : Type;
  (** [Command::output] and [Command::status] (success), with the error's text. *)
  run_output : Command -> World -> result string Output * World;
  run_status : Command -> World -> result string bool * World;
  (** [Instant::now] in milliseconds, and [thread::sleep]. *)
  now : World -> Z;
  sleep_ms : Z -> World -> World;
  print_line : string -> World -> World;
  process_id : World -> Z;
  (** Directories and files: a temporary directory and its removal, permission bits, writing. *)
  temp_dir : World -> result string string * World;
  remove_dir : string -> World -> World;
  set_permissions : string -> Z -> World -> result string unit * World;
  write_bytes : string -> bytes -> World -> result string unit * World;
  (** A port the system picks on loopback; a TCP connection to one; a TLS handshake over it that
      verifies nothing. *)
  bind_any_port : World -> result string Z * World;
  tcp_connect : Z -> World -> bool * World;
  tls_connect : string -> Z -> World -> bool * World;
  (** The cargo that built the tool, and the workspace root. *)
  CARGO : string;
  workspace_root : string;
}.

(** OpenSSL's keys and certificates: each call may fail with its error's text. A time is a number of
    days from now; a call that takes a value built by others ([BigNum], [Asn1Time], an extension)
    stands for building it and passing it. *)
Class CertTools := {
  EcGroup : Type;
  EcKey : Type;
  PKey : Type;
  Name : Type;
  Builder : Type;
  Cert : Type;
  p256_group : result string EcGroup;
  (** The n-th key generated. *)
  ec_generate : nat -> EcGroup -> result string EcKey;
  pkey_from_ec : EcKey -> result string PKey;
  name_cn : string -> result string Name;
  builder_new : result string Builder;
  set_version : Builder -> Z -> result string Builder;
  set_serial : Builder -> Z -> result string Builder;
  set_subject : Builder -> Name -> result string Builder;
  set_issuer : Builder -> Name -> result string Builder;
  subject_name : Cert -> Name;
  set_pubkey : Builder -> PKey -> result string Builder;
  set_not_before : Builder -> Z -> result string Builder;
  set_not_after : Builder -> Z -> result string Builder;
  (** Extensions: critical basic constraints of a CA, critical key usage for signing certificates
      and revocation lists, the names a certificate issued by another serves, server authentication. *)
  add_ca_constraints : Builder -> result string Builder;
  add_ca_usage : Builder -> result string Builder;
  add_san : Builder -> Cert -> list string -> list string -> result string Builder;
  add_server_usage : Builder -> result string Builder;
  sign_sha256 : Builder -> PKey -> result string Builder;
  build : Builder -> Cert;
  cert_pem : Cert -> result string bytes;
  key_pem_pkcs8 : PKey -> result string bytes;
}.

(** ** Constants *)

Definition CONTAINER_PORT : Z := 50051.
Definition PROBE_MOUNT : string := "/probe".
Definition STARTUP_DEADLINE : Z := 30 * 1000.
Definition CARGO_VOLUME : string := "praxis-extproc-fips-host-cargo".
Definition TARGET_VOLUME : string := "praxis-extproc-fips-host-target".
Definition TEST_FILTER : string := "listener_".
Definition FIPS_FEATURES : string := "responses,aws-sigv4".
Definition show_int (n : Z) : string := of_bytes (display_int n).
Definition nl : string := String newline EmptyString.
Definition quote : string := String (ascii_of_nat 34) EmptyString.

Record Args := {
  image : string;
  toolchain_image : string;
  host_cargo : bool;
  volume_suffix : string;
  log : option string;
}.

(** ** The startup line *)

(** [strip_ansi]: an escape ends after the next [m]. *)
Fixpoint strip_ansi_go (escaped : bool) (s : bytes) : bytes :=
  match s with
  | [] => []
  | c :: s =>
      if escaped then strip_ansi_go (negb (bool_decide (c = "m"%char))) s
      else if bool_decide (c = ascii_of_nat 27) then strip_ansi_go true s
      else c :: strip_ansi_go false s
  end.
Definition strip_ansi (text : string) : string := of_bytes (strip_ansi_go false (as_bytes text)).

Definition status_fields : list string :=
  ["provider=" +:+ quote +:+ "openssl" +:+ quote; "provider_fips=true"; "kernel_fips=Some(true)"; "fips_required=true"].

Definition status_line (log : string) : result string string :=
  let clean := strip_ansi log in
  match find_first (contains "installed rustls crypto provider") (str_lines clean) with
  | None => Err ("the startup status line is missing from the image's log:" +:+ nl +:+ clean)
  | Some line =>
      match find_first (fun field => negb (contains field line)) status_fields with
      | Some field => Err ("the startup status line lacks " +:+ field +:+ ": " +:+ line)
      | None => Ok (trim line)
      end
  end.

(** ** The monad *)

Section Monad.
Context `{Machine}.

Definition Probe (A : Type) : Type := World -> result string A * World.
Definition pure {A} (a : A) : Probe A := fun w => (Ok a, w).
Definition throw {A} (e : string) : Probe A := fun w => (Err e, w).
Definition and_then {A B} (p : Probe A) (k : A -> Probe B) : Probe B := fun w =>
  match p w with (Ok a, w) => k a w | (Err e, w) => (Err e, w) end.
(** [map_err]. *)
Definition context {A} (f : string -> string) (p : Probe A) : Probe A := fun w => let '(r, w) := p w in (map_err f r, w).
Definition of_result {A} (r : result string A) : Probe A := fun w => (r, w).
End Monad.

Notation "'let*' x := p 'in' k" := (and_then p (fun x => k))
  (at level 10, x pattern, p at level 200, k at level 200) : praxis_scope.

Section Probe.
Context `{Machine} `{CertTools}.

(** ** Certificates and configuration *)

Definition ossl (err : string) : string := "openssl: " +:+ err.

Definition set_mode (path : string) (mode : Z) : Probe unit :=
  context (fun err => "cannot set the mode of " +:+ path +:+ ": " +:+ err) (set_permissions path mode).

Definition p256_key (n : nat) : result string PKey :=
  let! group := map_err ossl p256_group in
  let! key := map_err ossl (ec_generate n group) in
  map_err ossl (pkey_from_ec key).

(** [add_extensions]. *)
Definition add_extensions (builder : Builder) (issuer : option Cert) : result string Builder :=
  match issuer with
  | None => let! b := map_err ossl (add_ca_constraints builder) in map_err ossl (add_ca_usage b)
  | Some ca =>
      let! b := map_err ossl (add_san builder ca ["localhost"%string] ["127.0.0.1"%string]) in
      map_err ossl (add_server_usage b)
  end.

Definition certificate (pid : Z) (subject_key signing_key : PKey) (common_name : string) (issuer : option Cert)
  : result string Cert :=
  let! name := map_err ossl (name_cn common_name) in
  let! b := map_err ossl builder_new in
  let! b := map_err ossl (set_version b 2) in
  let! b := map_err ossl (set_serial b (Z.max pid 1)) in
  let! b := map_err ossl (set_subject b name) in
  let! b := map_err ossl (set_issuer b (match issuer with Some ca => subject_name ca | None => name end)) in
  let! b := map_err ossl (set_pubkey b subject_key) in
  let! b := map_err ossl (set_not_before b 0) in
  let! b := map_err ossl (set_not_after b 1) in
  let! b := add_extensions b issuer in
  let! b := map_err ossl (sign_sha256 b signing_key) in
  Ok (build b).

(** [work.join(name)]. *)
Definition join_path (work name : string) : string := work +:+ "/" +:+ name.

Fixpoint write_all (work : string) (fs : list (string * bytes)) : Probe unit :=
  match fs with
  | [] => pure tt
  | (name, contents) :: fs =>
      let* _ := context (fun err => "cannot write " +:+ name +:+ ": " +:+ err) (write_bytes (join_path work name) contents) in
      let* _ := set_mode (join_path work name) 420 in
      write_all work fs
  end.

Definition generate_certificates (work : string) : Probe unit := fun w =>
  let made :=
    let! ca_key := p256_key 0 in
    let! ca := certificate (process_id w) ca_key ca_key "Praxis FIPS Probe CA" None in
    let! leaf_key := p256_key 1 in
    let! leaf := certificate (process_id w) leaf_key ca_key "localhost" (Some ca) in
    let! ca_pem := map_err ossl (cert_pem ca) in
    let! leaf_pem := map_err ossl (cert_pem leaf) in
    let! key_pem := map_err ossl (key_pem_pkcs8 leaf_key) in
    Ok [("ca.pem"%string, ca_pem); ("cert.pem"%string, leaf_pem); ("key.pem"%string, key_pem)] in
  (let* files := of_result made in write_all work files) w.

Definition config_text : string :=
  "server:" +:+ nl +:+ "  grpc_address: " +:+ quote +:+ "0.0.0.0:" +:+ show_int CONTAINER_PORT +:+ quote +:+ nl +:+
  "  health_address: " +:+ quote +:+ "127.0.0.1:50052" +:+ quote +:+ nl +:+
  "  metrics_address: " +:+ quote +:+ "127.0.0.1:9090" +:+ quote +:+ nl +:+
  "  tls:" +:+ nl +:+ "    mode: provided" +:+ nl +:+
  "    cert_path: " +:+ PROBE_MOUNT +:+ "/cert.pem" +:+ nl +:+
  "    key_path: " +:+ PROBE_MOUNT +:+ "/key.pem" +:+ nl +:+
  "filter_chains:" +:+ nl +:+ "  - name: main" +:+ nl +:+ "    filters:" +:+ nl +:+ "      - filter: request_id" +:+ nl.

Definition write_config (work : string) : Probe unit :=
  context (fun err => "cannot write the probe config: " +:+ err)
    (write_bytes (join_path work "config.yaml") (as_bytes config_text)).

Definition free_port : Probe Z := context (fun err => "cannot find a free port: " +:+ err) bind_any_port.

(** ** The container, by its podman name *)

Definition start (img work : string) (port : Z) : Probe string := fun w =>
  let name := "praxis-extproc-fips-probe-" +:+ show_int (process_id w) in
  (let* o := context (fun err => "podman is required to run the image (" +:+ err +:+ ")")
     (run_output (command "podman"
        (["run"; "--detach"; "--name"; name; "--security-opt"; "label=disable"] ++
         ["--publish"; "127.0.0.1:" +:+ show_int port +:+ ":" +:+ show_int CONTAINER_PORT] ++
         ["--volume"; work +:+ ":" +:+ PROBE_MOUNT +:+ ":ro"] ++
         ["--env"; "PRAXIS_REQUIRE_FIPS=1"; "--entrypoint"; "praxis-extproc"; img] ++
         ["-c"; PROBE_MOUNT +:+ "/config.yaml"]))) in
   if negb (out_success o)
   then throw ("podman could not start " +:+ img +:+ ": " +:+ trim (from_utf8_lossy (out_stderr o)))
   else pure name) w.

Definition logs (name : string) : Probe string :=
  let* o := context (fun err => "podman logs: " +:+ err) (run_output (command "podman" ["logs"; name])) in
  pure (from_utf8_lossy (out_stdout o) +:+ from_utf8_lossy (out_stderr o)).

Definition running (name : string) : Probe bool :=
  let* o := context (fun err => "podman inspect: " +:+ err)
     (run_output (command "podman" ["inspect"; "--format"; "{{.State.Running}}"; name])) in
  pure (bool_decide (trim (stdout_text o) = "true"%string)).

Definition refusal (name : string) : Probe (option string) :=
  let* log := logs name in
  pure (if contains "refusing to serve" log then Some log else None).

(** [Container::drop]. *)
Definition remove (name : string) (w : World) : World :=
  (run_status (command "podman" ["rm"; "--force"; "--time"; "5"; name]) w).2.

Definition handshake_completes (port : Z) : World -> bool * World := fun w =>
  let '(connected, w) := tcp_connect port w in
  if negb connected then (false, w) else tls_connect "localhost" port w.

Definition served_error (why name : string) : Probe unit := let* log := logs name in throw (why +:+ log).

(** One round of [wait_until_serving]: the outcome, or [None] to wait and try again. *)
Definition wait_round (name : string) (port deadline : Z) : Probe (option unit) :=
  let* up := running name in
  if negb up then
    let* _ := served_error ("the image exited instead of serving; under PRAXIS_REQUIRE_FIPS=1 that means the host is not in FIPS mode. Its log:" +:+ nl) name in
    pure (Some tt)
  else
    let* refused := refusal name in
    match refused with
    | Some log => throw ("the image refuses to serve; under PRAXIS_REQUIRE_FIPS=1 that means the host is not in FIPS mode. Its log:" +:+ nl +:+ log)
    | None => fun w =>
        let '(done, w) := handshake_completes port w in
        if done then (Ok (Some tt), w)
        else if deadline <=? now w then
          (let* _ := served_error ("the image did not serve on 127.0.0.1:" +:+ show_int port +:+ " within 30s. Its log:" +:+ nl) name in
           pure (Some tt)) w
        else (Ok None, sleep_ms 200 w)
    end.

(** The loop, with fuel; [None] when it runs out. *)
Fixpoint wait_loop (fuel : nat) (name : string) (port deadline : Z) (w : World) : option (result string unit * World) :=
  match fuel with
  | O => None
  | S f =>
      match wait_round name port deadline w with
      | (Err e, w) => Some (Err e, w)
      | (Ok (Some _), w) => Some (Ok tt, w)
      | (Ok None, w) => wait_loop f name port deadline w
      end
  end.

Definition wait_until_serving (fuel : nat) (name : string) (port : Z) (w : World) : option (result string unit * World) :=
  wait_loop fuel name port (now w + STARTUP_DEADLINE) w.

(** ** The probe tests *)

Definition host_cargo_test (addr work : string) : Command :=
  {| cmd_program := CARGO;
     cmd_args := ["test"; "--target-dir"; "target/fips"; "--no-default-features"] ++ ["--features"; FIPS_FEATURES] ++
                 ["-p"; "praxis-extproc"; "--test"; "fips"; "--"; TEST_FILTER];
     cmd_dir := Some workspace_root;
     cmd_env := [("PRAXIS_FIPS_HOST", "1"); ("PRAXIS_FIPS_PROBE_ADDR", addr);
                 ("PRAXIS_FIPS_PROBE_CA", join_path work "ca.pem")]%string;
     cmd_stdin := None |}.

Definition toolchain_cargo_test (args : Args) (addr work : string) : Command :=
  command "podman"
    (["run"; "--rm"; "--network"; "host"; "--userns=keep-id"] ++ ["--security-opt"; "label=disable"] ++
     ["--volume"; workspace_root +:+ ":/src"; "--workdir"; "/src"] ++
     ["--volume"; CARGO_VOLUME +:+ volume_suffix args +:+ ":/cargo:U"] ++
     ["--volume"; TARGET_VOLUME +:+ volume_suffix args +:+ ":/target"] ++
     ["--volume"; work +:+ ":" +:+ PROBE_MOUNT +:+ ":ro"] ++
     ["--env"; "PRAXIS_FIPS_HOST=1"; "--env"; "PRAXIS_REQUIRE_FIPS=1"] ++
     ["--env"; "PRAXIS_FIPS_PROBE_ADDR=" +:+ addr] ++
     ["--env"; "PRAXIS_FIPS_PROBE_CA=" +:+ PROBE_MOUNT +:+ "/ca.pem"] ++
     ["--env"; "CARGO_TERM_COLOR=always"; toolchain_image args] ++
     ["cargo"; "test"; "--target-dir"; "/target"; "--no-default-features"] ++
     ["--features"; FIPS_FEATURES] ++
     ["-p"; "praxis-extproc"; "--test"; "fips"; "--ignore-rust-version"] ++ ["--"; TEST_FILTER]).

Definition run_probe_tests (args : Args) (work : string) (port : Z) : Probe unit :=
  let addr := "127.0.0.1:" +:+ show_int port in
  let* success := context (fun err => "cannot run the probe tests: " +:+ err)
     (run_status (if host_cargo args then host_cargo_test addr work else toolchain_cargo_test args addr work)) in
  if success then pure tt else throw "the listener probes failed against the image (see the test output above)".

(** ** The steps in order *)

Definition say (line : string) : Probe unit := fun w => (Ok tt, print_line ("fips-runtime-probe: ok: " +:+ line) w).

(** What follows a container that serves: the tests, whose outcome waits for the log to be kept. *)
Definition after_serving (args : Args) (work name : string) (port : Z) : Probe unit :=
  let* _ := say (image args +:+ " serves TLS on 127.0.0.1:" +:+ show_int port +:+ " under PRAXIS_REQUIRE_FIPS=1") in
  fun w =>
    let '(probes, w) := run_probe_tests args work port w in
    (let* lg := logs name in
     let* _ := match log args with
               | Some path => context (fun err => "cannot write " +:+ path +:+ ": " +:+ err) (write_bytes path (as_bytes lg))
               | None => pure tt
               end in
     let* _ := of_result probes in
     let* _ := say "the listener probes passed against the image" in
     let* line := of_result (status_line lg) in
     say line) w.

(** From the container's start to its removal. *)
Definition with_container (fuel : nat) (args : Args) (work : string) (port : Z) (w : World)
  : option (result string unit * World) :=
  match start (image args) work port w with
  | (Err e, w) => Some (Err e, w)
  | (Ok name, w) =>
      match wait_until_serving fuel name port w with
      | None => None
      | Some (Err e, w) => Some (Err e, remove name w)
      | Some (Ok _, w) => let '(r, w) := after_serving args work name port w in Some (r, remove name w)
      end
  end.

Definition prepare (work : string) : Probe Z :=
  let* _ := set_mode work 493 in
  let* _ := generate_certificates work in
  let* _ := write_config work in
  free_port.

Definition probe (fuel : nat) (args : Args) (w : World) : option (result string unit * World) :=
  match temp_dir w with
  | (Err err, w) => Some (Err ("cannot create a temporary directory: " +:+ err), w)
  | (Ok work, w) =>
      match prepare work w with
      | (Err e, w) => Some (Err e, remove_dir work w)
      | (Ok port, w) =>
          match with_container fuel args work port w with
          | None => None
          | Some (r, w) => Some (r, remove_dir work w)
          end
      end
  end.

(** [run]: the exit status. *)
Definition run_probe (fuel : nat) (args : Args) (w : World) : option (Z * World) :=
  match probe fuel args w with
  | None => None
  | Some (Ok _, w) => Some (0, w)
  | Some (Err reason, w) => Some (1, print_line ("fips-runtime-probe: FAIL: " +:+ reason) w)
  end.

(** ** The probe ends, cleans up, and passes only on evidence *)

Lemma and_then_ok {A B} (p : Probe A) (k : A -> Probe B) w b w' :
  and_then p k w = (Ok b, w') -> exists a w1, p w = (Ok a, w1) /\ k a w1 = (Ok b, w').
Proof. unfold and_then. destruct (p w) as [[a|e] w1]; [eauto|done]. Qed.

Lemma status_line_ok log line :
  status_line log = Ok line ->
  exists l, l ∈ str_lines (strip_ansi log) /\ line = trim l /\ contains "installed rustls crypto provider" l = true /\
    Forall (fun field => contains field l = true) status_fields.
Proof.
  unfold status_line. destruct (find_first _ (str_lines _)) as [l|] eqn:Hl; [|done].
  apply find_first_some in Hl as [Hin Hc]. destruct (find_first _ status_fields) eqn:Hf; [done|]. intros [= <-].
  exists l. split_and!; [done..|]. rewrite Forall_forall. intros field Hfield.
  pose proof (proj1 (find_first_none _ _) Hf field Hfield) as Hn. by apply negb_false_iff.
Qed.

(** The line said once the container serves. *)
Definition serving_line (args : Args) (port : Z) : string :=
  image args +:+ " serves TLS on 127.0.0.1:" +:+ show_int port +:+ " under PRAXIS_REQUIRE_FIPS=1".

(** The log [lg] has the startup line with FIPS on both signals. *)
Definition fips_logged (lg : string) : Prop :=
  exists l, l ∈ str_lines (strip_ansi lg) /\ contains "installed rustls crypto provider" l = true /\
    Forall (fun field => contains field l = true) status_fields.

(** What a passing run from [w] has been through: the container started, the wait ended on a
    completed handshake, the tests run next passed, and the log read next reports FIPS. *)
Definition evidence (fuel : nat) (args : Args) (work : string) (port : Z) (w : World) : Prop :=
  exists name w0 w1 w2 w3 w4 lg,
    start (image args) work port w = (Ok name, w0) /\
    wait_until_serving fuel name port w0 = Some (Ok tt, w2) /\ handshake_completes port w1 = (true, w2) /\
    run_probe_tests args work port (print_line ("fips-runtime-probe: ok: " +:+ serving_line args port) w2) = (Ok tt, w3) /\
    logs name w3 = (Ok lg, w4) /\ fips_logged lg.

Lemma served_error_fails why name w w' : served_error why name w <> (Ok tt, w').
Proof. intros He. apply and_then_ok in He as (lg & w1 & _ & [=]). Qed.

Lemma wait_round_done name port deadline w w' :
  wait_round name port deadline w = (Ok (Some tt), w') -> exists w1, handshake_completes port w1 = (true, w').
Proof.
  intros Hw. apply and_then_ok in Hw as ([] & w1 & _ & Hw); cbn [negb] in Hw.
  - apply and_then_ok in Hw as ([] & w2 & _ & Hw); [done|].
    destruct (handshake_completes port w2) as [done w3] eqn:Hh. destruct done; [injection Hw as <-; by exists w2|].
    destruct (deadline <=? now w3); [|done]. apply and_then_ok in Hw as ([] & w4 & Hs & _). by apply served_error_fails in Hs.
  - apply and_then_ok in Hw as ([] & w2 & Hs & _). by apply served_error_fails in Hs.
Qed.

Lemma wait_loop_ok fuel name port deadline : forall w w',
  wait_loop fuel name port deadline w = Some (Ok tt, w') -> exists w1, handshake_completes port w1 = (true, w').
Proof.
  induction fuel as [|f IH]; intros w w'; cbn [wait_loop]; [done|].
  destruct (wait_round name port deadline w) as [[[[]|]|e] w1] eqn:Hr; [|apply IH|done].
  intros [= <-]. by eapply wait_round_done.
Qed.

Lemma after_serving_ok args work name port w w' :
  after_serving args work name port w = (Ok tt, w') ->
  exists w3 w4 lg,
    run_probe_tests args work port (print_line ("fips-runtime-probe: ok: " +:+ serving_line args port) w) = (Ok tt, w3) /\
    logs name w3 = (Ok lg, w4) /\ fips_logged lg.
Proof.
  intros Ha. apply and_then_ok in Ha as (_ & w1 & [= _ <-] & Ha). fold (serving_line args port) in Ha.
  destruct (run_probe_tests args work port _) as [probes w2] eqn:Hp.
  apply and_then_ok in Ha as (lg & w3 & Hl & Ha). apply and_then_ok in Ha as (_ & w4 & _ & Ha).
  apply and_then_ok in Ha as ([] & w5 & [= -> ->] & Ha). apply and_then_ok in Ha as (_ & w6 & _ & Ha).
  apply and_then_ok in Ha as (line & w7 & [= Hs ->] & _). apply status_line_ok in Hs as (l & Hin & _ & Hc & Hf).
  exists w2, w3, lg. split_and!; [done..|by exists l].
Qed.

(** ** Termination *)

(** Time does not run backwards, and sleeping takes at least as long as asked. *)
Class ClockLaws : Prop := {
  now_output c w : now w <= now (run_output c w).2;
  now_sleep ms w : now w + ms <= now (sleep_ms ms w);
  now_tcp port w : now w <= now (tcp_connect port w).2;
  now_tls host port w : now w <= now (tls_connect host port w).2;
}.
Context `{!ClockLaws}.

Definition forward {A} (p : Probe A) : Prop := forall w, now w <= now (p w).2.

Lemma forward_then {A B} (p : Probe A) (k : A -> Probe B) : forward p -> (forall a, forward (k a)) -> forward (and_then p k).
Proof.
  intros Hp Hk w. unfold and_then. specialize (Hp w). destruct (p w) as [[a|e] w1]; cbn in *; [|done].
  specialize (Hk a w1). lia.
Qed.

Lemma forward_pure {A} (a : A) : forward (pure a).
Proof. intros w. cbn. lia. Qed.
Lemma forward_throw {A} e : forward (throw (A := A) e).
Proof. intros w. cbn. lia. Qed.
Lemma forward_output f c : forward (context f (run_output c)).
Proof. intros w. unfold context. pose proof (now_output c w). by destruct (run_output c w). Qed.

Lemma forward_logs name : forward (logs name).
Proof. apply forward_then; [apply forward_output|intros; apply forward_pure]. Qed.
Lemma forward_running name : forward (running name).
Proof. apply forward_then; [apply forward_output|intros; apply forward_pure]. Qed.
Lemma forward_refusal name : forward (refusal name).
Proof. apply forward_then; [apply forward_logs|intros; apply forward_pure]. Qed.

Lemma forward_handshake port w : now w <= now (handshake_completes port w).2.
Proof.
  unfold handshake_completes. pose proof (now_tcp port w). destruct (tcp_connect port w) as [[] w1]; cbn in *; [|done].
  pose proof (now_tls "localhost" port w1). lia.
Qed.

(** A round that asks for another started before the deadline and took 200 milliseconds. *)
Lemma wait_round_again name port deadline w w' :
  wait_round name port deadline w = (Ok None, w') -> now w < deadline /\ now w + 200 <= now w'.
Proof.
  intros Hw. pose proof (forward_running name w) as Ht1. apply and_then_ok in Hw as (up & w1 & Hr & Hw). rewrite Hr in Ht1.
  destruct up; cbn [negb] in Hw; [|apply and_then_ok in Hw as ([] & w2 & Hs & _); by apply served_error_fails in Hs].
  pose proof (forward_refusal name w1) as Ht2. apply and_then_ok in Hw as (refused & w2 & Hf & Hw). rewrite Hf in Ht2.
  destruct refused; [done|]. pose proof (forward_handshake port w2) as Ht3.
  destruct (handshake_completes port w2) as [done w3]. destruct done; [done|]. cbn [snd] in *.
  destruct (Z.leb_spec deadline (now w3)).
  - apply and_then_ok in Hw as ([] & w4 & Hs & _). by apply served_error_fails in Hs.
  - injection Hw as <-. pose proof (now_sleep 200 w3). lia.
Qed.

Lemma wait_loop_ends name port deadline fuel : forall w,
  (0 < fuel)%nat -> deadline - now w <= 200 * (Z.of_nat fuel - 1) ->
  exists r w', wait_loop fuel name port deadline w = Some (r, w').
Proof.
  induction fuel as [|f IH]; intros w Hf Hd; [lia|]. cbn [wait_loop].
  destruct (wait_round name port deadline w) as [[[[]|]|e] w1] eqn:Hr; [eauto| |eauto].
  apply wait_round_again in Hr as [Hn Hs]. apply IH; lia.
Qed.

(** The rounds that fit before the deadline, and the one that meets it. *)
Definition WAIT_ROUNDS : nat := 151.

Lemma with_container_ends args work port w :
  exists r w', with_container WAIT_ROUNDS args work port w = Some (r, w') /\
    (forall name w1, start (image args) work port w = (Ok name, w1) -> exists w2, w' = remove name w2) /\
    (r = Ok tt -> evidence WAIT_ROUNDS args work port w).
Proof.
  unfold with_container, evidence. destruct (start (image args) work port w) as [[name|e] w1]; cycle 1.
  { exists (Err e), w1. split_and!; [done|by intros ? ? [=]|done]. }
  destruct (wait_loop_ends name port (now w1 + STARTUP_DEADLINE) WAIT_ROUNDS w1) as (r & w2 & Hw);
    [unfold WAIT_ROUNDS; lia|unfold STARTUP_DEADLINE, WAIT_ROUNDS; lia|].
  unfold wait_until_serving. rewrite Hw. destruct r as [[]|e]; cycle 1.
  { exists (Err e), (remove name w2). split_and!; [done|intros ? ? [= <- <-]; by eexists|done]. }
  destruct (after_serving args work name port w2) as [r w3] eqn:Ha. exists r, (remove name w3).
  split_and!; [done|intros ? ? [= <- <-]; by eexists|]. intros ->.
  apply after_serving_ok in Ha as (w4 & w5 & lg & Ht & Hl & Hf). pose proof Hw as (wh & Hh)%wait_loop_ok.
  exists name, w1, wh, w2, w4, w5, lg. by split_and!.
Qed.

(** C36. The probe ends: the wait for the container takes at most 151 rounds, so the run has an exit
    status whatever the host does. It is 0 only if a handshake with the container completed, the
    probe tests passed and the container's log has the startup line with FIPS on both signals; and
    a container that was started is removed, with the directory of its files, on every path. *)
Theorem probe_ends_with_evidence args w :
  exists r w', probe WAIT_ROUNDS args w = Some (r, w') /\
    run_probe WAIT_ROUNDS args w =
      Some match r with
           | Ok _ => (0, w')
           | Err reason => (1, print_line ("fips-runtime-probe: FAIL: " +:+ reason) w')
           end /\
    (r = Ok tt -> exists work w1 port w2, temp_dir w = (Ok work, w1) /\ prepare work w1 = (Ok port, w2) /\
       evidence WAIT_ROUNDS args work port w2) /\
    (forall work w1 port w2 name w3,
       temp_dir w = (Ok work, w1) -> prepare work w1 = (Ok port, w2) -> start (image args) work port w2 = (Ok name, w3) ->
       exists w4, w' = remove_dir work (remove name w4)).
Proof.
  assert (Hp : exists r w', probe WAIT_ROUNDS args w = Some (r, w') /\
    (r = Ok tt -> exists work w1 port w2, temp_dir w = (Ok work, w1) /\ prepare work w1 = (Ok port, w2) /\
       evidence WAIT_ROUNDS args work port w2) /\
    (forall work w1 port w2 name w3,
       temp_dir w = (Ok work, w1) -> prepare work w1 = (Ok port, w2) -> start (image args) work port w2 = (Ok name, w3) ->
       exists w4, w' = remove_dir work (remove name w4))).
  { unfold probe. destruct (temp_dir w) as [[work|e] w1]; [|eexists _, _; split_and!; [done..|by intros ? ? ? ? ? ? [=]]].
    destruct (prepare work w1) as [[port|e] w2] eqn:Hpr;
      [|eexists _, _; split_and!; [done..|intros ? ? ? ? ? ? [= <- <-]; congruence]].
    destruct (with_container_ends args work port w2) as (r & w3 & -> & Hrm & Hev). exists r, (remove_dir work w3).
    split_and!; [done|intros Hr; by exists work, w1, port, w2; auto|].
    intros ? ? ? ? name w4 [= <- <-] Hpr' Hst. rewrite Hpr in Hpr'. injection Hpr' as <- <-.
    destruct (Hrm name w4 Hst) as [w5 ->]. eauto. }
  destruct Hp as (r & w' & Hr & Hev & Hrm). exists r, w'. split_and!; [done| |done..].
  unfold run_probe. rewrite Hr. by destruct r.
Qed.
End Probe.

(** ** A host to run it on

    Its state is the clock; the container serves from the second second on. *)

Definition demo_output (text : string) : Output :=
  {| out_success := true; out_status := "exit status: 0"; out_stdout := as_bytes text; out_stderr := [] |}.
Definition demo_log : string :=
  "INFO praxis_extproc::fips: installed rustls crypto provider provider=" +:+ quote +:+ "openssl" +:+ quote +:+
  " provider_fips=true kernel_fips=Some(true) fips_required=true" +:+ nl.

#[export] Instance DemoMachine : Machine := {|
  World := Z;
  run_output := fun c w =>
    (Ok (demo_output (if bool_decide ("logs"%string ∈ cmd_args c) then demo_log else "true")), w);
  run_status := fun _ w => (Ok true, w);
  now := fun w => w;
  sleep_ms := fun ms w => w + ms;
  print_line := fun _ w => w;
  process_id := fun _ => 42;
  temp_dir := fun w => (Ok "/tmp/probe"%string, w);
  remove_dir := fun _ w => w;
  set_permissions := fun _ _ w => (Ok tt, w);
  write_bytes := fun _ _ w => (Ok tt, w);
  bind_any_port := fun w => (Ok 40000, w);
  tcp_connect := fun _ w => (true, w);
  tls_connect := fun _ _ w => (2000 <=? w, w);
  CARGO := "cargo";
  workspace_root := "/workspace";
|}.

#[export] Instance DemoClock : ClockLaws.
Proof. constructor; intros; cbn; lia. Qed.

#[export] Instance DemoCerts : CertTools := {|
  EcGroup := unit; EcKey := nat; PKey := nat; Name := string; Builder := unit; Cert := unit;
  p256_group := Ok tt; ec_generate := fun n _ => Ok n; pkey_from_ec := fun n => Ok n; name_cn := fun s => Ok s;
  builder_new := Ok tt; set_version := fun b _ => Ok b; set_serial := fun b _ => Ok b; set_subject := fun b _ => Ok b;
  set_issuer := fun b _ => Ok b; subject_name := fun _ => "CA"%string; set_pubkey := fun b _ => Ok b;
  set_not_before := fun b _ => Ok b; set_not_after := fun b _ => Ok b; add_ca_constraints := fun b => Ok b;
  add_ca_usage := fun b => Ok b; add_san := fun b _ _ _ => Ok b; add_server_usage := fun b => Ok b;
  sign_sha256 := fun b _ => Ok b; build := fun b => b; cert_pem := fun _ => Ok []; key_pem_pkcs8 := fun _ => Ok [];
|}.

Definition demo_args : Args :=
  {| image := "praxis-extproc-fips"; toolchain_image := "praxis-extproc-fips-toolchain"; host_cargo := false;
     volume_suffix := ""; log := None |}.

Lemma probe_ends_with_evidence_witness :
  run_probe (H := DemoMachine) WAIT_ROUNDS demo_args (0 : Z) = Some (0, 2000 : Z) /\
  exists work w1 port w2, temp_dir (Machine := DemoMachine) (0 : Z) = (Ok work, w1) /\
    prepare (H := DemoMachine) work w1 = (Ok port, w2) /\ evidence (H := DemoMachine) WAIT_ROUNDS demo_args work port w2.
Proof.
  destruct (probe_ends_with_evidence (H := DemoMachine) demo_args (0 : Z)) as (r & w' & Hp & Hr & Hev & _).
  assert (Hq : probe (H := DemoMachine) WAIT_ROUNDS demo_args (0 : Z) = Some (Ok tt, 2000 : Z)) by (vm_compute; reflexivity).
  rewrite Hq in Hp. injection Hp as <- <-. split; [exact Hr|exact (Hev eq_refl)].
Defined.
