(* ===== verification/Xtask.v ===== *)
(** * The developer command ([xtask/src/main.rs] and [xtask/src/fips.rs])

    The dispatch of [cargo xtask fips] to its three tasks, with the exit status and the output
    each leaves. *)

From S2P Require Import Prelude RustStd Text Report Environment Graph Guards Binary.
From S2P Require FipsReport HostCheck RuntimeProbe.

(** ** Commands *)

Inductive FipsTask :=
| Report (args : FipsReport.Args)
| HostCheck (args : HostCheck.Args)
| RuntimeProbe (args : RuntimeProbe.Args).

Inductive XtaskCommand := Fips (args : FipsTask).

Section Xtask.
Context `{HostCheck.HostTools} `{ObjectCrate} `{Workspace} `{RuntimeProbe.Machine} `{!RuntimeProbe.CertTools}.
Variables FIPS_PROVIDER_CNF OPENSSL_NONDEPRECATED_SYMBOLS workspace_root : string.

(** The exit status of a task, and the machine it leaves; the report and the host attestation do
    not touch the container engine. *)
Definition run_task (fuel : nat) (task : FipsTask) (w : RuntimeProbe.World) : option (Z * RuntimeProbe.World) :=
  match task with
  | Report args =>
      Some (FipsReport.exit_status (FipsReport.run_report FIPS_PROVIDER_CNF OPENSSL_NONDEPRECATED_SYMBOLS workspace_root args), w)
  | HostCheck args => Some (HostCheck.run_host_check args, w)
  | RuntimeProbe args => RuntimeProbe.run_probe fuel args w
  end.

Definition xtask_main (fuel : nat) (command : XtaskCommand) (w : RuntimeProbe.World) : option (Z * RuntimeProbe.World) :=
  match command with Fips task => run_task fuel task w end.
End Xtask.
